(* ===== verification/_CoqProject ===== *)
-Q . S2P
Prelude.v
Opcodes.v
Errors.v
Externals.v
Instances.v
Stack.v
Memory.v
Analysis.v
Contract.v
Tracer.v
Machine.v
Gas.v
Instructions.v
JumpTable.v
Precompiles.v
Evm.v
Core.v
Sample.v
EvmLogger.v
CallTracer.v
FlatTracer.v
FourByte.v
AccessList.v
Prestate.v
StructLogger.v
Logic.v
Tables.v
Complete.v
Fuel.v
Quiet.v
StackSafety.v
GasSpec.v
CallGas.v
OpGas.v
CallCost.v
ExecGas.v
Budget.v
Termination.v
Brackets.v
Frame.v
CallFrame.v
Json.v
Marshalling.v
TextLogger.v
Traced.v
Runtime.v
