(* ===== verification/Prelude.v ===== *)
(** * Verification of artela-evm

    artela-evm is a fork of the go-ethereum virtual machine that adds
    "aspects" (join points around contract calls), a journal of state changes
    that contracts write with dedicated opcodes, and a call-tree tracer. This
    library is a shallow embedding of its Go code (under src/) with the
    theorems that make the parts and their composition correct.

    ** Conventions

    Go values are modelled at their width: [u64], [u8], [i64] (this file) are
    the conversions, and every wrap-around of the source is written out. Byte
    slices are lists of integers. A Go call has three outcomes ([res]): it
    returns, it panics with a kind of panic, or (in the model only) it runs out
    of the fuel that stands for unbounded loops and recursion. Stateful code is
    written in the state monad [ST] over these outcomes, with the notations of
    [go_scope]; Go's error results stay values ([option Err]).
    Code outside src/ (uint256, params, crypto, curve libraries, the state
    database, the aspect runtime, abi and JSON encoding, the chain
    configuration) is a type class of Externals.v, Machine.v, EvmLogger.v,
    StructLogger.v, Json.v, TextLogger.v or Runtime.v: the operations are fields
    of [Lib] classes, the documented laws the proofs rely on are the fields of
    [Spec] classes, and Instances.v (with the ends of the other files) gives a
    concrete implementation, so that every hypothesis is satisfiable and the
    witnesses evaluate. A join point gets the machine's logger: the events the
    aspect runtime tells it ([AspectReports] of Machine.v) are a parameter, like
    what the aspects do to the state database and their context.

    ** Parts and files

    - Opcodes.v: vm/opcodes.go. Errors.v: vm/errors.go.
    - Stack.v: vm/stack.go and stack_table.go. Memory.v: vm/memory.go and
      common.go. Analysis.v: vm/analysis.go (JUMPDEST bitmap). Contract.v:
      vm/contract.go with its shared jump-destination caches.
    - Tracer.v: vm/tracer.go, the state-change journal (a heap of keys linked by
      pointers) and the call tree.
    - Machine.v: the mutable state of EVM and EVMInterpreter ([Machine]), the
      frame of a run ([St]) and the primitive actions the opcodes use; the
      interface [EVMCalls] through which opcodes reach the call operations.
    - Gas.v: vm/gas.go, gas_table.go, memory_table.go and operations_acl.go.
      Instructions.v: vm/instructions.go and the opcodes of eips.go.
      JumpTable.v: vm/jump_table.go, eips.go and jump_table_export.go.
      Precompiles.v: vm/contracts.go.
    - Evm.v: vm/interpreter.go (the main loop, [iteration], [loop], [runWith])
      and vm/evm.go (Call, CallCode, DelegateCall, StaticCall, create). [Run]
      ties the recursion between them with fuel.
    - Core.v: core/evm.go (BLOCKHASH provider, transfers, block context).
    - EvmLogger.v: vm/logger.go and tracers/tracers.go (the interfaces
      EVMLogger and Tracer as type classes, [dispatch] and [feed] of events, the
      tracer directory), tracers/native/noop.go and mux.go.
    - CallTracer.v: tracers/native/call.go. FlatTracer.v: call_flat.go.
      FourByte.v: 4byte.go. Prestate.v: prestate.go. AccessList.v:
      tracers/logger/access_list_tracer.go. StructLogger.v: logger.go and
      logger_json.go. TextLogger.v: the text output of logger.go (WriteTrace,
      WriteLogs, the markdown logger). The EVM and its join points emit the
      events of Machine.v ([Event]); a tracer is an instance of the classes and
      is fed each event with the state database of its moment, the runs of
      aspects only if it is an [AspectLogger] as well.
    - Marshalling.v: the generated gen_*_json.go and gen_structlog.go, on the
      JSON value trees and struct-field combinators of Json.v, whose hex codecs
      are a parameter with their laws.
    - Runtime.v: vm/runtime/env.go and runtime.go, which run the EVM of Evm.v;
      the whole block context the runtime fills in ([SetBlockContext]).
    - Sample.v: a concrete chain, contracts and machine for the witnesses.

    ** Theorems

    - Calls (Frame.v, CallFrame.v): a failed call or creation leaves the state
      database as it was (a [Call] with join points off, a creation from
      Homestead on or with another error than [ErrCodeStoreOutOfGas]); static
      calls change no account while join points are off; depth, read-only flag
      and call tree are restored by every run and call, in static contexts too.
      Brackets.v defines the well-bracketed event sequences, and the frame
      condition includes that the logger is told of steps, finished sub-calls
      and finished runs of aspects only, and that the operands of a reported LOG
      are on the stack and name paid memory.
    - Machine and tracers together (Traced.v): the events of every transaction
      are a start, properly nested items and an end, so the call tracer, with
      any configuration, and the flat tracer rebuild the tree of any execution,
      logs and join points included, without panicking. Join points are off, or
      the aspects report their runs from start to end and make no calls of their
      own: on such a call the call tracer panics ([aspect_subcall_panics]).
    - Termination and gas (GasSpec.v, CallGas.v, OpGas.v, CallCost.v, ExecGas.v,
      Budget.v, Termination.v): from EIP-150 on every operation of every table
      charges one unit more than it forwards, hence every run returns with no
      more gas than it got, if the aspects do, and memory is paid for at the
      quadratic price. Before EIP-150 an EIP-2929 table can create gas
      ([gas_wraps_before_eip150]).
      Tables.v is the induction principle over the instruction sets these
      proofs share; Fuel.v proves that fuel is not observable.
    - Tables (Complete.v): the table of every interpreter has all 256 entries
      set, for any rules and extra EIPs, and is priced wherever it sizes memory.
    - Stack (StackSafety.v, Quiet.v): no opcode, gas or memory-size function
      indexes the operand stack out of range, and its height is bounded, at
      every fork and with any extra EIPs from Constantinople on; EIP-2929 on an
      earlier fork always breaks this.
    - Components: the JUMPDEST bitmap against the definition of instruction
      starts, memory round trips, memory-size and call-gas arithmetic, the
      journal and the call tree, opcode names, BLOCKHASH, transfers.
    - Tracers, proved against the interface classes: the multiplexer is its
      tracers side by side, as far as they are told of (aspects are not
      forwarded); the stack machine of the call tracer computes the call tree of
      a bracketed execution, the flat tracer keeps that tree without the calls
      of precompiles and lists it in pre-order, under distinct addresses if the
      join points are recorded in order; the logs of failed calls are dropped at
      the end of the transaction; the pre-state tracer records what the
      transaction first saw, its own start taken back, and, in diff mode,
      exactly the changes; the access-list tracer collects the touched
      accounts and slots, round-trips through types.AccessList and compares
      correctly; the four-byte tracer counts; the structured logger keeps one
      entry per step up to its limit; the markdown logger writes a row per step.
    - JSON (Marshalling.v): what every result type keeps when it is written and
      read back: all of an account, action or result; all but the types of a
      call tree; all but the storage and the error of a log entry.
    - Runtime: its entry points terminate and return at most the gas limit.
    Logic.v holds the shared reasoning about [ST] computations and tables.

    ** Fuel and bounds

    [Run] uses one unit of fuel per iteration and per nested call. Termination
    proves that [Gas + 2] units suffice and that more change nothing. The other
    loops carry fuel computed from their input (the length of the code, the
    width of a push, the distance to an ancestor block), proved sufficient where
    it matters: [codeBitmap_correct], [GetHashFn_correct], [memoryWords_all].

    ** Not modelled

    The text of JSON documents (the trees are modelled, not their syntax) and
    accessors that only return a field. Go map
    iteration is modelled in one order (that of [map_to_list]); the theorems on
    the tracers' maps describe the results by lookup, independently of it. The
    arithmetic of the precompiled curves and hashes is
    external. The goroutine that calls [Cancel] is modelled by the load at
    which the abort flag becomes visible ([cancelAt]). sync.Pool and the
    copying of byte slices are not observable in the model. *)

From Stdlib Require Export ZArith Lia.
From stdpp Require Export base list gmap strings option pretty.

#[global] Open Scope Z_scope.

(** * Machine integers *)

(** Go's [uint64] arithmetic: every result is reduced modulo 2^64. *)
Definition u64 (z : Z) : Z := z mod 2 ^ 64.
(** Go's [byte]/[uint8] and [uint16] conversions. *)
Definition u8 (z : Z) : Z := z mod 2 ^ 8.
Definition u16 (z : Z) : Z := z mod 2 ^ 16.
(** Conversions to a signed type keep the low bits. *)
Definition i8 (z : Z) : Z := (z + 2 ^ 7) mod 2 ^ 8 - 2 ^ 7.
Definition i64 (z : Z) : Z := (z + 2 ^ 63) mod 2 ^ 64 - 2 ^ 63.

Definition MaxUint64 : Z := 2 ^ 64 - 1.

Definition is_u64 (z : Z) : Prop := 0 <= z < 2 ^ 64.
Definition is_byte (z : Z) : Prop := 0 <= z < 2 ^ 8.

(** * Byte strings

    [[]byte], [common.Address] ([20]byte) and [common.Hash] ([32]byte) are
    lists of integers in [[0, 256)]. *)
Abbreviation bytes := (list Z).
Abbreviation Address := (list Z).
Abbreviation Hash := (list Z).

Definition len {A} (l : list A) : Z := Z.of_nat (length l).

(** Big-endian value of a byte string, and its inverse on [n] bytes. *)
Definition be_value (b : bytes) : Z := foldl (fun acc x => acc * 256 + x) 0 b.
Fixpoint to_be (n : nat) (z : Z) : bytes :=
  match n with
  | O => []
  | S n' => to_be n' (z / 256) ++ [z mod 256]
  end.

Definition zeros (n : Z) : bytes := replicate (Z.to_nat n) 0.
(** [common.Hash{}] and [common.Address{}]. *)
Definition zeroHash : Hash := zeros 32.
Definition zeroAddress : Address := zeros 20.

Definition bytes_eqb (a b : bytes) : bool := bool_decide (a = b).

(** * Outcomes

    A Go call returns, panics, or (in the model only) exhausts the recursion
    fuel that stands for the unbounded [for] loops and call recursion. *)
Inductive panic :=
  | StackIndex          (* index out of range on the operand stack *)
  | IndexRange          (* index out of range on another slice *)
  | SliceBounds         (* slice bounds out of range *)
  | MakeSlice           (* makeslice: len out of range *)
  | NilDeref            (* nil pointer dereference *)
  | Explicit (msg : string).

Inductive res (A : Type) : Type :=
  | Ret (a : A)
  | Panicked (p : panic)
  | OutOfFuel.
Arguments Ret {A} a.
Arguments Panicked {A} p.
Arguments OutOfFuel {A}.

Definition rbind {A B} (r : res A) (k : A -> res B) : res B :=
  match r with
  | Ret a => k a
  | Panicked p => Panicked p
  | OutOfFuel => OutOfFuel
  end.

Definition is_Ret {A} (r : res A) : Prop := exists a, r = Ret a.

(** State passing over outcomes. *)
Definition ST (S A : Type) : Type := S -> res (A * S).

Definition ret {S A} (a : A) : ST S A := fun s => Ret (a, s).
Definition bind {S A B} (m : ST S A) (k : A -> ST S B) : ST S B :=
  fun s => match m s with
           | Ret (a, s') => k a s'
           | Panicked p => Panicked p
           | OutOfFuel => OutOfFuel
           end.
Definition gets {S A} (f : S -> A) : ST S A := fun s => Ret (f s, s).
Definition modify {S} (f : S -> S) : ST S unit := fun s => Ret (tt, f s).
Definition liftR {S A} (r : res A) : ST S A :=
  fun s => rbind r (fun a => Ret (a, s)).
(** Run a computation on a part of the state. *)
Definition zoom {S T A} (get : S -> T) (put : T -> S -> S) (m : ST T A) : ST S A :=
  fun s => match m (get s) with
           | Ret (a, t) => Ret (a, put t s)
           | Panicked p => Panicked p
           | OutOfFuel => OutOfFuel
           end.

Declare Scope go_scope.
Delimit Scope go_scope with go.
Notation "'let?' x ':=' r 'in' k" := (rbind r (fun x => k))
  (at level 10, x pattern, r at level 100, k at level 200) : go_scope.
Notation "'let*' x ':=' m 'in' k" := (bind m (fun x => k))
  (at level 10, x pattern, m at level 100, k at level 200) : go_scope.
Notation "m ';;;' k" := (bind m (fun _ => k))
  (at level 100, right associativity) : go_scope.
#[global] Open Scope go_scope.

(** * Slices *)

(** [l[i]] *)
Definition index {A} (l : list A) (i : Z) : res A :=
  if (0 <=? i) && (i <? len l) then
    match l !! Z.to_nat i with Some x => Ret x | None => Panicked IndexRange end
  else Panicked IndexRange.

(** [l[i] = x] *)
Definition index_set {A} (l : list A) (i : Z) (x : A) : res (list A) :=
  if (0 <=? i) && (i <? len l) then Ret (<[Z.to_nat i := x]> l)
  else Panicked IndexRange.

(** [l[lo:hi]] on a slice of capacity [cap]: the bytes between the length and
    the capacity of the byte slices of this program are zero. *)
Definition slice_cap (cap : Z) (l : bytes) (lo hi : Z) : res bytes :=
  if (0 <=? lo) && (lo <=? hi) && (hi <=? cap) then
    Ret (take (Z.to_nat (hi - lo))
           (drop (Z.to_nat lo) (l ++ zeros (hi - len l))))
  else Panicked SliceBounds.

(** [l[lo:hi]] where the capacity is the length. *)
Definition slice (l : bytes) (lo hi : Z) : res bytes := slice_cap (len l) l lo hi.

(** [copy(dst[off:], src)]: writes [min(len(dst)-off, len(src))] bytes. *)
Definition copy_at (dst : bytes) (off : Z) (src : bytes) : bytes :=
  let o := Z.to_nat off in
  take o dst ++ take (length dst - o) src ++ drop (o + length src) dst.

(** * Shared lemmas *)

Lemma len_cons {A} (x : A) l : len (x :: l) = len l + 1.
Proof. unfold len. cbn [length]. lia. Qed.

Lemma len_nonneg {A} (l : list A) : 0 <= len l.
Proof. unfold len. lia. Qed.

Lemma len_app {A} (l k : list A) : len (l ++ k) = len l + len k.
Proof. unfold len. rewrite length_app. lia. Qed.

Lemma len_zeros n : 0 <= n -> len (zeros n) = n.
Proof. intros. unfold len, zeros. rewrite length_replicate. lia. Qed.

Lemma len_zeros_neg n : n <= 0 -> zeros n = [].
Proof. intros. unfold zeros. by replace (Z.to_nat n) with 0%nat by lia. Qed.

Lemma len_take {A} n (l : list A) : 0 <= n <= len l -> len (take (Z.to_nat n) l) = n.
Proof. unfold len. intros. rewrite length_take. lia. Qed.

Lemma len_drop {A} n (l : list A) : 0 <= n <= len l -> len (drop (Z.to_nat n) l) = len l - n.
Proof. unfold len. intros. rewrite length_drop. lia. Qed.

Lemma u64_small z : is_u64 z -> u64 z = z.
Proof. apply Z.mod_small. Qed.

Lemma u64_range z : is_u64 (u64 z).
Proof. apply Z.mod_pos_bound. lia. Qed.

Lemma u8_small z : 0 <= z < 2 ^ 8 -> u8 z = z.
Proof. apply Z.mod_small. Qed.
Lemma i64_range z : - 2 ^ 63 <= i64 z < 2 ^ 63.
Proof. unfold i64. pose proof (Z.mod_pos_bound (z + 2 ^ 63) (2 ^ 64)). lia. Qed.
Lemma i64_small z : 0 <= z < 2 ^ 63 -> i64 z = z.
Proof. intros. unfold i64. rewrite Z.mod_small; lia. Qed.

(** A slice inside the length is the corresponding segment of the list. *)
Lemma slice_cap_inside cap l lo hi :
  0 <= lo <= hi -> hi <= len l -> len l <= cap ->
  slice_cap cap l lo hi = Ret (take (Z.to_nat (hi - lo)) (drop (Z.to_nat lo) l)).
Proof.
  intros H1 H2 H3. unfold slice_cap.
  rewrite (proj2 (Z.leb_le 0 lo)), (proj2 (Z.leb_le lo hi)), (proj2 (Z.leb_le hi cap)) by lia.
  cbn [andb]. rewrite len_zeros_neg by lia. by rewrite app_nil_r.
Qed.

Lemma slice_inside l lo hi :
  0 <= lo <= hi -> hi <= len l ->
  slice l lo hi = Ret (take (Z.to_nat (hi - lo)) (drop (Z.to_nat lo) l)).
Proof. intros. by apply slice_cap_inside. Qed.

Lemma index_lookup {A} (l : list A) i x :
  0 <= i -> l !! Z.to_nat i = Some x -> index l i = Ret x.
Proof.
  intros Hi Hx. unfold index. pose proof (lookup_lt_Some _ _ _ Hx). unfold len.
  rewrite (proj2 (Z.leb_le _ _)), (proj2 (Z.ltb_lt _ _)) by lia. cbn [andb]. by rewrite Hx.
Qed.

Lemma index_set_inside {A} (l : list A) i x :
  0 <= i < len l -> index_set l i x = Ret (<[Z.to_nat i := x]> l).
Proof.
  intros. unfold index_set.
  by rewrite (proj2 (Z.leb_le _ _)), (proj2 (Z.ltb_lt _ _)) by lia.
Qed.

(** Reduce boolean tests whose truth follows by arithmetic. *)
Ltac zbool :=
  repeat match goal with
  | |- context [?a <=? ?b] =>
      first [rewrite (proj2 (Z.leb_le a b)) by lia | rewrite (proj2 (Z.leb_gt a b)) by lia]
  | |- context [?a <? ?b] =>
      first [rewrite (proj2 (Z.ltb_lt a b)) by lia | rewrite (proj2 (Z.ltb_ge a b)) by lia]
  | |- context [?a =? ?b] =>
      first [rewrite (proj2 (Z.eqb_eq a b)) by lia | rewrite (proj2 (Z.eqb_neq a b)) by lia]
  end.
(** Turn boolean tests in the context into propositions. *)
Ltac zprop :=
  repeat match goal with
  | H : _ && _ = true |- _ => apply andb_true_iff in H as [? ?]
  | H : _ || _ = false |- _ => apply orb_false_iff in H as [? ?]
  | H : negb _ = true |- _ => apply negb_true_iff in H
  | H : negb _ = false |- _ => apply negb_false_iff in H
  | H : (_ <=? _) = true |- _ => apply Z.leb_le in H
  | H : (_ <=? _) = false |- _ => apply Z.leb_gt in H
  | H : (_ <? _) = true |- _ => apply Z.ltb_lt in H
  | H : (_ <? _) = false |- _ => apply Z.ltb_ge in H
  | H : (_ =? _) = true |- _ => apply Z.eqb_eq in H
  | H : (_ =? _) = false |- _ => apply Z.eqb_neq in H
  end.

(** * Lemmas on big-endian encodings *)

Lemma to_be_length n z : length (to_be n z) = n.
Proof.
  revert z; induction n as [|n IH]; intros z; [done|].
  cbn [to_be]. rewrite length_app, IH. cbn. lia.
Qed.

Lemma be_value_snoc b x : be_value (b ++ [x]) = be_value b * 256 + x.
Proof. unfold be_value. by rewrite foldl_app. Qed.

Lemma be_value_to_be n z : be_value (to_be n z) = z mod 2 ^ (8 * Z.of_nat n).
Proof.
  revert z; induction n as [|n IH]; intros z; [by rewrite Z.mod_1_r|].
  cbn [to_be]. rewrite be_value_snoc, IH.
  replace (8 * Z.of_nat (S n)) with (8 + 8 * Z.of_nat n) by lia.
  rewrite Z.pow_add_r by lia. change (2 ^ 8) with 256.
  rewrite Z.rem_mul_r by lia. lia.
Qed.

Lemma to_be_byte n z : Forall is_byte (to_be n z).
Proof.
  revert z; induction n as [|n IH]; intros z; [constructor|].
  cbn [to_be]. apply Forall_app; split; [apply IH|].
  constructor; [|constructor]. unfold is_byte. change (2 ^ 8) with 256.
  apply Z.mod_pos_bound; lia.
Qed.

Lemma be_value_range b : Forall is_byte b -> 0 <= be_value b < 2 ^ (8 * len b).
Proof.
  induction b as [|x b IH] using rev_ind; intros Hb; [change (0 <= 0 < 1); lia|].
  apply Forall_app in Hb as [Hb Hx]. apply Forall_inv in Hx.
  specialize (IH Hb). rewrite be_value_snoc. unfold len in *.
  rewrite length_app. cbn [length]. unfold is_byte in Hx.
  replace (8 * Z.of_nat (length b + 1)) with (8 * Z.of_nat (length b) + 8) by lia.
  rewrite Z.pow_add_r by lia. change (2 ^ 8) with 256 in *. nia.
Qed.
