(* ===== verification/Errors.v ===== *)
(** The error values of the virtual machine (vm/errors.go).

    Go compares errors by identity with the sentinel variables, and twice (in
    [EVM.Call]) by message; [Err] is the type of error values, [Error] the
    message of each one. *)
From S2P Require Import Prelude Opcodes.

Inductive Err :=
  | ErrOutOfGas
  | ErrCodeStoreOutOfGas
  | ErrDepth
  | ErrInsufficientBalance
  | ErrContractAddressCollision
  | ErrExecutionReverted
  | ErrMaxInitCodeSizeExceeded
  | ErrMaxCodeSizeExceeded
  | ErrInvalidJump
  | ErrWriteProtection
  | ErrReturnDataOutOfBounds
  | ErrGasUintOverflow
  | ErrInvalidCode
  | ErrNonceUintOverflow
  | errStopToken
  | ErrStackUnderflow (stackLen required : Z)
  | ErrStackOverflow (stackLen limit : Z)
  | ErrInvalidOpCode (opcode : OpCode)
  | errNew (msg : string).            (* a fresh [errors.New(msg)] value *)

#[global] Instance Err_eq_dec : EqDecision Err.
Proof. solve_decision. Defined.

(** [err == e] for an [error] variable, where [nil] is [None]. *)
Definition err_is (err : option Err) (e : Err) : bool := bool_decide (err = Some e).
Definition is_nil (err : option Err) : bool :=
  match err with None => true | Some _ => false end.

(** The [Error()] methods and the [errors.New] messages. *)
Definition Error (e : Err) : string :=
  match e with
  | ErrOutOfGas => "out of gas"
  | ErrCodeStoreOutOfGas => "contract creation code storage out of gas"
  | ErrDepth => "max call depth exceeded"
  | ErrInsufficientBalance => "insufficient balance for transfer"
  | ErrContractAddressCollision => "contract address collision"
  | ErrExecutionReverted => "execution reverted"
  | ErrMaxInitCodeSizeExceeded => "max initcode size exceeded"
  | ErrMaxCodeSizeExceeded => "max code size exceeded"
  | ErrInvalidJump => "invalid jump destination"
  | ErrWriteProtection => "write protection"
  | ErrReturnDataOutOfBounds => "return data out of bounds"
  | ErrGasUintOverflow => "gas uint64 overflow"
  | ErrInvalidCode => "invalid code: must not begin with 0xef"
  | ErrNonceUintOverflow => "nonce uint64 overflow"
  | errStopToken => "stop token"
  | ErrStackUnderflow l r =>
      "stack underflow (" +:+ pretty l +:+ " <=> " +:+ pretty r +:+ ")"
  | ErrStackOverflow l r =>
      "stack limit reached " +:+ pretty l +:+ " (" +:+ pretty r +:+ ")"
  | ErrInvalidOpCode op => "invalid opcode: " +:+ OpCode_String op
  | errNew msg => msg
  end.
