(* ===== verification/Externals.v ===== *)
(** The code this repository calls and does not contain, as parameters.

    Each Go package or interface is a module with a class of its operations
    (a parameter of every definition that uses it) and, where a theorem relies
    on documented behaviour of the package, a second class [Spec] whose fields
    are that documentation. [Instances.v] gives concrete implementations of
    all of them and proves every [Spec]. *)
From S2P Require Import Prelude Opcodes Errors.

(** The Go runtime's growth policy: [append] chooses a capacity that is large
    enough, and [make] panics above an allocation limit. *)
Module runtime.
Class Lib := {
  append_cap : Z -> Z -> Z;       (* old capacity, needed length *)
  maxAlloc : Z;
}.
Class Spec `{Lib} : Prop := {
  append_cap_enough : forall c n, n <= append_cap c n;
  maxAlloc_range : 2 ^ 38 <= maxAlloc < 2 ^ 63;
}.
End runtime.

(** [github.com/holiman/uint256]. A value method with a pointer receiver is a
    function of its operands; [toZ] is the integer the four limbs represent. *)
Module uint256.
Class Lib := {
  Int : Type;
  Int_eq_dec :: EqDecision Int;
  Int_countable :: Countable Int;
  toZ : Int -> Z;
  NewInt : Z -> Int;                 (* NewInt, SetUint64 *)
  Add : Int -> Int -> Int;
  Sub : Int -> Int -> Int;
  Mul : Int -> Int -> Int;
  Div : Int -> Int -> Int;
  SDiv : Int -> Int -> Int;
  Mod : Int -> Int -> Int;
  SMod : Int -> Int -> Int;
  Exp : Int -> Int -> Int;
  ExtendSign : Int -> Int -> Int;    (* x, byteNum *)
  AddMod : Int -> Int -> Int -> Int;
  MulMod : Int -> Int -> Int -> Int;
  Not : Int -> Int;
  And : Int -> Int -> Int;
  Or : Int -> Int -> Int;
  Xor : Int -> Int -> Int;
  Byte : Int -> Int -> Int;          (* z, n *)
  Lsh : Int -> Z -> Int;
  Rsh : Int -> Z -> Int;
  SRsh : Int -> Z -> Int;
  Lt : Int -> Int -> bool;
  Gt : Int -> Int -> bool;
  Slt : Int -> Int -> bool;
  Sgt : Int -> Int -> bool;
  Eq : Int -> Int -> bool;
  IsZero : Int -> bool;
  Sign : Int -> Z;
  BitLen : Int -> Z;
  IsUint64 : Int -> bool;
  Uint64 : Int -> Z;
  Uint64WithOverflow : Int -> Z * bool;
  LtUint64 : Int -> Z -> bool;
  GtUint64 : Int -> Z -> bool;
  SetOne : Int;
  Clear : Int;
  SetAllOne : Int;
  SetBytes : bytes -> Int;
  Bytes : Int -> bytes;
  Bytes_cap : Int -> Z;              (* capacity of the slice [Bytes] returns *)
  Bytes20 : Int -> Address;
  Bytes32 : Int -> Hash;
  FromBig : Z -> Int * bool;
  MustFromBig : Z -> option Int;     (* [None]: panics on overflow *)
  ToBig : Int -> Z;
}.

(** Two's complement reading of a 256-bit value. *)
Definition signed (z : Z) : Z := if z <? 2 ^ 255 then z else z - 2 ^ 256.

Class Spec `{Lib} : Prop := {
  toZ_range : forall x, 0 <= toZ x < 2 ^ 256;
  toZ_inj : forall x y, toZ x = toZ y -> x = y;
  NewInt_spec : forall z, is_u64 z -> toZ (NewInt z) = z;
  Add_spec : forall x y, toZ (Add x y) = (toZ x + toZ y) mod 2 ^ 256;
  Sub_spec : forall x y, toZ (Sub x y) = (toZ x - toZ y) mod 2 ^ 256;
  Mul_spec : forall x y, toZ (Mul x y) = (toZ x * toZ y) mod 2 ^ 256;
  Div_spec : forall x y,
    toZ (Div x y) = if toZ y =? 0 then 0 else toZ x / toZ y;
  SDiv_spec : forall x y,
    toZ (SDiv x y) = if toZ y =? 0 then 0
                     else Z.quot (signed (toZ x)) (signed (toZ y)) mod 2 ^ 256;
  Mod_spec : forall x y,
    toZ (Mod x y) = if toZ y =? 0 then 0 else toZ x mod toZ y;
  SMod_spec : forall x y,
    toZ (SMod x y) = if toZ y =? 0 then 0
                     else Z.rem (signed (toZ x)) (signed (toZ y)) mod 2 ^ 256;
  Exp_spec : forall x y, toZ (Exp x y) = (toZ x ^ toZ y) mod 2 ^ 256;
  AddMod_spec : forall x y m, toZ m <> 0 ->
    toZ (AddMod x y m) = (toZ x + toZ y) mod toZ m;
  MulMod_spec : forall x y m,
    toZ (MulMod x y m) = if toZ m =? 0 then 0 else (toZ x * toZ y) mod toZ m;
  Not_spec : forall x, toZ (Not x) = 2 ^ 256 - 1 - toZ x;
  And_spec : forall x y, toZ (And x y) = Z.land (toZ x) (toZ y);
  Or_spec : forall x y, toZ (Or x y) = Z.lor (toZ x) (toZ y);
  Xor_spec : forall x y, toZ (Xor x y) = Z.lxor (toZ x) (toZ y);
  ExtendSign_spec : forall x b,
    toZ (ExtendSign x b) =
      if 30 <? toZ b then toZ x
      else let n := toZ b * 8 + 8 in
           let low := toZ x mod 2 ^ n in
           (if low <? 2 ^ (n - 1) then low else low - 2 ^ n) mod 2 ^ 256;
  Byte_spec : forall z n,
    toZ (Byte z n) = if toZ n <? 32 then Z.shiftr (toZ z) (8 * (31 - toZ n)) mod 256
                     else 0;
  Lsh_spec : forall x n, 0 <= n -> toZ (Lsh x n) = Z.shiftl (toZ x) n mod 2 ^ 256;
  Rsh_spec : forall x n, 0 <= n -> toZ (Rsh x n) = Z.shiftr (toZ x) n;
  SRsh_spec : forall x n, 0 <= n ->
    toZ (SRsh x n) = Z.shiftr (signed (toZ x)) n mod 2 ^ 256;
  Lt_spec : forall x y, Lt x y = (toZ x <? toZ y);
  Gt_spec : forall x y, Gt x y = (toZ y <? toZ x);
  Slt_spec : forall x y, Slt x y = (signed (toZ x) <? signed (toZ y));
  Sgt_spec : forall x y, Sgt x y = (signed (toZ y) <? signed (toZ x));
  Eq_spec : forall x y, Eq x y = (toZ x =? toZ y);
  IsZero_spec : forall x, IsZero x = (toZ x =? 0);
  Sign_spec : forall x, Sign x = Z.sgn (signed (toZ x));
  BitLen_spec : forall x,
    BitLen x = if toZ x =? 0 then 0 else Z.log2 (toZ x) + 1;
  IsUint64_spec : forall x, IsUint64 x = (toZ x <? 2 ^ 64);
  Uint64_spec : forall x, Uint64 x = toZ x mod 2 ^ 64;
  Uint64WithOverflow_spec : forall x,
    Uint64WithOverflow x = (toZ x mod 2 ^ 64, 2 ^ 64 <=? toZ x);
  LtUint64_spec : forall x n, is_u64 n -> LtUint64 x n = (toZ x <? n);
  GtUint64_spec : forall x n, is_u64 n -> GtUint64 x n = (n <? toZ x);
  SetOne_spec : toZ SetOne = 1;
  Clear_spec : toZ Clear = 0;
  SetAllOne_spec : toZ SetAllOne = 2 ^ 256 - 1;
  SetBytes_spec : forall b, Forall is_byte b -> len b <= 32 ->
    toZ (SetBytes b) = be_value b;
  Bytes_spec : forall x,
    Bytes x = to_be (Z.to_nat ((BitLen x + 7) / 8)) (toZ x);
  Bytes_cap_spec : forall x, len (Bytes x) <= Bytes_cap x;
  Bytes20_spec : forall x, Bytes20 x = to_be 20 (toZ x mod 2 ^ 160);
  Bytes32_spec : forall x, Bytes32 x = to_be 32 (toZ x);
  FromBig_spec : forall z, 0 <= z ->
    toZ (FromBig z).1 = z mod 2 ^ 256 /\ (FromBig z).2 = (2 ^ 256 <=? z);
  MustFromBig_spec : forall z, 0 <= z < 2 ^ 256 ->
    exists x, MustFromBig z = Some x /\ toZ x = z;
  ToBig_spec : forall x, ToBig x = toZ x;
}.
End uint256.
#[global] Existing Instances uint256.Int_eq_dec uint256.Int_countable.

(** [github.com/ethereum/go-ethereum/common] *)
Module common.
Class Lib := {
  RightPadBytes : bytes -> Z -> bytes;
  LeftPadBytes : bytes -> Z -> bytes;
  BytesToAddress : bytes -> Address;
  BytesToHash : bytes -> Hash;       (* BytesToHash, Hash.SetBytes, Address.Hash *)
}.
Class Spec `{Lib} : Prop := {
  RightPadBytes_spec : forall b l,
    RightPadBytes b l = b ++ zeros (l - len b);
  LeftPadBytes_spec : forall b l,
    LeftPadBytes b l = zeros (l - len b) ++ b;
  BytesToAddress_short : forall b, len b <= 20 ->
    BytesToAddress b = zeros (20 - len b) ++ b;
  BytesToHash_short : forall b, len b <= 32 ->
    BytesToHash b = zeros (32 - len b) ++ b;
}.
End common.

(** [github.com/ethereum/go-ethereum/common/math] *)
Module math.
Class Lib := {
  SafeAdd : Z -> Z -> Z * bool;
  SafeMul : Z -> Z -> Z * bool;
}.
Class Spec `{Lib} : Prop := {
  SafeAdd_spec : forall x y, is_u64 x -> is_u64 y ->
    SafeAdd x y = ((x + y) mod 2 ^ 64, 2 ^ 64 <=? x + y);
  SafeMul_spec : forall x y, is_u64 x -> is_u64 y ->
    SafeMul x y = ((x * y) mod 2 ^ 64, 2 ^ 64 <=? x * y);
}.
End math.

(** [github.com/ethereum/go-ethereum/crypto] and the hashes it wraps. *)
Module crypto.
Class Lib := {
  Keccak256 : bytes -> Hash;
  CreateAddress : Address -> Z -> Address;
  CreateAddress2 : Address -> Hash -> bytes -> Address;
  ValidateSignatureValues : Z -> Z -> Z -> bool -> bool;   (* v, r, s, homestead *)
  Ecrecover : bytes -> bytes -> bytes * option Err;        (* hash, sig *)
  sha256_Sum256 : bytes -> bytes;
  ripemd160_Sum : bytes -> bytes;
  (* rounds, h, m, t, final *)
  blake2b_F : Z -> list Z -> list Z -> list Z -> bool -> list Z;
}.
Class Spec `{Lib} : Prop := {
  Keccak256_len : forall b, length (Keccak256 b) = 32%nat;
}.
End crypto.

(** [crypto/bn256] and [crypto/bls12381]: the pairing-friendly curves. *)
Module bn256.
Class Lib := {
  G1 : Type;
  G2 : Type;
  UnmarshalG1 : bytes -> G1 + Err;
  UnmarshalG2 : bytes -> G2 + Err;
  Add : G1 -> G1 -> G1;
  ScalarMult : G1 -> Z -> G1;
  Marshal : G1 -> bytes;
  PairingCheck : list G1 -> list G2 -> bool;
}.
End bn256.

Module bls12381.
(** The operations of the [G1] and [G2] objects, at point type [P]. *)
Record Group (P : Type) := {
  DecodePoint : bytes -> P + Err;
  EncodePoint : P -> bytes;
  Add : P -> P -> P;
  MulScalar : P -> Z -> P;
  MultiExp : list P -> list Z -> P * option Err;
  MapToCurve : bytes -> P + Err;
  InCorrectSubgroup : P -> bool;
}.
Arguments DecodePoint {P}.
Arguments EncodePoint {P}.
Arguments Add {P}.
Arguments MulScalar {P}.
Arguments MultiExp {P}.
Arguments MapToCurve {P}.
Arguments InCorrectSubgroup {P}.

Class Lib := {
  PointG1 : Type;
  PointG2 : Type;
  NewG1 : Group PointG1;
  NewG2 : Group PointG2;
  Check : list (PointG1 * PointG2) -> bool;   (* the pairing engine's check *)
}.
End bls12381.

(** The protocol constants of [github.com/ethereum/go-ethereum/params]. *)
Module params.
Class Lib := {
  BalanceGasEIP150 : Z;
  BalanceGasEIP1884 : Z;
  BalanceGasFrontier : Z;
  CallCreateDepth : Z;
  CallGasEIP150 : Z;
  CallGasFrontier : Z;
  CallNewAccountGas : Z;
  CallStipend : Z;
  CallValueTransferGas : Z;
  ColdAccountAccessCostEIP2929 : Z;
  ColdSloadCostEIP2929 : Z;
  CopyGas : Z;
  Create2Gas : Z;
  CreateBySelfdestructGas : Z;
  CreateDataGas : Z;
  CreateGas : Z;
  ExpByteEIP158 : Z;
  ExpByteFrontier : Z;
  ExpGas : Z;
  ExtcodeCopyBaseEIP150 : Z;
  ExtcodeCopyBaseFrontier : Z;
  ExtcodeHashGasConstantinople : Z;
  ExtcodeHashGasEIP1884 : Z;
  ExtcodeSizeGasEIP150 : Z;
  ExtcodeSizeGasFrontier : Z;
  InitCodeWordGas : Z;
  JumpdestGas : Z;
  Keccak256Gas : Z;
  Keccak256WordGas : Z;
  LogDataGas : Z;
  LogGas : Z;
  LogTopicGas : Z;
  MaxCodeSize : Z;
  MaxInitCodeSize : Z;
  MemoryGas : Z;
  NetSstoreCleanGas : Z;
  NetSstoreClearRefund : Z;
  NetSstoreDirtyGas : Z;
  NetSstoreInitGas : Z;
  NetSstoreNoopGas : Z;
  NetSstoreResetClearRefund : Z;
  NetSstoreResetRefund : Z;
  QuadCoeffDiv : Z;
  SelfdestructGasEIP150 : Z;
  SelfdestructRefundGas : Z;
  SloadGasEIP150 : Z;
  SloadGasEIP1884 : Z;
  SloadGasEIP2200 : Z;
  SloadGasFrontier : Z;
  SstoreClearGas : Z;
  SstoreClearsScheduleRefundEIP2200 : Z;
  SstoreClearsScheduleRefundEIP3529 : Z;
  SstoreRefundGas : Z;
  SstoreResetGas : Z;
  SstoreResetGasEIP2200 : Z;
  SstoreSentryGasEIP2200 : Z;
  SstoreSetGas : Z;
  SstoreSetGasEIP2200 : Z;
  StackLimit : Z;
  WarmStorageReadCostEIP2929 : Z;
  EcrecoverGas : Z;
  Sha256BaseGas : Z;
  Sha256PerWordGas : Z;
  Ripemd160BaseGas : Z;
  Ripemd160PerWordGas : Z;
  IdentityBaseGas : Z;
  IdentityPerWordGas : Z;
  Bn256AddGasByzantium : Z;
  Bn256AddGasIstanbul : Z;
  Bn256ScalarMulGasByzantium : Z;
  Bn256ScalarMulGasIstanbul : Z;
  Bn256PairingBaseGasByzantium : Z;
  Bn256PairingBaseGasIstanbul : Z;
  Bn256PairingPerPointGasByzantium : Z;
  Bn256PairingPerPointGasIstanbul : Z;
  Bls12381G1AddGas : Z;
  Bls12381G1MulGas : Z;
  Bls12381G2AddGas : Z;
  Bls12381G2MulGas : Z;
  Bls12381PairingBaseGas : Z;
  Bls12381PairingPerPairGas : Z;
  Bls12381MapG1Gas : Z;
  Bls12381MapG2Gas : Z;
  Bls12381MultiExpDiscountTable : list Z;
}.

(** The values go-ethereum documents in [params/protocol_params.go]. *)
Class Spec `{Lib} : Prop := {
  BalanceGasEIP150_val : BalanceGasEIP150 = 400;
  BalanceGasEIP1884_val : BalanceGasEIP1884 = 700;
  BalanceGasFrontier_val : BalanceGasFrontier = 20;
  CallCreateDepth_val : CallCreateDepth = 1024;
  CallGasEIP150_val : CallGasEIP150 = 700;
  CallGasFrontier_val : CallGasFrontier = 40;
  CallNewAccountGas_val : CallNewAccountGas = 25000;
  CallStipend_val : CallStipend = 2300;
  CallValueTransferGas_val : CallValueTransferGas = 9000;
  ColdAccountAccessCostEIP2929_val : ColdAccountAccessCostEIP2929 = 2600;
  ColdSloadCostEIP2929_val : ColdSloadCostEIP2929 = 2100;
  CopyGas_val : CopyGas = 3;
  Create2Gas_val : Create2Gas = 32000;
  CreateBySelfdestructGas_val : CreateBySelfdestructGas = 25000;
  CreateDataGas_val : CreateDataGas = 200;
  CreateGas_val : CreateGas = 32000;
  ExpByteEIP158_val : ExpByteEIP158 = 50;
  ExpByteFrontier_val : ExpByteFrontier = 10;
  ExpGas_val : ExpGas = 10;
  ExtcodeCopyBaseEIP150_val : ExtcodeCopyBaseEIP150 = 700;
  ExtcodeCopyBaseFrontier_val : ExtcodeCopyBaseFrontier = 20;
  ExtcodeHashGasConstantinople_val : ExtcodeHashGasConstantinople = 400;
  ExtcodeHashGasEIP1884_val : ExtcodeHashGasEIP1884 = 700;
  ExtcodeSizeGasEIP150_val : ExtcodeSizeGasEIP150 = 700;
  ExtcodeSizeGasFrontier_val : ExtcodeSizeGasFrontier = 20;
  InitCodeWordGas_val : InitCodeWordGas = 2;
  JumpdestGas_val : JumpdestGas = 1;
  Keccak256Gas_val : Keccak256Gas = 30;
  Keccak256WordGas_val : Keccak256WordGas = 6;
  LogDataGas_val : LogDataGas = 8;
  LogGas_val : LogGas = 375;
  LogTopicGas_val : LogTopicGas = 375;
  MaxCodeSize_val : MaxCodeSize = 24576;
  MaxInitCodeSize_val : MaxInitCodeSize = 49152;
  MemoryGas_val : MemoryGas = 3;
  NetSstoreCleanGas_val : NetSstoreCleanGas = 5000;
  NetSstoreClearRefund_val : NetSstoreClearRefund = 15000;
  NetSstoreDirtyGas_val : NetSstoreDirtyGas = 200;
  NetSstoreInitGas_val : NetSstoreInitGas = 20000;
  NetSstoreNoopGas_val : NetSstoreNoopGas = 200;
  NetSstoreResetClearRefund_val : NetSstoreResetClearRefund = 19800;
  NetSstoreResetRefund_val : NetSstoreResetRefund = 4800;
  QuadCoeffDiv_val : QuadCoeffDiv = 512;
  SelfdestructGasEIP150_val : SelfdestructGasEIP150 = 5000;
  SelfdestructRefundGas_val : SelfdestructRefundGas = 24000;
  SloadGasEIP150_val : SloadGasEIP150 = 200;
  SloadGasEIP1884_val : SloadGasEIP1884 = 800;
  SloadGasEIP2200_val : SloadGasEIP2200 = 800;
  SloadGasFrontier_val : SloadGasFrontier = 50;
  SstoreClearGas_val : SstoreClearGas = 5000;
  SstoreClearsScheduleRefundEIP2200_val : SstoreClearsScheduleRefundEIP2200 = 15000;
  SstoreClearsScheduleRefundEIP3529_val : SstoreClearsScheduleRefundEIP3529 = 4800;
  SstoreRefundGas_val : SstoreRefundGas = 15000;
  SstoreResetGas_val : SstoreResetGas = 5000;
  SstoreResetGasEIP2200_val : SstoreResetGasEIP2200 = 5000;
  SstoreSentryGasEIP2200_val : SstoreSentryGasEIP2200 = 2300;
  SstoreSetGas_val : SstoreSetGas = 20000;
  SstoreSetGasEIP2200_val : SstoreSetGasEIP2200 = 20000;
  StackLimit_val : StackLimit = 1024;
  WarmStorageReadCostEIP2929_val : WarmStorageReadCostEIP2929 = 100;
  EcrecoverGas_val : EcrecoverGas = 3000;
  Sha256BaseGas_val : Sha256BaseGas = 60;
  Sha256PerWordGas_val : Sha256PerWordGas = 12;
  Ripemd160BaseGas_val : Ripemd160BaseGas = 600;
  Ripemd160PerWordGas_val : Ripemd160PerWordGas = 120;
  IdentityBaseGas_val : IdentityBaseGas = 15;
  IdentityPerWordGas_val : IdentityPerWordGas = 3;
  Bn256AddGasByzantium_val : Bn256AddGasByzantium = 500;
  Bn256AddGasIstanbul_val : Bn256AddGasIstanbul = 150;
  Bn256ScalarMulGasByzantium_val : Bn256ScalarMulGasByzantium = 40000;
  Bn256ScalarMulGasIstanbul_val : Bn256ScalarMulGasIstanbul = 6000;
  Bn256PairingBaseGasByzantium_val : Bn256PairingBaseGasByzantium = 100000;
  Bn256PairingBaseGasIstanbul_val : Bn256PairingBaseGasIstanbul = 45000;
  Bn256PairingPerPointGasByzantium_val : Bn256PairingPerPointGasByzantium = 80000;
  Bn256PairingPerPointGasIstanbul_val : Bn256PairingPerPointGasIstanbul = 34000;
  Bls12381G1AddGas_u64 : is_u64 Bls12381G1AddGas;
  Bls12381G1MulGas_u64 : is_u64 Bls12381G1MulGas;
  Bls12381G2AddGas_u64 : is_u64 Bls12381G2AddGas;
  Bls12381G2MulGas_u64 : is_u64 Bls12381G2MulGas;
  Bls12381MapG1Gas_u64 : is_u64 Bls12381MapG1Gas;
  Bls12381MapG2Gas_u64 : is_u64 Bls12381MapG2Gas;
  Bls12381MultiExpDiscountTable_len : len Bls12381MultiExpDiscountTable = 128;
}.

(** [params.Rules]: the fork flags this repository reads. *)
Record Rules := {
  IsHomestead : bool;
  IsEIP150 : bool;
  IsEIP158 : bool;
  IsByzantium : bool;
  IsConstantinople : bool;
  IsPetersburg : bool;
  IsIstanbul : bool;
  IsBerlin : bool;
  IsLondon : bool;
  IsMerge : bool;
  IsShanghai : bool;
  IsCancun : bool;
  IsPrague : bool;
}.
End params.

(** The [StateDB] interface of vm/interface.go, implemented by the node. A
    method that changes the state is a function to the next state. *)
Module StateDB.
(** The fields of [types.Log] the program sets. *)
Record Log := {
  Log_Address : Address;
  Topics : list Hash;
  Data : bytes;
  Log_BlockNumber : Z;
}.

Class Lib := {
  DB : Type;
  CreateAccount : Address -> DB -> DB;
  SubBalance : Address -> Z -> DB -> DB;
  AddBalance : Address -> Z -> DB -> DB;
  GetBalance : DB -> Address -> Z;
  GetNonce : DB -> Address -> Z;
  SetNonce : Address -> Z -> DB -> DB;
  GetCodeHash : DB -> Address -> Hash;
  GetCode : DB -> Address -> bytes;
  SetCode : Address -> bytes -> DB -> DB;
  GetCodeSize : DB -> Address -> Z;
  AddRefund : Z -> DB -> DB;
  SubRefund : Z -> DB -> DB;
  GetRefund : DB -> Z;
  GetCommittedState : DB -> Address -> Hash -> Hash;
  GetState : DB -> Address -> Hash -> Hash;
  SetState : Address -> Hash -> Hash -> DB -> DB;
  GetTransientState : DB -> Address -> Hash -> Hash;
  SetTransientState : Address -> Hash -> Hash -> DB -> DB;
  Suicide : Address -> DB -> bool * DB;
  HasSuicided : DB -> Address -> bool;
  Exist : DB -> Address -> bool;
  Empty : DB -> Address -> bool;
  AddressInAccessList : DB -> Address -> bool;
  SlotInAccessList : DB -> Address -> Hash -> bool * bool;
  AddAddressToAccessList : Address -> DB -> DB;
  AddSlotToAccessList : Address -> Hash -> DB -> DB;
  RevertToSnapshot : Z -> DB -> DB;
  Snapshot : DB -> Z * DB;
  AddLog : Log -> DB -> DB;
  AddPreimage : Hash -> bytes -> DB -> DB;
}.

(** [d'] shows the same accounts as [d]: what a static call must guarantee. *)
Record same_accounts `{Lib} (d d' : DB) : Prop := {
  sa_balance : forall a, GetBalance d' a = GetBalance d a;
  sa_nonce : forall a, GetNonce d' a = GetNonce d a;
  sa_code : forall a, GetCode d' a = GetCode d a;
  sa_state : forall a k, GetState d' a k = GetState d a k;
  sa_transient : forall a k, GetTransientState d' a k = GetTransientState d a k;
  sa_suicided : forall a, HasSuicided d' a = HasSuicided d a;
}.

(** Ghost state for the snapshot contract: the content of a database, and
    the contents its live snapshots hold. *)
Class Model `{Lib} := {
  View : Type;
  view : DB -> View;
  saved : DB -> Z -> option View;
}.

(** A change that leaves the live snapshots alone. *)
Definition keeps_saved `{Model} (f : DB -> DB) : Prop := forall d i, saved (f d) i = saved d i.

Class Spec `{Model} : Prop := {
  (* a snapshot changes nothing, gets an identifier above the live ones and
     saves the current content; reverting to it restores the content and
     invalidates only that snapshot and later ones *)
  Snapshot_view : forall d, view (Snapshot d).2 = view d;
  Snapshot_saved : forall d, saved (Snapshot d).2 (Snapshot d).1 = Some (view d);
  Snapshot_fresh : forall d i v, saved d i = Some v -> i < (Snapshot d).1;
  Snapshot_keeps : forall d i v, saved d i = Some v -> saved (Snapshot d).2 i = Some v;
  Revert_view : forall d i v, saved d i = Some v -> view (RevertToSnapshot i d) = v;
  Revert_keeps : forall d i j v w, saved d i = Some v -> j < i -> saved d j = Some w ->
    saved (RevertToSnapshot i d) j = Some w;
  (* the changes journalled inside a snapshot *)
  CreateAccount_saved : forall a, keeps_saved (CreateAccount a);
  SubBalance_saved : forall a v, keeps_saved (SubBalance a v);
  AddBalance_saved : forall a v, keeps_saved (AddBalance a v);
  SetNonce_saved : forall a n, keeps_saved (SetNonce a n);
  SetCode_saved : forall a c, keeps_saved (SetCode a c);
  AddRefund_saved : forall g, keeps_saved (AddRefund g);
  SubRefund_saved : forall g, keeps_saved (SubRefund g);
  SetState_saved : forall a k v, keeps_saved (SetState a k v);
  SetTransientState_saved : forall a k v, keeps_saved (SetTransientState a k v);
  Suicide_saved : forall a, keeps_saved (fun d => (Suicide a d).2);
  AddAddressToAccessList_saved : forall a, keeps_saved (AddAddressToAccessList a);
  AddSlotToAccessList_saved : forall a k, keeps_saved (AddSlotToAccessList a k);
  AddLog_saved : forall l, keeps_saved (AddLog l);
  AddPreimage_saved : forall h b, keeps_saved (AddPreimage h b);
  (* what the accounts show depends on the content, and the bookkeeping
     operations do not change it *)
  view_accounts : forall d d', view d' = view d -> same_accounts d d';
  AddRefund_accounts : forall g d, same_accounts d (AddRefund g d);
  SubRefund_accounts : forall g d, same_accounts d (SubRefund g d);
  AddAddressToAccessList_accounts : forall a d, same_accounts d (AddAddressToAccessList a d);
  AddSlotToAccessList_accounts : forall a k d, same_accounts d (AddSlotToAccessList a k d);
  AddPreimage_accounts : forall h b d, same_accounts d (AddPreimage h b d);
  AddBalance_touch : forall a d, same_accounts d (AddBalance a 0 d);
  SubBalance_touch : forall a d, same_accounts d (SubBalance a 0 d);
  CreateAccount_new : forall a d, Exist d a = false -> same_accounts d (CreateAccount a d);
  (* balances *)
  AddBalance_spec : forall a v d b,
    GetBalance (AddBalance a v d) b = GetBalance d b + (if bool_decide (a = b) then v else 0);
  SubBalance_spec : forall a v d b,
    GetBalance (SubBalance a v d) b = GetBalance d b - (if bool_decide (a = b) then v else 0);
}.

(** The length of the code, a Go slice, is an [int]. *)
Class CodeSpec `{Lib} : Prop := { GetCode_len : forall d a, len (GetCode d a) < 2 ^ 63 }.
End StateDB.

(** [github.com/artela-network/aspect-core]: the join points [EVM.Call] runs
    around a contract call, and the context the Artela precompiles read and
    write. A join point runs user-supplied code, so it may change the state
    database and the aspect context. *)
Module aspect.
Record JPResult := { Ret : bytes; Gas : Z; JPErr : option Err }.
(** Arguments common to [PreContractCall] and [PostContractCall]. *)
Record CallInput := {
  ci_from : Address; ci_to : Address; ci_data : bytes; ci_block : Z;
  ci_gas : Z; ci_value : Z; ci_index : Z;
}.

Class Lib `{StateDB.Lib} := {
  Ctx : Type;
  JoinPointRunType : Type;
  JoinPointRunType_eq_dec : EqDecision JoinPointRunType;
  JoinPointRunType_Unknown : JoinPointRunType;
  Message : Type;                                  (* proto.Message *)
  PreContractCall : CallInput -> Ctx -> StateDB.DB -> JPResult * Ctx * StateDB.DB;
  (* the two extra arguments are the call's return data and error message *)
  PostContractCall : CallInput -> bytes -> string -> Ctx -> StateDB.DB ->
                     JPResult * Ctx * StateDB.DB;
  GetAspectContext : Ctx -> Address -> bytes -> bytes * option Err;
  SetAspectContext : Ctx -> Address -> bytes -> bytes -> option Err * Ctx;
  (* the 20-byte aspect id of the user operation's sender *)
  JITSenderAspectByContext : Ctx -> Hash -> Address * option Err;
}.

(** A join point returns the gas it did not use. *)
Class GasSpec `{Lib} : Prop := {
  PreContractCall_gas : forall ci c d, 0 <= ci_gas ci ->
    0 <= Gas (PreContractCall ci c d).1.1 <= ci_gas ci;
  PostContractCall_gas : forall ci r e c d, 0 <= ci_gas ci ->
    0 <= Gas (PostContractCall ci r e c d).1.1 <= ci_gas ci;
}.

(** It leaves the snapshots of the calls around it alone. *)
Class Spec `{Lib} `{!StateDB.Model} : Prop := {
  PreContractCall_saved : forall ci c,
    StateDB.keeps_saved (fun d => (PreContractCall ci c d).2);
  PostContractCall_saved : forall ci r e c,
    StateDB.keeps_saved (fun d => (PostContractCall ci r e c d).2);
}.
End aspect.
#[global] Existing Instance aspect.JoinPointRunType_eq_dec.

(** All of it: what the definitions of this development are parametrised by. *)
Class Libs := {
  L_runtime :: runtime.Lib;
  L_uint256 :: uint256.Lib;
  L_common :: common.Lib;
  L_math :: math.Lib;
  L_crypto :: crypto.Lib;
  L_bn256 :: bn256.Lib;
  L_bls12381 :: bls12381.Lib;
  L_params :: params.Lib;
  L_statedb :: StateDB.Lib;
  L_aspect :: aspect.Lib;
}.
