(* ===== verification/Instances.v ===== *)
(** Concrete implementations of every parameter of [Externals.v], with proofs
    of their documented behaviour. They make the models executable and show
    that the hypotheses of the theorems can hold. *)
From S2P Require Import Prelude Opcodes Errors Externals.

(** * 256-bit words *)

Definition in256 (z : Z) : bool := (0 <=? z) && (z <? 2 ^ 256).

Record w256 := W { wv : Z; w_ok : in256 wv = true }.

Lemma in256_mod z : in256 (z mod 2 ^ 256) = true.
Proof.
  unfold in256. pose proof (Z.mod_pos_bound z (2 ^ 256) ltac:(lia)).
  apply andb_true_intro; split; [apply Z.leb_le | apply Z.ltb_lt]; lia.
Qed.

Definition mkW (z : Z) : w256 := W (z mod 2 ^ 256) (in256_mod z).

Lemma wv_range x : 0 <= wv x < 2 ^ 256.
Proof.
  destruct x as [z Hz]. cbn. unfold in256 in Hz.
  apply andb_true_iff in Hz as [H1 H2].
  apply Z.leb_le in H1. apply Z.ltb_lt in H2. lia.
Qed.

Lemma wv_inj x y : wv x = wv y -> x = y.
Proof.
  destruct x as [z Hz], y as [z' Hz']. cbn. intros <-.
  f_equal. apply (proof_irrel Hz Hz').
Qed.

Lemma wv_mkW_small z : 0 <= z < 2 ^ 256 -> wv (mkW z) = z.
Proof. intros. cbn. by apply Z.mod_small. Qed.

Lemma mkW_wv x : mkW (wv x) = x.
Proof. apply wv_inj, wv_mkW_small, wv_range. Qed.

#[export] Instance w256_eq_dec : EqDecision w256.
Proof.
  intros x y. destruct (decide (wv x = wv y)) as [E|E].
  - left. by apply wv_inj.
  - right. congruence.
Defined.

#[export] Instance w256_countable : Countable w256 := inj_countable' wv mkW mkW_wv.

Definition bitlen (z : Z) : Z := if z =? 0 then 0 else Z.log2 z + 1.

Definition wexp (x y : Z) : Z :=
  (* square and multiply modulo 2^256, so that EXP evaluates *)
  match y with
  | Zpos p => Pos.iter_op (fun a b => (a * b) mod 2 ^ 256) p (x mod 2 ^ 256)
  | _ => 1
  end.

Lemma wexp_spec x y : 0 <= y -> wexp x y = (x ^ y) mod 2 ^ 256.
Proof.
  destruct y as [|p|p]; intros Hy; [done| |lia]. cbn [wexp].
  assert (forall p a, Pos.iter_op (fun a b => (a * b) mod 2 ^ 256) p (a mod 2 ^ 256)
                      = (a ^ Zpos p) mod 2 ^ 256) as H; [|apply H].
  clear. induction p as [p IH|p IH|]; intros a; cbn [Pos.iter_op].
  - rewrite <- Z.mul_mod, IH by lia. rewrite <- Z.mul_mod by lia.
    rewrite (Pos2Z.inj_xI p), Z.pow_add_r, Z.pow_mul_r, Z.pow_1_r, Z.pow_2_r by lia.
    f_equal. ring.
  - rewrite <- Z.mul_mod, IH by lia.
    by rewrite (Pos2Z.inj_xO p), Z.pow_mul_r, Z.pow_2_r by lia.
  - by rewrite Z.pow_1_r.
Qed.

Definition extend_sign (x b : Z) : Z :=
  if 30 <? b then x
  else let n := b * 8 + 8 in
       let low := x mod 2 ^ n in
       if low <? 2 ^ (n - 1) then low else low - 2 ^ n.

#[export] Instance uint256_lib : uint256.Lib := {|
  uint256.Int := w256;
  uint256.toZ := wv;
  uint256.NewInt := mkW;
  uint256.Add := fun x y => mkW (wv x + wv y);
  uint256.Sub := fun x y => mkW (wv x - wv y);
  uint256.Mul := fun x y => mkW (wv x * wv y);
  uint256.Div := fun x y => mkW (if wv y =? 0 then 0 else wv x / wv y);
  uint256.SDiv := fun x y =>
    mkW (if wv y =? 0 then 0 else Z.quot (uint256.signed (wv x)) (uint256.signed (wv y)));
  uint256.Mod := fun x y => mkW (if wv y =? 0 then 0 else wv x mod wv y);
  uint256.SMod := fun x y =>
    mkW (if wv y =? 0 then 0 else Z.rem (uint256.signed (wv x)) (uint256.signed (wv y)));
  uint256.Exp := fun x y => mkW (wexp (wv x) (wv y));
  uint256.ExtendSign := fun x b => mkW (extend_sign (wv x) (wv b));
  uint256.AddMod := fun x y m => mkW (if wv m =? 0 then 0 else (wv x + wv y) mod wv m);
  uint256.MulMod := fun x y m => mkW (if wv m =? 0 then 0 else (wv x * wv y) mod wv m);
  uint256.Not := fun x => mkW (2 ^ 256 - 1 - wv x);
  uint256.And := fun x y => mkW (Z.land (wv x) (wv y));
  uint256.Or := fun x y => mkW (Z.lor (wv x) (wv y));
  uint256.Xor := fun x y => mkW (Z.lxor (wv x) (wv y));
  uint256.Byte := fun z n =>
    mkW (if wv n <? 32 then Z.shiftr (wv z) (8 * (31 - wv n)) mod 256 else 0);
  uint256.Lsh := fun x n => mkW (Z.shiftl (wv x) n);
  uint256.Rsh := fun x n => mkW (Z.shiftr (wv x) n);
  uint256.SRsh := fun x n => mkW (Z.shiftr (uint256.signed (wv x)) n);
  uint256.Lt := fun x y => wv x <? wv y;
  uint256.Gt := fun x y => wv y <? wv x;
  uint256.Slt := fun x y => uint256.signed (wv x) <? uint256.signed (wv y);
  uint256.Sgt := fun x y => uint256.signed (wv y) <? uint256.signed (wv x);
  uint256.Eq := fun x y => wv x =? wv y;
  uint256.IsZero := fun x => wv x =? 0;
  uint256.Sign := fun x => Z.sgn (uint256.signed (wv x));
  uint256.BitLen := fun x => bitlen (wv x);
  uint256.IsUint64 := fun x => wv x <? 2 ^ 64;
  uint256.Uint64 := fun x => wv x mod 2 ^ 64;
  uint256.Uint64WithOverflow := fun x => (wv x mod 2 ^ 64, 2 ^ 64 <=? wv x);
  uint256.LtUint64 := fun x n => wv x <? n;
  uint256.GtUint64 := fun x n => n <? wv x;
  uint256.SetOne := mkW 1;
  uint256.Clear := mkW 0;
  uint256.SetAllOne := mkW (2 ^ 256 - 1);
  uint256.SetBytes := fun b => mkW (be_value b);
  uint256.Bytes := fun x => to_be (Z.to_nat ((bitlen (wv x) + 7) / 8)) (wv x);
  uint256.Bytes_cap := fun x => len (to_be (Z.to_nat ((bitlen (wv x) + 7) / 8)) (wv x));
  uint256.Bytes20 := fun x => to_be 20 (wv x mod 2 ^ 160);
  uint256.Bytes32 := fun x => to_be 32 (wv x);
  uint256.FromBig := fun z => (mkW z, 2 ^ 256 <=? z);
  uint256.MustFromBig := fun z => if (0 <=? z) && (z <? 2 ^ 256) then Some (mkW z) else None;
  uint256.ToBig := wv;
|}.

Lemma land_range x y : 0 <= x < 2 ^ 256 -> 0 <= y < 2 ^ 256 -> 0 <= Z.land x y < 2 ^ 256.
Proof.
  intros Hx Hy. rewrite <- (Z.mod_small x (2 ^ 256)), <- Z.land_ones by lia.
  rewrite <- Z.land_assoc, (Z.land_comm _ y), Z.land_assoc, Z.land_ones by lia.
  apply Z.mod_pos_bound; lia.
Qed.

Lemma lor_range x y : 0 <= x < 2 ^ 256 -> 0 <= y < 2 ^ 256 -> 0 <= Z.lor x y < 2 ^ 256.
Proof.
  intros Hx Hy. rewrite <- (Z.mod_small x (2 ^ 256)), <- (Z.mod_small y (2 ^ 256)) by lia.
  rewrite <- !Z.land_ones, <- Z.land_lor_distr_l, Z.land_ones by lia.
  apply Z.mod_pos_bound; lia.
Qed.

Lemma lxor_range x y : 0 <= x < 2 ^ 256 -> 0 <= y < 2 ^ 256 -> 0 <= Z.lxor x y < 2 ^ 256.
Proof.
  intros Hx Hy. split; [apply Z.lxor_nonneg; lia|].
  destruct (decide (Z.lxor x y = 0)) as [->|Hne]; [lia|].
  assert (0 <= Z.lxor x y) by (apply Z.lxor_nonneg; lia).
  apply Z.log2_lt_pow2; [lia|].
  pose proof (Z.log2_lxor x y ltac:(lia) ltac:(lia)).
  assert (forall z, 0 <= z < 2 ^ 256 -> Z.log2 z < 256) as Hl.
  { intros z Hz. destruct (decide (z = 0)) as [->|]; [done|].
    apply Z.log2_lt_pow2; lia. }
  pose proof (Hl x Hx). pose proof (Hl y Hy). lia.
Qed.

Ltac wsmall := apply wv_mkW_small.

#[export] Instance uint256_spec : uint256.Spec.
Proof.
  assert (forall x, 0 <= wv x < 2 ^ 256) as R by apply wv_range.
  constructor; cbn -[Z.pow Z.modulo mkW be_value to_be]; intros;
    repeat match goal with x : w256 |- _ =>
      lazymatch goal with H : 0 <= wv x < _ |- _ => fail | _ => pose proof (R x) end end.
  all: try done; try reflexivity.
  - by apply wv_inj.
  - unfold is_u64 in *. wsmall; lia.
  - case_match eqn:E; [done|]. apply Z.eqb_neq in E. wsmall.
    split; [apply Z.div_pos; lia|]. apply Z.div_lt_upper_bound; nia.
  - by case_match.
  - case_match eqn:E; [done|]. apply Z.eqb_neq in E. wsmall.
    pose proof (Z.mod_pos_bound (wv x) (wv y) ltac:(lia)). lia.
  - by case_match.
  - cbn. rewrite wexp_spec by lia. by rewrite Z.mod_mod by lia.
  - rewrite (proj2 (Z.eqb_neq _ _)) by done. wsmall.
    pose proof (Z.mod_pos_bound (wv x + wv y) (wv m) ltac:(lia)). lia.
  - case_match eqn:E; [done|]. apply Z.eqb_neq in E. wsmall.
    pose proof (Z.mod_pos_bound (wv x * wv y) (wv m) ltac:(lia)). lia.
  - wsmall; lia.
  - wsmall. by apply land_range.
  - wsmall. by apply lor_range.
  - wsmall. by apply lxor_range.
  - unfold extend_sign. cbn. case_match eqn:E; [apply Z.mod_small; lia|].
    apply Z.ltb_ge in E. done.
  - case_match; [|done]. wsmall.
    pose proof (Z.mod_pos_bound (Z.shiftr (wv z) (8 * (31 - wv n))) 256 ltac:(lia)). lia.
  - wsmall. rewrite Z.shiftr_div_pow2 by done.
    split; [apply Z.div_pos; lia|]. apply Z.div_lt_upper_bound; [lia|].
    assert (1 <= 2 ^ n) by (apply (Z.pow_le_mono_r 2 0 n); lia). nia.
  - wsmall. apply be_value_range in H. split; [lia|].
    eapply Z.lt_le_trans; [apply H|]. apply Z.pow_le_mono_r; lia.
  - exists (mkW z). split; [|wsmall; lia]. by zbool.
Qed.

(** * The other libraries *)

#[export] Instance runtime_lib : runtime.Lib := {|
  runtime.append_cap := fun _ n => n;
  runtime.maxAlloc := 2 ^ 48;
|}.
#[export] Instance runtime_spec : runtime.Spec.
Proof. constructor; cbn; lia. Qed.

#[export] Instance common_lib : common.Lib := {|
  common.RightPadBytes := fun b l => b ++ zeros (l - len b);
  common.LeftPadBytes := fun b l => zeros (l - len b) ++ b;
  common.BytesToAddress := fun b =>
    let b' := drop (length b - 20) b in zeros (20 - len b') ++ b';
  common.BytesToHash := fun b =>
    let b' := drop (length b - 32) b in zeros (32 - len b') ++ b';
|}.
#[export] Instance common_spec : common.Spec.
Proof.
  constructor; [done| done|..]; intros b Hb; cbn; unfold len in *.
  - by replace (length b - 20)%nat with 0%nat by lia.
  - by replace (length b - 32)%nat with 0%nat by lia.
Qed.

#[export] Instance math_lib : math.Lib := {|
  math.SafeAdd := fun x y => ((x + y) mod 2 ^ 64, 2 ^ 64 <=? x + y);
  math.SafeMul := fun x y => ((x * y) mod 2 ^ 64, 2 ^ 64 <=? x * y);
|}.
#[export] Instance math_spec : math.Spec.
Proof. by constructor. Qed.

(** A stand-in for Keccak: a fixed-size digest of the length and the value. *)
#[export] Instance crypto_lib : crypto.Lib := {|
  crypto.Keccak256 := fun b => to_be 32 ((be_value b + 1) * 1099511628211 + len b);
  crypto.CreateAddress := fun a n => to_be 20 (be_value a * 31 + n + 7);
  crypto.CreateAddress2 := fun a salt h =>
    to_be 20 (be_value a * 31 + be_value salt * 37 + be_value h + 255);
  crypto.ValidateSignatureValues := fun v r s _ => (v <=? 1) && (1 <=? r) && (1 <=? s);
  crypto.Ecrecover := fun h sig => (4 :: to_be 64 (be_value h + be_value sig), None);
  crypto.sha256_Sum256 := fun b => to_be 32 (be_value b * 131 + 7);
  crypto.ripemd160_Sum := fun b => to_be 20 (be_value b * 137 + 11);
  crypto.blake2b_F := fun rounds h m t final =>
    map (fun x => u64 (x + rounds + foldl Z.add 0 m + foldl Z.add 0 t)) h;
|}.
#[export] Instance crypto_spec : crypto.Spec.
Proof. constructor. intros. apply to_be_length. Qed.

(** A stand-in for the curves: the group of integers. *)
#[export] Instance bn256_lib : bn256.Lib := {|
  bn256.G1 := Z;
  bn256.G2 := Z;
  bn256.UnmarshalG1 := fun b => inl (be_value b);
  bn256.UnmarshalG2 := fun b => inl (be_value b);
  bn256.Add := Z.add;
  bn256.ScalarMult := Z.mul;
  bn256.Marshal := to_be 64;
  bn256.PairingCheck := fun xs ys => foldl Z.add 0 (zip_with Z.mul xs ys) =? 0;
|}.
Definition int_group (n : nat) : bls12381.Group Z := {|
  bls12381.DecodePoint := fun b => inl (be_value b);
  bls12381.EncodePoint := to_be n;
  bls12381.Add := Z.add;
  bls12381.MulScalar := Z.mul;
  bls12381.MultiExp := fun ps es => (foldl Z.add 0 (zip_with Z.mul ps es), None);
  bls12381.MapToCurve := fun b => inl (be_value b);
  bls12381.InCorrectSubgroup := fun _ => true;
|}.
#[export] Instance bls12381_lib : bls12381.Lib := {|
  bls12381.PointG1 := Z;
  bls12381.PointG2 := Z;
  bls12381.NewG1 := int_group 128;
  bls12381.NewG2 := int_group 256;
  bls12381.Check := fun ps => foldl Z.add 0 (map (fun p => p.1 * p.2) ps) =? 0;
|}.

#[export] Instance params_lib : params.Lib :=
  {| params.BalanceGasEIP150 := 400;
     params.BalanceGasEIP1884 := 700;
     params.BalanceGasFrontier := 20;
     params.CallCreateDepth := 1024;
     params.CallGasEIP150 := 700;
     params.CallGasFrontier := 40;
     params.CallNewAccountGas := 25000;
     params.CallStipend := 2300;
     params.CallValueTransferGas := 9000;
     params.ColdAccountAccessCostEIP2929 := 2600;
     params.ColdSloadCostEIP2929 := 2100;
     params.CopyGas := 3;
     params.Create2Gas := 32000;
     params.CreateBySelfdestructGas := 25000;
     params.CreateDataGas := 200;
     params.CreateGas := 32000;
     params.ExpByteEIP158 := 50;
     params.ExpByteFrontier := 10;
     params.ExpGas := 10;
     params.ExtcodeCopyBaseEIP150 := 700;
     params.ExtcodeCopyBaseFrontier := 20;
     params.ExtcodeHashGasConstantinople := 400;
     params.ExtcodeHashGasEIP1884 := 700;
     params.ExtcodeSizeGasEIP150 := 700;
     params.ExtcodeSizeGasFrontier := 20;
     params.InitCodeWordGas := 2;
     params.JumpdestGas := 1;
     params.Keccak256Gas := 30;
     params.Keccak256WordGas := 6;
     params.LogDataGas := 8;
     params.LogGas := 375;
     params.LogTopicGas := 375;
     params.MaxCodeSize := 24576;
     params.MaxInitCodeSize := 49152;
     params.MemoryGas := 3;
     params.NetSstoreCleanGas := 5000;
     params.NetSstoreClearRefund := 15000;
     params.NetSstoreDirtyGas := 200;
     params.NetSstoreInitGas := 20000;
     params.NetSstoreNoopGas := 200;
     params.NetSstoreResetClearRefund := 19800;
     params.NetSstoreResetRefund := 4800;
     params.QuadCoeffDiv := 512;
     params.SelfdestructGasEIP150 := 5000;
     params.SelfdestructRefundGas := 24000;
     params.SloadGasEIP150 := 200;
     params.SloadGasEIP1884 := 800;
     params.SloadGasEIP2200 := 800;
     params.SloadGasFrontier := 50;
     params.SstoreClearGas := 5000;
     params.SstoreClearsScheduleRefundEIP2200 := 15000;
     params.SstoreClearsScheduleRefundEIP3529 := 4800;
     params.SstoreRefundGas := 15000;
     params.SstoreResetGas := 5000;
     params.SstoreResetGasEIP2200 := 5000;
     params.SstoreSentryGasEIP2200 := 2300;
     params.SstoreSetGas := 20000;
     params.SstoreSetGasEIP2200 := 20000;
     params.StackLimit := 1024;
     params.WarmStorageReadCostEIP2929 := 100;
     params.EcrecoverGas := 3000;
     params.Sha256BaseGas := 60;
     params.Sha256PerWordGas := 12;
     params.Ripemd160BaseGas := 600;
     params.Ripemd160PerWordGas := 120;
     params.IdentityBaseGas := 15;
     params.IdentityPerWordGas := 3;
     params.Bn256AddGasByzantium := 500;
     params.Bn256AddGasIstanbul := 150;
     params.Bn256ScalarMulGasByzantium := 40000;
     params.Bn256ScalarMulGasIstanbul := 6000;
     params.Bn256PairingBaseGasByzantium := 100000;
     params.Bn256PairingBaseGasIstanbul := 45000;
     params.Bn256PairingPerPointGasByzantium := 80000;
     params.Bn256PairingPerPointGasIstanbul := 34000;
     params.Bls12381G1AddGas := 600;
     params.Bls12381G1MulGas := 12000;
     params.Bls12381G2AddGas := 4500;
     params.Bls12381G2MulGas := 55000;
     params.Bls12381PairingBaseGas := 115000;
     params.Bls12381PairingPerPairGas := 23000;
     params.Bls12381MapG1Gas := 5500;
     params.Bls12381MapG2Gas := 110000;
     params.Bls12381MultiExpDiscountTable := 1200 :: replicate 127 174 |}.
#[export] Instance params_spec : params.Spec.
Proof. constructor; (done || split; done). Qed.

(** * An in-memory state database *)
Module MemDB.
Record World := {
  balance : gmap Address Z;
  nonce : gmap Address Z;
  code : gmap Address bytes;
  storage : gmap (Address * Hash) Hash;
  committed : gmap (Address * Hash) Hash;
  transient : gmap (Address * Hash) Hash;
  suicided : gset Address;
  existing : gset Address;
  warm : gset Address;
  warmSlots : gset (Address * Hash);
  refund : Z;
  logs : list StateDB.Log;
}.
Record DB := { cur : World; snaps : list World }.

Definition emptyWorld : World :=
  {| balance := ∅; nonce := ∅; code := ∅; storage := ∅; committed := ∅;
     transient := ∅; suicided := ∅; existing := ∅; warm := ∅; warmSlots := ∅;
     refund := 0; logs := [] |}.
Definition empty : DB := {| cur := emptyWorld; snaps := [] |}.

Definition upd (f : World -> World) (d : DB) : DB := {| cur := f (cur d); snaps := snaps d |}.
Definition getw (k : Address * Hash) (m : gmap (Address * Hash) Hash) : Hash :=
  default zeroHash (m !! k).

Definition with_balance b w :=
  {| balance := b; nonce := nonce w; code := code w; storage := storage w;
     committed := committed w; transient := transient w; suicided := suicided w;
     existing := existing w; warm := warm w; warmSlots := warmSlots w;
     refund := refund w; logs := logs w |}.
Definition with_nonce n w :=
  {| balance := balance w; nonce := n; code := code w; storage := storage w;
     committed := committed w; transient := transient w; suicided := suicided w;
     existing := existing w; warm := warm w; warmSlots := warmSlots w;
     refund := refund w; logs := logs w |}.
Definition with_code c w :=
  {| balance := balance w; nonce := nonce w; code := c; storage := storage w;
     committed := committed w; transient := transient w; suicided := suicided w;
     existing := existing w; warm := warm w; warmSlots := warmSlots w;
     refund := refund w; logs := logs w |}.
Definition with_storage s w :=
  {| balance := balance w; nonce := nonce w; code := code w; storage := s;
     committed := committed w; transient := transient w; suicided := suicided w;
     existing := existing w; warm := warm w; warmSlots := warmSlots w;
     refund := refund w; logs := logs w |}.
Definition with_transient s w :=
  {| balance := balance w; nonce := nonce w; code := code w; storage := storage w;
     committed := committed w; transient := s; suicided := suicided w;
     existing := existing w; warm := warm w; warmSlots := warmSlots w;
     refund := refund w; logs := logs w |}.
Definition with_sets su ex wa ws w :=
  {| balance := balance w; nonce := nonce w; code := code w; storage := storage w;
     committed := committed w; transient := transient w; suicided := su;
     existing := ex; warm := wa; warmSlots := ws;
     refund := refund w; logs := logs w |}.
Definition with_refund r w :=
  {| balance := balance w; nonce := nonce w; code := code w; storage := storage w;
     committed := committed w; transient := transient w; suicided := suicided w;
     existing := existing w; warm := warm w; warmSlots := warmSlots w;
     refund := r; logs := logs w |}.
Definition with_logs l w :=
  {| balance := balance w; nonce := nonce w; code := code w; storage := storage w;
     committed := committed w; transient := transient w; suicided := suicided w;
     existing := existing w; warm := warm w; warmSlots := warmSlots w;
     refund := refund w; logs := l |}.
Definition touch a w := with_sets (suicided w) ({[a]} ∪ existing w) (warm w) (warmSlots w) w.

Definition bal w a : Z := default 0 (balance w !! a).
(** Code longer than a slice can be does not occur. *)
Definition codeOf w a : bytes :=
  let c := default [] (code w !! a) in if len c <? 2 ^ 63 then c else [].
Definition nonceOf w a : Z := default 0 (nonce w !! a).
Definition isEmpty w a : bool :=
  (bal w a =? 0) && (nonceOf w a =? 0) && bool_decide (codeOf w a = []).
Definition exists_ w a : bool := bool_decide (a ∈ existing w).
End MemDB.

#[export] Instance statedb_lib : StateDB.Lib := {|
  StateDB.DB := MemDB.DB;
  StateDB.CreateAccount := fun a => MemDB.upd (fun w =>
    if MemDB.exists_ w a then
      MemDB.with_nonce (delete a (MemDB.nonce w)) (MemDB.with_code (delete a (MemDB.code w)) w)
    else MemDB.touch a w);
  StateDB.SubBalance := fun a v => MemDB.upd (fun w =>
    MemDB.touch a (MemDB.with_balance (<[a := MemDB.bal w a - v]> (MemDB.balance w)) w));
  StateDB.AddBalance := fun a v => MemDB.upd (fun w =>
    MemDB.touch a (MemDB.with_balance (<[a := MemDB.bal w a + v]> (MemDB.balance w)) w));
  StateDB.GetBalance := fun d a => MemDB.bal (MemDB.cur d) a;
  StateDB.GetNonce := fun d a => MemDB.nonceOf (MemDB.cur d) a;
  StateDB.SetNonce := fun a n => MemDB.upd (fun w =>
    MemDB.touch a (MemDB.with_nonce (<[a := n]> (MemDB.nonce w)) w));
  StateDB.GetCodeHash := fun d a =>
    if MemDB.exists_ (MemDB.cur d) a then crypto.Keccak256 (MemDB.codeOf (MemDB.cur d) a)
    else zeroHash;
  StateDB.GetCode := fun d a => MemDB.codeOf (MemDB.cur d) a;
  StateDB.SetCode := fun a c => MemDB.upd (fun w =>
    MemDB.touch a (MemDB.with_code (<[a := c]> (MemDB.code w)) w));
  StateDB.GetCodeSize := fun d a => len (MemDB.codeOf (MemDB.cur d) a);
  StateDB.AddRefund := fun g => MemDB.upd (fun w => MemDB.with_refund (MemDB.refund w + g) w);
  StateDB.SubRefund := fun g => MemDB.upd (fun w => MemDB.with_refund (MemDB.refund w - g) w);
  StateDB.GetRefund := fun d => MemDB.refund (MemDB.cur d);
  StateDB.GetCommittedState := fun d a h => MemDB.getw (a, h) (MemDB.committed (MemDB.cur d));
  StateDB.GetState := fun d a h => MemDB.getw (a, h) (MemDB.storage (MemDB.cur d));
  StateDB.SetState := fun a h v => MemDB.upd (fun w =>
    MemDB.with_storage (<[(a, h) := v]> (MemDB.storage w)) w);
  StateDB.GetTransientState := fun d a h => MemDB.getw (a, h) (MemDB.transient (MemDB.cur d));
  StateDB.SetTransientState := fun a h v => MemDB.upd (fun w =>
    MemDB.with_transient (<[(a, h) := v]> (MemDB.transient w)) w);
  StateDB.Suicide := fun a d =>
    (MemDB.exists_ (MemDB.cur d) a,
     MemDB.upd (fun w => MemDB.with_balance (<[a := 0]> (MemDB.balance w))
       (MemDB.with_sets ({[a]} ∪ MemDB.suicided w) (MemDB.existing w)
          (MemDB.warm w) (MemDB.warmSlots w) w)) d);
  StateDB.HasSuicided := fun d a => bool_decide (a ∈ MemDB.suicided (MemDB.cur d));
  StateDB.Exist := fun d a => MemDB.exists_ (MemDB.cur d) a;
  StateDB.Empty := fun d a => MemDB.isEmpty (MemDB.cur d) a;
  StateDB.AddressInAccessList := fun d a => bool_decide (a ∈ MemDB.warm (MemDB.cur d));
  StateDB.SlotInAccessList := fun d a h =>
    (bool_decide (a ∈ MemDB.warm (MemDB.cur d)),
     bool_decide ((a, h) ∈ MemDB.warmSlots (MemDB.cur d)));
  StateDB.AddAddressToAccessList := fun a => MemDB.upd (fun w =>
    MemDB.with_sets (MemDB.suicided w) (MemDB.existing w) ({[a]} ∪ MemDB.warm w)
      (MemDB.warmSlots w) w);
  StateDB.AddSlotToAccessList := fun a h => MemDB.upd (fun w =>
    MemDB.with_sets (MemDB.suicided w) (MemDB.existing w) ({[a]} ∪ MemDB.warm w)
      ({[(a, h)]} ∪ MemDB.warmSlots w) w);
  StateDB.RevertToSnapshot := fun i d =>
    match MemDB.snaps d !! Z.to_nat i with
    | Some w => {| MemDB.cur := w; MemDB.snaps := take (Z.to_nat i) (MemDB.snaps d) |}
    | None => d
    end;
  StateDB.Snapshot := fun d =>
    (len (MemDB.snaps d),
     {| MemDB.cur := MemDB.cur d; MemDB.snaps := MemDB.snaps d ++ [MemDB.cur d] |});
  StateDB.AddLog := fun l => MemDB.upd (fun w => MemDB.with_logs (MemDB.logs w ++ [l]) w);
  StateDB.AddPreimage := fun _ _ d => d;
|}.

#[export] Instance statedb_model : StateDB.Model := {|
  StateDB.View := MemDB.World;
  StateDB.view := MemDB.cur;
  StateDB.saved := fun d i => if i <? 0 then None else MemDB.snaps d !! Z.to_nat i;
|}.

Lemma memdb_upd_accounts (f : MemDB.World -> MemDB.World) (d : MemDB.DB) :
  let w := MemDB.cur d in
  (forall a, MemDB.bal (f w) a = MemDB.bal w a) ->
  MemDB.nonce (f w) = MemDB.nonce w -> MemDB.code (f w) = MemDB.code w ->
  MemDB.storage (f w) = MemDB.storage w -> MemDB.transient (f w) = MemDB.transient w ->
  MemDB.suicided (f w) = MemDB.suicided w ->
  StateDB.same_accounts d (MemDB.upd f d).
Proof.
  intros w Hb Hn Hc Hs Ht Hu.
  constructor; intros; cbn; unfold MemDB.nonceOf, MemDB.codeOf, MemDB.getw; fold w;
    rewrite ?Hb, ?Hn, ?Hc, ?Hs, ?Ht, ?Hu; done.
Qed.

Lemma memdb_bal_insert (w : MemDB.World) m a b z :
  MemDB.balance w = <[a := z]> m ->
  MemDB.bal w b = if bool_decide (a = b) then z else default 0 (m !! b).
Proof.
  intros E. unfold MemDB.bal. rewrite E. case_bool_decide as Hab.
  - subst. by rewrite lookup_insert_eq.
  - by rewrite lookup_insert_ne by done.
Qed.

#[export] Instance statedb_spec : StateDB.Spec.
Proof.
  constructor; try (by intros; intros ? ?).
  - done.
  - intros d. cbn. unfold len. rewrite (proj2 (Z.ltb_ge _ _)) by lia.
    rewrite Nat2Z.id. by rewrite lookup_app_r, Nat.sub_diag by lia.
  - intros d i v. cbn. destruct (Z.ltb_spec i 0); [done|]. intros Hl%lookup_lt_Some.
    unfold len. lia.
  - intros d i v. cbn. destruct (Z.ltb_spec i 0); [done|]. intros Hl.
    by rewrite lookup_app_l by (by eapply lookup_lt_Some).
  - intros d i v. cbn. destruct (Z.ltb_spec i 0); [done|]. by intros ->.
  - intros d i j v w. cbn. destruct (Z.ltb_spec i 0); [done|]. intros -> Hj.
    destruct (Z.ltb_spec j 0); [done|]. intros Hw. cbn. by rewrite lookup_take_lt by lia.
  - intros d d' E. cbn in E. by constructor; intros; cbn; rewrite ?E.
  - intros. by apply memdb_upd_accounts.
  - intros. by apply memdb_upd_accounts.
  - intros. by apply memdb_upd_accounts.
  - intros. by apply memdb_upd_accounts.
  - by intros; constructor.
  - intros a d. apply memdb_upd_accounts; try done. intros b.
    erewrite memdb_bal_insert by done. case_bool_decide; [subst|done]. lia.
  - intros a d. apply memdb_upd_accounts; try done. intros b.
    erewrite memdb_bal_insert by done. case_bool_decide; [subst|done]. lia.
  - intros a d Hx. cbn in Hx. apply memdb_upd_accounts; by rewrite Hx.
  - intros. cbn. erewrite memdb_bal_insert by done. unfold MemDB.bal.
    case_bool_decide; [subst|]; lia.
  - intros. cbn. erewrite memdb_bal_insert by done. unfold MemDB.bal.
    case_bool_decide; [subst|]; lia.
Qed.

#[export] Instance statedb_code_spec : StateDB.CodeSpec.
Proof.
  constructor. intros d a. cbn. unfold MemDB.codeOf.
  destruct (Z.ltb_spec (len (default [] (MemDB.code (MemDB.cur d) !! a))) (2 ^ 63)); [lia|done].
Qed.

(** Aspects: a context store, and join points that let every call through. *)
#[export] Instance aspect_lib : aspect.Lib := {|
  aspect.Ctx := gmap (Address * bytes) bytes;
  aspect.JoinPointRunType := nat;
  aspect.JoinPointRunType_Unknown := 0%nat;
  aspect.Message := unit;
  aspect.PreContractCall := fun ci c d =>
    ({| aspect.Ret := []; aspect.Gas := aspect.ci_gas ci; aspect.JPErr := None |}, c, d);
  aspect.PostContractCall := fun ci _ _ c d =>
    ({| aspect.Ret := []; aspect.Gas := aspect.ci_gas ci; aspect.JPErr := None |}, c, d);
  aspect.GetAspectContext := fun c a k => (default [] (c !! (a, k)), None);
  aspect.SetAspectContext := fun c a k v => (None, <[(a, k) := v]> c);
  aspect.JITSenderAspectByContext := fun _ _ => (zeroAddress, None);
|}.

#[export] Instance aspect_gas_spec : aspect.GasSpec.
Proof. constructor; intros; cbn; lia. Qed.
#[export] Instance aspect_spec : aspect.Spec.
Proof. constructor; intros; intros ? ?; done. Qed.

#[export] Instance libs : Libs := {|
  L_runtime := runtime_lib;
  L_uint256 := uint256_lib;
  L_common := common_lib;
  L_math := math_lib;
  L_crypto := crypto_lib;
  L_bn256 := bn256_lib;
  L_bls12381 := bls12381_lib;
  L_params := params_lib;
  L_statedb := statedb_lib;
  L_aspect := aspect_lib;
|}.
