(* ===== verification/Stack.v ===== *)
(** The operand stack (vm/stack.go) and the stack bounds of the jump table
    (vm/stack_table.go).

    [data] holds the items of the Go slice from the top down: its head is
    [st.data[len-1]]. [at_index] reads and [set_index] writes by Go index. *)
From S2P Require Import Prelude Opcodes Errors Externals.

Section Stack.
Context `{U : uint256.Lib}.

(** [type Stack struct { data []uint256.Int }] *)
Record Stack := mkStack { data : list uint256.Int }.

(** [newstack]: the pool only holds stacks [returnStack] truncated, so the
    stack it hands out is empty. *)
Definition newstack : Stack := mkStack [].
Definition returnStack (s : Stack) : Stack := mkStack [].

Definition slen (st : Stack) : Z := len (data st).

Definition pos_of (st : Stack) (i : Z) : nat := Z.to_nat (slen st - 1 - i).

(** [st.data[i]] *)
Definition at_index (st : Stack) (i : Z) : res uint256.Int :=
  if (0 <=? i) && (i <? slen st) then
    match data st !! pos_of st i with Some x => Ret x | None => Panicked StackIndex end
  else Panicked StackIndex.

(** [st.data[i] = x] *)
Definition set_index (st : Stack) (i : Z) (x : uint256.Int) : res Stack :=
  if (0 <=? i) && (i <? slen st) then Ret (mkStack (<[pos_of st i := x]> (data st)))
  else Panicked StackIndex.

Definition push (st : Stack) (d : uint256.Int) : Stack := mkStack (d :: data st).

Definition pop (st : Stack) : res (uint256.Int * Stack) :=
  let? r := at_index st (slen st - 1) in
  Ret (r, mkStack (tail (data st))).

(** [st.data[len-n], st.data[len-1] = st.data[len-1], st.data[len-n]] *)
Definition swap (st : Stack) (n : Z) : res Stack :=
  let? a := at_index st (slen st - 1) in
  let? b := at_index st (slen st - n) in
  let? st' := set_index st (slen st - n) a in
  set_index st' (slen st - 1) b.

Definition dup (st : Stack) (n : Z) : res Stack :=
  let? a := at_index st (slen st - n) in
  Ret (push st a).

(** [peek] returns a pointer to the top item; [peek] reads through it and
    [poke] writes through it. *)
Definition peek (st : Stack) : res uint256.Int := at_index st (slen st - 1).
Definition poke (st : Stack) (x : uint256.Int) : res Stack :=
  set_index st (slen st - 1) x.

Definition Back (st : Stack) (n : Z) : res uint256.Int := at_index st (slen st - n - 1).

(** ** vm/stack_table.go *)
Context `{P : params.Lib}.

Definition maxStack (pop push : Z) : Z := params.StackLimit + pop - push.
Definition minStack (pops push : Z) : Z := pops.
Definition minSwapStack (n : Z) : Z := minStack n n.
Definition maxSwapStack (n : Z) : Z := maxStack n n.
Definition minDupStack (n : Z) : Z := minStack n (n + 1).
Definition maxDupStack (n : Z) : Z := maxStack n (n + 1).
End Stack.

(** * Lemmas *)
Section StackLemmas.
Context `{U : uint256.Lib}.

Lemma slen_mk (l : list uint256.Int) : slen (mkStack l) = len l.
Proof. done. Qed.

(** Items counted from the top: [Back n] is the [n]-th element. *)
Lemma Back_lookup (st : Stack) n x :
  0 <= n -> data st !! Z.to_nat n = Some x -> Back st n = Ret x.
Proof.
  intros Hn Hx. unfold Back, at_index, pos_of.
  pose proof (lookup_lt_Some _ _ _ Hx). unfold slen, len in *.
  rewrite (proj2 (Z.leb_le _ _)), (proj2 (Z.ltb_lt _ _)) by lia. cbn [andb].
  replace (Z.to_nat _) with (Z.to_nat n) by lia. by rewrite Hx.
Qed.

Lemma at_index_ok st i : 0 <= i < slen st -> exists x, at_index st i = Ret x.
Proof.
  intros H. unfold at_index. zbool. cbn [andb].
  destruct (lookup_lt_is_Some_2 (data st) (pos_of st i)) as [x ->]; [|by exists x].
  unfold pos_of, slen, len in *. lia.
Qed.

Lemma at_index_top (l : list uint256.Int) n x :
  1 <= n -> l !! Z.to_nat (n - 1) = Some x -> at_index (mkStack l) (len l - n) = Ret x.
Proof.
  intros Hn Hx. unfold at_index, pos_of. rewrite slen_mk.
  pose proof (lookup_lt_Some _ _ _ Hx). unfold len in *.
  rewrite (proj2 (Z.leb_le _ _)), (proj2 (Z.ltb_lt _ _)) by lia. cbn [andb data].
  replace (Z.to_nat _) with (Z.to_nat (n - 1)) by lia. by rewrite Hx.
Qed.

Lemma pop_cons x (l : list uint256.Int) : pop (mkStack (x :: l)) = Ret (x, mkStack l).
Proof.
  unfold pop. rewrite slen_mk. by rewrite (at_index_top _ 1 x).
Qed.

Lemma peek_cons x (l : list uint256.Int) : peek (mkStack (x :: l)) = Ret x.
Proof. unfold peek. rewrite slen_mk. by rewrite (at_index_top _ 1 x). Qed.

Lemma poke_cons x y (l : list uint256.Int) :
  poke (mkStack (x :: l)) y = Ret (mkStack (y :: l)).
Proof.
  unfold poke, set_index, pos_of. rewrite slen_mk.
  pose proof (len_nonneg l). rewrite len_cons.
  rewrite (proj2 (Z.leb_le _ _)), (proj2 (Z.ltb_lt _ _)) by lia. cbn [andb data].
  by replace (Z.to_nat _) with 0%nat by lia.
Qed.

Lemma pop_nil : pop (mkStack []) = Panicked StackIndex.
Proof. done. Qed.

(** [dup n] copies the [n]-th item from the top. *)
Lemma dup_lookup (l : list uint256.Int) n x :
  1 <= n -> l !! Z.to_nat (n - 1) = Some x -> dup (mkStack l) n = Ret (mkStack (x :: l)).
Proof. intros Hn Hx. unfold dup. rewrite slen_mk. by rewrite (at_index_top _ _ x). Qed.

(** [swap n] exchanges the top item with the [n]-th one. *)
Lemma swap_lookup x (l : list uint256.Int) n y :
  2 <= n -> l !! Z.to_nat (n - 2) = Some y ->
  swap (mkStack (x :: l)) n = Ret (mkStack (y :: <[Z.to_nat (n - 2) := x]> l)).
Proof.
  intros Hn Hy. pose proof (lookup_lt_Some _ _ _ Hy) as Hlt.
  unfold swap. rewrite slen_mk.
  rewrite (at_index_top _ 1 x) by done. cbn [rbind].
  rewrite (at_index_top _ n y); [|lia|].
  2:{ replace (Z.to_nat (n - 1)) with (S (Z.to_nat (n - 2))) by lia. done. }
  cbn [rbind]. unfold set_index, pos_of. rewrite slen_mk. unfold len in *. cbn [length] in *.
  rewrite (proj2 (Z.leb_le _ _)), (proj2 (Z.ltb_lt _ _)) by lia. cbn [andb data rbind].
  replace (Z.to_nat (Z.of_nat (S (length l)) - 1 - (Z.of_nat (S (length l)) - n)))
    with (S (Z.to_nat (n - 2))) by lia.
  change (<[S (Z.to_nat (n - 2)) := x]> (x :: l)) with (x :: <[Z.to_nat (n - 2) := x]> l).
  rewrite !slen_mk. unfold len. cbn [length]. rewrite length_insert.
  rewrite (proj2 (Z.leb_le _ _)), (proj2 (Z.ltb_lt _ _)) by lia. cbn [andb data rbind].
  by replace (Z.to_nat _) with 0%nat by lia.
Qed.
End StackLemmas.
