(* ===== verification/Memory.v ===== *)
(** The byte memory of a call frame (vm/memory.go) and the memory helpers of
    vm/common.go.

    A Go slice expression may reach past the length of a slice up to its
    capacity, so [Memory] carries the capacity of [store]; it changes only
    when [Resize] appends. *)
From S2P Require Import Prelude Opcodes Errors Externals.

(** * vm/memory.go *)
Section Memory.
Context `{RT : runtime.Lib}.

(** [make([]byte, size)] *)
Definition make_bytes (size : Z) : res bytes :=
  if (size <? 0) || (runtime.maxAlloc <? size) then Panicked MakeSlice
  else Ret (zeros size).

(** [type Memory struct { store []byte; lastGasCost uint64 }] *)
Record Memory := mkMemory { store : bytes; cap : Z; lastGasCost : Z }.

Definition NewMemory : Memory := mkMemory [] 0 0.

Definition Len (m : Memory) : Z := len (store m).
Definition with_store (s : bytes) (m : Memory) : Memory := mkMemory s (cap m) (lastGasCost m).

(** [func (m *Memory) Set(offset, size uint64, value []byte)] *)
Definition Set_ (m : Memory) (offset size : Z) (value : bytes) : res Memory :=
  if 0 <? size then
    if len (store m) <? u64 (offset + size) then
      Panicked (Explicit "invalid memory: store empty")
    else
      let? dst := slice_cap (cap m) (store m) offset (u64 (offset + size)) in
      Ret (with_store (copy_at (store m) offset (take (length dst) value)) m)
  else Ret m.

(** [func (m *Memory) Set32(offset uint64, val *uint256.Int)] *)
Definition Set32 `{U : uint256.Lib} (m : Memory) (offset : Z) (val : uint256.Int) : res Memory :=
  if len (store m) <? u64 (offset + 32) then
    Panicked (Explicit "invalid memory: store empty")
  else
    let b32 := uint256.Bytes32 val in
    let? _ := slice_cap (cap m) (store m) offset (len (store m)) in
    Ret (with_store (copy_at (store m) offset b32) m).

(** [func (m *Memory) Resize(size uint64)] *)
Definition Resize (m : Memory) (size : Z) : res Memory :=
  if Len m <? size then
    let? z := make_bytes (size - Len m) in
    let n := Len m + len z in
    let c := if n <=? cap m then cap m else runtime.append_cap (cap m) n in
    Ret (mkMemory (store m ++ z) c (lastGasCost m))
  else Ret m.

(** [func (m *Memory) GetCopy(offset, size int64) (cpy []byte)] *)
Definition GetCopy (m : Memory) (offset size : Z) : res bytes :=
  if size =? 0 then Ret []
  else if offset <? len (store m) then
    let? cpy := make_bytes size in
    let? src := slice_cap (cap m) (store m) offset (i64 (offset + size)) in
    Ret (copy_at cpy 0 src)
  else Ret [].

(** [func (m *Memory) GetPtr(offset, size int64) []byte] *)
Definition GetPtr (m : Memory) (offset size : Z) : res bytes :=
  if size =? 0 then Ret []
  else if offset <? len (store m) then
    slice_cap (cap m) (store m) offset (i64 (offset + size))
  else Ret [].

Definition Data (m : Memory) : bytes := store m.

(** [func (m *Memory) Copy(dst, src, len uint64)] *)
Definition Copy (m : Memory) (dst src n : Z) : res Memory :=
  if n =? 0 then Ret m
  else
    let? _ := slice_cap (cap m) (store m) dst (len (store m)) in
    let? s := slice_cap (cap m) (store m) src (u64 (src + n)) in
    Ret (with_store (copy_at (store m) dst s) m).
End Memory.

(** * vm/common.go *)
Section Common.
Context `{U : uint256.Lib} `{CM : common.Lib}.

Definition calcMemSize64WithUint (off : uint256.Int) (length64 : Z) : Z * bool :=
  if length64 =? 0 then (0, false)
  else
    let '(offset64, overflow) := uint256.Uint64WithOverflow off in
    if overflow then (0, true)
    else
      let val := u64 (offset64 + length64) in
      (val, val <? offset64).

Definition calcMemSize64 (off l : uint256.Int) : Z * bool :=
  if negb (uint256.IsUint64 l) then (0, true)
  else calcMemSize64WithUint off (uint256.Uint64 l).

Definition getData (data : bytes) (start size : Z) : res bytes :=
  let length := len data in
  let start := if length <? start then length else start in
  let end_ := u64 (start + size) in
  let end_ := if length <? end_ then length else end_ in
  let? d := slice data start end_ in
  Ret (common.RightPadBytes d (i64 size)).

Definition toWordSize (size : Z) : Z :=
  if MaxUint64 - 31 <? size then MaxUint64 / 32 + 1
  else u64 (size + 31) / 32.

Fixpoint allZero (b : bytes) : bool :=
  match b with
  | [] => true
  | byte :: b' => if negb (byte =? 0) then false else allZero b'
  end.
End Common.

(** * Lemmas *)

(** The capacity covers the store: what every Go slice satisfies. *)
Definition mem_wf (m : Memory) : Prop := len (store m) <= cap m.

Lemma len_copy_at dst off src :
  0 <= off -> off + len src <= len dst -> len (copy_at dst off src) = len dst.
Proof.
  intros H1 H2. unfold copy_at, len in *.
  rewrite !length_app, !length_take, length_drop. lia.
Qed.

Lemma copy_at_prefix dst off src :
  0 <= off -> off + len src <= len dst ->
  copy_at dst off src
  = take (Z.to_nat off) dst ++ src ++ drop (Z.to_nat (off + len src)) dst.
Proof.
  intros H1 H2. unfold copy_at, len in *. do 2 f_equal.
  - apply take_ge. lia.
  - f_equal. lia.
Qed.

(** Reading back the written segment, and any segment disjoint from it. *)
Lemma copy_at_same dst off src :
  0 <= off -> off + len src <= len dst ->
  take (length src) (drop (Z.to_nat off) (copy_at dst off src)) = src.
Proof.
  intros H1 H2. rewrite copy_at_prefix by done. unfold len in *.
  rewrite drop_app_length' by (rewrite length_take; lia).
  by rewrite take_app_length.
Qed.

Lemma copy_at_lookup_ne dst off src (i : nat) :
  0 <= off -> off + len src <= len dst ->
  Z.of_nat i < off \/ off + len src <= Z.of_nat i ->
  copy_at dst off src !! i = dst !! i.
Proof.
  intros H1 H2 H3. rewrite copy_at_prefix by done. unfold len in *.
  destruct H3 as [H3|H3].
  - rewrite lookup_app_l by (rewrite length_take; lia).
    apply lookup_take_lt. lia.
  - rewrite lookup_app_r by (rewrite length_take; lia).
    rewrite lookup_app_r by (rewrite length_take; lia).
    rewrite lookup_drop, length_take. f_equal. lia.
Qed.

Section MemoryLemmas.
Context `{RT : runtime.Lib}.

Lemma Set_inside m offset size value :
  mem_wf m -> 0 <= offset -> 0 < size -> offset + size <= Len m -> Len m < 2 ^ 64 ->
  len value = size ->
  Set_ m offset size value = Ret (with_store (copy_at (store m) offset value) m).
Proof.
  intros Hwf H1 H2 H3 H4 H5. unfold Set_, Len, mem_wf in *.
  rewrite u64_small by (unfold is_u64; lia). zbool.
  rewrite slice_cap_inside by lia. cbn [rbind]. do 3 f_equal.
  apply take_ge. rewrite length_take, length_drop. unfold len in *. lia.
Qed.

Lemma GetPtr_inside m offset size :
  mem_wf m -> 0 <= offset -> 0 < size -> offset + size <= Len m -> Len m < 2 ^ 63 ->
  GetPtr m offset size
  = Ret (take (Z.to_nat size) (drop (Z.to_nat offset) (store m))).
Proof.
  intros Hwf H1 H2 H3 H4. unfold GetPtr, Len, mem_wf in *. zbool.
  rewrite i64_small by lia. rewrite slice_cap_inside by lia.
  by replace (offset + size - offset) with size by lia.
Qed.

Lemma GetCopy_inside m offset size :
  mem_wf m -> 0 <= offset -> 0 < size -> offset + size <= Len m ->
  Len m < 2 ^ 63 -> size <= runtime.maxAlloc ->
  GetCopy m offset size = GetPtr m offset size.
Proof.
  intros Hwf H1 H2 H3 H4 H5. rewrite GetPtr_inside by done.
  unfold GetCopy, Len, mem_wf, make_bytes in *. zbool.
  cbn [orb rbind]. rewrite i64_small by lia. rewrite slice_cap_inside by lia.
  cbn [rbind]. replace (offset + size - offset) with size by lia. f_equal.
  assert (len (take (Z.to_nat size) (drop (Z.to_nat offset) (store m))) = size) as Hl.
  { rewrite len_take; [done|]. rewrite len_drop by lia. lia. }
  rewrite copy_at_prefix; rewrite ?Hl, ?len_zeros by lia; try lia.
  cbn [Z.to_nat take app]. unfold zeros. rewrite drop_replicate.
  replace (_ - _)%nat with 0%nat by lia. by rewrite app_nil_r.
Qed.

Lemma Resize_spec `{!runtime.Spec} m size :
  mem_wf m -> 0 <= size <= runtime.maxAlloc ->
  exists m', Resize m size = Ret m' /\ mem_wf m' /\ lastGasCost m' = lastGasCost m /\
    store m' = store m ++ zeros (size - Len m) /\ Len m' = Z.max (Len m) size.
Proof.
  intros Hwf Hs. unfold Resize, make_bytes. pose proof (len_nonneg (store m)).
  unfold Len, mem_wf in *. destruct (Z.ltb_spec (len (store m)) size) as [Hlt|Hge].
  - zbool. cbn [orb rbind]. eexists; split; [done|]. cbn [store cap lastGasCost].
    rewrite len_app, len_zeros by lia.
    repeat split; [|lia].
    destruct (Z.leb_spec (len (store m) + (size - len (store m))) (cap m)); [lia|].
    apply runtime.append_cap_enough.
  - exists m. rewrite len_zeros_neg, app_nil_r by lia. repeat split; [done|lia].
Qed.
End MemoryLemmas.

(** * What the operations guarantee *)

(** The bytes [offset .. offset+size) of a memory. *)
Definition region (m : Memory) (offset size : Z) : bytes :=
  take (Z.to_nat size) (drop (Z.to_nat offset) (store m)).

(** [copy] never changes the length of its destination, so no write does. *)
Lemma length_copy_at dst off src : length (copy_at dst off src) = length dst.
Proof. unfold copy_at. rewrite !length_app, !length_take, length_drop. lia. Qed.

Lemma with_store_wf m s : mem_wf m -> len s = Len m -> mem_wf (with_store s m).
Proof. unfold mem_wf, Len. cbn. lia. Qed.

(** A write that succeeds keeps the length and the capacity. *)
Section Writes.
Context `{RT : runtime.Lib}.

Definition same_size (m m' : Memory) : Prop := len (store m') = len (store m) /\ cap m' = cap m.
Lemma same_size_wf m m' : same_size m m' -> mem_wf m -> mem_wf m'.
Proof. unfold same_size, mem_wf. intros [-> ->]. done. Qed.
Lemma copy_same_size m off src : same_size m (with_store (copy_at (store m) off src) m).
Proof. split; [|done]. unfold len. cbn. by rewrite length_copy_at. Qed.
Lemma Set_same_size m off size v m' : Set_ m off size v = Ret m' -> same_size m m'.
Proof.
  unfold Set_. destruct (0 <? size); [|by intros [= <-]]. destruct (_ <? _); [done|].
  destruct (slice_cap _ _ _ _); [|done..]. intros [= <-]. apply copy_same_size.
Qed.
Lemma Set32_same_size `{U : uint256.Lib} m off (v : uint256.Int) m' :
  Set32 m off v = Ret m' -> same_size m m'.
Proof.
  unfold Set32. destruct (_ <? _); [done|].
  destruct (slice_cap _ _ _ _); [|done..]. intros [= <-]. apply copy_same_size.
Qed.
Lemma Copy_same_size m dst src n m' : Copy m dst src n = Ret m' -> same_size m m'.
Proof.
  unfold Copy. destruct (_ =? _); [by intros [= <-]|].
  destruct (slice_cap _ _ _ _); [|done..]. cbn [rbind].
  destruct (slice_cap _ _ _ _); [|done..]. intros [= <-]. apply copy_same_size.
Qed.
Lemma store8_same_size m off v m' :
  (let? s := index_set (store m) off v in Ret (with_store s m)) = Ret m' -> same_size m m'.
Proof.
  unfold index_set. destruct (_ && _); [|done]. intros [= <-]. split; [|done].
  unfold len. cbn. by rewrite length_insert.
Qed.
Lemma Resize_wf_any `{!runtime.Spec} m n m' : Resize m n = Ret m' -> mem_wf m -> mem_wf m'.
Proof.
  unfold Resize, mem_wf. destruct (Len m <? n); [|by intros [= <-]].
  destruct (make_bytes _) as [z| |]; [|done..]. intros [= <-]. cbn. rewrite len_app.
  unfold Len. destruct (_ <=? _) eqn:E; [lia|]. intros _.
  pose proof (runtime.append_cap_enough (cap m) (len (store m) + len z)). lia.
Qed.
End Writes.

Section MemoryContract.
Context `{RT : runtime.Lib}.

(** Both readers return the bytes that [copy_at] has put there. *)
Lemma read_back m offset src :
  mem_wf m -> 0 <= offset -> 0 < len src <= runtime.maxAlloc ->
  offset + len src <= Len m -> Len m < 2 ^ 63 ->
  let m' := with_store (copy_at (store m) offset src) m in
  mem_wf m' /\ Len m' = Len m /\
  GetPtr m' offset (len src) = Ret src /\ GetCopy m' offset (len src) = Ret src.
Proof.
  intros Hwf H1 H2 H3 H4 m'.
  assert (Hl : Len m' = Len m) by (apply len_copy_at; [done|exact H3]).
  assert (Hw : mem_wf m') by (by apply with_store_wf).
  assert (Hp : GetPtr m' offset (len src) = Ret src).
  { rewrite GetPtr_inside by (done || lia). f_equal.
    replace (Z.to_nat (len src)) with (length src) by (unfold len; lia).
    by apply copy_at_same. }
  split_and!; [done..|]. by rewrite GetCopy_inside by (done || lia).
Qed.

(** C21: a memory write is read back exactly and touches nothing else: after
    [Set(offset, size, value)] inside the store, [GetPtr] and [GetCopy] of
    the region return [value], the size is unchanged and every byte outside
    the region keeps its value. *)
Theorem memory_write_read (m : Memory) offset size value :
  mem_wf m -> 0 <= offset -> 0 < size <= runtime.maxAlloc -> offset + size <= Len m ->
  Len m < 2 ^ 63 -> len value = size ->
  exists m', Set_ m offset size value = Ret m' /\ mem_wf m' /\ Len m' = Len m /\
    GetPtr m' offset size = Ret value /\ GetCopy m' offset size = Ret value /\
    forall i : nat, Z.of_nat i < offset \/ offset + size <= Z.of_nat i ->
      store m' !! i = store m !! i.
Proof.
  intros Hwf H1 H2 H3 H4 <-. rewrite Set_inside by (done || lia).
  destruct (read_back m offset value) as (? & ? & ? & ?); [done..|].
  eexists; split_and!; [done..|]. intros i Hi. by apply copy_at_lookup_ne.
Qed.

(** [Copy] moves bytes as if through a temporary, also when source and
    destination overlap: the destination region becomes what the source
    region held before, and the rest of the memory is unchanged. *)
Theorem memory_copy_moves (m : Memory) dst src n :
  mem_wf m -> 0 <= dst -> 0 <= src -> 0 < n -> dst + n <= Len m -> src + n <= Len m ->
  Len m < 2 ^ 63 ->
  exists m', Copy m dst src n = Ret m' /\ mem_wf m' /\ Len m' = Len m /\
    region m' dst n = region m src n /\
    forall i : nat, Z.of_nat i < dst \/ dst + n <= Z.of_nat i -> store m' !! i = store m !! i.
Proof.
  intros Hwf H1 H2 H3 H4 H5 H6. unfold Copy, mem_wf, Len in *. zbool.
  rewrite slice_cap_inside by lia. cbn [rbind].
  rewrite u64_small by (unfold is_u64; lia). rewrite slice_cap_inside by lia. cbn [rbind].
  replace (src + n - src) with n by lia.
  set (s := take (Z.to_nat n) (drop (Z.to_nat src) (store m))).
  assert (Hs : len s = n) by (apply len_take; rewrite len_drop; lia).
  eexists; split; [done|]. cbn. rewrite len_copy_at by lia.
  split_and!; [done..| |intros i Hi; apply copy_at_lookup_ne; lia].
  unfold region. cbn [store with_store]. fold s.
  replace (Z.to_nat n) with (length s) by (unfold len in Hs; lia). apply copy_at_same; lia.
Qed.

Context `{U : uint256.Lib} `{!uint256.Spec}.

Lemma len_Bytes32 x : len (uint256.Bytes32 x) = 32.
Proof. rewrite uint256.Bytes32_spec. unfold len. by rewrite to_be_length. Qed.

Lemma SetBytes_Bytes32 x : uint256.SetBytes (uint256.Bytes32 x) = x.
Proof.
  apply uint256.toZ_inj.
  rewrite uint256.SetBytes_spec; rewrite uint256.Bytes32_spec;
    [|apply to_be_byte|unfold len; rewrite to_be_length; lia].
  rewrite be_value_to_be. apply Z.mod_small, uint256.toZ_range.
Qed.

(** A word stored with [Set32] (MSTORE) is the word that reading the same
    32 bytes yields (MLOAD), for every 256-bit value and every offset inside
    the store. *)
Theorem memory_word_roundtrip (m : Memory) offset val :
  mem_wf m -> 0 <= offset -> offset + 32 <= Len m -> Len m < 2 ^ 63 ->
  32 <= runtime.maxAlloc ->
  exists m' w, Set32 m offset val = Ret m' /\ mem_wf m' /\ Len m' = Len m /\
    GetPtr m' offset 32 = Ret w /\ uint256.SetBytes w = val.
Proof.
  intros Hwf H1 H2 H3 H4. destruct (read_back m offset (uint256.Bytes32 val))
    as (Hw & Hl & Hp & _); rewrite ?len_Bytes32 in *; try done.
  unfold Set32. rewrite u64_small by (unfold is_u64, Len in *; lia).
  unfold Len, mem_wf in *. zbool. rewrite slice_cap_inside by lia. cbn [rbind].
  eexists _, (uint256.Bytes32 val). split_and!; [done..|]. apply SetBytes_Bytes32.
Qed.

Lemma calcMemSize64_value (off l : uint256.Int) :
  calcMemSize64 off l =
    if uint256.toZ l =? 0 then (0, false)
    else if uint256.toZ off + uint256.toZ l <? 2 ^ 64
         then (uint256.toZ off + uint256.toZ l, false)
         else if (2 ^ 64 <=? uint256.toZ off) || (2 ^ 64 <=? uint256.toZ l) then (0, true)
         else (u64 (uint256.toZ off + uint256.toZ l), true).
Proof.
  unfold calcMemSize64, calcMemSize64WithUint.
  rewrite uint256.IsUint64_spec, uint256.Uint64_spec, uint256.Uint64WithOverflow_spec.
  pose proof (uint256.toZ_range off). pose proof (uint256.toZ_range l).
  destruct (Z.ltb_spec (uint256.toZ l) (2 ^ 64)) as [Hl|Hl]; cbn [negb];
    [|by zbool; rewrite orb_true_r].
  rewrite (Z.mod_small (uint256.toZ l)) by lia.
  destruct (Z.eqb_spec (uint256.toZ l) 0); [done|].
  destruct (Z.leb_spec (2 ^ 64) (uint256.toZ off)); [by zbool|].
  rewrite (Z.mod_small (uint256.toZ off)) by lia.
  destruct (Z.ltb_spec (uint256.toZ off + uint256.toZ l) (2 ^ 64)) as [Hs|Hs].
  - rewrite u64_small by (unfold is_u64; lia). by zbool.
  - zbool. cbn [orb]. f_equal. unfold u64.
    rewrite (Z.mod_eq _ (2 ^ 64)) by lia.
    replace (_ / _) with 1; [apply Z.ltb_lt; lia|].
    apply (Z.div_unique _ _ _ (uint256.toZ off + uint256.toZ l - 2 ^ 64)); lia.
Qed.

(** C22: [calcMemSize64] is exact: it reports overflow precisely when a region
    that is not empty ends above 2^64-1 (or its length does not fit), and
    otherwise returns the end of the region, 0 for an empty one. *)
Theorem calcMemSize64_exact (off l : uint256.Int) :
  calcMemSize64 off l =
    if uint256.toZ l =? 0 then (0, false)
    else if uint256.toZ off + uint256.toZ l <? 2 ^ 64
         then (uint256.toZ off + uint256.toZ l, false)
         else if (2 ^ 64 <=? uint256.toZ off) || (2 ^ 64 <=? uint256.toZ l) then (0, true)
         else (u64 (uint256.toZ off + uint256.toZ l), true).
Proof. apply calcMemSize64_value. Qed.

(** A region whose end was computed without overflow ends there. *)
Lemma calcMemSize64_region off l n :
  calcMemSize64 off l = (n, false) ->
  is_u64 n /\ (uint256.toZ l = 0 \/ uint256.toZ off + uint256.toZ l = n).
Proof.
  rewrite calcMemSize64_value. pose proof (uint256.toZ_range off). pose proof (uint256.toZ_range l).
  destruct (Z.eqb_spec (uint256.toZ l) 0) as [E|E].
  - intros [= <-]. split; [by vm_compute|by left].
  - destruct (Z.ltb_spec (uint256.toZ off + uint256.toZ l) (2 ^ 64)).
    + intros [= <-]. split; [unfold is_u64; lia|by right].
    + by destruct (_ || _).
Qed.
End MemoryContract.

Section CommonContract.
Context `{CM : common.Lib} `{!common.Spec}.

Lemma toWordSize_ceil size : is_u64 size -> toWordSize size = (size + 31) / 32.
Proof.
  unfold is_u64, toWordSize, MaxUint64. intros Hs.
  destruct (Z.ltb_spec (2 ^ 64 - 1 - 31) size).
  - change ((2 ^ 64 - 1) / 32 + 1) with (2 ^ 59).
    apply (Z.div_unique _ _ _ (size - (2 ^ 64 - 31))); lia.
  - by rewrite u64_small by (unfold is_u64; lia).
Qed.

(** C23: [getData] reads a data segment padded with zeros: the result has the
    requested length, byte [i] is byte [start+i] of the data where there is
    one and zero past its end, for every start (also past the end of the
    data) and every size that does not wrap around. *)
Theorem getData_padded (data : bytes) start size :
  0 <= start -> 0 <= size -> size < 2 ^ 63 -> len data + size < 2 ^ 64 ->
  exists d, getData data start size = Ret d /\ len d = size /\
    forall i : nat, Z.of_nat i < size ->
      d !! i = Some (default 0 (data !! (Z.to_nat start + i)%nat)).
Proof.
  intros H1 H2 H3 H4. unfold getData. pose proof (len_nonneg data) as H0.
  set (st := if len data <? start then len data else start).
  assert (Hst : st = Z.min (len data) start)
    by (unfold st; destruct (Z.ltb_spec (len data) start); lia).
  clearbody st. rewrite u64_small by (unfold is_u64; lia).
  set (e := if len data <? st + size then len data else st + size).
  assert (He : e = Z.min (len data) (st + size))
    by (unfold e; destruct (Z.ltb_spec (len data) (st + size)); lia).
  clearbody e. rewrite slice_inside by lia. cbn [rbind].
  rewrite common.RightPadBytes_spec, i64_small by lia.
  set (d := take _ _). assert (Hd : len d = e - st)
    by (apply len_take; rewrite len_drop; lia).
  eexists; split; [done|]. rewrite len_app, len_zeros, Hd by lia. split; [lia|].
  intros i Hi. rewrite lookup_app. destruct (d !! i) as [x|] eqn:Ex.
  - pose proof (lookup_lt_Some _ _ _ Ex) as Hlt. unfold d in Ex.
    apply lookup_take_Some in Ex as [Ex _]. rewrite lookup_drop in Ex.
    replace (Z.to_nat start) with (Z.to_nat st) by (unfold len in *; lia). by rewrite Ex.
  - apply lookup_ge_None in Ex.
    assert (Hi' : (length data <= Z.to_nat start + i)%nat) by (unfold len in *; lia).
    rewrite (lookup_ge_None_2 _ _ Hi'). apply lookup_replicate.
    split; [done|]. unfold len in *. lia.
Qed.
End CommonContract.

(** * Witnesses *)
From S2P Require Import Instances.

(** Two words of memory with a mark at byte 3. *)
Definition twoWords : Memory := mkMemory (<[3%nat := 9]> (zeros 64)) 64 6.

Lemma twoWords_wf : mem_wf twoWords.
Proof. done. Defined.

Lemma memory_write_read_witness :
  exists m', Set_ twoWords 1 2 [5; 6] = Ret m' /\ GetPtr m' 1 2 = Ret [5; 6].
Proof.
  destruct (memory_write_read twoWords 1 2 [5; 6]) as (m' & H & _ & _ & Hp & _);
    [exact twoWords_wf|lia|split; [lia|done]|done|done|done|].
  exists m'. exact (conj H Hp).
Defined.

Lemma memory_copy_moves_witness :
  exists m', Copy twoWords 4 2 8 = Ret m' /\ region m' 4 8 = region twoWords 2 8.
Proof.
  destruct (memory_copy_moves twoWords 4 2 8) as (m' & H & _ & _ & Hp & _);
    [exact twoWords_wf|lia|lia|lia|done|done|done|].
  exists m'. exact (conj H Hp).
Defined.

Lemma memory_word_roundtrip_witness :
  exists m' w, Set32 twoWords 7 (uint256.NewInt 258) = Ret m' /\ GetPtr m' 7 32 = Ret w /\
    uint256.SetBytes w = uint256.NewInt 258.
Proof.
  destruct (memory_word_roundtrip twoWords 7 (uint256.NewInt 258)) as (m' & w & H & _ & _ & Hp & Hw);
    [exact twoWords_wf|lia|done|done|done|].
  exists m', w. exact (conj H (conj Hp Hw)).
Defined.

Lemma calcMemSize64_exact_witness :
  calcMemSize64 (uint256.NewInt (2 ^ 64 - 1)) (uint256.NewInt 1) = (0, true).
Proof. rewrite calcMemSize64_exact. reflexivity. Defined.

Lemma getData_padded_witness :
  exists d, getData [1; 2; 3] 2 4 = Ret d /\ len d = 4.
Proof.
  destruct (getData_padded [1; 2; 3] 2 4) as (d & H & Hl & _); [lia|lia|lia|done|].
  exists d. exact (conj H Hl).
Defined.
