(* ===== verification/Analysis.v ===== *)
(** JUMPDEST analysis (vm/analysis.go): the bit vector that marks the push-data
    bytes of a program, and its correctness against the instruction layout. *)
From S2P Require Import Prelude Opcodes.

(** [type bitvec []byte] *)
Abbreviation bitvec := (list Z).

Definition set2BitsMask : Z := 0x3.   (* 0b11 *)
Definition set3BitsMask : Z := 0x7.   (* 0b111 *)
Definition set4BitsMask : Z := 0xf.   (* 0b1111 *)
Definition set5BitsMask : Z := 0x1f.   (* 0b11111 *)
Definition set6BitsMask : Z := 0x3f.   (* 0b111111 *)
Definition set7BitsMask : Z := 0x7f.   (* 0b1111111 *)

(** [bits[i] |= x] *)
Definition or_at (bits : bitvec) (i x : Z) : res bitvec :=
  let? b := index bits i in
  index_set bits i (Z.lor b x).

Definition set1 (bits : bitvec) (pos : Z) : res bitvec :=
  or_at bits (pos / 8) (u8 (Z.shiftl 1 (pos mod 8))).

Definition setN (bits : bitvec) (flag pos : Z) : res bitvec :=
  let a := u16 (Z.shiftl flag (pos mod 8)) in
  let? bits := or_at bits (pos / 8) (u8 a) in
  let b := u8 (Z.shiftr a 8) in
  if negb (b =? 0) then index_set bits (pos / 8 + 1) b else Ret bits.

(** [^a] on a byte. *)
Definition not8 (a : Z) : Z := u8 (Z.lnot a).

Definition set8 (bits : bitvec) (pos : Z) : res bitvec :=
  let a := u8 (Z.shiftl 0xFF (pos mod 8)) in
  let? bits := or_at bits (pos / 8) a in
  index_set bits (pos / 8 + 1) (not8 a).

Definition set16 (bits : bitvec) (pos : Z) : res bitvec :=
  let a := u8 (Z.shiftl 0xFF (pos mod 8)) in
  let? bits := or_at bits (pos / 8) a in
  let? bits := index_set bits (pos / 8 + 1) 0xFF in
  index_set bits (pos / 8 + 2) (not8 a).

Definition codeSegment (bits : bitvec) (pos : Z) : res bool :=
  let? b := index bits (pos / 8) in
  Ret (Z.land (Z.shiftr b (pos mod 8)) 1 =? 0).

(** [for ; numbits >= 16; numbits -= 16 { bits.set16(pc); pc += 16 }]: the
    result is [bits], [pc] and [numbits] after the loop. *)
Fixpoint loop16 (fuel : nat) (bits : bitvec) (pc numbits : Z) : res (bitvec * Z * Z) :=
  if 16 <=? numbits then
    match fuel with
    | O => OutOfFuel
    | S n =>
        let? bits := set16 bits pc in
        loop16 n bits (u64 (pc + 16)) (u8 (numbits - 16))
    end
  else Ret (bits, pc, numbits).

Fixpoint loop8 (fuel : nat) (bits : bitvec) (pc numbits : Z) : res (bitvec * Z * Z) :=
  if 8 <=? numbits then
    match fuel with
    | O => OutOfFuel
    | S n =>
        let? bits := set8 bits pc in
        loop8 n bits (u64 (pc + 8)) (u8 (numbits - 8))
    end
  else Ret (bits, pc, numbits).

(** The [switch numbits] of [codeBitmapInternal]. *)
Definition setRest (bits : bitvec) (pc numbits : Z) : res (bitvec * Z) :=
  if numbits =? 1 then let? b := set1 bits pc in Ret (b, u64 (pc + 1))
  else if numbits =? 2 then let? b := setN bits set2BitsMask pc in Ret (b, u64 (pc + 2))
  else if numbits =? 3 then let? b := setN bits set3BitsMask pc in Ret (b, u64 (pc + 3))
  else if numbits =? 4 then let? b := setN bits set4BitsMask pc in Ret (b, u64 (pc + 4))
  else if numbits =? 5 then let? b := setN bits set5BitsMask pc in Ret (b, u64 (pc + 5))
  else if numbits =? 6 then let? b := setN bits set6BitsMask pc in Ret (b, u64 (pc + 6))
  else if numbits =? 7 then let? b := setN bits set7BitsMask pc in Ret (b, u64 (pc + 7))
  else Ret (bits, pc).

(** The loop of [codeBitmapInternal] from [pc] on. Every iteration advances
    [pc], so the length of the code is enough fuel. *)
Fixpoint codeBitmapLoop (fuel : nat) (code : bytes) (bits : bitvec) (pc : Z) : res bitvec :=
  if pc <? len code then
    match fuel with
    | O => OutOfFuel
    | S n =>
        let? op := index code pc in
        let pc := u64 (pc + 1) in
        if i8 op <? i8 PUSH1 then codeBitmapLoop n code bits pc
        else
          let numbits := u8 (op - PUSH1 + 1) in
          let? (bits, pc, numbits) :=
            (if 8 <=? numbits then
               let? (bits, pc, numbits) := loop16 16 bits pc numbits in
               loop8 32 bits pc numbits
             else Ret (bits, pc, numbits)) in
          let? (bits, pc) := setRest bits pc numbits in
          codeBitmapLoop n code bits pc
    end
  else Ret bits.

Definition codeBitmapInternal (code : bytes) (bits : bitvec) : res bitvec :=
  codeBitmapLoop (length code) code bits 0.

Definition codeBitmap (code : bytes) : res bitvec :=
  codeBitmapInternal code (zeros (len code / 8 + 1 + 4)).

(** * Specification: the instruction layout

    [instr_start code pc]: decoding instructions one after the other from the
    start of [code] reaches an instruction at [pc]. *)
Definition push_len (op : OpCode) : Z := if IsPush op then op - PUSH1 + 1 else 0.

Inductive instr_start (code : bytes) : Z -> Prop :=
  | start_zero : instr_start code 0
  | start_next pc op :
      instr_start code pc -> code !! Z.to_nat pc = Some op ->
      instr_start code (pc + 1 + push_len op).

(** * Bits of a bit vector *)

Definition bit (bits : bitvec) (i : Z) : bool :=
  Z.testbit (nth (Z.to_nat (i / 8)) bits 0) (i mod 8).

Definition clean_from (bits : bitvec) (pos : Z) : Prop :=
  forall i, pos <= i -> bit bits i = false.

(** [bits'] is [bits] with the [n] bits from [pos] on set. *)
Definition sets (bits : bitvec) (pos n : Z) (bits' : bitvec) : Prop :=
  len bits' = len bits /\
  forall i, 0 <= i -> bit bits' i = bit bits i || ((pos <=? i) && (i <? pos + n)).

Lemma nth_insert (bits : bitvec) (k j : nat) v :
  (k < length bits)%nat ->
  nth j (<[k := v]> bits) 0 = if decide (j = k) then v else nth j bits 0.
Proof.
  intros Hk. rewrite !nth_lookup. destruct (decide (j = k)) as [->|Hne].
  - by rewrite list_lookup_insert_eq by done.
  - by rewrite list_lookup_insert_ne by done.
Qed.

Lemma bit_insert bits k v i :
  0 <= k < len bits -> 0 <= i ->
  bit (<[Z.to_nat k := v]> bits) i = if i / 8 =? k then Z.testbit v (i mod 8) else bit bits i.
Proof.
  intros Hk Hi. unfold bit, len in *. rewrite nth_insert by lia.
  pose proof (Z.div_pos i 8 Hi ltac:(lia)).
  destruct (decide _), (Z.eqb_spec (i / 8) k); try done; lia.
Qed.

Lemma testbit_u8 x j : 0 <= j -> Z.testbit (u8 x) j = (j <? 8) && Z.testbit x j.
Proof.
  intros. unfold u8. destruct (Z.ltb_spec j 8).
  - by rewrite Z.mod_pow2_bits_low by lia.
  - by rewrite Z.mod_pow2_bits_high by lia.
Qed.

Lemma testbit_u16 x j : 0 <= j -> Z.testbit (u16 x) j = (j <? 16) && Z.testbit x j.
Proof.
  intros. unfold u16. destruct (Z.ltb_spec j 16).
  - by rewrite Z.mod_pow2_bits_low by lia.
  - by rewrite Z.mod_pow2_bits_high by lia.
Qed.

Lemma testbit_ones n j : 0 <= n -> 0 <= j -> Z.testbit (Z.ones n) j = (j <? n).
Proof.
  intros. destruct (Z.ltb_spec j n); [by apply Z.ones_spec_low | by apply Z.ones_spec_high].
Qed.

Lemma testbit_shifted n r j :
  0 <= n -> 0 <= r -> 0 <= j ->
  Z.testbit (Z.shiftl (Z.ones n) r) j = (r <=? j) && (j <? r + n).
Proof.
  intros. rewrite Z.shiftl_spec by lia. destruct (Z.leb_spec r j).
  - rewrite testbit_ones by lia. destruct (Z.ltb_spec (j - r) n), (Z.ltb_spec j (r + n));
      try done; lia.
  - by rewrite Z.testbit_neg_r by lia.
Qed.

Lemma or_at_spec bits k x :
  0 <= k < len bits ->
  exists bits', or_at bits k x = Ret bits' /\ len bits' = len bits /\
    forall i, 0 <= i ->
      bit bits' i = bit bits i || ((i / 8 =? k) && Z.testbit x (i mod 8)).
Proof.
  intros Hk. unfold or_at.
  destruct (lookup_lt_is_Some_2 bits (Z.to_nat k)) as [b Hb]; [unfold len in *; lia|].
  rewrite (index_lookup _ _ b) by (done || lia). cbn [rbind].
  rewrite index_set_inside by done. eexists; split; [done|].
  split; [by unfold len; rewrite length_insert|]. intros i Hi.
  rewrite bit_insert by done. destruct (Z.eqb_spec (i / 8) k) as [Ek|]; cbn [andb].
  - rewrite Z.lor_spec. f_equal. unfold bit. rewrite Ek, nth_lookup, Hb. done.
  - by rewrite orb_false_r.
Qed.

(** Position [i] is in the byte of [pos] or in one of the next two. *)
Lemma pos_split i pos :
  i = 8 * (i / 8) + i mod 8 /\ 0 <= i mod 8 < 8 /\
  pos = 8 * (pos / 8) + pos mod 8 /\ 0 <= pos mod 8 < 8.
Proof.
  pose proof (Z.div_mod i 8 ltac:(lia)). pose proof (Z.mod_pos_bound i 8 ltac:(lia)).
  pose proof (Z.div_mod pos 8 ltac:(lia)). pose proof (Z.mod_pos_bound pos 8 ltac:(lia)).
  lia.
Qed.

(** Decide the comparisons left in a boolean goal by arithmetic. *)
Ltac zcases :=
  repeat match goal with
  | |- context [?a =? ?b] => destruct (Z.eqb_spec a b)
  | |- context [?a <=? ?b] => destruct (Z.leb_spec a b)
  | |- context [?a <? ?b] => destruct (Z.ltb_spec a b)
  end; cbn [andb orb negb]; rewrite ?orb_false_r, ?orb_true_r, ?andb_false_r, ?andb_true_r;
  try done; try (exfalso; lia).

Lemma set1_spec bits pos :
  0 <= pos -> pos / 8 < len bits ->
  exists bits', set1 bits pos = Ret bits' /\ sets bits pos 1 bits'.
Proof.
  intros Hp Hl. unfold set1. pose proof (Z.div_pos pos 8 Hp ltac:(lia)).
  destruct (or_at_spec bits (pos / 8) (u8 (Z.shiftl 1 (pos mod 8)))) as (b & -> & Hlen & Hb);
    [lia|]. eexists; split; [done|]. split; [done|]. intros i Hi. rewrite Hb by done. f_equal.
  destruct (pos_split i pos) as (? & ? & ? & ?).
  rewrite testbit_u8 by lia. change 1 with (Z.ones 1) at 1.
  rewrite testbit_shifted by lia. zcases.
Qed.

Lemma clean_bit bits pos i : clean_from bits pos -> pos <= i -> bit bits i = false.
Proof. intros H Hi. by apply H. Qed.

Lemma setN_spec bits n pos :
  2 <= n <= 7 -> 0 <= pos -> pos / 8 + 1 < len bits -> clean_from bits pos ->
  exists bits', setN bits (Z.ones n) pos = Ret bits' /\ sets bits pos n bits'.
Proof.
  intros Hn Hp Hl Hc. unfold setN. pose proof (Z.div_pos pos 8 Hp ltac:(lia)).
  set (a := u16 (Z.shiftl (Z.ones n) (pos mod 8))).
  assert (forall j, 0 <= j -> Z.testbit a j = (pos mod 8 <=? j) && (j <? pos mod 8 + n)) as Ha.
  { intros j Hj. destruct (pos_split j pos) as (? & ? & ? & ?). unfold a.
    rewrite testbit_u16, testbit_shifted by lia. zcases. }
  destruct (or_at_spec bits (pos / 8) (u8 a)) as (b & -> & Hlen & Hb); [lia|]. cbn [rbind].
  assert (forall j, 0 <= j -> Z.testbit (u8 (Z.shiftr a 8)) j = (j <? pos mod 8 + n - 8)) as Hh.
  { intros j Hj. destruct (pos_split j pos) as (? & ? & ? & ?).
    rewrite testbit_u8, Z.shiftr_spec, Ha by lia. zcases. }
  destruct (Z.eqb_spec (u8 (Z.shiftr a 8)) 0) as [E|E]; cbn [negb].
  - eexists; split; [done|]. split; [done|]. intros i Hi. rewrite Hb by done. f_equal.
    destruct (pos_split i pos) as (? & ? & ? & ?).
    pose proof (Hh 0 ltac:(lia)) as Hh0. rewrite E, Z.testbit_0_l in Hh0.
    symmetry in Hh0. apply Z.ltb_ge in Hh0.
    rewrite testbit_u8, Ha by lia. zcases.
  - rewrite index_set_inside by lia. eexists; split; [done|].
    split; [unfold len in *; rewrite length_insert; lia|].
    intros i Hi. rewrite bit_insert by lia.
    destruct (pos_split i pos) as (? & ? & ? & ?).
    destruct (Z.eqb_spec (i / 8) (pos / 8 + 1)) as [Eq|Ne].
    + rewrite Hh by lia. rewrite (clean_bit bits pos) by (done || lia). zcases.
    + rewrite Hb by lia. f_equal. rewrite testbit_u8, Ha by lia. zcases.
Qed.

Lemma not8_spec a r :
  0 <= r < 8 -> a = u8 (Z.shiftl 0xFF r) ->
  forall j, 0 <= j < 8 ->
    Z.testbit a j = (r <=? j) /\ Z.testbit (not8 a) j = (j <? r).
Proof.
  intros Hr -> j Hj. unfold not8. change 0xFF with (Z.ones 8).
  rewrite !testbit_u8, Z.lnot_spec, testbit_u8, testbit_shifted by lia.
  split; zcases.
Qed.

Lemma set8_spec bits pos :
  0 <= pos -> pos / 8 + 1 < len bits -> clean_from bits pos ->
  exists bits', set8 bits pos = Ret bits' /\ sets bits pos 8 bits'.
Proof.
  intros Hp Hl Hc. unfold set8. pose proof (Z.div_pos pos 8 Hp ltac:(lia)).
  set (a := u8 (Z.shiftl 0xFF (pos mod 8))).
  destruct (or_at_spec bits (pos / 8) a) as (b & -> & Hlen & Hb); [lia|]. cbn [rbind].
  rewrite index_set_inside by lia. eexists; split; [done|].
  split; [unfold len in *; rewrite length_insert; lia|].
  intros i Hi. rewrite bit_insert by lia.
  destruct (pos_split i pos) as (? & ? & ? & ?).
  destruct (not8_spec a (pos mod 8) ltac:(lia) eq_refl (i mod 8) ltac:(lia)) as [Ha Hn].
  rewrite Hn. destruct (Z.eqb_spec (i / 8) (pos / 8 + 1)) as [Eq|Ne].
  - rewrite (clean_bit bits pos) by (done || lia). zcases.
  - rewrite Hb by lia. f_equal. rewrite Ha. zcases.
Qed.

Lemma set16_spec bits pos :
  0 <= pos -> pos / 8 + 2 < len bits -> clean_from bits pos ->
  exists bits', set16 bits pos = Ret bits' /\ sets bits pos 16 bits'.
Proof.
  intros Hp Hl Hc. unfold set16. pose proof (Z.div_pos pos 8 Hp ltac:(lia)).
  set (a := u8 (Z.shiftl 0xFF (pos mod 8))).
  destruct (or_at_spec bits (pos / 8) a) as (b & -> & Hlen & Hb); [lia|]. cbn [rbind].
  rewrite index_set_inside by lia. cbn [rbind].
  rewrite index_set_inside by (unfold len in *; rewrite length_insert; lia).
  eexists; split; [done|]. split; [unfold len in *; rewrite !length_insert; lia|].
  intros i Hi. rewrite bit_insert by (unfold len in *; rewrite ?length_insert; lia).
  rewrite bit_insert by lia.
  destruct (pos_split i pos) as (? & ? & ? & ?).
  destruct (not8_spec a (pos mod 8) ltac:(lia) eq_refl (i mod 8) ltac:(lia)) as [Ha Hn].
  rewrite Hn. change 0xFF with (Z.ones 8). rewrite testbit_ones by lia.
  destruct (Z.eqb_spec (i / 8) (pos / 8 + 2)); [|destruct (Z.eqb_spec (i / 8) (pos / 8 + 1))].
  - rewrite (clean_bit bits pos) by (done || lia). zcases.
  - rewrite (clean_bit bits pos) by (done || lia). zcases.
  - rewrite Hb by lia. f_equal. rewrite Ha. zcases.
Qed.

Lemma sets_trans bits pos n m b1 b2 :
  0 <= n -> 0 <= m -> sets bits pos n b1 -> sets b1 (pos + n) m b2 -> sets bits pos (n + m) b2.
Proof.
  intros Hn Hm [L1 H1] [L2 H2]. split; [lia|]. intros i Hi.
  rewrite H2, H1 by done. destruct (bit bits i); zcases.
Qed.

Lemma sets_clean bits pos n b :
  0 <= pos -> 0 <= n -> clean_from bits pos -> sets bits pos n b -> clean_from b (pos + n).
Proof.
  intros Hp Hn Hc [_ H] i Hi. rewrite H by lia.
  rewrite (clean_bit bits pos) by (done || lia). zcases.
Qed.

Lemma sets_0 bits pos : sets bits pos 0 bits.
Proof. split; [done|]. intros. zcases. Qed.

(** * The loops *)

Lemma loop16_spec fuel bits pc n :
  (2 <= fuel)%nat -> 0 <= n <= 32 -> 0 <= pc -> pc / 8 + 4 < len bits -> pc < 2 ^ 63 ->
  clean_from bits pc ->
  exists b, loop16 fuel bits pc n = Ret (b, pc + 16 * (n / 16), n mod 16) /\
            sets bits pc (16 * (n / 16)) b.
Proof.
  intros Hf Hn Hp Hl Hb Hc. destruct fuel as [|[|fuel]]; [lia..|]. cbn [loop16].
  assert (0 <= n < 16 \/ 16 <= n < 32 \/ n = 32) as [H|[H|H]] by lia; zbool.
  - replace (n / 16) with 0 by (symmetry; apply Z.div_small; lia).
    rewrite Z.mod_small, Z.mul_0_r, Z.add_0_r by lia. eexists; split; [done|]. apply sets_0.
  - destruct (set16_spec bits pc) as (b & -> & Hb1); [lia..|done|]. cbn [rbind].
    unfold u8. rewrite (Z.mod_small (n - 16) (2 ^ 8)) by lia. zbool.
    rewrite u64_small by (unfold is_u64; lia).
    replace (n / 16) with 1 by (apply Z.div_unique with (n - 16); lia).
    replace (n mod 16) with (n - 16) by (apply Z.mod_unique with 1; lia).
    eexists; split; [done|]. done.
  - subst n. change (u8 (32 - 16)) with 16. zbool. change (u8 (16 - 16)) with 0.
    destruct (set16_spec bits pc) as (b & -> & Hb1); [lia..|done|]. cbn [rbind].
    rewrite u64_small by (unfold is_u64; lia).
    destruct (set16_spec b (pc + 16)) as (b' & -> & Hb2).
    { lia. }
    { replace (pc + 16) with (pc + 2 * 8) by lia. rewrite Z.div_add by lia.
      destruct Hb1; lia. }
    { apply (sets_clean bits); [lia..|done|done]. }
    cbn [rbind]. rewrite u64_small by (unfold is_u64; lia).
    change (32 / 16) with 2. change (32 mod 16) with 0.
    replace (pc + 16 + 16) with (pc + 16 * 2) by lia.
    exists b'. split; [by destruct fuel|]. change (16 * 2) with (16 + 16).
    by eapply sets_trans.
Qed.

Lemma loop8_spec fuel bits pc n :
  (1 <= fuel)%nat -> 0 <= n < 16 -> 0 <= pc -> (8 <= n -> pc / 8 + 1 < len bits) -> pc < 2 ^ 63 + 100 ->
  clean_from bits pc ->
  exists b, loop8 fuel bits pc n = Ret (b, pc + 8 * (n / 8), n mod 8) /\
            sets bits pc (8 * (n / 8)) b.
Proof.
  intros Hf Hn Hp Hl Hb Hc. destruct fuel as [|fuel]; [lia|]. cbn [loop8].
  assert (0 <= n < 8 \/ 8 <= n < 16) as [H|H] by lia; zbool.
  - replace (n / 8) with 0 by (symmetry; apply Z.div_small; lia).
    rewrite Z.mod_small, Z.mul_0_r, Z.add_0_r by lia. eexists; split; [done|]. apply sets_0.
  - destruct (set8_spec bits pc) as (b & -> & Hb1); [lia..|done|]. cbn [rbind].
    unfold u8. rewrite (Z.mod_small (n - 8) (2 ^ 8)) by lia.
    rewrite u64_small by (unfold is_u64; lia).
    replace (n / 8) with 1 by (apply Z.div_unique with (n - 8); lia).
    replace (n mod 8) with (n - 8) by (apply Z.mod_unique with 1; lia).
    exists b. split; [|done]. destruct fuel; cbn [loop8]; by zbool.
Qed.

Lemma setRest_spec bits pc n :
  0 <= n < 8 -> 0 <= pc -> (1 <= n -> pc / 8 + 1 < len bits) -> pc < 2 ^ 63 + 100 -> clean_from bits pc ->
  exists b, setRest bits pc n = Ret (b, pc + n) /\ sets bits pc n b.
Proof.
  intros Hn Hp Hl Hb Hc.
  assert (n = 0 \/ n = 1 \/ n = 2 \/ n = 3 \/ n = 4 \/ n = 5 \/ n = 6 \/ n = 7) as Hcases by lia.
  unfold setRest. destruct Hcases as [->|[->|Hcases]]; cbn [Z.eqb Pos.eqb].
  - rewrite Z.add_0_r. eexists; split; [done|]. apply sets_0.
  - destruct (set1_spec bits pc) as (b & -> & Hb1); [lia..|]. cbn [rbind].
    rewrite u64_small by (unfold is_u64; lia). by eexists.
  - destruct (setN_spec bits n pc) as (b & Hs & Hb1); [lia..|done|].
    exists b. split; [|done].
    destruct Hcases as [-> | [-> | [-> | [-> | [-> | ->]]]]]; cbn [Z.eqb Pos.eqb];
      match goal with |- context [setN bits ?m pc] =>
        match type of Hs with setN bits ?o pc = _ => change m with o end end;
      rewrite Hs; cbn [rbind]; by rewrite u64_small by (unfold is_u64; lia).
Qed.

(** The work of one PUSH instruction with [n] data bytes. *)
Lemma push_bits_spec bits pc n :
  1 <= n <= 32 -> 0 <= pc -> pc / 8 + 4 < len bits -> pc < 2 ^ 63 -> clean_from bits pc ->
  exists b,
    rbind (if 8 <=? n then rbind (loop16 16 bits pc n) (fun '(bits, pc, n) => loop8 32 bits pc n)
           else Ret (bits, pc, n))
          (fun '(bits, pc, n) => setRest bits pc n) = Ret (b, pc + n) /\
    sets bits pc n b.
Proof.
  intros Hn Hp Hl Hb Hc. pose proof (Z.div_mod n 16 ltac:(lia)).
  pose proof (Z.mod_pos_bound n 16 ltac:(lia)).
  destruct (Z.leb_spec 8 n) as [H8|H8]; cbn [rbind].
  - destruct (loop16_spec 16 bits pc n) as (b1 & -> & S1); [lia..|done|]. cbn [rbind].
    set (p1 := pc + 16 * (n / 16)) in *. set (n1 := n mod 16) in *.
    assert (0 <= n / 16) by (apply Z.div_pos; lia).
    assert (p1 / 8 = pc / 8 + 2 * (n / 16)) as Hd1.
    { unfold p1. replace (pc + 16 * (n / 16)) with (pc + 2 * (n / 16) * 8) by lia.
      by rewrite Z.div_add by lia. }
    assert (clean_from b1 p1) as C1 by (apply (sets_clean bits); [lia..|done|done]).
    destruct S1 as [L1 S1]. pose proof (Z.div_mod n1 8 ltac:(lia)).
    pose proof (Z.mod_pos_bound n1 8 ltac:(lia)).
    assert (0 <= n1 / 8) by (apply Z.div_pos; lia).
    assert (n / 16 <= 1 \/ n = 32) as Hsmall by lia.
    destruct (loop8_spec 32 b1 p1 n1) as (b2 & -> & S2); [lia..|done|]. cbn [rbind].
    set (p2 := p1 + 8 * (n1 / 8)) in *. set (n2 := n1 mod 8) in *.
    assert (p2 / 8 = p1 / 8 + n1 / 8) as Hd2.
    { unfold p2. replace (p1 + 8 * (n1 / 8)) with (p1 + n1 / 8 * 8) by lia.
      by rewrite Z.div_add by lia. }
    assert (clean_from b2 p2) as C2 by (apply (sets_clean b1); [lia..|done|done]).
    destruct S2 as [L2 S2].
    destruct (setRest_spec b2 p2 n2) as (b3 & -> & S3); [lia..|done|].
    exists b3. replace (p2 + n2) with (pc + n) by lia. split; [done|].
    replace n with (16 * (n / 16) + (8 * (n1 / 8) + n2)) by lia.
    eapply sets_trans; [lia..|by split|]. eapply sets_trans; [lia..|by split|done].
  - destruct (setRest_spec bits pc n) as (b & -> & S1); [lia..|done|]. by exists b.
Qed.

Lemma not_push_iff op : is_byte op -> (i8 op <? i8 PUSH1) = negb (IsPush op).
Proof.
  unfold is_byte, IsPush. change (i8 PUSH1) with 96. change PUSH1 with 96.
  change PUSH32 with 127. intros Hop. unfold i8.
  assert (0 <= op < 128 \/ 128 <= op < 256) as [H|H] by lia.
  - rewrite Z.mod_small by lia. zcases.
  - replace ((op + 2 ^ 7) mod 2 ^ 8) with (op - 128); [zcases|].
    apply Z.mod_unique with 1; lia.
Qed.

(** * Layout *)

Lemma push_len_range op : 0 <= push_len op <= 32.
Proof.
  unfold push_len, IsPush. change PUSH1 with 96. change PUSH32 with 127.
  destruct (_ && _) eqn:E; zprop; lia.
Qed.

Lemma instr_start_nonneg code pc : instr_start code pc -> 0 <= pc.
Proof.
  induction 1 as [|pc op _ IH _]; [lia|]. pose proof (push_len_range op). lia.
Qed.

(** Two instruction starts never overlap: the second one is not inside the
    push data of the first. *)
Lemma instr_start_sep code p q op :
  instr_start code p -> instr_start code q -> code !! Z.to_nat p = Some op -> p < q ->
  p + 1 + push_len op <= q.
Proof.
  intros Hp Hq. pose proof (instr_start_nonneg _ _ Hq) as Hq0.
  revert p op Hp. revert Hq. pattern q. apply (Zlt_0_ind); [|exact Hq0]. clear q Hq0.
  intros q IH _ Hq p op Hp Hop Hlt. destruct Hq as [|q0 op0 Hq0 Hop0].
  - pose proof (instr_start_nonneg _ _ Hp). lia.
  - pose proof (push_len_range op0). pose proof (instr_start_nonneg _ _ Hq0).
    pose proof (instr_start_nonneg _ _ Hp).
    destruct (Z.lt_trichotomy p q0) as [Hx|[->|Hx]].
    + specialize (IH q0 ltac:(lia) Hq0 p op Hp Hop Hx). lia.
    + assert (op = op0) by congruence. subst. lia.
    + specialize (IH p ltac:(lia) Hp q0 op0 Hq0 Hop0 Hx). lia.
Qed.

(** The loop invariant: the bits below [pc] are the push data, the bits from
    [pc] on are clear, and [pc] is where the next instruction starts. *)
Record bitmap_inv (code : bytes) (bits : bitvec) (pc : Z) : Prop := {
  inv_len : len bits = len code / 8 + 5;
  inv_start : instr_start code pc;
  inv_clean : clean_from bits pc;
  inv_below : forall i, 0 <= i < pc -> bit bits i = false <-> instr_start code i;
}.

Lemma bitmap_inv_step code bits pc op b :
  code !! Z.to_nat pc = Some op -> bitmap_inv code bits pc ->
  sets bits (pc + 1) (push_len op) b -> bitmap_inv code b (pc + 1 + push_len op).
Proof.
  intros Hop [Hl Hs Hc Hb] [Lb Sb]. pose proof (push_len_range op).
  pose proof (instr_start_nonneg _ _ Hs). split.
  - lia.
  - by apply start_next.
  - intros i Hi. rewrite Sb by lia. rewrite (clean_bit bits pc) by (done || lia). zcases.
  - intros i Hi. rewrite Sb by lia.
    destruct (Z.lt_trichotomy i pc) as [Hx|[->|Hx]].
    + rewrite <- Hb by lia. destruct (bit bits i); zcases.
    + rewrite (clean_bit bits pc) by (done || lia). zcases.
    + rewrite (clean_bit bits pc) by (done || lia). zcases. split; [done|]. intros Hi'.
      pose proof (instr_start_sep code pc i op Hs Hi' Hop). lia.
Qed.

Lemma rbind_setRest {A} (r : res (bitvec * Z * Z)) (K : bitvec * Z -> res A) :
  rbind r (fun '(bits, pc, n) => rbind (setRest bits pc n) K)
  = rbind (rbind r (fun '(bits, pc, n) => setRest bits pc n)) K.
Proof. by destruct r as [[[]]| |]. Qed.

Lemma codeBitmapLoop_spec fuel code bits pc :
  Forall is_byte code -> len code < 2 ^ 63 -> len code - pc <= Z.of_nat fuel ->
  bitmap_inv code bits pc ->
  exists b pc', codeBitmapLoop fuel code bits pc = Ret b /\ len code <= pc' /\
                bitmap_inv code b pc'.
Proof.
  intros Hbytes Hlen. revert bits pc. induction fuel as [|fuel IH]; intros bits pc Hf Hinv.
  - cbn [codeBitmapLoop]. zbool. exists bits, pc. split; [done|]. split; [lia|done].
  - cbn [codeBitmapLoop]. pose proof (instr_start_nonneg _ _ (inv_start _ _ _ Hinv)) as Hpc.
    destruct (Z.ltb_spec pc (len code)) as [Hlt|Hge].
    2:{ exists bits, pc. split; [done|]. split; [lia|done]. }
    destruct (lookup_lt_is_Some_2 code (Z.to_nat pc)) as [op Hop]; [unfold len in *; lia|].
    rewrite (index_lookup _ _ op) by done. cbn [rbind].
    assert (is_byte op) as Hbop by (eapply Forall_lookup_1; eauto).
    rewrite (u64_small (pc + 1)) by (unfold is_u64; lia).
    rewrite not_push_iff by done. pose proof (push_len_range op).
    destruct (IsPush op) eqn:Hpush; cbn [negb].
    + assert (push_len op = op - PUSH1 + 1) as Hpl by (unfold push_len; by rewrite Hpush).
      assert (1 <= push_len op) as Hpl1.
      { unfold IsPush in Hpush. change PUSH1 with 96 in *. change PUSH32 with 127 in *.
        zprop. lia. }
      unfold u8. rewrite Z.mod_small by lia. rewrite <- Hpl.
      pose proof (inv_len _ _ _ Hinv) as Hbl.
      assert ((pc + 1) / 8 <= len code / 8) by (apply Z.div_le_mono; lia).
      destruct (push_bits_spec bits (pc + 1) (push_len op)) as (b & Hrun & Hsets); [lia..| |].
      { intros i Hi. apply (inv_clean _ _ _ Hinv). lia. }
      rewrite rbind_setRest.
      rewrite Hrun. cbn [rbind]. apply IH; [lia|]. by apply (bitmap_inv_step _ bits).
    + assert (push_len op = 0) as Hpl by (unfold push_len; by rewrite Hpush).
      apply IH; [lia|]. replace (pc + 1) with (pc + 1 + push_len op) by lia.
      apply (bitmap_inv_step _ bits); [done..|]. rewrite Hpl. apply sets_0.
Qed.

Lemma bit_zeros n i : bit (zeros n) i = false.
Proof.
  unfold bit, zeros. rewrite nth_lookup.
  destruct (replicate _ _ !! _) eqn:E; cbn; [|apply Z.testbit_0_l].
  apply lookup_replicate in E as [-> _]. apply Z.testbit_0_l.
Qed.

Lemma codeBitmap_inv code :
  Forall is_byte code -> len code < 2 ^ 63 ->
  exists b pc, codeBitmap code = Ret b /\ len code <= pc /\ bitmap_inv code b pc.
Proof.
  intros Hb Hl. unfold codeBitmap, codeBitmapInternal.
  apply codeBitmapLoop_spec; [done|done|unfold len; lia|].
  pose proof (len_nonneg code). pose proof (Z.div_pos (len code) 8 ltac:(lia) ltac:(lia)).
  split; [rewrite len_zeros; lia|constructor| |].
  - intros i _. apply bit_zeros.
  - intros i Hi. lia.
Qed.

Lemma codeSegment_bit bits i :
  0 <= i -> i / 8 < len bits -> codeSegment bits i = Ret (negb (bit bits i)).
Proof.
  intros Hi Hl. unfold codeSegment. pose proof (Z.div_pos i 8 Hi ltac:(lia)).
  destruct (lookup_lt_is_Some_2 bits (Z.to_nat (i / 8))) as [b Hb]; [unfold len in *; lia|].
  rewrite (index_lookup _ _ b) by done. cbn [rbind]. f_equal.
  unfold bit. rewrite nth_lookup, Hb. cbn [default].
  change 1 with (Z.ones 1). rewrite Z.land_ones by lia. change (2 ^ 1) with 2.
  rewrite Z.testbit_odd, Zmod_odd. change (default 0 (Some b)) with b.
  by destruct (Z.odd _).
Qed.

Lemma codeSegment_correct code b d :
  Forall is_byte code -> len code < 2 ^ 63 -> 0 <= d < len code -> codeBitmap code = Ret b ->
  exists r, codeSegment b d = Ret r /\ (r = true <-> instr_start code d).
Proof.
  intros Hb Hl Hd Hc. destruct (codeBitmap_inv code Hb Hl) as (b' & pc & Hc' & Hpc & Hinv).
  assert (b' = b) by congruence. subst b'.
  pose proof (inv_len _ _ _ Hinv) as Hbl.
  assert (d / 8 <= len code / 8) by (apply Z.div_le_mono; lia).
  rewrite codeSegment_bit by lia. eexists; split; [done|].
  rewrite negb_true_iff. apply (inv_below _ _ _ Hinv). lia.
Qed.

(** C15: the code analysis is total and exact: on every code it returns a
    bitmap (it never panics or runs out of its loop bound), and a position of
    the code is reported as an instruction exactly when an instruction starts
    there, that is, when it is not inside the data of a PUSH. *)
Theorem codeBitmap_correct code :
  Forall is_byte code -> len code < 2 ^ 63 ->
  exists b, codeBitmap code = Ret b /\
    forall d, 0 <= d < len code ->
      exists r, codeSegment b d = Ret r /\ (r = true <-> instr_start code d).
Proof.
  intros Hb Hl. destruct (codeBitmap_inv code Hb Hl) as (b & pc & Hc & _).
  exists b. split; [done|]. intros d Hd. by apply codeSegment_correct.
Qed.

Lemma codeBitmap_correct_witness :
  exists b, codeBitmap [PUSH1; JUMPDEST; JUMPDEST] = Ret b /\
    codeSegment b 1 = Ret false /\ codeSegment b 2 = Ret true /\
    (exists r, codeSegment b 2 = Ret r /\
       (r = true <-> instr_start [PUSH1; JUMPDEST; JUMPDEST] 2)).
Proof.
  destruct (codeBitmap_correct [PUSH1; JUMPDEST; JUMPDEST]) as (b & Hb & Hd);
    [repeat constructor; done|done|].
  exists b. split; [exact Hb|]. vm_compute in Hb. injection Hb as <-.
  split; [reflexivity|]. split; [reflexivity|]. apply Hd. vm_compute. split; congruence.
Defined.
