(* ===== verification/Contract.v ===== *)
(** The execution context of one call frame (vm/contract.go).

    The JUMPDEST analyses of a call tree live in one Go map that parent and
    child contracts share; the model keeps those maps in a heap, and a
    contract holds the position of its map. *)
From S2P Require Import Prelude Opcodes Errors Externals Analysis.

(** The fields of a parent [*Contract] a child can reach through [caller];
    none of them changes once the parent runs. *)
Record ContractBase := {
  base_self : Address;
  base_CallerAddress : Address;
  base_value : option Z;
  base_jumpdests : nat;
}.

(** [type ContractRef interface]: an [AccountRef] or a [*Contract]. *)
Inductive ContractRef :=
  | AccountRef (addr : Address)
  | ContractPtr (c : ContractBase).

Definition RefAddress (r : ContractRef) : Address :=
  match r with AccountRef a => a | ContractPtr c => base_self c end.

(** [type Contract struct]. [self] is always an [AccountRef], so its address
    stands for it; [value] is a [*big.Int] that [DelegateCall] leaves nil
    until [AsDelegate]. *)
Record Contract := mkContract {
  CallerAddress : Address;
  caller : ContractRef;
  self : Address;
  jumpdests : nat;
  analysis : option bitvec;
  Code : bytes;
  CodeHash : Hash;
  CodeAddr : option Address;
  Input : bytes;
  Gas : Z;
  value : option Z;
}.

(** The maps [map[common.Hash]bitvec] that contracts point to. *)
Abbreviation jdheap := (list (gmap Hash bitvec)).

Definition set_Gas (g : Z) (c : Contract) : Contract :=
  mkContract (CallerAddress c) (caller c) (self c) (jumpdests c) (analysis c) (Code c)
    (CodeHash c) (CodeAddr c) (Input c) g (value c).
Definition set_analysis (b : bitvec) (c : Contract) : Contract :=
  mkContract (CallerAddress c) (caller c) (self c) (jumpdests c) (Some b) (Code c)
    (CodeHash c) (CodeAddr c) (Input c) (Gas c) (value c).
Definition set_Input (i : bytes) (c : Contract) : Contract :=
  mkContract (CallerAddress c) (caller c) (self c) (jumpdests c) (analysis c) (Code c)
    (CodeHash c) (CodeAddr c) i (Gas c) (value c).

Definition base_of (c : Contract) : ContractBase :=
  {| base_self := self c; base_CallerAddress := CallerAddress c;
     base_value := value c; base_jumpdests := jumpdests c |}.

(** [func NewContract(caller, object ContractRef, value *big.Int, gas uint64)] *)
Definition NewContract (caller : ContractRef) (object : Address) (value : option Z) (gas : Z)
    (h : jdheap) : Contract * jdheap :=
  let '(jd, h) :=
    match caller with
    | ContractPtr parent => (base_jumpdests parent, h)
    | AccountRef _ => (length h, h ++ [∅])
    end in
  (mkContract (RefAddress caller) caller object jd None [] zeroHash None [] gas value, h).

(** [func (c *Contract) isCode(udest uint64) bool] *)
Definition isCode (c : Contract) (h : jdheap) (udest : Z) : res (bool * Contract * jdheap) :=
  match analysis c with
  | Some a => let? r := codeSegment a udest in Ret (r, c, h)
  | None =>
      if negb (bytes_eqb (CodeHash c) zeroHash) then
        let m := default ∅ (h !! jumpdests c) in
        let? (a, h) :=
          (match m !! CodeHash c with
           | Some a => Ret (a, h)
           | None =>
               let? a := codeBitmap (Code c) in
               Ret (a, <[jumpdests c := <[CodeHash c := a]> m]> h)
           end) in
        let c := set_analysis a c in
        let? r := codeSegment a udest in
        Ret (r, c, h)
      else
        let? a := codeBitmap (Code c) in
        let c := set_analysis a c in
        let? r := codeSegment a udest in
        Ret (r, c, h)
  end.

(** [func (c *Contract) validJumpdest(dest *uint256.Int) bool] *)
Definition validJumpdest `{U : uint256.Lib} (c : Contract) (h : jdheap) (dest : uint256.Int)
    : res (bool * Contract * jdheap) :=
  let '(udest, overflow) := uint256.Uint64WithOverflow dest in
  if overflow || (len (Code c) <=? udest) then Ret (false, c, h)
  else
    let? op := index (Code c) udest in
    if negb (op =? JUMPDEST) then Ret (false, c, h)
    else isCode c h udest.

(** [func (c *Contract) AsDelegate() *Contract]: the type assertion
    [c.caller.( *Contract )] panics on an account. *)
Definition AsDelegate (c : Contract) : res Contract :=
  match caller c with
  | ContractPtr parent =>
      Ret (mkContract (base_CallerAddress parent) (caller c) (self c) (jumpdests c) (analysis c)
             (Code c) (CodeHash c) (CodeAddr c) (Input c) (Gas c) (base_value parent))
  | AccountRef _ => Panicked (Explicit "interface conversion")
  end.

(** [func (c *Contract) GetOp(n uint64) OpCode] *)
Definition GetOp (c : Contract) (n : Z) : res OpCode :=
  if n <? len (Code c) then index (Code c) n else Ret STOP.

(** [func (c *Contract) UseGas(gas uint64) (ok bool)] *)
Definition UseGas (c : Contract) (gas : Z) : bool * Contract :=
  if Gas c <? gas then (false, c) else (true, set_Gas (u64 (Gas c - gas)) c).

(** [Caller], [Address] and [Value] *)
Definition Caller (c : Contract) : Address := CallerAddress c.
Definition ContractAddress (c : Contract) : Address := self c.
Definition Value (c : Contract) : option Z := value c.

(** [SetCallCode] and [SetCodeOptionalHash] *)
Definition SetCallCode (addr : option Address) (hash : Hash) (code : bytes) (c : Contract)
    : Contract :=
  mkContract (CallerAddress c) (caller c) (self c) (jumpdests c) (analysis c) code hash addr
    (Input c) (Gas c) (value c).

(** [type codeAndHash struct] of vm/evm.go: the hash is zero until [Hash()]
    computes it. *)
Record codeAndHash := { ch_code : bytes; ch_hash : Hash }.

Definition SetCodeOptionalHash (addr : option Address) (ch : codeAndHash) (c : Contract)
    : Contract :=
  SetCallCode addr (ch_hash ch) (ch_code ch) c.

(** * Jump destinations

    What a jump may target, from the code alone. *)
Definition valid_dest (code : bytes) (d : Z) : Prop :=
  code !! Z.to_nat d = Some JUMPDEST /\ instr_start code d.

Section JumpdestInvariant.
(** [codeOf h] is the code whose hash is [h]: code hashes do not collide. *)
Variable codeOf : Hash -> bytes.

(** Every cached analysis is the analysis of the code with that hash. *)
Definition heap_wf (h : jdheap) : Prop :=
  forall p m hash b, h !! p = Some m -> m !! hash = Some b ->
    codeBitmap (codeOf hash) = Ret b.

Record contract_wf (c : Contract) : Prop := {
  wf_bytes : Forall is_byte (Code c);
  wf_len : len (Code c) < 2 ^ 63;
  wf_hash : CodeHash c <> zeroHash -> Code c = codeOf (CodeHash c);
  wf_analysis : forall b, analysis c = Some b -> codeBitmap (Code c) = Ret b;
}.

Lemma set_analysis_wf b c :
  contract_wf c -> codeBitmap (Code c) = Ret b -> contract_wf (set_analysis b c).
Proof.
  intros [H1 H2 H3 H4] Hb. split; cbn; [done..|]. intros b' Hb'. by inversion Hb'; subst.
Qed.

Lemma heap_wf_insert h p m hash b :
  heap_wf h -> (forall x y, m !! x = Some y -> codeBitmap (codeOf x) = Ret y) ->
  codeBitmap (codeOf hash) = Ret b -> heap_wf (<[p := <[hash := b]> m]> h).
Proof.
  intros Hh Hm Hb q m' x y Hq Hx. destruct (decide (p = q)) as [->|Hne].
  - apply list_lookup_insert_Some in Hq as [(_ & Hm' & _)|(? & _)]; [|congruence].
    subst m'. destruct (decide (hash = x)) as [->|].
    + rewrite lookup_insert_eq in Hx. by inversion Hx; subst.
    + rewrite lookup_insert_ne in Hx by done. by eapply Hm.
  - rewrite list_lookup_insert_ne in Hq by done. by eapply Hh.
Qed.

Lemma map_wf h p : heap_wf h ->
  forall x y, default ∅ (h !! p) !! x = Some y -> codeBitmap (codeOf x) = Ret y.
Proof.
  intros Hh x y Hx. destruct (h !! p) as [m|] eqn:E; cbn in Hx; [by eapply Hh|].
  by rewrite lookup_empty in Hx.
Qed.

(** [isCode] agrees with the instruction layout, wherever the analysis comes
    from (the contract, the shared map, or computed here), and keeps the
    caches sound. *)
Lemma isCode_spec c h d :
  contract_wf c -> heap_wf h -> 0 <= d < len (Code c) ->
  exists r c' h', isCode c h d = Ret (r, c', h') /\
    (r = true <-> instr_start (Code c) d) /\
    contract_wf c' /\ heap_wf h' /\ exists b, c' = set_analysis b c.
Proof.
  intros Hc Hh Hd. destruct (Hc) as [Hb Hl Hhash Han]. unfold isCode.
  destruct (codeBitmap_inv _ Hb Hl) as (b & pc & Hbm & _).
  destruct (codeSegment_correct _ b d Hb Hl Hd Hbm) as (r & Hseg & Hr).
  pose proof (set_analysis_wf b c Hc Hbm) as Hc'.
  destruct (analysis c) as [a|] eqn:Ea.
  - assert (a = b) by (specialize (Han a eq_refl); congruence). subst a.
    rewrite Hseg. cbn. exists r, c, h.
    refine (conj eq_refl (conj Hr (conj Hc (conj Hh _)))).
    exists b. destruct c as [? ? ? ? an ? ? ? ? ? ?]; cbn in *. by subst an.
  - unfold bytes_eqb. case_bool_decide as Ez; cbn [negb].
    + rewrite Hbm. cbn [rbind]. rewrite Hseg. cbn [rbind]. exists r, (set_analysis b c), h.
      refine (conj eq_refl (conj Hr (conj Hc' (conj Hh _)))). by exists b.
    + specialize (Hhash Ez). pose proof (map_wf h (jumpdests c) Hh) as Hm.
      destruct (default ∅ (h !! jumpdests c) !! CodeHash c) as [a|] eqn:Em.
      * assert (a = b) by (specialize (Hm _ _ Em); rewrite <- Hhash in Hm; congruence).
        subst a. cbn [rbind]. rewrite Hseg. cbn [rbind]. exists r, (set_analysis b c), h.
        refine (conj eq_refl (conj Hr (conj Hc' (conj Hh _)))). by exists b.
      * rewrite Hbm. cbn [rbind]. rewrite Hseg. cbn [rbind]. do 3 eexists. split; [done|].
        refine (conj Hr (conj Hc' (conj _ _))); [|by exists b].
        apply heap_wf_insert; [done..|]. by rewrite <- Hhash.
Qed.

Context `{U : uint256.Lib} {US : uint256.Spec}.

(** C16: jump validation is exact and its caches are sound. [validJumpdest]
    never panics; it accepts a destination exactly when it lies in the code,
    holds a JUMPDEST, and starts an instruction (is not PUSH data), no matter
    whether the analysis came from the contract, from the map shared by the
    call tree, or was computed on the spot; and it leaves both caches sound. *)
Theorem validJumpdest_correct (c : Contract) (h : jdheap) (dest : uint256.Int) :
  contract_wf c -> heap_wf h ->
  exists ok c' h', validJumpdest c h dest = Ret (ok, c', h') /\
    (ok = true <-> uint256.toZ dest < len (Code c) /\ valid_dest (Code c) (uint256.toZ dest)) /\
    contract_wf c' /\ heap_wf h' /\ (c' = c \/ exists b, c' = set_analysis b c).
Proof.
  intros Hc Hh. pose proof (uint256.toZ_range dest) as Hr. unfold validJumpdest.
  rewrite uint256.Uint64WithOverflow_spec. pose proof (wf_len _ Hc) as Hl.
  destruct (Z.leb_spec (2 ^ 64) (uint256.toZ dest)); cbn [orb].
  { exists false, c, h. split_and!; try done; [split; [done|lia]|by left]. }
  rewrite Z.mod_small by lia.
  destruct (Z.leb_spec (len (Code c)) (uint256.toZ dest)).
  { exists false, c, h. split_and!; try done; [split; [done|lia]|by left]. }
  destruct (lookup_lt_is_Some_2 (Code c) (Z.to_nat (uint256.toZ dest))) as [op Hop];
    [unfold len in *; lia|].
  rewrite (index_lookup _ _ op) by (lia || done). cbn [rbind].
  destruct (Z.eqb_spec op JUMPDEST) as [->|Hne]; cbn [negb].
  - destruct (isCode_spec c h (uint256.toZ dest) Hc Hh) as (r & c' & h' & -> & Hr' & ? & ? & ?);
      [lia|]. exists r, c', h'. split_and!; try done; [|by right].
    rewrite Hr'. unfold valid_dest. tauto.
  - exists false, c, h. split_and!; try done; [|by left]. unfold valid_dest.
    rewrite Hop. split; [done|]. intros (_ & [= ?] & _). done.
Qed.
End JumpdestInvariant.

(** * Witnesses *)
From S2P Require Import Instances.

(** PUSH1 0x5b; JUMPDEST: only the second 0x5b is a destination. *)
Definition jumpContract : Contract :=
  mkContract [] (AccountRef []) [] 0 None [PUSH1; JUMPDEST; JUMPDEST] zeroHash None [] 100
    (Some 0).

Lemma validJumpdest_correct_witness :
  contract_wf (fun _ => []) jumpContract /\
  exists ok c' h', validJumpdest jumpContract [] (uint256.NewInt 2) = Ret (ok, c', h') /\
    (ok = true <-> 2 < 3 /\ valid_dest [PUSH1; JUMPDEST; JUMPDEST] 2).
Proof.
  assert (Hw : contract_wf (fun _ => []) jumpContract).
  { constructor; [repeat constructor; done|done|done|done]. }
  split; [exact Hw|].
  destruct (validJumpdest_correct (fun _ => []) jumpContract [] (uint256.NewInt 2))
    as (ok & c' & h' & H & Hok & _); [exact Hw|by intros ? ? ? ?; rewrite lookup_nil|].
  exists ok, c', h'. split; [exact H|exact Hok].
Defined.
