(* ===== verification/Tracer.v ===== *)
(** The state-change and call-stack tracer (vm/tracer.go).

    The Go structures are graphs of pointers: a [StorageKey] is reachable from
    its parent's [children], from its parent's [childrenIndex] and from the
    [index] table, and a mutation through one path is seen through the others.
    The model keeps the objects in heaps ([keys], [calls]); a pointer is a
    position. [Slot]/[offset]/[parent] arguments that may be nil are options. *)
From S2P Require Import Prelude Opcodes Errors Externals.

(** [type NodeType int] *)
Inductive NodeType := RootNode | BranchNode | DataNode.

#[global] Instance NodeType_eq_dec : EqDecision NodeType.
Proof. solve_decision. Defined.

(** * Storage changes *)

(** [type StorageChanges struct { changes map[uint64][][]byte }] *)
Abbreviation StorageChanges := (gmap Z (list bytes)).

Definition newStorageChange : StorageChanges := ∅.

(** [func (c *StorageChanges) append(callIdx uint64, newVal []byte)] *)
Definition sc_append (c : StorageChanges) (callIdx : Z) (newVal : bytes) : StorageChanges :=
  match c !! callIdx with
  | None => <[callIdx := [newVal]]> c
  | Some changes =>
      if bool_decide (last changes = Some newVal) then c
      else <[callIdx := changes ++ [newVal]]> c
  end.

Section Tracer.
Context `{U : uint256.Lib}.

Local Abbreviation keyptr := nat.

(** [type StorageKey struct] *)
Record StorageKey := mkKey {
  slot : option uint256.Int;
  offset : Z;
  children : gmap uint256.Int (gmap Z keyptr);
  childrenIndex : gmap bytes keyptr;
  changes : option StorageChanges;
  kdata : bytes;
  typeId : Hash;
  nodeType : NodeType;
}.

Definition NewBranchKey (slot : uint256.Int) (offset : Z) (typeId : Hash) (data : bytes)
    : StorageKey :=
  mkKey (Some slot) offset ∅ ∅ None data typeId BranchNode.

Definition NewRootKey : StorageKey := mkKey None 0 ∅ ∅ None [] zeroHash RootNode.

(** [Children] and [ChildrenIndices]: Go ranges over the map in an
    unspecified order, so these are the entries up to permutation. *)
Definition Children (k : StorageKey) : list keyptr := (map_to_list (childrenIndex k)).*2.
Definition ChildrenIndices (k : StorageKey) : list bytes :=
  (map_to_list (childrenIndex k)).*1.

(** [func (k *StorageKey) JournalChanges(callIdx uint64, newVal []byte)] *)
Definition JournalChanges (k : StorageKey) (callIdx : Z) (newVal : bytes) : StorageKey :=
  let '(nt, ch) :=
    match changes k with
    | None =>
        (if bool_decide (nodeType k <> RootNode) then DataNode else nodeType k,
         newStorageChange)
    | Some ch => (nodeType k, ch)
    end in
  mkKey (slot k) (offset k) (children k) (childrenIndex k)
    (Some (sc_append ch callIdx newVal)) (kdata k) (typeId k) nt.

(** * State changes *)

(** [type StateChanges struct], with the heap of the keys it reaches. *)
Record StateChanges := mkStates {
  keys : list StorageKey;
  roots : gmap Address keyptr;
  index_ : gmap Address (gmap uint256.Int (gmap Z (gmap Hash keyptr)));
  raw : gmap Address (gmap uint256.Int (gmap Z Hash));
}.

Definition NewStateChanges : StateChanges := mkStates [] ∅ ∅ ∅.

Definition set_keys ks s := mkStates ks (roots s) (index_ s) (raw s).
Definition set_roots r s := mkStates (keys s) r (index_ s) (raw s).
Definition set_index i s := mkStates (keys s) (roots s) i (raw s).
Definition set_raw r s := mkStates (keys s) (roots s) (index_ s) r.

(** Dereference, update and allocate a key. *)
Definition deref (s : StateChanges) (p : keyptr) : res StorageKey :=
  match keys s !! p with Some k => Ret k | None => Panicked NilDeref end.
Definition store_key (s : StateChanges) (p : keyptr) (k : StorageKey) : StateChanges :=
  set_keys (<[p := k]> (keys s)) s.
Definition alloc (s : StateChanges) (k : StorageKey) : keyptr * StateChanges :=
  (length (keys s), set_keys (keys s ++ [k]) s).

(** [func (k *StorageKey) AddChild(child *StorageKey) ( *StorageKey, error )]:
    the error is always nil. *)
Definition AddChild (s : StateChanges) (kp cp : keyptr) : res (keyptr * StateChanges) :=
  let? k := deref s kp in
  let? child := deref s cp in
  match slot child with
  | None => Panicked NilDeref
  | Some sl =>
      let off := offset child in
      let bySlot : gmap Z keyptr := default ∅ (children k !! sl) in
      let ci := match childrenIndex k !! kdata child with
                | None => <[kdata child := cp]> (childrenIndex k)
                | Some _ => childrenIndex k
                end in
      let '(result, bySlot) :=
        match bySlot !! off with
        | None => (cp, <[off := cp]> bySlot)
        | Some existing => (existing, bySlot)
        end in
      let k' := mkKey (slot k) (offset k) (<[sl := bySlot]> (children k)) ci
                  (changes k) (kdata k) (typeId k) (nodeType k) in
      Ret (result, store_key s kp k')
  end.

Definition getRoot (s : StateChanges) (account : Address) : keyptr * StateChanges :=
  match roots s !! account with
  | Some r => (r, s)
  | None =>
      let '(p, s) := alloc s NewRootKey in
      (p, set_roots (<[account := p]> (roots s)) s)
  end.

(** [func (s *StateChanges) saveBalance(account, newBalance, callIdx)] *)
Definition saveBalance (s : StateChanges) (account : Address) (newBalance : uint256.Int)
    (callIdx : Z) : res StateChanges :=
  let '(rootKey, s) := getRoot s account in
  let? k := deref s rootKey in
  Ret (store_key s rootKey (JournalChanges k callIdx (uint256.Bytes newBalance))).

(** [func (s *StateChanges) saveRawStateChange(account, slot, callIdx, val)] *)
Definition saveRawStateChange (s : StateChanges) (account : Address) (sl : uint256.Int)
    (callIdx : Z) (val : Hash) : StateChanges :=
  let byAccount : gmap uint256.Int (gmap Z Hash) := default ∅ (raw s !! account) in
  let bySlot : gmap Z Hash := default ∅ (byAccount !! sl) in
  set_raw (<[account := <[sl := <[callIdx := val]> bySlot]> byAccount]> (raw s)) s.

(** [func (s *StateChanges) findKey(account, slot, offset, typeId)] *)
Definition findKey (s : StateChanges) (account : Address) (sl : uint256.Int) (off : Z)
    (tid : Hash) : option keyptr :=
  match index_ s !! account with
  | None => None
  | Some a =>
      match a !! sl with
      | None => None
      | Some b => match b !! off with
                  | None => None
                  | Some c => c !! tid
                  end
      end
  end.

(** [func (s *StateChanges) addKey(account, slot, offset, key)] *)
Definition addKey (s : StateChanges) (account : Address) (sl : uint256.Int) (off : Z)
    (kp : keyptr) : res StateChanges :=
  let? k := deref s kp in
  let a : gmap uint256.Int (gmap Z (gmap Hash keyptr)) := default ∅ (index_ s !! account) in
  let b : gmap Z (gmap Hash keyptr) := default ∅ (a !! sl) in
  let c : gmap Hash keyptr := default ∅ (b !! off) in
  let c := match c !! typeId k with None => <[typeId k := kp]> c | Some _ => c end in
  Ret (set_index (<[account := <[sl := <[off := c]> b]> a]> (index_ s)) s).

(** The offset conversion of [saveKey], [saveChange] and [Slot]. *)
Definition offsetU8 (off : option uint256.Int) : Z + Err :=
  match off with
  | None => inl 0
  | Some o =>
      let '(offsetU64, overflow) := uint256.Uint64WithOverflow o in
      if overflow || (31 <? offsetU64) then inr (errNew "offset overflow")
      else inl (u8 offsetU64)
  end.

(** [func (s *StateChanges) saveKey(account, parent, self, offset, typeId,
    parentTypeId, index) (err error)] *)
Definition saveKey (s : StateChanges) (account : Address) (parent : option uint256.Int)
    (self : uint256.Int) (off : option uint256.Int) (tid parentTypeId : Hash) (idx : bytes)
    : res (option Err * StateChanges) :=
  match offsetU8 off with
  | inr e => Ret (Some e, s)
  | inl o =>
      let? (child, s, err) :=
        (match parent with
         | None =>
             let '(r, s) := getRoot s account in
             let '(c, s) := alloc s (NewBranchKey self o tid idx) in
             let? (p, s) := AddChild s r c in Ret (Some p, s, None)
         | Some par =>
             match findKey s account par 0 parentTypeId with
             | None => Ret (None, s, Some (errNew "parent key not found"))
             | Some pk =>
                 let '(c, s) := alloc s (NewBranchKey self o tid idx) in
                 let? (p, s) := AddChild s pk c in Ret (Some p, s, None)
             end
         end) in
      match child, err with
      | Some p, None =>
          let? k := deref s p in
          match slot k with
          | None => Panicked NilDeref
          | Some sl => let? s := addKey s account sl (offset k) p in Ret (None, s)
          end
      | _, _ => Ret (err, s)
      end
  end.

(** [func (s *StateChanges) saveChange(account, self, offset, typeId, callIdx,
    newVal) (err error)] *)
Definition saveChange (s : StateChanges) (account : Address) (self : uint256.Int)
    (off : option uint256.Int) (tid : Hash) (callIdx : Z) (newVal : bytes)
    : res (option Err * StateChanges) :=
  match offsetU8 off with
  | inr e => Ret (Some e, s)
  | inl o =>
      match roots s !! account with
      | None => Ret (Some (errNew "unknown account"), s)
      | Some _ =>
          match findKey s account self o tid with
          | None => Ret (Some (errNew "storage key node not found"), s)
          | Some p =>
              let? k := deref s p in
              Ret (None, store_key s p (JournalChanges k callIdx newVal))
          end
      end
  end.

(** [func (s *StateChanges) Balance(account) *StorageChanges] *)
Definition Balance (s : StateChanges) (account : Address) : res (option StorageChanges) :=
  match roots s !! account with
  | None => Ret None
  | Some r => let? k := deref s r in Ret (changes k)
  end.

Fixpoint followIndices (s : StateChanges) (cursor : keyptr) (indices : list bytes)
    : res (option keyptr) :=
  match indices with
  | [] => Ret (Some cursor)
  | i :: rest =>
      let? k := deref s cursor in
      match childrenIndex k !! i with
      | None => Ret None
      | Some c => followIndices s c rest
      end
  end.

(** [func (s *StateChanges) FindKeyIndices(account, stateVarName, indices...)] *)
Definition FindKeyIndices (s : StateChanges) (account : Address) (stateVarName : bytes)
    (indices : list bytes) : res (option keyptr) :=
  match roots s !! account with
  | None => Ret None
  | Some rootKey => followIndices s rootKey (stateVarName :: indices)
  end.

Definition Variable_ (s : StateChanges) (account : Address) (stateVarName : bytes)
    (indices : list bytes) : res (option StorageChanges) :=
  let? key := FindKeyIndices s account stateVarName indices in
  match key with
  | None => Ret None
  | Some p => let? k := deref s p in Ret (changes k)
  end.

(** [func (s *StateChanges) Slot(account, slot, offset, typeId)] *)
Definition Slot (s : StateChanges) (account : Address) (sl off : option uint256.Int)
    (tid : Hash) : res (option StorageChanges * option Err) :=
  match sl with
  | None => Ret (None, Some (errNew "slot empty"))
  | Some sl =>
      match offsetU8 off with
      | inr e => Ret (None, Some e)
      | inl o =>
          match findKey s account sl o tid with
          | None => Ret (None, None)
          | Some p => let? k := deref s p in Ret (changes k, None)
          end
      end
  end.

Definition IndicesOfChanges (s : StateChanges) (account : Address) (stateVarName : bytes)
    (indices : list bytes) : res (list bytes) :=
  let? key := FindKeyIndices s account stateVarName indices in
  match key with
  | None => Ret []
  | Some p => let? k := deref s p in Ret (ChildrenIndices k)
  end.

(** * The call tree *)

Local Abbreviation callptr := nat.

(** [type Call struct] *)
Record Call := mkCall {
  From : Address;
  To : option Address;
  CallData : bytes;
  CallValue : uint256.Int;
  CallGas : uint256.Int;
  Index : Z;
  Parent : option callptr;
  CallChildren : list callptr;
  CallRet : bytes;
  RemainingGas : Z;
  CallErr : option Err;
}.

(** [type CallTree struct], with the heap of its calls. *)
Record CallTree := mkTree {
  calls : list Call;
  root : option callptr;
  current : option callptr;
  count : Z;
  lookup_ : gmap Z callptr;
}.

Definition NewCallTree : CallTree := mkTree [] None None 0 ∅.

Definition set_Children (ch : list callptr) (c : Call) : Call :=
  mkCall (From c) (To c) (CallData c) (CallValue c) (CallGas c) (Index c) (Parent c) ch
    (CallRet c) (RemainingGas c) (CallErr c).
Definition set_result (r : bytes) (g : Z) (e : option Err) (c : Call) : Call :=
  mkCall (From c) (To c) (CallData c) (CallValue c) (CallGas c) (Index c) (Parent c)
    (CallChildren c) r g e.

(** [func (c *CallTree) add(from, to, data, value, gas)] *)
Definition tree_add (t : CallTree) (from : Address) (to : option Address) (data : bytes)
    (value gas : uint256.Int) : CallTree :=
  let newPtr := length (calls t) in
  let newCall := mkCall from to data value gas (count t) (current t) [] [] 0 None in
  let cs := calls t ++ [newCall] in
  let cs := match current t with
            | Some p => alter (fun c => set_Children (CallChildren c ++ [newPtr]) c) p cs
            | None => cs
            end in
  mkTree cs (match root t with None => Some newPtr | Some r => Some r end) (Some newPtr)
    (u64 (count t + 1)) (<[count t := newPtr]> (lookup_ t)).

(** [func (c *CallTree) exit(leftoverGas, ret, err)] *)
Definition tree_exit (t : CallTree) (leftoverGas : Z) (ret : bytes) (err : option Err)
    : CallTree :=
  match current t with
  | None => t
  | Some p =>
      let par := match calls t !! p with Some c => Parent c | None => None end in
      mkTree (alter (set_result ret leftoverGas err) p (calls t)) (root t) par
        (count t) (lookup_ t)
  end.

Definition FindCall (t : CallTree) (i : Z) : option callptr := lookup_ t !! i.

Definition ParentOf (t : CallTree) (i : Z) : option callptr :=
  match lookup_ t !! i with
  | None => None
  | Some p => match calls t !! p with Some c => Parent c | None => None end
  end.

Definition ChildrenOf (t : CallTree) (i : Z) : list callptr :=
  match lookup_ t !! i with
  | None => []
  | Some p => match calls t !! p with Some c => CallChildren c | None => [] end
  end.

Definition IsRoot (c : Call) : bool := match Parent c with None => true | Some _ => false end.

(** [func (c *Call) ParentIndex() int64] *)
Definition ParentIndex (t : CallTree) (c : Call) : Z :=
  match Parent c with
  | None => -1
  | Some p => match calls t !! p with Some q => i64 (Index q) | None => -1 end
  end.

(** [func (c *Call) ChildrenIndices() []uint64] *)
Definition CallChildrenIndices (t : CallTree) (c : Call) : list Z :=
  omap (fun p => Index <$> calls t !! p) (CallChildren c).

(** * The tracer *)

(** [type Tracer struct] *)
Record Tracer := mkTracer { states : StateChanges; callTree : CallTree }.

Definition NewTracer : Tracer := mkTracer NewStateChanges NewCallTree.

Definition CurrentCallIndex (t : Tracer) : Z :=
  match current (callTree t) with
  | None => 0
  | Some p => match calls (callTree t) !! p with Some c => Index c | None => 0 end
  end.

Definition SaveRawStateChange (t : Tracer) (account : Address) (sl : uint256.Int) (val : Hash)
    : Tracer :=
  mkTracer (saveRawStateChange (states t) account sl (CurrentCallIndex t) val) (callTree t).

Definition SaveStateChange (t : Tracer) (account : Address) (sl : uint256.Int)
    (off : option uint256.Int) (tid : Hash) (newVal : bytes) : res (option Err * Tracer) :=
  let? (err, s) := saveChange (states t) account sl off tid (CurrentCallIndex t) newVal in
  Ret (err, mkTracer s (callTree t)).

Definition SaveStateKey (t : Tracer) (account : Address) (parent : option uint256.Int)
    (self : uint256.Int) (off : option uint256.Int) (tid parentTypeId : Hash) (idx : bytes)
    : res (option Err * Tracer) :=
  let? (err, s) := saveKey (states t) account parent self off tid parentTypeId idx in
  Ret (err, mkTracer s (callTree t)).

Definition SaveCall (t : Tracer) (from : Address) (to : option Address) (data : bytes)
    (value gas : uint256.Int) : Tracer :=
  mkTracer (states t) (tree_add (callTree t) from to data value gas).

Definition ExitCall (t : Tracer) (leftoverGas : Z) (ret : bytes) (err : option Err) : Tracer :=
  mkTracer (states t) (tree_exit (callTree t) leftoverGas ret err).

Definition mustFromBig (z : Z) : res uint256.Int :=
  match uint256.MustFromBig z with Some x => Ret x | None => Panicked (Explicit "overflow") end.

(** [t.states.saveBalance(a, uint256.MustFromBig(db.GetBalance(a)), callIdx)] *)
Definition recordBalance `{D : StateDB.Lib} (t : Tracer) (db : StateDB.DB) (a : Address)
    (callIdx : Z) : res Tracer :=
  let? b := mustFromBig (StateDB.GetBalance db a) in
  let? s := saveBalance (states t) a b callIdx in
  Ret (mkTracer s (callTree t)).

(** [func (t *Tracer) TransferWithRecord(db, from, to, amount, transfer)] *)
Definition TransferWithRecord `{D : StateDB.Lib} (t : Tracer) (db : StateDB.DB)
    (from to : Address) (amount : Z)
    (transfer : StateDB.DB -> Address -> Address -> Z -> StateDB.DB)
    : res (Tracer * StateDB.DB) :=
  let callIdx := CurrentCallIndex t in
  let? t := recordBalance t db from callIdx in
  let? t := recordBalance t db to callIdx in
  let db := transfer db from to amount in
  let? t := recordBalance t db from callIdx in
  let? t := recordBalance t db to callIdx in
  Ret (t, db).
End Tracer.

(** * The call tree is a tree *)
Section CallTreeInvariant.
Context `{U : uint256.Lib}.

(** Calls are numbered in the order they start, the lookup table is that
    numbering, and the parent and children pointers agree. *)
Record tree_wf (t : CallTree) : Prop := {
  wf_count : count t = len (calls t);
  wf_index : forall p c, calls t !! p = Some c -> Index c = Z.of_nat p;
  wf_lookup : forall i p, lookup_ t !! i = Some p <-> i = Z.of_nat p /\ (p < length (calls t))%nat;
  wf_parent : forall p c q, calls t !! p = Some c -> Parent c = Some q ->
    (q < p)%nat /\ exists cq, calls t !! q = Some cq /\ p ∈ CallChildren cq;
  wf_children : forall p c q, calls t !! p = Some c -> q ∈ CallChildren c ->
    exists cq, calls t !! q = Some cq /\ Parent cq = Some p;
  wf_current : forall p, current t = Some p -> (p < length (calls t))%nat;
  wf_root : root t = None <-> calls t = [];
}.

Lemma NewCallTree_wf : tree_wf NewCallTree.
Proof.
  constructor; cbn; try done.
  intros i p. rewrite lookup_empty. split; [done|lia].
Qed.

(** The calls of the tree after [tree_add]: the new one, and the old ones
    with the new one appended to the current call's children. *)
Lemma tree_add_lookup t from to d v g p c' :
  (forall q, current t = Some q -> (q < length (calls t))%nat) ->
  calls (tree_add t from to d v g) !! p = Some c' <->
  (p = length (calls t) /\ c' = mkCall from to d v g (count t) (current t) [] [] 0 None) \/
  (exists c, calls t !! p = Some c /\
     c' = if bool_decide (current t = Some p)
          then set_Children (CallChildren c ++ [length (calls t)]) c else c).
Proof.
  intros Hcur. unfold tree_add. cbn [calls].
  set (new := mkCall from to d v g (count t) (current t) [] [] 0 None).
  assert (Hsnoc : forall q x, (calls t ++ [new]) !! q = Some x <->
            (q = length (calls t) /\ x = new) \/ calls t !! q = Some x).
  { intros q x. rewrite lookup_snoc_Some.
    split; [intros [[? ?]|[-> <-]]; auto|].
    intros [[-> ->]|H]; [by right|left]. split; [by eapply lookup_lt_Some|done]. }
  destruct (current t) as [q|] eqn:Eq.
  - destruct (decide (q = p)) as [->|Hne].
    + rewrite list_lookup_alter_eq, fmap_Some. setoid_rewrite Hsnoc.
      rewrite bool_decide_eq_true_2 by done.
      split.
      * intros (x & [[-> ->]|Hx] & ->); [specialize (Hcur _ eq_refl); lia|right; eauto].
      * intros [[-> ->]|(c & Hc & ->)]; [specialize (Hcur _ eq_refl); lia|eauto].
    + rewrite list_lookup_alter_ne by done. rewrite Hsnoc.
      rewrite bool_decide_eq_false_2 by congruence.
      split; [intros [[-> ->]|Hc]; eauto|intros [[-> ->]|(c & Hc & ->)]; eauto].
  - rewrite Hsnoc. rewrite bool_decide_eq_false_2 by congruence.
    split; [intros [[-> ->]|Hc]; eauto|intros [[-> ->]|(c & Hc & ->)]; eauto].
Qed.

Lemma length_tree_add t from to d v g :
  length (calls (tree_add t from to d v g)) = S (length (calls t)).
Proof.
  unfold tree_add; cbn. destruct (current t); rewrite ?length_alter, length_app; cbn; lia.
Qed.

Lemma tree_add_wf t from to d v g :
  tree_wf t -> len (calls t) + 1 < 2 ^ 64 -> tree_wf (tree_add t from to d v g).
Proof.
  intros W Hlen. pose proof (wf_current _ W) as Hcur.
  pose proof (fun p c' => tree_add_lookup t from to d v g p c' Hcur) as HL.
  pose proof (length_tree_add t from to d v g) as Hl.
  pose proof (len_nonneg (calls t)). constructor.
  - unfold len in *. rewrite Hl. cbn. rewrite (wf_count _ W). rewrite u64_small;
      unfold is_u64, len; lia.
  - intros p c' [[-> ->]|(c & Hc & ->)]%HL; cbn; [apply (wf_count _ W)|].
    rewrite <- (wf_index _ W _ _ Hc). by case_bool_decide.
  - intros i p. rewrite Hl. cbn. rewrite lookup_insert_Some, (wf_lookup _ W), (wf_count _ W).
    unfold len. destruct (decide (p = length (calls t))) as [->|]; lia.
  - intros p c' q [[-> ->]|(c & Hc & ->)]%HL Hp.
    + cbn in Hp. specialize (Hcur _ Hp) as Hq. split; [done|].
      destruct (lookup_lt_is_Some_2 _ _ Hq) as [cq Hcq].
      eexists. split; [apply HL; right; eauto|]. rewrite bool_decide_eq_true_2 by done.
      cbn. apply elem_of_app. right. by apply list_elem_of_singleton.
    + assert (Hp' : Parent c = Some q) by (by destruct (bool_decide _)).
      destruct (wf_parent _ W _ _ _ Hc Hp') as (Hlt & cq & Hcq & Hin). split; [done|].
      eexists. split; [apply HL; right; eauto|].
      destruct (bool_decide (current t = Some q)); cbn; [apply elem_of_app; by left|done].
  - intros p c' q [[-> ->]|(c & Hc & ->)]%HL Hq; [by apply elem_of_nil in Hq|].
    assert (Hold : q ∈ CallChildren c -> exists cq,
              calls (tree_add t from to d v g) !! q = Some cq /\ Parent cq = Some p).
    { intros Hq'. destruct (wf_children _ W _ _ _ Hc Hq') as (cq & Hcq & Hpar).
      eexists. split; [apply HL; right; eauto|].
      by destruct (bool_decide (current t = Some q)). }
    destruct (bool_decide (current t = Some p)) eqn:Ecur; [|by apply Hold].
    apply bool_decide_eq_true in Ecur.
    cbn in Hq. apply elem_of_app in Hq as [Hq|Hq%list_elem_of_singleton]; [by apply Hold|].
    subst q. eexists. split; [apply HL; by left|]. done.
  - intros p Hp. rewrite Hl. cbn in Hp. injection Hp as <-. lia.
  - cbn. split; [by destruct (root t)|]. intros E.
    apply (f_equal length) in E. unfold tree_add in Hl. cbn in Hl. rewrite Hl in E. done.
Qed.

Lemma tree_exit_lookup t g r e p c' :
  calls (tree_exit t g r e) !! p = Some c' ->
  exists c, calls t !! p = Some c /\ Index c' = Index c /\ Parent c' = Parent c /\
            CallChildren c' = CallChildren c.
Proof.
  unfold tree_exit. destruct (current t) as [q|]; cbn; [|eauto].
  destruct (decide (q = p)) as [->|].
  - rewrite list_lookup_alter_eq, fmap_Some. intros (c & -> & ->). eauto.
  - rewrite list_lookup_alter_ne by done. eauto.
Qed.

Lemma tree_exit_lookup_2 t g r e p c :
  calls t !! p = Some c ->
  exists c', calls (tree_exit t g r e) !! p = Some c' /\ Index c' = Index c /\
             Parent c' = Parent c /\ CallChildren c' = CallChildren c.
Proof.
  unfold tree_exit. destruct (current t) as [q|]; cbn; [|eauto].
  destruct (decide (q = p)) as [->|].
  - rewrite list_lookup_alter_eq. intros ->. cbn. eauto.
  - rewrite list_lookup_alter_ne by done. eauto.
Qed.

Lemma length_tree_exit t g r e : length (calls (tree_exit t g r e)) = length (calls t).
Proof. unfold tree_exit. destruct (current t); cbn; by rewrite ?length_alter. Qed.

Lemma tree_exit_same t g r e :
  count (tree_exit t g r e) = count t /\ lookup_ (tree_exit t g r e) = lookup_ t /\
  root (tree_exit t g r e) = root t.
Proof. unfold tree_exit. by destruct (current t). Qed.

Lemma tree_exit_wf t g r e : tree_wf t -> tree_wf (tree_exit t g r e).
Proof.
  intros W. destruct (tree_exit_same t g r e) as (Ec & El & Er).
  pose proof (length_tree_exit t g r e) as Hl. constructor.
  - unfold len. rewrite Hl, Ec. apply (wf_count _ W).
  - intros p c' (c & Hc & -> & _)%tree_exit_lookup. by apply (wf_index _ W).
  - intros i p. rewrite El, Hl. apply (wf_lookup _ W).
  - intros p c' q (c & Hc & _ & -> & _)%tree_exit_lookup Hq.
    destruct (wf_parent _ W _ _ _ Hc Hq) as (? & cq & Hcq & Hin). split; [done|].
    destruct (tree_exit_lookup_2 t g r e _ _ Hcq) as (cq' & ? & _ & _ & Hch).
    exists cq'. by rewrite Hch.
  - intros p c' q (c & Hc & _ & _ & ->)%tree_exit_lookup Hq.
    destruct (wf_children _ W _ _ _ Hc Hq) as (cq & Hcq & Hp).
    destruct (tree_exit_lookup_2 t g r e _ _ Hcq) as (cq' & ? & _ & Hpar & _).
    exists cq'. by rewrite Hpar.
  - intros p. rewrite Hl. unfold tree_exit. destruct (current t) as [q|] eqn:Eq; cbn.
    + destruct (calls t !! q) as [c|] eqn:Ec'; [|done]. intros Hp.
      destruct (wf_parent _ W _ _ _ Ec' Hp) as [? _].
      apply lookup_lt_Some in Ec'. lia.
    + by rewrite Eq.
  - rewrite Er, (wf_root _ W). split; intros E; apply (f_equal length) in E;
      [|rewrite Hl in E]; [rewrite <- Hl in E|]; by apply length_zero_iff_nil in E.
Qed.

(** [t'] extends [t] by finished calls: the current call is the same, and the
    calls of [t] are still there under their numbers and parents. *)
Record tree_ext (t t' : CallTree) : Prop := {
  te_current : current t' = current t;
  te_length : (length (calls t) <= length (calls t'))%nat;
  te_calls : forall p c, calls t !! p = Some c ->
    exists c', calls t' !! p = Some c' /\ Index c' = Index c /\ Parent c' = Parent c;
  te_wf : tree_wf t -> len (calls t') < 2 ^ 64 -> tree_wf t';
}.

#[global] Instance tree_ext_preorder : PreOrder tree_ext.
Proof.
  split.
  - intros t. constructor; eauto.
  - intros t1 t2 t3 H12 H23. constructor.
    + by rewrite (te_current _ _ H23), (te_current _ _ H12).
    + pose proof (te_length _ _ H12). pose proof (te_length _ _ H23). lia.
    + intros p c Hc. destruct (te_calls _ _ H12 _ _ Hc) as (c2 & Hc2 & Hi & Hp).
      destruct (te_calls _ _ H23 _ _ Hc2) as (c3 & ? & ? & ?).
      exists c3. split; [done|]. by split; etrans.
    + intros W Hlen. apply (te_wf _ _ H23); [|done]. apply (te_wf _ _ H12); [done|].
      pose proof (te_length _ _ H23). unfold len in *. lia.
Qed.

(** A call enters, its callees come and go, and it exits: the tree is
    extended and the caller is current again. *)
Lemma tree_bracket t t' from to d v g leftover r e :
  tree_ext (tree_add t from to d v g) t' -> tree_ext t (tree_exit t' leftover r e).
Proof.
  intros H. pose proof (te_current _ _ H) as Hcur. cbn in Hcur.
  assert (Hnew : calls (tree_add t from to d v g) !! length (calls t)
            = Some (mkCall from to d v g (count t) (current t) [] [] 0 None) \/
            current t = Some (length (calls t))).
  { unfold tree_add; cbn. destruct (current t) as [q|] eqn:Eq.
    - destruct (decide (q = length (calls t))) as [->|]; [by right|left].
      rewrite list_lookup_alter_ne by done. by rewrite lookup_app_r, Nat.sub_diag by lia.
    - left. by rewrite lookup_app_r, Nat.sub_diag by lia. }
  pose proof (length_tree_add t from to d v g) as Hl1.
  pose proof (te_length _ _ H) as Hl2. pose proof (length_tree_exit t' leftover r e) as Hl3.
  constructor.
  - unfold tree_exit. rewrite Hcur. cbn. destruct Hnew as [Hnew|Hbad].
    + destruct (te_calls _ _ H _ _ Hnew) as (c' & -> & _ & ->). done.
    + rewrite Hbad. destruct (calls t' !! length (calls t)) as [c'|] eqn:E.
      * assert (Hc : exists x, calls (tree_add t from to d v g) !! length (calls t) = Some x
                   /\ Parent x = current t).
        { unfold tree_add; cbn. rewrite Hbad, list_lookup_alter_eq.
          rewrite lookup_app_r, Nat.sub_diag by lia. cbn. by eexists. }
        destruct Hc as (x & Hx & Hpx). destruct (te_calls _ _ H _ _ Hx) as (c2 & Hc2 & _ & Hp2).
        rewrite E in Hc2. injection Hc2 as <-. by rewrite Hp2, Hpx.
      * apply lookup_ge_None in E. lia.
  - lia.
  - intros p c Hc.
    assert (H1 : exists c1, calls (tree_add t from to d v g) !! p = Some c1 /\
               Index c1 = Index c /\ Parent c1 = Parent c).
    { unfold tree_add; cbn. pose proof (lookup_lt_Some _ _ _ Hc).
      destruct (current t) as [q|]; [destruct (decide (q = p)) as [->|]|].
      - rewrite list_lookup_alter_eq, lookup_app_l, Hc by done. cbn. eauto.
      - rewrite list_lookup_alter_ne, lookup_app_l by done. eauto.
      - rewrite lookup_app_l by done. eauto. }
    destruct H1 as (c1 & Hc1 & Hi1 & Hp1).
    destruct (te_calls _ _ H _ _ Hc1) as (c2 & Hc2 & Hi2 & Hp2).
    destruct (tree_exit_lookup_2 t' leftover r e _ _ Hc2) as (c3 & Hc3 & Hi3 & Hp3 & _).
    exists c3. split; [done|]. split; congruence.
  - intros W Hlen. apply tree_exit_wf, (te_wf _ _ H).
    + apply tree_add_wf; [done|]. unfold len in *. lia.
    + unfold len in *. lia.
Qed.
End CallTreeInvariant.

(** * The storage journal has no dangling pointers *)
Section JournalInvariant.
Context `{U : uint256.Lib}.

(** A change list is not empty and never repeats its last value. *)
Inductive no_stutter : list bytes -> Prop :=
  | ns_one v : no_stutter [v]
  | ns_snoc l v w : no_stutter (l ++ [v]) -> v <> w -> no_stutter (l ++ [v] ++ [w]).

Definition changes_wf (c : StorageChanges) : Prop := map_Forall (fun _ l => no_stutter l) c.

Lemma no_stutter_last l : no_stutter l -> exists k v, l = k ++ [v].
Proof.
  destruct 1 as [v|l v w]; [by exists [], v|]. exists (l ++ [v]), w. by rewrite app_assoc.
Qed.

Lemma sc_append_wf c i v : changes_wf c -> changes_wf (sc_append c i v).
Proof.
  intros Hc. unfold sc_append. destruct (c !! i) as [l|] eqn:El.
  - case_bool_decide as Hlast; [done|]. apply map_Forall_insert_2; [|done].
    pose proof (Hc _ _ El) as Hl. cbn in Hl. destruct (no_stutter_last _ Hl) as (k & w & ->).
    rewrite last_snoc in Hlast. rewrite <- app_assoc. constructor; [done|congruence].
  - apply map_Forall_insert_2; [constructor|done].
Qed.

Lemma sc_append_last c i v : exists l, sc_append c i v !! i = Some l /\ last l = Some v.
Proof.
  unfold sc_append. destruct (c !! i) as [l|] eqn:El.
  - case_bool_decide as Hlast; [by eexists|]. rewrite lookup_insert_eq.
    eexists; split; [done|]. apply last_snoc.
  - rewrite lookup_insert_eq. by eexists.
Qed.

Lemma sc_append_other c i j v : i <> j -> sc_append c i v !! j = c !! j.
Proof.
  intros. unfold sc_append. destruct (c !! i); [case_bool_decide|];
    by rewrite ?lookup_insert_ne by done.
Qed.

Definition valid (s : StateChanges) (p : nat) : Prop := (p < length (keys s))%nat.

(** The key [p] sits at slot [sl] and offset [o]. *)
Definition at_slot (s : StateChanges) (p : nat) (sl : uint256.Int) (o : Z) : Prop :=
  exists k, keys s !! p = Some k /\ slot k = Some sl /\ offset k = o.

Record key_wf (s : StateChanges) (k : StorageKey) : Prop := {
  kw_children : forall sl m o c, children k !! sl = Some m -> m !! o = Some c ->
    at_slot s c sl o;
  kw_index : forall d c, childrenIndex k !! d = Some c -> valid s c;
  kw_changes : forall ch, changes k = Some ch -> changes_wf ch;
}.

Record states_wf (s : StateChanges) : Prop := {
  sw_roots : forall a p, roots s !! a = Some p -> valid s p;
  sw_index : forall a sl o tid p, findKey s a sl o tid = Some p ->
    exists k, keys s !! p = Some k /\ slot k = Some sl /\ offset k = o /\ typeId k = tid;
  sw_keys : forall p k, keys s !! p = Some k -> key_wf s k;
}.

(** [s'] has the keys of [s], at the same places, possibly with more in them. *)
Definition keys_ext (s s' : StateChanges) : Prop :=
  forall p k, keys s !! p = Some k -> exists k', keys s' !! p = Some k' /\
    slot k' = slot k /\ offset k' = offset k /\ typeId k' = typeId k.

Lemma keys_ext_valid s s' p : keys_ext s s' -> valid s p -> valid s' p.
Proof.
  intros He Hp. destruct (lookup_lt_is_Some_2 _ _ Hp) as [k Hk].
  destruct (He _ _ Hk) as (k' & Hk' & _). by eapply lookup_lt_Some.
Qed.

Lemma keys_ext_at s s' p sl o : keys_ext s s' -> at_slot s p sl o -> at_slot s' p sl o.
Proof.
  intros He (k & Hk & Hs & Ho). destruct (He _ _ Hk) as (k' & Hk' & Es & Eo & _).
  exists k'. by rewrite Es, Eo.
Qed.

Lemma key_wf_ext s s' k : keys_ext s s' -> key_wf s k -> key_wf s' k.
Proof.
  intros He [H1 H2 H3]. constructor; [|eauto using keys_ext_valid|done].
  intros. eapply keys_ext_at; [done|]. eauto.
Qed.

Lemma NewStateChanges_wf : states_wf NewStateChanges.
Proof.
  constructor.
  - intros a p. cbn. by rewrite lookup_empty.
  - intros a sl o tid p. unfold findKey. cbn. by rewrite lookup_empty.
  - intros p k. cbn. by rewrite lookup_nil.
Qed.

(** Replacing a key by one at the same place keeps the journal well formed. *)
Lemma store_key_ext s p k k' :
  keys s !! p = Some k -> slot k' = slot k -> offset k' = offset k -> typeId k' = typeId k ->
  keys_ext s (store_key s p k').
Proof.
  intros Hk Hs Ho Ht q x Hx. cbn. destruct (decide (p = q)) as [->|Hne].
  - rewrite list_lookup_insert_eq by (by eapply lookup_lt_Some). exists k'.
    rewrite Hk in Hx. injection Hx as <-. done.
  - rewrite list_lookup_insert_ne by done. eauto.
Qed.

Lemma store_key_wf s p k k' :
  states_wf s -> keys s !! p = Some k -> slot k' = slot k -> offset k' = offset k ->
  typeId k' = typeId k -> key_wf s k' -> states_wf (store_key s p k').
Proof.
  intros W Hk Hs Ho Ht Hk'. pose proof (store_key_ext _ _ _ _ Hk Hs Ho Ht) as He. constructor.
  - intros a q Hq. eapply keys_ext_valid; [done|]. by eapply (sw_roots _ W).
  - intros a sl o tid q Hq. destruct (sw_index _ W a sl o tid q Hq) as (x & Hx & E1 & E2 & E3).
    destruct (He _ _ Hx) as (x' & ? & F1 & F2 & F3). exists x'. by rewrite F1, F2, F3.
  - intros q x Hx. eapply key_wf_ext; [done|]. cbn in Hx.
    apply list_lookup_insert_Some in Hx as [(-> & <- & _)|(_ & Hx)]; [done|].
    by eapply (sw_keys _ W).
Qed.

(** Allocating a key whose pointers are valid. *)
Lemma alloc_wf s k :
  states_wf s -> key_wf s k ->
  states_wf (alloc s k).2 /\ keys_ext s (alloc s k).2 /\
  keys (alloc s k).2 !! (alloc s k).1 = Some k.
Proof.
  intros W Hk. cbn.
  assert (He : keys_ext s (set_keys (keys s ++ [k]) s)).
  { intros p x Hx. exists x. cbn. by rewrite lookup_app_l by (by eapply lookup_lt_Some). }
  split_and!; [|done|by rewrite lookup_app_r, Nat.sub_diag by lia]. constructor.
  - intros a p Hp. eapply keys_ext_valid; [done|]. by eapply (sw_roots _ W).
  - intros a sl o tid p Hp. destruct (sw_index _ W a sl o tid p Hp) as (x & Hx & ?).
    exists x. cbn. by rewrite lookup_app_l by (by eapply lookup_lt_Some).
  - intros p x Hx. eapply key_wf_ext; [done|]. cbn in Hx.
    apply lookup_snoc_Some in Hx as [(_ & Hx)|(-> & <-)]; [|done]. by eapply (sw_keys _ W).
Qed.

Lemma fresh_key_wf s sl o tid idx : key_wf s (NewBranchKey sl o tid idx).
Proof. by constructor; cbn; intros *; rewrite ?lookup_empty. Qed.

Lemma root_key_wf s : key_wf s NewRootKey.
Proof. by constructor; cbn; intros *; rewrite ?lookup_empty. Qed.

Lemma getRoot_wf s a :
  states_wf s -> states_wf (getRoot s a).2 /\ keys_ext s (getRoot s a).2 /\
  valid (getRoot s a).2 (getRoot s a).1 /\ roots (getRoot s a).2 !! a = Some (getRoot s a).1.
Proof.
  intros W. unfold getRoot. destruct (roots s !! a) as [p|] eqn:Ep.
  - split_and!; cbn; [done| |by eapply (sw_roots _ W)|done]. intros q k. eauto.
  - destruct (alloc_wf s NewRootKey W (root_key_wf s)) as (W' & He & Hk).
    destruct (alloc s NewRootKey) as [p s1] eqn:Es. cbn in *.
    assert (Hv : valid s1 p) by (by eapply lookup_lt_Some).
    split_and!; [|done|done|by rewrite lookup_insert_eq].
    destruct W' as [W1 W2 W3]. constructor; cbn.
    + intros b q. rewrite lookup_insert_Some. intros [[<- <-]|[_ Hq]]; [done|].
      by eapply W1.
    + exact W2.
    + intros q k Hq. destruct (W3 _ _ Hq) as [K1 K2 K3]. by constructor.
Qed.

(** [AddChild] succeeds on valid pointers and returns a key at the child's
    place. *)
Lemma AddChild_wf s kp cp child sl :
  states_wf s -> valid s kp -> keys s !! cp = Some child -> slot child = Some sl ->
  exists p s', AddChild s kp cp = Ret (p, s') /\ states_wf s' /\ keys_ext s s' /\
    at_slot s' p sl (offset child).
Proof.
  intros W Hkp Hc Hsl. destruct (lookup_lt_is_Some_2 _ _ Hkp) as [k Hk].
  unfold AddChild, deref. rewrite Hk, Hc. cbn [rbind]. rewrite Hsl.
  set (bySlot := default ∅ (children k !! sl) : gmap Z nat).
  destruct (sw_keys _ W _ _ Hk) as [K1 K2 K3].
  assert (Hby : forall o c, bySlot !! o = Some c -> at_slot s c sl o).
  { intros o c. unfold bySlot. destruct (children k !! sl) as [m|] eqn:Em; cbn;
      [by eapply K1|by rewrite lookup_empty]. }
  assert (Hcp : at_slot s cp sl (offset child)) by (by exists child).
  destruct (bySlot !! offset child) as [ex|] eqn:Eex; eexists _, _; (split; [done|]).
  all: match goal with |- states_wf (store_key _ _ ?x) /\ _ => set (k' := x) end.
  all: assert (Hk' : key_wf s k'); [constructor; cbn|].
  all: try (pose proof (store_key_ext s kp k k' Hk eq_refl eq_refl eq_refl) as He;
            split; [by eapply store_key_wf|split; [done|eapply keys_ext_at; eauto]]).
  all: try done.
  all: try (intros d c Hd; destruct (childrenIndex k !! kdata child); [by eapply K2|];
            apply lookup_insert_Some in Hd as [[_ <-]|[_ Hd]];
              [by eapply lookup_lt_Some|by eapply K2]).
  all: intros sl' m o c Hm Ho; apply lookup_insert_Some in Hm as [[<- <-]|[_ Hm]];
       [|by eapply K1].
  - by eapply Hby.
  - apply lookup_insert_Some in Ho as [[<- <-]|[_ Ho]]; [done|by eapply Hby].
Qed.

(** What [addKey] changes in the index: only a missing entry, to the key. *)
Lemma addKey_find s s' a sl o kp k a' sl' o' t' p :
  keys s !! kp = Some k -> addKey s a sl o kp = Ret s' ->
  findKey s' a' sl' o' t' = Some p ->
  findKey s a' sl' o' t' = Some p \/
  (a' = a /\ sl' = sl /\ o' = o /\ t' = typeId k /\ p = kp).
Proof.
  intros Hk Ha. unfold addKey, deref in Ha. rewrite Hk in Ha. cbn in Ha. injection Ha as <-.
  unfold findKey. cbn.
  destruct (decide (a' = a)) as [->|]; [|rewrite lookup_insert_ne by done; by left].
  rewrite lookup_insert_eq.
  destruct (decide (sl' = sl)) as [->|]; [rewrite lookup_insert_eq
    |rewrite lookup_insert_ne by done].
  2: destruct (index_ s !! a) as [ia|]; cbn; [by left|by rewrite lookup_empty].
  set (ib := default ∅ (index_ s !! a)).
  destruct (decide (o' = o)) as [->|]; [rewrite lookup_insert_eq
    |rewrite lookup_insert_ne by done].
  2: { unfold ib. destruct (index_ s !! a) as [ia|]; cbn.
       - destruct (ia !! sl); cbn; [by left|by rewrite lookup_empty].
       - rewrite lookup_empty. cbn. by rewrite lookup_empty. }
  set (c := default ∅ (default ∅ (ib !! sl) !! o) : gmap Hash nat).
  assert (Hold : c !! t' = Some p ->
    match index_ s !! a with
    | Some a0 => match a0 !! sl with
                 | Some b => match b !! o with Some c0 => c0 !! t' | None => None end
                 | None => None
                 end
    | None => None
    end = Some p).
  { unfold c, ib. destruct (index_ s !! a) as [ia|]; cbn; [|by rewrite !lookup_empty].
    destruct (ia !! sl) as [m|]; cbn; [|by rewrite !lookup_empty].
    destruct (m !! o) as [m'|]; cbn; [done|by rewrite lookup_empty]. }
  destruct (c !! typeId k) eqn:Ec; [by left; apply Hold|].
  rewrite lookup_insert_Some. intros [[<- <-]|[_ H]]; [by right|left; by apply Hold].
Qed.

Lemma addKey_wf s a sl o kp :
  states_wf s -> at_slot s kp sl o ->
  exists s', addKey s a sl o kp = Ret s' /\ states_wf s' /\ keys s' = keys s /\
             roots s' = roots s.
Proof.
  intros W (k & Hk & Hsl & Ho).
  destruct (addKey s a sl o kp) as [s'| |] eqn:Ea;
    [|unfold addKey, deref in Ea; by rewrite Hk in Ea..].
  assert (Hs' : keys s' = keys s /\ roots s' = roots s).
  { unfold addKey, deref in Ea. rewrite Hk in Ea. cbn in Ea. by injection Ea as <-. }
  destruct Hs' as [Ek Er]. exists s'. split_and!; [done| |done|done].
  constructor; rewrite ?Ek, ?Er; unfold valid; rewrite ?Ek.
  - apply (sw_roots _ W).
  - intros a' sl' o' t' p Hp.
    destruct (addKey_find _ _ _ _ _ _ _ _ _ _ _ _ Hk Ea Hp) as [H|(-> & -> & -> & -> & ->)];
      [by apply (sw_index _ W) in H|by exists k].
  - intros p x Hx. destruct (sw_keys _ W _ _ Hx) as [K1 K2 K3].
    constructor; unfold at_slot, valid; rewrite ?Ek; done.
Qed.

Lemma JournalChanges_same k i v :
  slot (JournalChanges k i v) = slot k /\ offset (JournalChanges k i v) = offset k /\
  typeId (JournalChanges k i v) = typeId k.
Proof. unfold JournalChanges. by destruct (changes k). Qed.

Lemma JournalChanges_changes k i v :
  changes (JournalChanges k i v) = Some (sc_append (default ∅ (changes k)) i v).
Proof. unfold JournalChanges. by destruct (changes k). Qed.

Lemma JournalChanges_wf s k i v : key_wf s k -> key_wf s (JournalChanges k i v).
Proof.
  intros [K1 K2 K3]. constructor.
  - unfold JournalChanges. destruct (changes k); exact K1.
  - unfold JournalChanges. destruct (changes k); exact K2.
  - intros ch. rewrite JournalChanges_changes. intros [= <-]. apply sc_append_wf.
    destruct (changes k) as [c|]; [by apply K3|]. apply map_Forall_empty.
Qed.

(** Journalling into a key that exists. *)
Lemma journal_step s p i v :
  states_wf s -> valid s p -> exists k,
    keys s !! p = Some k /\ states_wf (store_key s p (JournalChanges k i v)) /\
    keys_ext s (store_key s p (JournalChanges k i v)).
Proof.
  intros W Hp. destruct (lookup_lt_is_Some_2 _ _ Hp) as [k Hk]. exists k.
  destruct (JournalChanges_same k i v) as (E1 & E2 & E3). split; [done|]. split.
  - eapply store_key_wf; [done..|]. apply JournalChanges_wf. by eapply (sw_keys _ W).
  - by eapply store_key_ext.
Qed.

(** *** The operations never panic and keep the journal well formed *)

Lemma saveBalance_ok s a b i :
  states_wf s -> exists s', saveBalance s a b i = Ret s' /\ states_wf s'.
Proof.
  intros W. unfold saveBalance. destruct (getRoot_wf s a W) as (W' & _ & Hv & _).
  destruct (getRoot s a) as [r s1]. cbn in *.
  destruct (journal_step s1 r i (uint256.Bytes b) W' Hv) as (k & Hk & Wk & _).
  unfold deref. rewrite Hk. cbn. by eexists.
Qed.

Lemma saveChange_ok s a self off tid i v :
  states_wf s -> exists err s', saveChange s a self off tid i v = Ret (err, s') /\ states_wf s'.
Proof.
  intros W. unfold saveChange. destruct (offsetU8 off) as [o|e]; [|by eexists _, _].
  destruct (roots s !! a); [|by eexists _, _].
  destruct (findKey s a self o tid) as [p|] eqn:Ef; [|by eexists _, _].
  destruct (sw_index _ W _ _ _ _ _ Ef) as (k & Hk & _).
  destruct (journal_step s p i v W (lookup_lt_Some _ _ _ Hk)) as (k' & Hk' & Wk & _).
  unfold deref. rewrite Hk'. cbn. by eexists _, _.
Qed.

(** The key [saveKey] registers, below a valid parent. *)
Lemma registerChild_ok s a r self o tid idx :
  states_wf s -> valid s r -> exists p s1 s2,
    AddChild (alloc s (NewBranchKey self o tid idx)).2 r
      (alloc s (NewBranchKey self o tid idx)).1 = Ret (p, s1) /\
    at_slot s1 p self o /\ addKey s1 a self o p = Ret s2 /\ states_wf s2.
Proof.
  intros W Hr. destruct (alloc_wf s _ W (fresh_key_wf s self o tid idx)) as (W1 & He & Hk).
  destruct (alloc s (NewBranchKey self o tid idx)) as [c s0] eqn:Es. cbn [fst snd] in *.
  assert (Hr0 : valid s0 r) by (by eapply keys_ext_valid).
  destruct (AddChild_wf s0 r c (NewBranchKey self o tid idx) self W1 Hr0 Hk eq_refl)
    as (p & s1 & -> & W2 & _ & Hp).
  destruct (addKey_wf s1 a self o p W2 Hp) as (s2 & ? & ? & _ & _).
  by exists p, s1, s2.
Qed.

Lemma saveKey_ok s a parent self off tid ptid idx :
  states_wf s ->
  exists err s', saveKey s a parent self off tid ptid idx = Ret (err, s') /\ states_wf s'.
Proof.
  intros W. unfold saveKey. destruct (offsetU8 off) as [o|e]; [|by eexists _, _].
  destruct parent as [par|].
  - destruct (findKey s a par 0 ptid) as [pk|] eqn:Ef; [|by eexists _, _].
    destruct (sw_index _ W _ _ _ _ _ Ef) as (k & Hk & _).
    destruct (registerChild_ok s a pk self o tid idx W (lookup_lt_Some _ _ _ Hk))
      as (p & s1 & s2 & Hadd & (kp & Hkp & Hsl & Ho) & Hidx & W2).
    destruct (alloc s (NewBranchKey self o tid idx)) as [c s0]. cbn [fst snd] in Hadd.
    rewrite Hadd. cbn [rbind]. unfold deref. rewrite Hkp. cbn [rbind]. rewrite Hsl, Ho, Hidx.
    by eexists _, _.
  - destruct (getRoot_wf s a W) as (W' & _ & Hv & _).
    destruct (getRoot s a) as [r s']. cbn [fst snd] in *.
    destruct (registerChild_ok s' a r self o tid idx W' Hv)
      as (p & s1 & s2 & Hadd & (kp & Hkp & Hsl & Ho) & Hidx & W2).
    destruct (alloc s' (NewBranchKey self o tid idx)) as [c s0]. cbn [fst snd] in Hadd.
    rewrite Hadd. cbn [rbind]. unfold deref. rewrite Hkp. cbn [rbind]. rewrite Hsl, Ho, Hidx.
    by eexists _, _.
Qed.

(** A recorded change is the last one [Slot] reports for that call, and the
    changes of other calls are untouched. *)
Lemma saveChange_then_Slot s s' a self off tid i v :
  saveChange s a self off tid i v = Ret (None, s') ->
  exists before ch, Slot s a (Some self) off tid = Ret (before, None) /\
    Slot s' a (Some self) off tid = Ret (Some ch, None) /\
    (exists l, ch !! i = Some l /\ last l = Some v) /\
    (forall j, j <> i -> ch !! j = default ∅ before !! j).
Proof.
  unfold saveChange, Slot. destruct (offsetU8 off) as [o|e]; [|done].
  destruct (roots s !! a); [|done].
  destruct (findKey s a self o tid) as [p|] eqn:Ef; [|done].
  unfold deref at 1. destruct (keys s !! p) as [k|] eqn:Ek; [|done]. cbn [rbind].
  intros [= <-]. unfold deref. rewrite Ek. cbn [rbind].
  change (findKey (store_key s p (JournalChanges k i v)) a self o tid)
    with (findKey s a self o tid). rewrite Ef. cbn [keys store_key set_keys].
  rewrite list_lookup_insert_eq by (by eapply lookup_lt_Some). cbn [rbind].
  rewrite JournalChanges_changes. eexists _, _. split; [done|]. split; [done|].
  split; [apply sc_append_last|]. intros j Hj. by apply sc_append_other.
Qed.
End JournalInvariant.

(** * The tracer *)
Section TracerInvariant.
Context `{U : uint256.Lib}.

Definition tracer_wf (t : Tracer) : Prop := states_wf (states t) /\ tree_wf (callTree t).

(** C24: the journal operations never fail with a panic: from a well-formed
    tracer, [SaveStateKey] and [SaveStateChange] return (possibly with an
    error value) and leave a well-formed tracer with the same call tree. *)
Theorem journal_never_panics (t : Tracer) account parent slot_ off tid ptid idx v :
  tracer_wf t ->
  (exists err t', SaveStateKey t account parent slot_ off tid ptid idx = Ret (err, t') /\
     tracer_wf t' /\ callTree t' = callTree t) /\
  (exists err t', SaveStateChange t account slot_ off tid v = Ret (err, t') /\
     tracer_wf t' /\ callTree t' = callTree t).
Proof.
  intros [W T]. unfold SaveStateKey, SaveStateChange. split.
  - destruct (saveKey_ok (states t) account parent slot_ off tid ptid idx W)
      as (err & s' & -> & W'). by eexists _, _.
  - destruct (saveChange_ok (states t) account slot_ off tid (CurrentCallIndex t) v W)
      as (err & s' & -> & W'). by eexists _, _.
Qed.

(** C25: after a successful [SaveStateChange], [Slot] on the same slot, offset
    and type reports the new value as the last change of the current call,
    and reports the changes of every other call as before. *)
Theorem journal_roundtrip (t t' : Tracer) account slot_ off tid v :
  SaveStateChange t account slot_ off tid v = Ret (None, t') ->
  exists before ch, Slot (states t) account (Some slot_) off tid = Ret (before, None) /\
    Slot (states t') account (Some slot_) off tid = Ret (Some ch, None) /\
    (exists l, ch !! CurrentCallIndex t = Some l /\ last l = Some v) /\
    (forall j, j <> CurrentCallIndex t -> ch !! j = default ∅ before !! j).
Proof.
  unfold SaveStateChange.
  destruct (saveChange _ _ _ _ _ _ _) as [[err s]| |] eqn:E; cbn; [|done..].
  intros [= -> <-]. by apply saveChange_then_Slot.
Qed.

(** C26: the call tree stays a tree: entering a call ([SaveCall]) and leaving
    it ([ExitCall]) keep calls numbered in starting order, the lookup table
    equal to that numbering, and parent and child pointers consistent. *)
Theorem call_tree_wf (t : Tracer) from to data value gas leftover r err :
  tracer_wf t -> len (calls (callTree t)) + 1 < 2 ^ 64 ->
  tracer_wf (SaveCall t from to data value gas) /\ tracer_wf (ExitCall t leftover r err).
Proof.
  intros [W T] Hlen. split; (split; [done|]); cbn.
  - by apply tree_add_wf.
  - by apply tree_exit_wf.
Qed.
End TracerInvariant.

(** * Witnesses *)
From S2P Require Import Instances.

Lemma NewTracer_wf : tracer_wf NewTracer.
Proof. split; [apply NewStateChanges_wf|apply NewCallTree_wf]. Defined.

Lemma journal_never_panics_witness :
  tracer_wf NewTracer /\ exists err t',
    SaveStateKey NewTracer zeroAddress None (uint256.NewInt 1) None zeroHash zeroHash [7]
      = Ret (err, t') /\ tracer_wf t'.
Proof.
  split; [exact NewTracer_wf|].
  destruct (journal_never_panics NewTracer zeroAddress None (uint256.NewInt 1) None zeroHash
    zeroHash [7] [8] NewTracer_wf) as [(err & t' & H & W & _) _].
  exists err, t'. exact (conj H W).
Defined.

(** A variable "x" (index 7) at slot 1 of the zero address, inside one call. *)
Definition keyedTracer : Tracer :=
  match SaveStateKey (SaveCall NewTracer zeroAddress None [] (uint256.NewInt 0) (uint256.NewInt 9))
          zeroAddress None (uint256.NewInt 1) None zeroHash zeroHash [7] with
  | Ret (_, t) => t
  | _ => NewTracer
  end.
Definition changedTracer : Tracer :=
  match SaveStateChange keyedTracer zeroAddress (uint256.NewInt 1) None zeroHash [42] with
  | Ret (_, t) => t
  | _ => NewTracer
  end.

Lemma journal_roundtrip_witness :
  SaveStateChange keyedTracer zeroAddress (uint256.NewInt 1) None zeroHash [42]
    = Ret (None, changedTracer) /\
  exists ch, Slot (states changedTracer) zeroAddress (Some (uint256.NewInt 1)) None zeroHash
    = Ret (Some ch, None).
Proof.
  assert (H : SaveStateChange keyedTracer zeroAddress (uint256.NewInt 1) None zeroHash [42]
    = Ret (None, changedTracer)) by reflexivity.
  split; [exact H|].
  destruct (journal_roundtrip _ _ _ _ _ _ _ H) as (before & ch & _ & Hs & _).
  exists ch. exact Hs.
Defined.

Lemma call_tree_wf_witness :
  tracer_wf NewTracer /\
  tracer_wf (SaveCall NewTracer zeroAddress None [] (uint256.NewInt 0) (uint256.NewInt 9)).
Proof.
  split; [exact NewTracer_wf|].
  exact (proj1 (call_tree_wf NewTracer zeroAddress None [] (uint256.NewInt 0) (uint256.NewInt 9)
    0 [] None NewTracer_wf eq_refl)).
Defined.
