(* ===== verification/Machine.v ===== *)
(** The state of a running EVM (vm/evm.go, vm/interpreter.go), the interface
    between the interpreter and the call operations, and the primitive actions
    the opcodes are made of.

    The Go structs [EVM] and [EVMInterpreter] point to each other and live as
    long as the transaction: their mutable fields are the record [Machine],
    their constant fields the record [Env]. One call frame (the locals of
    [EVMInterpreter.Run]) is a [St]: the program counter, the [ScopeContext],
    and the machine. *)
From S2P Require Import Prelude Opcodes Errors Externals Stack Memory Analysis Contract Tracer.

Section Machine.
Context {L : Libs}.

(** [type ScopeContext struct] *)
Record ScopeContext := mkScope {
  scMemory : Memory;
  scStack : Stack;
  scContract : Contract;
}.

(** The calls of the [EVMLogger] interface (vm/logger.go), as the events a
    configured logger receives, and those of the interface [AspectLogger] of
    aspect-core, which a logger may implement too. *)
Inductive Event :=
  | CaptureStart (from to : Address) (create : bool) (input : bytes) (gas value : Z)
  | CaptureEnd (output : bytes) (gasUsed : Z) (err : option Err)
  | CaptureEnter (typ : OpCode) (from to : Address) (input : bytes) (gas : Z)
      (value : option Z)
  | CaptureExit (output : bytes) (gasUsed : Z) (err : option Err)
  | CaptureState (pc : Z) (op : OpCode) (gas cost : Z) (scope : ScopeContext)
      (rData : bytes) (depth : Z) (err : option Err)
  | CaptureFault (pc : Z) (op : OpCode) (gas cost : Z) (scope : ScopeContext)
      (depth : Z) (err : option Err)
  | CaptureAspectEnter (joinpoint : aspect.JoinPointRunType) (from to aspectId : Address)
      (input : bytes) (gas : Z) (value : option Z) (execCtx : aspect.Message)
  | CaptureAspectExit (joinpoint : aspect.JoinPointRunType) (result : aspect.JPResult).

(** What the aspects of a join point, which run outside this code, tell the
    logger that is passed to them: their own entries and exits, and the events
    of the calls they make. *)
Class AspectReports := {
  PreReports : aspect.CallInput -> aspect.Ctx -> StateDB.DB -> list Event;
  PostReports : aspect.CallInput -> bytes -> string -> aspect.Ctx -> StateDB.DB -> list Event;
}.

(** [type BlockContext struct], [type TxContext struct], the chain
    configuration and [type Config struct]: constant while a call runs.
    [hasTracer] is [Config.Tracer != nil]. *)
Record Env := {
  CanTransfer : StateDB.DB -> Address -> Z -> bool;
  Transfer : StateDB.DB -> Address -> Address -> Z -> StateDB.DB;
  GetHash : Z -> Hash;
  Coinbase : Address;
  GasLimit : Z;
  BlockNumber : Z;
  Time : Z;
  Difficulty : Z;
  BaseFee : option Z;
  Random : option Hash;
  Origin : Address;
  GasPrice : Z;
  ChainID : Z;
  chainRules : params.Rules;
  hasTracer : bool;
  EnablePreimageRecording : bool;
}.

(** The mutable fields of [EVM] and [EVMInterpreter]. [abort] is an
    [atomic.Bool] another goroutine may set; [cancelAt = Some n] says that a
    concurrent [Cancel] lands just before the [n]-th next load. *)
Record Machine := mkMachine {
  db : StateDB.DB;
  actx : aspect.Ctx;
  depth : Z;
  callGasTemp : Z;
  abort : bool;
  cancelAt : option nat;
  tracer : Tracer;
  IsExecuteJP : bool;
  hasherBuf : Hash;
  readOnly : bool;
  returnData : bytes;
  jdests : jdheap;
  events : list Event;
}.

Definition set_db (x : StateDB.DB) (s : Machine) : Machine :=
  mkMachine x (actx s) (depth s) (callGasTemp s) (abort s) (cancelAt s) (tracer s) (IsExecuteJP
    s) (hasherBuf s) (readOnly s) (returnData s) (jdests s) (events s).
Definition set_actx (x : aspect.Ctx) (s : Machine) : Machine :=
  mkMachine (db s) x (depth s) (callGasTemp s) (abort s) (cancelAt s) (tracer s) (IsExecuteJP
    s) (hasherBuf s) (readOnly s) (returnData s) (jdests s) (events s).
Definition set_depth (x : Z) (s : Machine) : Machine :=
  mkMachine (db s) (actx s) x (callGasTemp s) (abort s) (cancelAt s) (tracer s) (IsExecuteJP s)
    (hasherBuf s) (readOnly s) (returnData s) (jdests s) (events s).
Definition set_callGasTemp (x : Z) (s : Machine) : Machine :=
  mkMachine (db s) (actx s) (depth s) x (abort s) (cancelAt s) (tracer s) (IsExecuteJP s)
    (hasherBuf s) (readOnly s) (returnData s) (jdests s) (events s).
Definition set_abort (x : bool) (s : Machine) : Machine :=
  mkMachine (db s) (actx s) (depth s) (callGasTemp s) x (cancelAt s) (tracer s) (IsExecuteJP s)
    (hasherBuf s) (readOnly s) (returnData s) (jdests s) (events s).
Definition set_cancelAt (x : option nat) (s : Machine) : Machine :=
  mkMachine (db s) (actx s) (depth s) (callGasTemp s) (abort s) x (tracer s) (IsExecuteJP s)
    (hasherBuf s) (readOnly s) (returnData s) (jdests s) (events s).
Definition set_tracer (x : Tracer) (s : Machine) : Machine :=
  mkMachine (db s) (actx s) (depth s) (callGasTemp s) (abort s) (cancelAt s) x (IsExecuteJP s)
    (hasherBuf s) (readOnly s) (returnData s) (jdests s) (events s).
Definition set_IsExecuteJP (x : bool) (s : Machine) : Machine :=
  mkMachine (db s) (actx s) (depth s) (callGasTemp s) (abort s) (cancelAt s) (tracer s) x
    (hasherBuf s) (readOnly s) (returnData s) (jdests s) (events s).
Definition set_hasherBuf (x : Hash) (s : Machine) : Machine :=
  mkMachine (db s) (actx s) (depth s) (callGasTemp s) (abort s) (cancelAt s) (tracer s)
    (IsExecuteJP s) x (readOnly s) (returnData s) (jdests s) (events s).
Definition set_readOnly (x : bool) (s : Machine) : Machine :=
  mkMachine (db s) (actx s) (depth s) (callGasTemp s) (abort s) (cancelAt s) (tracer s)
    (IsExecuteJP s) (hasherBuf s) x (returnData s) (jdests s) (events s).
Definition set_returnData (x : bytes) (s : Machine) : Machine :=
  mkMachine (db s) (actx s) (depth s) (callGasTemp s) (abort s) (cancelAt s) (tracer s)
    (IsExecuteJP s) (hasherBuf s) (readOnly s) x (jdests s) (events s).
Definition set_jdests (x : jdheap) (s : Machine) : Machine :=
  mkMachine (db s) (actx s) (depth s) (callGasTemp s) (abort s) (cancelAt s) (tracer s)
    (IsExecuteJP s) (hasherBuf s) (readOnly s) (returnData s) x (events s).
Definition set_events (x : list Event) (s : Machine) : Machine :=
  mkMachine (db s) (actx s) (depth s) (callGasTemp s) (abort s) (cancelAt s) (tracer s)
    (IsExecuteJP s) (hasherBuf s) (readOnly s) (returnData s) (jdests s) x.

(** One call frame. *)
Record St := mkSt { pc : Z; mach : Machine; scope : ScopeContext }.
Definition set_pc (x : Z) (s : St) : St :=
  mkSt x (mach s) (scope s).
Definition set_mach (x : Machine) (s : St) : St :=
  mkSt (pc s) x (scope s).
Definition set_scope (x : ScopeContext) (s : St) : St :=
  mkSt (pc s) (mach s) x.
Definition set_memory (m : Memory) (s : St) : St :=
  set_scope (mkScope m (scStack (scope s)) (scContract (scope s))) s.
Definition set_stack (st : Stack) (s : St) : St :=
  set_scope (mkScope (scMemory (scope s)) st (scContract (scope s))) s.
Definition set_contract (c : Contract) (s : St) : St :=
  set_scope (mkScope (scMemory (scope s)) (scStack (scope s)) c) s.
Definition memory (s : St) : Memory := scMemory (scope s).
Definition stack (s : St) : Stack := scStack (scope s).
Definition contract (s : St) : Contract := scContract (scope s).

(** The methods of [EVM] the opcodes call: the interface the interpreter
    sees of the call operations. *)
Record EVMCalls := {
  do_Call : ContractRef -> Address -> bytes -> Z -> Z -> ST Machine (bytes * Z * option Err);
  do_CallCode : ContractRef -> Address -> bytes -> Z -> Z ->
                ST Machine (bytes * Z * option Err);
  do_DelegateCall : ContractRef -> Address -> bytes -> Z -> ST Machine (bytes * Z * option Err);
  do_StaticCall : ContractRef -> Address -> bytes -> Z -> ST Machine (bytes * Z * option Err);
  do_Create : ContractRef -> bytes -> Z -> Z ->
              ST Machine (bytes * Address * Z * option Err);
  do_Create2 : ContractRef -> bytes -> Z -> Z -> uint256.Int ->
               ST Machine (bytes * Address * Z * option Err);
}.

(** [type executionFunc], [type gasFunc] and [type memorySizeFunc] *)
Definition executionFunc : Type := Env -> EVMCalls -> ST St (bytes * option Err).
Definition gasFunc : Type := Env -> Z -> ST St (Z * option Err).
Definition memorySizeFunc : Type := Stack -> res (Z * bool).

(** * Primitive actions *)

Definition onMachine {A} (m : ST Machine A) : ST St A := zoom mach set_mach m.

(** The stack of the frame. *)
Definition pop_ : ST St uint256.Int := zoom stack set_stack (fun st => pop st).
Definition peek_ : ST St uint256.Int := let* st := gets stack in liftR (peek st).
Definition poke_ (x : uint256.Int) : ST St unit :=
  zoom stack set_stack (fun st => let? st' := poke st x in Ret (tt, st')).
Definition push_ (x : uint256.Int) : ST St unit :=
  modify (fun s => set_stack (push (stack s) x) s).
Definition back_ (n : Z) : ST St uint256.Int := let* st := gets stack in liftR (Back st n).

(** The memory of the frame. *)
Definition onMemory (f : Memory -> res Memory) : ST St unit :=
  zoom memory set_memory (fun m => let? m' := f m in Ret (tt, m')).
Definition readMemory {A} (f : Memory -> res A) : ST St A :=
  let* m := gets memory in liftR (f m).

(** [scope.Contract.UseGas(gas)] and [scope.Contract.Gas += gas] *)
Definition useGas_ (gas : Z) : ST St bool :=
  zoom contract set_contract (fun c => Ret (UseGas c gas)).
Definition addGas_ (gas : Z) : ST St unit :=
  modify (fun s => set_contract (set_Gas (u64 (Gas (contract s) + gas)) (contract s)) s).

(** The state database: queries and updates. *)
Definition query {A} (f : StateDB.DB -> A) : ST St A := gets (fun s => f (db (mach s))).
Definition update (f : StateDB.DB -> StateDB.DB) : ST St unit :=
  modify (fun s => set_mach (set_db (f (db (mach s))) (mach s)) s).
Definition address_ : ST St Address := gets (fun s => ContractAddress (contract s)).

Definition setReturnData (d : bytes) : ST St unit :=
  modify (fun s => set_mach (set_returnData d (mach s)) s).
Definition setCallGasTemp (g : Z) : ST St unit :=
  modify (fun s => set_mach (set_callGasTemp g (mach s)) s).

(** [Config.Tracer.Capture...], when a logger is configured. *)
Definition emit (env : Env) (e : Event) (m : Machine) : Machine :=
  if hasTracer env then set_events (events m ++ [e]) m else m.

(** What a join point tells the logger it was given. *)
Definition emitAll (env : Env) (es : list Event) (m : Machine) : Machine :=
  if hasTracer env then set_events (events m ++ es) m else m.

(** [evm.abort.Load()] *)
Definition loadAbort (m : Machine) : bool * Machine :=
  if abort m then (true, m)
  else match cancelAt m with
       | None => (false, m)
       | Some O => (true, set_abort true (set_cancelAt None m))
       | Some (S n) => (false, set_cancelAt (Some n) m)
       end.

(** [func (evm *EVM) Cancel()] and [Cancelled()] *)
Definition Cancel (m : Machine) : Machine := set_abort true m.
Definition Cancelled (m : Machine) : bool * Machine := loadAbort m.

(** The keccak helper of the opcodes: the digest goes through [hasherBuf]. *)
Definition keccak_ (data : bytes) : ST St Hash :=
  let h := crypto.Keccak256 data in
  modify (fun s => set_mach (set_hasherBuf h (mach s)) s) ;;;
  gets (fun s => hasherBuf (mach s)).

(** [v, _ := uint256.FromBig(b)], which yields a nil pointer on nil. *)
Definition fromBig_ (b : option Z) : ST St uint256.Int :=
  match b with
  | Some z => ret (uint256.FromBig z).1
  | None => liftR (Panicked NilDeref)
  end.

(** [return nil, nil] and [return nil, err] *)
Definition done_ : ST St (bytes * option Err) := ret ([], None).
Definition fail_ (e : Err) : ST St (bytes * option Err) := ret ([], Some e).
End Machine.
