(* ===== verification/Gas.v ===== *)
(** Gas accounting: vm/gas.go, vm/memory_table.go, vm/gas_table.go and
    vm/operations_acl.go. A gas function reads and may change the EVM, the
    contract, the stack and the memory of the frame, so it is a computation on
    the frame; its argument is the memory size the operation needs. *)
From S2P Require Import Prelude Opcodes Errors Externals Stack Memory Analysis Contract Tracer.
From S2P Require Import Machine.

(** * vm/gas.go *)
Definition GasQuickStep : Z := 2.
Definition GasFastestStep : Z := 3.
Definition GasFastStep : Z := 5.
Definition GasMidStep : Z := 8.
Definition GasSlowStep : Z := 10.
Definition GasExtStep : Z := 20.

Definition callGas `{U : uint256.Lib} (isEip150 : bool) (availableGas base : Z)
    (callCost : uint256.Int) : Z * option Err :=
  let rest :=
    if negb (uint256.IsUint64 callCost) then (0, Some ErrGasUintOverflow)
    else (uint256.Uint64 callCost, None) in
  if isEip150 then
    let availableGas := u64 (availableGas - base) in
    let gas := u64 (availableGas - availableGas / 64) in
    if negb (uint256.IsUint64 callCost) || (gas <? uint256.Uint64 callCost) then (gas, None)
    else rest
  else rest.

(** * vm/memory_table.go *)
Section MemoryTable.
Context {L : Libs}.

Definition memoryKeccak256 : memorySizeFunc := fun st =>
  let? a := Back st 0 in let? b := Back st 1 in Ret (calcMemSize64 a b).
Definition memoryCallDataCopy : memorySizeFunc := fun st =>
  let? a := Back st 0 in let? b := Back st 2 in Ret (calcMemSize64 a b).
Definition memoryReturnDataCopy : memorySizeFunc := fun st =>
  let? a := Back st 0 in let? b := Back st 2 in Ret (calcMemSize64 a b).
Definition memoryCodeCopy : memorySizeFunc := fun st =>
  let? a := Back st 0 in let? b := Back st 2 in Ret (calcMemSize64 a b).
Definition memoryExtCodeCopy : memorySizeFunc := fun st =>
  let? a := Back st 1 in let? b := Back st 3 in Ret (calcMemSize64 a b).
Definition memoryMLoad : memorySizeFunc := fun st =>
  let? a := Back st 0 in Ret (calcMemSize64WithUint a 32).
Definition memoryMStore8 : memorySizeFunc := fun st =>
  let? a := Back st 0 in Ret (calcMemSize64WithUint a 1).
Definition memoryMStore : memorySizeFunc := fun st =>
  let? a := Back st 0 in Ret (calcMemSize64WithUint a 32).
Definition memoryMcopy : memorySizeFunc := fun st =>
  let? mStart := Back st 0 in
  let? src := Back st 1 in
  let mStart := if uint256.Gt src mStart then src else mStart in
  let? n := Back st 2 in
  Ret (calcMemSize64 mStart n).
Definition memoryCreate : memorySizeFunc := fun st =>
  let? a := Back st 1 in let? b := Back st 2 in Ret (calcMemSize64 a b).
Definition memoryCreate2 : memorySizeFunc := fun st =>
  let? a := Back st 1 in let? b := Back st 2 in Ret (calcMemSize64 a b).

(** The larger of the argument and the return regions of a call. *)
Definition maxRegion (st : Stack) (o1 n1 o2 n2 : Z) : res (Z * bool) :=
  let? a := Back st o1 in let? b := Back st n1 in
  let '(x, overflow) := calcMemSize64 a b in
  if overflow then Ret (0, true)
  else
    let? a := Back st o2 in let? b := Back st n2 in
    let '(y, overflow) := calcMemSize64 a b in
    if overflow then Ret (0, true)
    else if y <? x then Ret (x, false) else Ret (y, false).
Definition memoryCall : memorySizeFunc := fun st => maxRegion st 5 6 3 4.
Definition memoryDelegateCall : memorySizeFunc := fun st => maxRegion st 4 5 2 3.
Definition memoryStaticCall : memorySizeFunc := fun st => maxRegion st 4 5 2 3.

Definition memoryReturn : memorySizeFunc := fun st =>
  let? a := Back st 0 in let? b := Back st 1 in Ret (calcMemSize64 a b).
Definition memoryRevert : memorySizeFunc := fun st =>
  let? a := Back st 0 in let? b := Back st 1 in Ret (calcMemSize64 a b).
Definition memoryLog : memorySizeFunc := fun st =>
  let? a := Back st 0 in let? b := Back st 1 in Ret (calcMemSize64 a b).
End MemoryTable.

(** * vm/gas_table.go *)

(** [if err != nil { return 0, err }] after a gas computation, and
    [if overflow { return 0, ErrGasUintOverflow }] after a checked operation. *)
Definition gas_try {S} (m : ST S (Z * option Err)) (k : Z -> ST S (Z * option Err))
    : ST S (Z * option Err) :=
  bind m (fun '(g, err) => match err with Some e => ret (0, Some e) | None => k g end).
Definition gas_ovf {S} (r : Z * bool) (k : Z -> ST S (Z * option Err)) : ST S (Z * option Err) :=
  let '(v, overflow) := r in
  if overflow then ret (0, Some ErrGasUintOverflow) else k v.
Notation "'let!' x ':=' m 'in' k" := (gas_try m (fun x => k))
  (at level 10, x name, m at level 100, k at level 200) : go_scope.
Notation "'ovf!' x ':=' r 'in' k" := (gas_ovf r (fun x => k))
  (at level 10, x name, r at level 100, k at level 200) : go_scope.

Section GasTable.
Context {L : Libs}.

(** [func memoryGasCost(mem *Memory, newMemSize uint64) (uint64, error)] *)
Definition memoryGasCost (mem : Memory) (newMemSize : Z) : (Z * option Err) * Memory :=
  if newMemSize =? 0 then ((0, None), mem)
  else if 0x1FFFFFFFE0 <? newMemSize then ((0, Some ErrGasUintOverflow), mem)
  else
    let newMemSizeWords := toWordSize newMemSize in
    let newMemSize := u64 (newMemSizeWords * 32) in
    if u64 (Len mem) <? newMemSize then
      let square := u64 (newMemSizeWords * newMemSizeWords) in
      let linCoef := u64 (newMemSizeWords * params.MemoryGas) in
      let quadCoef := square / params.QuadCoeffDiv in
      let newTotalFee := u64 (linCoef + quadCoef) in
      let fee := u64 (newTotalFee - lastGasCost mem) in
      ((fee, None), mkMemory (store mem) (cap mem) newTotalFee)
    else ((0, None), mem).

Definition memGas (memorySize : Z) : ST St (Z * option Err) :=
  zoom memory set_memory (fun m => Ret (memoryGasCost m memorySize)).

Definition memoryCopierGas (stackpos : Z) : gasFunc := fun env memorySize =>
  let! gas := memGas memorySize in
  let* n := back_ stackpos in
  ovf! words := uint256.Uint64WithOverflow n in
  ovf! words := math.SafeMul (toWordSize words) params.CopyGas in
  ovf! gas := math.SafeAdd gas words in
  ret (gas, None).

Definition gasCallDataCopy : gasFunc := memoryCopierGas 2.
Definition gasCodeCopy : gasFunc := memoryCopierGas 2.
Definition gasMcopy : gasFunc := memoryCopierGas 2.
Definition gasExtCodeCopy : gasFunc := memoryCopierGas 3.
Definition gasReturnDataCopy : gasFunc := memoryCopierGas 2.

Definition is_zeroHash (h : Hash) : bool := bytes_eqb h zeroHash.

Definition gasSStore : gasFunc := fun env memorySize =>
  let* y := back_ 1 in
  let* x := back_ 0 in
  let* self := address_ in
  let* current := query (fun d => StateDB.GetState d self (uint256.Bytes32 x)) in
  let rules := chainRules env in
  if params.IsPetersburg rules || negb (params.IsConstantinople rules) then
    if is_zeroHash current && negb (uint256.Sign y =? 0) then
      ret (params.SstoreSetGas, None)
    else if negb (is_zeroHash current) && (uint256.Sign y =? 0) then
      update (StateDB.AddRefund params.SstoreRefundGas) ;;;
      ret (params.SstoreClearGas, None)
    else ret (params.SstoreResetGas, None)
  else
    let value := uint256.Bytes32 y in
    if bytes_eqb current value then ret (params.NetSstoreNoopGas, None)
    else
      let* original := query (fun d => StateDB.GetCommittedState d self (uint256.Bytes32 x)) in
      if bytes_eqb original current then
        if is_zeroHash original then ret (params.NetSstoreInitGas, None)
        else
          (if is_zeroHash value then update (StateDB.AddRefund params.NetSstoreClearRefund)
           else ret tt) ;;;
          ret (params.NetSstoreCleanGas, None)
      else
        (if negb (is_zeroHash original) then
           if is_zeroHash current then update (StateDB.SubRefund params.NetSstoreClearRefund)
           else if is_zeroHash value then update (StateDB.AddRefund params.NetSstoreClearRefund)
           else ret tt
         else ret tt) ;;;
        (if bytes_eqb original value then
           if is_zeroHash original then
             update (StateDB.AddRefund params.NetSstoreResetClearRefund)
           else update (StateDB.AddRefund params.NetSstoreResetRefund)
         else ret tt) ;;;
        ret (params.NetSstoreDirtyGas, None).

Definition errSentry : Err := errNew "not enough gas for reentrancy sentry".

Definition gasSStoreEIP2200 : gasFunc := fun env memorySize =>
  let* c := gets contract in
  if Gas c <=? params.SstoreSentryGasEIP2200 then ret (0, Some errSentry)
  else
    let* y := back_ 1 in
    let* x := back_ 0 in
    let* self := address_ in
    let* current := query (fun d => StateDB.GetState d self (uint256.Bytes32 x)) in
    let value := uint256.Bytes32 y in
    if bytes_eqb current value then ret (params.SloadGasEIP2200, None)
    else
      let* original := query (fun d => StateDB.GetCommittedState d self (uint256.Bytes32 x)) in
      if bytes_eqb original current then
        if is_zeroHash original then ret (params.SstoreSetGasEIP2200, None)
        else
          (if is_zeroHash value then
             update (StateDB.AddRefund params.SstoreClearsScheduleRefundEIP2200)
           else ret tt) ;;;
          ret (params.SstoreResetGasEIP2200, None)
      else
        (if negb (is_zeroHash original) then
           if is_zeroHash current then
             update (StateDB.SubRefund params.SstoreClearsScheduleRefundEIP2200)
           else if is_zeroHash value then
             update (StateDB.AddRefund params.SstoreClearsScheduleRefundEIP2200)
           else ret tt
         else ret tt) ;;;
        (if bytes_eqb original value then
           if is_zeroHash original then
             update (StateDB.AddRefund
                       (u64 (params.SstoreSetGasEIP2200 - params.SloadGasEIP2200)))
           else
             update (StateDB.AddRefund
                       (u64 (params.SstoreResetGasEIP2200 - params.SloadGasEIP2200)))
         else ret tt) ;;;
        ret (params.SloadGasEIP2200, None).

Definition makeGasJournal (n : Z) : gasFunc := fun env memorySize =>
  ret (params.SloadGasEIP2200, None).

Definition makeGasLog (n : Z) : gasFunc := fun env memorySize =>
  let* sz := back_ 1 in
  ovf! requestedSize := uint256.Uint64WithOverflow sz in
  let! gas := memGas memorySize in
  ovf! gas := math.SafeAdd gas params.LogGas in
  ovf! gas := math.SafeAdd gas (u64 (n * params.LogTopicGas)) in
  ovf! memorySizeGas := math.SafeMul requestedSize params.LogDataGas in
  ovf! gas := math.SafeAdd gas memorySizeGas in
  ret (gas, None).

Definition gasKeccak256 : gasFunc := fun env memorySize =>
  let! gas := memGas memorySize in
  let* sz := back_ 1 in
  ovf! wordGas := uint256.Uint64WithOverflow sz in
  ovf! wordGas := math.SafeMul (toWordSize wordGas) params.Keccak256WordGas in
  ovf! gas := math.SafeAdd gas wordGas in
  ret (gas, None).

Definition pureMemoryGascost : gasFunc := fun env memorySize => memGas memorySize.

Definition gasReturn : gasFunc := pureMemoryGascost.
Definition gasRevert : gasFunc := pureMemoryGascost.
Definition gasMLoad : gasFunc := pureMemoryGascost.
Definition gasMStore8 : gasFunc := pureMemoryGascost.
Definition gasMStore : gasFunc := pureMemoryGascost.
Definition gasCreate : gasFunc := pureMemoryGascost.

Definition gasCreate2 : gasFunc := fun env memorySize =>
  let! gas := memGas memorySize in
  let* sz := back_ 2 in
  ovf! wordGas := uint256.Uint64WithOverflow sz in
  ovf! wordGas := math.SafeMul (toWordSize wordGas) params.Keccak256WordGas in
  ovf! gas := math.SafeAdd gas wordGas in
  ret (gas, None).

Definition gasCreateEip3860 : gasFunc := fun env memorySize =>
  let! gas := memGas memorySize in
  let* sz := back_ 2 in
  let '(size, overflow) := uint256.Uint64WithOverflow sz in
  if overflow || (params.MaxInitCodeSize <? size) then ret (0, Some ErrGasUintOverflow)
  else
    let moreGas := u64 (params.InitCodeWordGas * (u64 (size + 31) / 32)) in
    ovf! gas := math.SafeAdd gas moreGas in
    ret (gas, None).

Definition gasCreate2Eip3860 : gasFunc := fun env memorySize =>
  let! gas := memGas memorySize in
  let* sz := back_ 2 in
  let '(size, overflow) := uint256.Uint64WithOverflow sz in
  if overflow || (params.MaxInitCodeSize <? size) then ret (0, Some ErrGasUintOverflow)
  else
    let moreGas :=
      u64 ((params.InitCodeWordGas + params.Keccak256WordGas) * (u64 (size + 31) / 32)) in
    ovf! gas := math.SafeAdd gas moreGas in
    ret (gas, None).

(** [stack.data[stack.len()-2]] *)
Definition second_ : ST St uint256.Int :=
  let* st := gets stack in liftR (at_index st (slen st - 2)).

Definition gasExpFrontier : gasFunc := fun env memorySize =>
  let* e := second_ in
  let expByteLen := (uint256.BitLen e + 7) / 8 in
  let gas := u64 (expByteLen * params.ExpByteFrontier) in
  ovf! gas := math.SafeAdd gas params.ExpGas in
  ret (gas, None).

Definition gasExpEIP158 : gasFunc := fun env memorySize =>
  let* e := second_ in
  let expByteLen := (uint256.BitLen e + 7) / 8 in
  let gas := u64 (expByteLen * params.ExpByteEIP158) in
  ovf! gas := math.SafeAdd gas params.ExpGas in
  ret (gas, None).

(** [evm.callGasTemp, err = callGas(evm.chainRules.IsEIP150, contract.Gas, gas,
    stack.Back(0))], whose result [callGasTemp] the opcode picks up. *)
Definition setCallGas (env : Env) (gas : Z) : ST St (Z * option Err) :=
  let* c := gets contract in
  let* requested := back_ 0 in
  let '(temp, err) := callGas (params.IsEIP150 (chainRules env)) (Gas c) gas requested in
  setCallGasTemp temp ;;; ret (temp, err).

Definition gasCall : gasFunc := fun env memorySize =>
  let* v := back_ 2 in
  let transfersValue := negb (uint256.IsZero v) in
  let* a := back_ 1 in
  let address := uint256.Bytes20 a in
  let* isEmpty := query (fun d => StateDB.Empty d address) in
  let* exists_ := query (fun d => StateDB.Exist d address) in
  let gas :=
    if params.IsEIP158 (chainRules env) then
      if transfersValue && isEmpty then params.CallNewAccountGas else 0
    else if negb exists_ then params.CallNewAccountGas
    else 0 in
  let gas := if transfersValue then u64 (gas + params.CallValueTransferGas) else gas in
  let! memoryGas := memGas memorySize in
  ovf! gas := math.SafeAdd gas memoryGas in
  let! temp := setCallGas env gas in
  ovf! gas := math.SafeAdd gas temp in
  ret (gas, None).

Definition gasCallCode : gasFunc := fun env memorySize =>
  let! memoryGas := memGas memorySize in
  let* v := back_ 2 in
  let gas := if negb (uint256.Sign v =? 0) then params.CallValueTransferGas else 0 in
  ovf! gas := math.SafeAdd gas memoryGas in
  let! temp := setCallGas env gas in
  ovf! gas := math.SafeAdd gas temp in
  ret (gas, None).

Definition gasDelegateCall : gasFunc := fun env memorySize =>
  let! gas := memGas memorySize in
  let! temp := setCallGas env gas in
  ovf! gas := math.SafeAdd gas temp in
  ret (gas, None).

Definition gasStaticCall : gasFunc := fun env memorySize =>
  let! gas := memGas memorySize in
  let! temp := setCallGas env gas in
  ovf! gas := math.SafeAdd gas temp in
  ret (gas, None).

Definition gasSelfdestruct : gasFunc := fun env memorySize =>
  let rules := chainRules env in
  let* self := address_ in
  let* gas :=
    (if params.IsEIP150 rules then
       let* b := back_ 0 in
       let address := uint256.Bytes20 b in
       if params.IsEIP158 rules then
         let* isEmpty := query (fun d => StateDB.Empty d address) in
         let* balance := query (fun d => StateDB.GetBalance d self) in
         ret (if isEmpty && negb (Z.sgn balance =? 0) then
                u64 (params.SelfdestructGasEIP150 + params.CreateBySelfdestructGas)
              else params.SelfdestructGasEIP150)
       else
         let* exists_ := query (fun d => StateDB.Exist d address) in
         ret (if negb exists_ then
                u64 (params.SelfdestructGasEIP150 + params.CreateBySelfdestructGas)
              else params.SelfdestructGasEIP150)
     else ret 0) in
  let* suicided := query (fun d => StateDB.HasSuicided d self) in
  (if negb suicided then update (StateDB.AddRefund params.SelfdestructRefundGas)
   else ret tt) ;;;
  ret (gas, None).
End GasTable.

(** * vm/operations_acl.go *)
Section OperationsAcl.
Context {L : Libs}.

Definition makeGasSStoreFunc (clearingRefund : Z) : gasFunc := fun env memorySize =>
  let* c := gets contract in
  if Gas c <=? params.SstoreSentryGasEIP2200 then ret (0, Some errSentry)
  else
    let* y := back_ 1 in
    let* x := peek_ in
    let slot := uint256.Bytes32 x in
    let* self := address_ in
    let* current := query (fun d => StateDB.GetState d self slot) in
    let* (addrPresent, slotPresent) := query (fun d => StateDB.SlotInAccessList d self slot) in
    let* cost :=
      (if negb slotPresent then
         update (StateDB.AddSlotToAccessList self slot) ;;;
         (if negb addrPresent then
            liftR (Panicked (Explicit
              "impossible case: address was not present in access list during sstore op"))
          else ret params.ColdSloadCostEIP2929)
       else ret 0) in
    let value := uint256.Bytes32 y in
    if bytes_eqb current value then
      ret (u64 (cost + params.WarmStorageReadCostEIP2929), None)
    else
      let* original := query (fun d => StateDB.GetCommittedState d self (uint256.Bytes32 x)) in
      if bytes_eqb original current then
        if is_zeroHash original then ret (u64 (cost + params.SstoreSetGasEIP2200), None)
        else
          (if is_zeroHash value then update (StateDB.AddRefund clearingRefund)
           else ret tt) ;;;
          ret (u64 (cost + u64 (params.SstoreResetGasEIP2200 - params.ColdSloadCostEIP2929)),
               None)
      else
        (if negb (is_zeroHash original) then
           if is_zeroHash current then update (StateDB.SubRefund clearingRefund)
           else if is_zeroHash value then update (StateDB.AddRefund clearingRefund)
           else ret tt
         else ret tt) ;;;
        (if bytes_eqb original value then
           if is_zeroHash original then
             update (StateDB.AddRefund
                       (u64 (params.SstoreSetGasEIP2200 - params.WarmStorageReadCostEIP2929)))
           else
             update (StateDB.AddRefund
                       (u64 (u64 (params.SstoreResetGasEIP2200 - params.ColdSloadCostEIP2929)
                             - params.WarmStorageReadCostEIP2929)))
         else ret tt) ;;;
        ret (u64 (cost + params.WarmStorageReadCostEIP2929), None).

Definition gasSLoadEIP2929 : gasFunc := fun env memorySize =>
  let* loc := peek_ in
  let slot := uint256.Bytes32 loc in
  let* self := address_ in
  let* (_, slotPresent) := query (fun d => StateDB.SlotInAccessList d self slot) in
  if negb slotPresent then
    update (StateDB.AddSlotToAccessList self slot) ;;;
    ret (params.ColdSloadCostEIP2929, None)
  else ret (params.WarmStorageReadCostEIP2929, None).

Definition gasExtCodeCopyEIP2929 : gasFunc := fun env memorySize =>
  let! gas := gasExtCodeCopy env memorySize in
  let* a := peek_ in
  let addr := uint256.Bytes20 a in
  let* warm := query (fun d => StateDB.AddressInAccessList d addr) in
  if negb warm then
    update (StateDB.AddAddressToAccessList addr) ;;;
    ovf! gas := math.SafeAdd gas
      (u64 (params.ColdAccountAccessCostEIP2929 - params.WarmStorageReadCostEIP2929)) in
    ret (gas, None)
  else ret (gas, None).

Definition gasEip2929AccountCheck : gasFunc := fun env memorySize =>
  let* a := peek_ in
  let addr := uint256.Bytes20 a in
  let* warm := query (fun d => StateDB.AddressInAccessList d addr) in
  if negb warm then
    update (StateDB.AddAddressToAccessList addr) ;;;
    ret (u64 (params.ColdAccountAccessCostEIP2929 - params.WarmStorageReadCostEIP2929), None)
  else ret (0, None).

Definition coldCost : Z :=
  u64 (params.ColdAccountAccessCostEIP2929 - params.WarmStorageReadCostEIP2929).

Definition makeCallVariantGasCallEIP2929 (oldCalculator : gasFunc) : gasFunc :=
  fun env memorySize =>
    let* a := back_ 1 in
    let addr := uint256.Bytes20 a in
    let* warmAccess := query (fun d => StateDB.AddressInAccessList d addr) in
    let* affordable :=
      (if negb warmAccess then
         update (StateDB.AddAddressToAccessList addr) ;;; useGas_ coldCost
       else ret true) in
    if negb affordable then ret (0, Some ErrOutOfGas)
    else
      let* (gas, err) := oldCalculator env memorySize in
      if warmAccess || negb (is_nil err) then ret (gas, err)
      else addGas_ coldCost ;;; ret (u64 (gas + coldCost), None).

Definition gasCallEIP2929 : gasFunc := makeCallVariantGasCallEIP2929 gasCall.
Definition gasDelegateCallEIP2929 : gasFunc := makeCallVariantGasCallEIP2929 gasDelegateCall.
Definition gasStaticCallEIP2929 : gasFunc := makeCallVariantGasCallEIP2929 gasStaticCall.
Definition gasCallCodeEIP2929 : gasFunc := makeCallVariantGasCallEIP2929 gasCallCode.

Definition makeSelfdestructGasFn (refundsEnabled : bool) : gasFunc := fun env memorySize =>
  let* b := peek_ in
  let address := uint256.Bytes20 b in
  let* warm := query (fun d => StateDB.AddressInAccessList d address) in
  let* gas :=
    (if negb warm then
       update (StateDB.AddAddressToAccessList address) ;;;
       ret params.ColdAccountAccessCostEIP2929
     else ret 0) in
  let* self := address_ in
  let* isEmpty := query (fun d => StateDB.Empty d address) in
  let* balance := query (fun d => StateDB.GetBalance d self) in
  let gas := if isEmpty && negb (Z.sgn balance =? 0) then
               u64 (gas + params.CreateBySelfdestructGas) else gas in
  let* suicided := query (fun d => StateDB.HasSuicided d self) in
  (if refundsEnabled && negb suicided then
     update (StateDB.AddRefund params.SelfdestructRefundGas)
   else ret tt) ;;;
  ret (gas, None).

Definition gasSelfdestructEIP2929 : gasFunc := makeSelfdestructGasFn true.
Definition gasSelfdestructEIP3529 : gasFunc := makeSelfdestructGasFn false.
Definition gasSStoreEIP2929 : gasFunc :=
  makeGasSStoreFunc params.SstoreClearsScheduleRefundEIP2200.
Definition gasSStoreEIP3529 : gasFunc :=
  makeGasSStoreFunc params.SstoreClearsScheduleRefundEIP3529.
End OperationsAcl.
