(* ===== verification/Instructions.v ===== *)
(** The opcode implementations (vm/instructions.go and the opcodes of
    vm/eips.go). Each is an [executionFunc]: a computation on the frame that
    returns the result bytes and the error. *)
From S2P Require Import Prelude Opcodes Errors Externals Stack Memory Analysis Contract Tracer.
From S2P Require Import Machine Gas.

(** * Arithmetic, comparison and bitwise opcodes *)
Section Arithmetic.
Context {L : Libs}.

Definition opAdd : executionFunc := fun env evm =>
  let* x := pop_ in let* y := peek_ in
  poke_ (uint256.Add x y) ;;; done_.
Definition opSub : executionFunc := fun env evm =>
  let* x := pop_ in let* y := peek_ in
  poke_ (uint256.Sub x y) ;;; done_.
Definition opMul : executionFunc := fun env evm =>
  let* x := pop_ in let* y := peek_ in
  poke_ (uint256.Mul x y) ;;; done_.
Definition opDiv : executionFunc := fun env evm =>
  let* x := pop_ in let* y := peek_ in
  poke_ (uint256.Div x y) ;;; done_.
Definition opSdiv : executionFunc := fun env evm =>
  let* x := pop_ in let* y := peek_ in
  poke_ (uint256.SDiv x y) ;;; done_.
Definition opMod : executionFunc := fun env evm =>
  let* x := pop_ in let* y := peek_ in
  poke_ (uint256.Mod x y) ;;; done_.
Definition opSmod : executionFunc := fun env evm =>
  let* x := pop_ in let* y := peek_ in
  poke_ (uint256.SMod x y) ;;; done_.
Definition opExp : executionFunc := fun env evm =>
  let* base := pop_ in let* exponent := peek_ in
  poke_ (uint256.Exp base exponent) ;;; done_.
Definition opSignExtend : executionFunc := fun env evm =>
  let* back := pop_ in let* num := peek_ in
  poke_ (uint256.ExtendSign num back) ;;; done_.
Definition opNot : executionFunc := fun env evm =>
  let* x := peek_ in poke_ (uint256.Not x) ;;; done_.

(** [if b { y.SetOne() } else { y.Clear() }] *)
Definition of_bool (b : bool) : uint256.Int := if b then uint256.SetOne else uint256.Clear.

Definition opLt : executionFunc := fun env evm =>
  let* x := pop_ in let* y := peek_ in
  poke_ (of_bool (uint256.Lt x y)) ;;; done_.
Definition opGt : executionFunc := fun env evm =>
  let* x := pop_ in let* y := peek_ in
  poke_ (of_bool (uint256.Gt x y)) ;;; done_.
Definition opSlt : executionFunc := fun env evm =>
  let* x := pop_ in let* y := peek_ in
  poke_ (of_bool (uint256.Slt x y)) ;;; done_.
Definition opSgt : executionFunc := fun env evm =>
  let* x := pop_ in let* y := peek_ in
  poke_ (of_bool (uint256.Sgt x y)) ;;; done_.
Definition opEq : executionFunc := fun env evm =>
  let* x := pop_ in let* y := peek_ in
  poke_ (of_bool (uint256.Eq x y)) ;;; done_.
Definition opIszero : executionFunc := fun env evm =>
  let* x := peek_ in poke_ (of_bool (uint256.IsZero x)) ;;; done_.
Definition opAnd : executionFunc := fun env evm =>
  let* x := pop_ in let* y := peek_ in
  poke_ (uint256.And x y) ;;; done_.
Definition opOr : executionFunc := fun env evm =>
  let* x := pop_ in let* y := peek_ in
  poke_ (uint256.Or x y) ;;; done_.
Definition opXor : executionFunc := fun env evm =>
  let* x := pop_ in let* y := peek_ in
  poke_ (uint256.Xor x y) ;;; done_.
Definition opByte : executionFunc := fun env evm =>
  let* th := pop_ in let* val := peek_ in
  poke_ (uint256.Byte val th) ;;; done_.
Definition opAddmod : executionFunc := fun env evm =>
  let* x := pop_ in let* y := pop_ in let* z := peek_ in
  (if uint256.IsZero z then poke_ uint256.Clear else poke_ (uint256.AddMod x y z)) ;;;
  done_.
Definition opMulmod : executionFunc := fun env evm =>
  let* x := pop_ in let* y := pop_ in let* z := peek_ in
  poke_ (uint256.MulMod x y z) ;;; done_.

Definition opSHL : executionFunc := fun env evm =>
  let* shift := pop_ in let* value := peek_ in
  (if uint256.LtUint64 shift 256 then poke_ (uint256.Lsh value (uint256.Uint64 shift))
   else poke_ uint256.Clear) ;;;
  done_.
Definition opSHR : executionFunc := fun env evm =>
  let* shift := pop_ in let* value := peek_ in
  (if uint256.LtUint64 shift 256 then poke_ (uint256.Rsh value (uint256.Uint64 shift))
   else poke_ uint256.Clear) ;;;
  done_.
Definition opSAR : executionFunc := fun env evm =>
  let* shift := pop_ in let* value := peek_ in
  if uint256.GtUint64 shift 256 then
    (if 0 <=? uint256.Sign value then poke_ uint256.Clear else poke_ uint256.SetAllOne) ;;;
    done_
  else poke_ (uint256.SRsh value (uint256.Uint64 shift)) ;;; done_.
End Arithmetic.

(** * Environment, block and account opcodes *)
Section EnvironmentOps.
Context {L : Libs}.

Definition opKeccak256 : executionFunc := fun env evm =>
  let* offset := pop_ in let* size := peek_ in
  let* data := readMemory (fun m =>
    GetPtr m (i64 (uint256.Uint64 offset)) (i64 (uint256.Uint64 size))) in
  let* h := keccak_ data in
  (if EnablePreimageRecording env then update (StateDB.AddPreimage h data) else ret tt) ;;;
  poke_ (uint256.SetBytes h) ;;; done_.
Definition opAddress : executionFunc := fun env evm =>
  let* self := address_ in push_ (uint256.SetBytes self) ;;; done_.
Definition opBalance : executionFunc := fun env evm =>
  let* slot := peek_ in
  let address := uint256.Bytes20 slot in
  let* b := query (fun d => StateDB.GetBalance d address) in
  poke_ (uint256.FromBig b).1 ;;; done_.
Definition opOrigin : executionFunc := fun env evm =>
  push_ (uint256.SetBytes (Origin env)) ;;; done_.
Definition opCaller : executionFunc := fun env evm =>
  let* c := gets contract in push_ (uint256.SetBytes (Caller c)) ;;; done_.
Definition opCallValue : executionFunc := fun env evm =>
  let* c := gets contract in
  let* v := fromBig_ (value c) in push_ v ;;; done_.
Definition opCallDataLoad : executionFunc := fun env evm =>
  let* x := peek_ in
  let* c := gets contract in
  let '(offset, overflow) := uint256.Uint64WithOverflow x in
  (if negb overflow then
     let* data := liftR (getData (Input c) offset 32) in poke_ (uint256.SetBytes data)
   else poke_ uint256.Clear) ;;;
  done_.
Definition opCallDataSize : executionFunc := fun env evm =>
  let* c := gets contract in push_ (uint256.NewInt (len (Input c))) ;;; done_.

(** [if overflow { x64 = 0xffffffffffffffff }] *)
Definition clampU64 (x : uint256.Int) : Z :=
  let '(v, overflow) := uint256.Uint64WithOverflow x in
  if overflow then 0xffffffffffffffff else v.

Definition opCallDataCopy : executionFunc := fun env evm =>
  let* memOffset := pop_ in let* dataOffset := pop_ in let* length := pop_ in
  let dataOffset64 := clampU64 dataOffset in
  let memOffset64 := uint256.Uint64 memOffset in
  let length64 := uint256.Uint64 length in
  let* c := gets contract in
  let* data := liftR (getData (Input c) dataOffset64 length64) in
  onMemory (fun m => Set_ m memOffset64 length64 data) ;;; done_.
Definition opReturnDataSize : executionFunc := fun env evm =>
  let* rd := gets (fun s => returnData (mach s)) in
  push_ (uint256.NewInt (len rd)) ;;; done_.
Definition opReturnDataCopy : executionFunc := fun env evm =>
  let* memOffset := pop_ in let* dataOffset := pop_ in let* length := pop_ in
  let '(offset64, overflow) := uint256.Uint64WithOverflow dataOffset in
  if overflow then fail_ ErrReturnDataOutOfBounds
  else
    let end_ := uint256.Add dataOffset length in
    let '(end64, overflow) := uint256.Uint64WithOverflow end_ in
    let* rd := gets (fun s => returnData (mach s)) in
    if overflow || (len rd <? end64) then fail_ ErrReturnDataOutOfBounds
    else
      let* d := liftR (slice rd offset64 end64) in
      onMemory (fun m => Set_ m (uint256.Uint64 memOffset) (uint256.Uint64 length) d) ;;;
      done_.
Definition opExtCodeSize : executionFunc := fun env evm =>
  let* slot := peek_ in
  let* n := query (fun d => StateDB.GetCodeSize d (uint256.Bytes20 slot)) in
  poke_ (uint256.NewInt (u64 n)) ;;; done_.
Definition opCodeSize : executionFunc := fun env evm =>
  let* c := gets contract in push_ (uint256.NewInt (len (Code c))) ;;; done_.
Definition opCodeCopy : executionFunc := fun env evm =>
  let* memOffset := pop_ in let* codeOffset := pop_ in let* length := pop_ in
  let uint64CodeOffset := clampU64 codeOffset in
  let* c := gets contract in
  let* codeCopy := liftR (getData (Code c) uint64CodeOffset (uint256.Uint64 length)) in
  onMemory (fun m => Set_ m (uint256.Uint64 memOffset) (uint256.Uint64 length) codeCopy) ;;;
  done_.
Definition opExtCodeCopy : executionFunc := fun env evm =>
  let* a := pop_ in
  let* memOffset := pop_ in let* codeOffset := pop_ in let* length := pop_ in
  let uint64CodeOffset := clampU64 codeOffset in
  let addr := uint256.Bytes20 a in
  let* code := query (fun d => StateDB.GetCode d addr) in
  let* codeCopy := liftR (getData code uint64CodeOffset (uint256.Uint64 length)) in
  onMemory (fun m => Set_ m (uint256.Uint64 memOffset) (uint256.Uint64 length) codeCopy) ;;;
  done_.
Definition opExtCodeHash : executionFunc := fun env evm =>
  let* slot := peek_ in
  let address := uint256.Bytes20 slot in
  let* isEmpty := query (fun d => StateDB.Empty d address) in
  let* h := query (fun d => StateDB.GetCodeHash d address) in
  (if isEmpty then poke_ uint256.Clear else poke_ (uint256.SetBytes h)) ;;; done_.
Definition opGasprice : executionFunc := fun env evm =>
  push_ (uint256.FromBig (GasPrice env)).1 ;;; done_.

Definition opBlockhash : executionFunc := fun env evm =>
  let* num := peek_ in
  let '(num64, overflow) := uint256.Uint64WithOverflow num in
  if overflow then poke_ uint256.Clear ;;; done_
  else
    let upper := u64 (BlockNumber env) in
    let lower := if upper <? 257 then 0 else u64 (upper - 256) in
    (if (lower <=? num64) && (num64 <? upper) then
       poke_ (uint256.SetBytes (GetHash env num64))
     else poke_ uint256.Clear) ;;;
    done_.
Definition opCoinbase : executionFunc := fun env evm =>
  push_ (uint256.SetBytes (Coinbase env)) ;;; done_.
Definition opTimestamp : executionFunc := fun env evm =>
  push_ (uint256.NewInt (Time env)) ;;; done_.
Definition opNumber : executionFunc := fun env evm =>
  push_ (uint256.FromBig (BlockNumber env)).1 ;;; done_.
Definition opDifficulty : executionFunc := fun env evm =>
  push_ (uint256.FromBig (Difficulty env)).1 ;;; done_.
Definition opRandom : executionFunc := fun env evm =>
  match Random env with
  | None => liftR (Panicked NilDeref)
  | Some r => push_ (uint256.SetBytes r) ;;; done_
  end.
Definition opGasLimit : executionFunc := fun env evm =>
  push_ (uint256.NewInt (GasLimit env)) ;;; done_.

(** vm/eips.go *)
Definition opSelfBalance : executionFunc := fun env evm =>
  let* self := address_ in
  let* b := query (fun d => StateDB.GetBalance d self) in
  push_ (uint256.FromBig b).1 ;;; done_.
Definition opChainID : executionFunc := fun env evm =>
  push_ (uint256.FromBig (ChainID env)).1 ;;; done_.
Definition opBaseFee : executionFunc := fun env evm =>
  let* v := fromBig_ (BaseFee env) in push_ v ;;; done_.
End EnvironmentOps.

(** * Stack, memory, storage and control-flow opcodes *)
Section MachineOps.
Context {L : Libs}.

Definition opPop : executionFunc := fun env evm => let* _ := pop_ in done_.
Definition opMload : executionFunc := fun env evm =>
  let* v := peek_ in
  let offset := i64 (uint256.Uint64 v) in
  let* d := readMemory (fun m => GetPtr m offset 32) in
  poke_ (uint256.SetBytes d) ;;; done_.
Definition opMstore : executionFunc := fun env evm =>
  let* mStart := pop_ in let* val := pop_ in
  onMemory (fun m => Set32 m (uint256.Uint64 mStart) val) ;;; done_.
(** [scope.Memory.store[off.Uint64()] = byte(val.Uint64())] *)
Definition opMstore8 : executionFunc := fun env evm =>
  let* off := pop_ in let* val := pop_ in
  onMemory (fun m =>
    let? s := index_set (store m) (uint256.Uint64 off) (u8 (uint256.Uint64 val)) in
    Ret (with_store s m)) ;;;
  done_.
Definition opSload : executionFunc := fun env evm =>
  let* loc := peek_ in
  let hash := uint256.Bytes32 loc in
  let* self := address_ in
  let* val := query (fun d => StateDB.GetState d self hash) in
  poke_ (uint256.SetBytes val) ;;; done_.

(** [if interpreter.readOnly { return nil, ErrWriteProtection }] *)
Definition writeProtected (k : ST St (bytes * option Err)) : ST St (bytes * option Err) :=
  let* ro := gets (fun s => readOnly (mach s)) in
  if ro then fail_ ErrWriteProtection else k.

Definition opSstore : executionFunc := fun env evm =>
  writeProtected (
    let* loc := pop_ in let* val := pop_ in
    let* self := address_ in
    update (StateDB.SetState self (uint256.Bytes32 loc) (uint256.Bytes32 val)) ;;; done_).

(** [interpreter.evm.abort.Load()] *)
Definition aborted_ : ST St bool := onMachine (fun m => Ret (loadAbort m)).
(** [scope.Contract.validJumpdest(&pos)], which may fill the analysis caches. *)
Definition validJumpdest_ (pos : uint256.Int) : ST St bool := fun s =>
  let? (ok, c, h) := validJumpdest (contract s) (jdests (mach s)) pos in
  Ret (ok, set_contract c (set_mach (set_jdests h (mach s)) s)).

Definition opJump : executionFunc := fun env evm =>
  let* ab := aborted_ in
  if ab then fail_ errStopToken
  else
    let* pos := pop_ in
    let* ok := validJumpdest_ pos in
    if negb ok then fail_ ErrInvalidJump
    else modify (set_pc (u64 (uint256.Uint64 pos - 1))) ;;; done_.
Definition opJumpi : executionFunc := fun env evm =>
  let* ab := aborted_ in
  if ab then fail_ errStopToken
  else
    let* pos := pop_ in let* cond := pop_ in
    if negb (uint256.IsZero cond) then
      let* ok := validJumpdest_ pos in
      if negb ok then fail_ ErrInvalidJump
      else modify (set_pc (u64 (uint256.Uint64 pos - 1))) ;;; done_
    else done_.
Definition opJumpdest : executionFunc := fun env evm => done_.
Definition opPc : executionFunc := fun env evm =>
  let* p := gets pc in push_ (uint256.NewInt p) ;;; done_.
Definition opMsize : executionFunc := fun env evm =>
  let* m := gets memory in push_ (uint256.NewInt (Len m)) ;;; done_.
Definition opGas : executionFunc := fun env evm =>
  let* c := gets contract in push_ (uint256.NewInt (Gas c)) ;;; done_.

Definition opReturn : executionFunc := fun env evm =>
  let* offset := pop_ in let* size := pop_ in
  let* r := readMemory (fun m =>
    GetPtr m (i64 (uint256.Uint64 offset)) (i64 (uint256.Uint64 size))) in
  ret (r, Some errStopToken).
Definition opRevert : executionFunc := fun env evm =>
  let* offset := pop_ in let* size := pop_ in
  let* r := readMemory (fun m =>
    GetPtr m (i64 (uint256.Uint64 offset)) (i64 (uint256.Uint64 size))) in
  setReturnData r ;;;
  ret (r, Some ErrExecutionReverted).
Definition opUndefined : executionFunc := fun env evm =>
  let* c := gets contract in let* p := gets pc in
  let* op := liftR (index (Code c) p) in
  fail_ (ErrInvalidOpCode op).
Definition opStop : executionFunc := fun env evm => fail_ errStopToken.

Definition opSelfdestruct : executionFunc := fun env evm =>
  writeProtected (
    let* beneficiary := pop_ in
    let* self := address_ in
    let* balance := query (fun d => StateDB.GetBalance d self) in
    update (StateDB.AddBalance (uint256.Bytes20 beneficiary) balance) ;;;
    update (fun d => (StateDB.Suicide self d).2) ;;;
    onMachine (modify (emit env
      (CaptureEnter SELFDESTRUCT self (uint256.Bytes20 beneficiary) [] 0 (Some balance)))) ;;;
    onMachine (modify (emit env (CaptureExit [] 0 None))) ;;;
    fail_ errStopToken).

(** The topics loop of [makeLog]. *)
Fixpoint popTopics (n : nat) : ST St (list Hash) :=
  match n with
  | O => ret []
  | S n' => let* t := pop_ in let* rest := popTopics n' in ret (uint256.Bytes32 t :: rest)
  end.

Definition makeLog (size : nat) : executionFunc := fun env evm =>
  writeProtected (
    let* mStart := pop_ in let* mSize := pop_ in
    let* topics := popTopics size in
    let* d := readMemory (fun m =>
      GetCopy m (i64 (uint256.Uint64 mStart)) (i64 (uint256.Uint64 mSize))) in
    let* self := address_ in
    update (StateDB.AddLog {| StateDB.Log_Address := self; StateDB.Topics := topics;
      StateDB.Data := d; StateDB.Log_BlockNumber := u64 (BlockNumber env) |}) ;;;
    done_).

Definition opPush0 : executionFunc := fun env evm => push_ uint256.Clear ;;; done_.
Definition opPush1 : executionFunc := fun env evm =>
  let* c := gets contract in
  let codeLen := len (Code c) in
  let* p := gets (fun s => u64 (pc s + 1)) in
  modify (set_pc p) ;;;
  (if p <? codeLen then
     let* b := liftR (index (Code c) p) in push_ (uint256.NewInt b)
   else push_ uint256.Clear) ;;;
  done_.
Definition makePush (size pushByteSize : Z) : executionFunc := fun env evm =>
  let* c := gets contract in
  let* p := gets pc in
  let codeLen := len (Code c) in
  let startMin := if i64 (u64 (p + 1)) <? codeLen then i64 (u64 (p + 1)) else codeLen in
  let endMin := if startMin + pushByteSize <? codeLen then startMin + pushByteSize
                else codeLen in
  let* d := liftR (slice (Code c) startMin endMin) in
  push_ (uint256.SetBytes (common.RightPadBytes d pushByteSize)) ;;;
  modify (set_pc (u64 (p + size))) ;;; done_.
Definition makeDup (size : Z) : executionFunc := fun env evm =>
  zoom stack set_stack (fun st => let? st' := dup st size in Ret (tt, st')) ;;; done_.
Definition makeSwap (size : Z) : executionFunc := fun env evm =>
  let size := size + 1 in
  zoom stack set_stack (fun st => let? st' := swap st size in Ret (tt, st')) ;;; done_.

(** vm/eips.go *)
Definition opTload : executionFunc := fun env evm =>
  let* loc := peek_ in
  let hash := uint256.Bytes32 loc in
  let* self := address_ in
  let* val := query (fun d => StateDB.GetTransientState d self hash) in
  poke_ (uint256.SetBytes val) ;;; done_.
Definition opTstore : executionFunc := fun env evm =>
  writeProtected (
    let* loc := pop_ in let* val := pop_ in
    let* self := address_ in
    update (StateDB.SetTransientState self (uint256.Bytes32 loc) (uint256.Bytes32 val)) ;;;
    done_).
Definition opMcopy : executionFunc := fun env evm =>
  let* dst := pop_ in let* src := pop_ in let* length := pop_ in
  onMemory (fun m =>
    Copy m (uint256.Uint64 dst) (uint256.Uint64 src) (uint256.Uint64 length)) ;;;
  done_.
End MachineOps.

(** * Contract creation and calls *)
Section CallOps.
Context {L : Libs}.

(** [bigVal := big0; if !value.IsZero() { bigVal = value.ToBig() }] *)
Definition bigVal (value : uint256.Int) : Z :=
  if negb (uint256.IsZero value) then uint256.ToBig value else 0.
Definition selfRef_ : ST St ContractRef := gets (fun s => ContractPtr (base_of (contract s))).

Definition opCreate : executionFunc := fun env evm =>
  writeProtected (
    let* value := pop_ in let* offset := pop_ in let* size := pop_ in
    let* input := readMemory (fun m =>
      GetCopy m (i64 (uint256.Uint64 offset)) (i64 (uint256.Uint64 size))) in
    let* c := gets contract in
    let gas := Gas c in
    let gas := if params.IsEIP150 (chainRules env) then u64 (gas - gas / 64) else gas in
    let* _ := useGas_ gas in
    let* me := selfRef_ in
    let* (res, addr, returnGas, suberr) :=
      onMachine (do_Create evm me input gas (bigVal value)) in
    let stackvalue :=
      if params.IsHomestead (chainRules env) && err_is suberr ErrCodeStoreOutOfGas then
        uint256.Clear
      else if negb (is_nil suberr) && negb (err_is suberr ErrCodeStoreOutOfGas) then
        uint256.Clear
      else uint256.SetBytes addr in
    push_ stackvalue ;;;
    addGas_ returnGas ;;;
    if err_is suberr ErrExecutionReverted then setReturnData res ;;; ret (res, None)
    else setReturnData [] ;;; done_).

Definition opCreate2 : executionFunc := fun env evm =>
  writeProtected (
    let* endowment := pop_ in let* offset := pop_ in let* size := pop_ in
    let* salt := pop_ in
    let* input := readMemory (fun m =>
      GetCopy m (i64 (uint256.Uint64 offset)) (i64 (uint256.Uint64 size))) in
    let* c := gets contract in
    let gas := Gas c in
    let gas := u64 (gas - gas / 64) in
    let* _ := useGas_ gas in
    let* me := selfRef_ in
    let* (res, addr, returnGas, suberr) :=
      onMachine (do_Create2 evm me input gas (bigVal endowment) salt) in
    let stackvalue := if negb (is_nil suberr) then uint256.Clear else uint256.SetBytes addr in
    push_ stackvalue ;;;
    addGas_ returnGas ;;;
    if err_is suberr ErrExecutionReverted then setReturnData res ;;; ret (res, None)
    else setReturnData [] ;;; done_).

(** What every CALL variant does with the outcome of the call: push the
    status, copy the returned bytes, take the gas back, keep the return data. *)
Definition finishCall (retOffset retSize : uint256.Int) (out : bytes * Z * option Err)
    : ST St (bytes * option Err) :=
  let '(r, returnGas, err) := out in
  push_ (of_bool (is_nil err)) ;;;
  (if is_nil err || err_is err ErrExecutionReverted then
     onMemory (fun m => Set_ m (uint256.Uint64 retOffset) (uint256.Uint64 retSize) r)
   else ret tt) ;;;
  addGas_ returnGas ;;;
  setReturnData r ;;;
  ret (r, None).

Definition opCall : executionFunc := fun env evm =>
  let* temp := pop_ in
  let* gas := gets (fun s => callGasTemp (mach s)) in
  let* addr := pop_ in let* value := pop_ in
  let* inOffset := pop_ in let* inSize := pop_ in
  let* retOffset := pop_ in let* retSize := pop_ in
  let toAddr := uint256.Bytes20 addr in
  let* args := readMemory (fun m =>
    GetPtr m (i64 (uint256.Uint64 inOffset)) (i64 (uint256.Uint64 inSize))) in
  let* ro := gets (fun s => readOnly (mach s)) in
  if ro && negb (uint256.IsZero value) then fail_ ErrWriteProtection
  else
    let gas := if negb (uint256.IsZero value) then u64 (gas + params.CallStipend) else gas in
    let* me := selfRef_ in
    let* out := onMachine (do_Call evm me toAddr args gas (bigVal value)) in
    finishCall retOffset retSize out.

Definition opCallCode : executionFunc := fun env evm =>
  let* temp := pop_ in
  let* gas := gets (fun s => callGasTemp (mach s)) in
  let* addr := pop_ in let* value := pop_ in
  let* inOffset := pop_ in let* inSize := pop_ in
  let* retOffset := pop_ in let* retSize := pop_ in
  let toAddr := uint256.Bytes20 addr in
  let* args := readMemory (fun m =>
    GetPtr m (i64 (uint256.Uint64 inOffset)) (i64 (uint256.Uint64 inSize))) in
  let gas := if negb (uint256.IsZero value) then u64 (gas + params.CallStipend) else gas in
  let* me := selfRef_ in
  let* out := onMachine (do_CallCode evm me toAddr args gas (bigVal value)) in
  finishCall retOffset retSize out.

Definition opDelegateCall : executionFunc := fun env evm =>
  let* temp := pop_ in
  let* gas := gets (fun s => callGasTemp (mach s)) in
  let* addr := pop_ in
  let* inOffset := pop_ in let* inSize := pop_ in
  let* retOffset := pop_ in let* retSize := pop_ in
  let toAddr := uint256.Bytes20 addr in
  let* args := readMemory (fun m =>
    GetPtr m (i64 (uint256.Uint64 inOffset)) (i64 (uint256.Uint64 inSize))) in
  let* me := selfRef_ in
  let* out := onMachine (do_DelegateCall evm me toAddr args gas) in
  finishCall retOffset retSize out.

Definition opStaticCall : executionFunc := fun env evm =>
  let* temp := pop_ in
  let* gas := gets (fun s => callGasTemp (mach s)) in
  let* addr := pop_ in
  let* inOffset := pop_ in let* inSize := pop_ in
  let* retOffset := pop_ in let* retSize := pop_ in
  let toAddr := uint256.Bytes20 addr in
  let* args := readMemory (fun m =>
    GetPtr m (i64 (uint256.Uint64 inOffset)) (i64 (uint256.Uint64 inSize))) in
  let* me := selfRef_ in
  let* out := onMachine (do_StaticCall evm me toAddr args gas) in
  finishCall retOffset retSize out.
End CallOps.

(** * Journal opcodes: the state-change annotations of Artela contracts *)
Section JournalOps.
Context {L : Libs}.

(** vm/constants.go *)
Definition one : uint256.Int := uint256.NewInt 1.
Definition two : uint256.Int := uint256.NewInt 2.
Definition oneSlot : uint256.Int := uint256.NewInt 32.
Definition storageMask : uint256.Int := uint256.NewInt 0xff.

(** [interpreter.tracer.SaveStateChange(...)] and [SaveStateKey(...)] *)
Definition saveStateChange_ (account : Address) (sl : uint256.Int) (off : option uint256.Int)
    (tid : Hash) (newVal : bytes) : ST St (bytes * option Err) :=
  let* err := onMachine (zoom tracer set_tracer (fun t =>
    SaveStateChange t account sl off tid newVal)) in
  ret ([], err).
Definition saveStateKey_ (account : Address) (parent : option uint256.Int)
    (self : uint256.Int) (off : option uint256.Int) (tid parentTypeId : Hash) (idx : bytes)
    : ST St (bytes * option Err) :=
  let* err := onMachine (zoom tracer set_tracer (fun t =>
    SaveStateKey t account parent self off tid parentTypeId idx)) in
  ret ([], err).

(** The closures of [opReferenceChangeJournal]. *)
Definition extractStorageLen (rawData : bytes) : Z * option Err :=
  let dataLen := uint256.SetBytes rawData in
  let length := uint256.Div dataLen two in
  let outOfPlaceEncoding := uint256.And dataLen one in
  let length := if uint256.IsZero outOfPlaceEncoding
                then uint256.And length (uint256.NewInt 0x7f) else length in
  let isLess := if uint256.Lt length oneSlot then 1 else 0 in
  if uint256.Eq outOfPlaceEncoding (uint256.NewInt isLess) then
    (0, Some (errNew "storage encoding error"))
  else if negb (uint256.IsUint64 length) then
    (0, Some (errNew "storage too large to load"))
  else (uint256.Uint64 length, None).
Definition unmask (rawData : bytes) : uint256.Int :=
  uint256.And (uint256.SetBytes rawData) (uint256.Not storageMask).
Definition u64Ceiling (nom denom : Z) : Z := u64 (u64 (nom + denom) - 1) / denom.

(** [for i := uint64(0); i < u64Ceiling(length, 32); i++ { ... }] *)
Fixpoint loadReference (n : nat) (account : Address) (referenceSlot : uint256.Int)
    (d : StateDB.DB) : bytes :=
  match n with
  | O => []
  | S n' =>
      let referenceSlot := uint256.Add referenceSlot one in
      StateDB.GetState d account (uint256.Bytes32 referenceSlot)
        ++ loadReference n' account referenceSlot d
  end.

Definition opReferenceChangeJournal : executionFunc := fun env evm =>
  let* storageSlot := pop_ in
  let* typeId := pop_ in
  let* contract := address_ in
  let* rawState := query (fun d => StateDB.GetState d contract (uint256.Bytes32 storageSlot)) in
  let '(length, err) := extractStorageLen rawState in
  match err with
  | Some e => fail_ e
  | None =>
      let* stateBytes :=
        (if length <? 32 then
           let v := unmask rawState in
           liftR (slice_cap (uint256.Bytes_cap v) (uint256.Bytes v) 0 length)
         else
           let* h := keccak_ (uint256.Bytes storageSlot) in
           query (loadReference (Z.to_nat (u64Ceiling length 32)) contract
                    (uint256.SetBytes h))) in
      saveStateChange_ contract storageSlot None (uint256.Bytes32 typeId) stateBytes
  end.

Definition opValueChangeJournal : executionFunc := fun env evm =>
  let* storageSlot := pop_ in
  let* offset := pop_ in
  let* typeSize := pop_ in
  let* typeId := pop_ in
  let '(offsetU64, overflow) := uint256.Uint64WithOverflow offset in
  if overflow || (31 <? offsetU64) then fail_ (errNew "offset out of range")
  else
    let '(typeSizeU64, overflow) := uint256.Uint64WithOverflow typeSize in
    if overflow || (32 <? typeSizeU64) then fail_ (errNew "type size out of range")
    else
      let* contract := address_ in
      let* newVal :=
        query (fun d => StateDB.GetState d contract (uint256.Bytes32 storageSlot)) in
      let start := u64 (32 - offsetU64 - typeSizeU64) in
      let end_ := u64 (32 - offsetU64) in
      let* v := liftR (slice_cap 32 newVal start end_) in
      saveStateChange_ contract storageSlot (Some offset) (uint256.Bytes32 typeId) v.

(** [func loadDataFromMem(memPtr *uint256.Int, mem *Memory) ([]byte, uint64, error)]:
    the length component is not used by the callers. *)
Definition loadDataFromMem (memPtr : uint256.Int) (mem : Memory)
    : res (bytes * option Err) :=
  let offset := i64 (uint256.Uint64 memPtr) in
  let? l := GetCopy mem offset 32 in
  let dataLen := uint256.SetBytes l in
  if negb (uint256.IsUint64 memPtr) then Ret ([], Some (errNew "mem data too long"))
  else
    let? d := GetCopy mem (i64 (offset + 32)) (i64 (uint256.Uint64 dataLen)) in
    Ret (d, None).

(** [x, _, err := loadDataFromMem(&ptr, scope.Memory); if err != nil { return nil, err }] *)
Definition withMemData (ptr : uint256.Int) (k : bytes -> ST St (bytes * option Err))
    : ST St (bytes * option Err) :=
  let* (d, err) := readMemory (loadDataFromMem ptr) in
  match err with Some e => fail_ e | None => k d end.

Definition opReferenceIndexValueStorageJournal : executionFunc := fun env evm =>
  let* base := pop_ in let* storageSlot := pop_ in let* keyPtr := pop_ in
  let* offset := pop_ in let* typeId := pop_ in let* parentTypeId := pop_ in
  withMemData keyPtr (fun storageIndex =>
    let* self := address_ in
    saveStateKey_ self (Some base) storageSlot (Some offset) (uint256.Bytes32 typeId)
      (uint256.Bytes32 parentTypeId) storageIndex).

Definition opValueIndexValueStorageJournal : executionFunc := fun env evm =>
  let* base := pop_ in let* storageSlot := pop_ in let* keyValue := pop_ in
  let* offset := pop_ in let* typeId := pop_ in let* parentTypeId := pop_ in
  let key := uint256.Bytes32 keyValue in
  let* self := address_ in
  saveStateKey_ self (Some base) storageSlot (Some offset) (uint256.Bytes32 typeId)
    (uint256.Bytes32 parentTypeId) key.

Definition opReferenceIndexReferenceStorageJournal : executionFunc := fun env evm =>
  let* base := pop_ in let* storageSlot := pop_ in let* keyPtr := pop_ in
  let* typeId := pop_ in let* parentTypeId := pop_ in
  withMemData keyPtr (fun storageIndex =>
    let* self := address_ in
    saveStateKey_ self (Some base) storageSlot None (uint256.Bytes32 typeId)
      (uint256.Bytes32 parentTypeId) storageIndex).

Definition opValueIndexReferenceStorageJournal : executionFunc := fun env evm =>
  let* base := pop_ in let* storageSlot := pop_ in let* keyValue := pop_ in
  let* typeId := pop_ in let* parentTypeId := pop_ in
  let key := uint256.Bytes32 keyValue in
  let* self := address_ in
  saveStateKey_ self (Some base) storageSlot None (uint256.Bytes32 typeId)
    (uint256.Bytes32 parentTypeId) key.

Definition opReferenceStateVarJournal : executionFunc := fun env evm =>
  let* stateVarNamePtr := pop_ in let* storageSlot := pop_ in let* typeId := pop_ in
  withMemData stateVarNamePtr (fun stateVarName =>
    let* self := address_ in
    saveStateKey_ self None storageSlot None (uint256.Bytes32 typeId) zeroHash stateVarName).

Definition opValueStateVarJournal : executionFunc := fun env evm =>
  let* stateVarNamePtr := pop_ in let* storageSlot := pop_ in let* offset := pop_ in
  let* typeId := pop_ in
  withMemData stateVarNamePtr (fun stateVarName =>
    let* self := address_ in
    saveStateKey_ self None storageSlot (Some offset) (uint256.Bytes32 typeId) zeroHash
      stateVarName).
End JournalOps.
