(* ===== verification/JumpTable.v ===== *)
(** The jump tables (vm/jump_table.go), the EIP activators (vm/eips.go) and the
    exported lookup (vm/jump_table_export.go).

    A [JumpTable] is Go's [[256]*operation]: a list of 256 pointers, nil until
    they are set. Every constructor builds its operations afresh, so a table
    owns them and the model stores them by value. *)
From S2P Require Import Prelude Opcodes Errors Externals Stack Memory Analysis Contract Tracer.
From S2P Require Import Machine Gas Instructions.

Section JumpTable.
Context {L : Libs}.

(** [type operation struct] *)
Record operation := mkOp {
  execute : executionFunc;
  constantGas : Z;
  dynamicGas : option gasFunc;
  op_minStack : Z;
  op_maxStack : Z;
  memorySize : option memorySizeFunc;
}.

(** [type JumpTable [256]*operation] *)
Definition JumpTable : Type := list (option operation).

Definition set_constantGas (g : Z) (o : operation) : operation :=
  mkOp (execute o) g (dynamicGas o) (op_minStack o) (op_maxStack o) (memorySize o).
Definition set_dynamicGas (g : gasFunc) (o : operation) : operation :=
  mkOp (execute o) (constantGas o) (Some g) (op_minStack o) (op_maxStack o) (memorySize o).

(** [jt[op] = o] *)
Definition assign (op : OpCode) (o : operation) (jt : JumpTable) : JumpTable :=
  <[Z.to_nat op := Some o]> jt.
(** [jt[op].field = v] *)
Definition mutate (op : OpCode) (f : operation -> operation) (jt : JumpTable) : res JumpTable :=
  match jt !! Z.to_nat op with
  | Some (Some o) => Ret (assign op (f o) jt)
  | _ => Panicked NilDeref
  end.

(** ** validate: the panic message of a nil entry also prints its index. *)
Fixpoint validateFrom (i : Z) (ops : list (option operation)) : res unit :=
  match ops with
  | [] => Ret tt
  | None :: _ => Panicked (Explicit "op is not set")
  | Some op :: rest =>
      match memorySize op, dynamicGas op with
      | Some _, None =>
          Panicked (Explicit ("op " +:+ OpCode_String i
                                +:+ " has dynamic memory but not dynamic gas"))
      | _, _ => validateFrom (i + 1) rest
      end
  end.
Definition validate (jt : JumpTable) : res JumpTable :=
  let? _ := validateFrom 0 jt in Ret jt.

(** [func copyJumpTable(source *JumpTable) *JumpTable] *)
Definition copyJumpTable (source : JumpTable) : JumpTable :=
  map (option_map (fun op => mkOp (execute op) (constantGas op) (dynamicGas op)
                               (op_minStack op) (op_maxStack op) (memorySize op))) source.

(** ** newFrontierInstructionSet *)

Definition frontierArithmetic : list (OpCode * operation) :=
  [ (STOP, mkOp opStop 0 None (minStack 0 0) (maxStack 0 0) None);
    (ADD, mkOp opAdd GasFastestStep None (minStack 2 1) (maxStack 2 1) None);
    (MUL, mkOp opMul GasFastStep None (minStack 2 1) (maxStack 2 1) None);
    (SUB, mkOp opSub GasFastestStep None (minStack 2 1) (maxStack 2 1) None);
    (DIV, mkOp opDiv GasFastStep None (minStack 2 1) (maxStack 2 1) None);
    (SDIV, mkOp opSdiv GasFastStep None (minStack 2 1) (maxStack 2 1) None);
    (MOD, mkOp opMod GasFastStep None (minStack 2 1) (maxStack 2 1) None);
    (SMOD, mkOp opSmod GasFastStep None (minStack 2 1) (maxStack 2 1) None);
    (ADDMOD, mkOp opAddmod GasMidStep None (minStack 3 1) (maxStack 3 1) None);
    (MULMOD, mkOp opMulmod GasMidStep None (minStack 3 1) (maxStack 3 1) None);
    (EXP, mkOp opExp 0 (Some gasExpFrontier) (minStack 2 1) (maxStack 2 1) None);
    (SIGNEXTEND, mkOp opSignExtend GasFastStep None (minStack 2 1) (maxStack 2 1) None) ].

Definition frontierComparison : list (OpCode * operation) :=
  [ (LT, mkOp opLt GasFastestStep None (minStack 2 1) (maxStack 2 1) None);
    (GT, mkOp opGt GasFastestStep None (minStack 2 1) (maxStack 2 1) None);
    (SLT, mkOp opSlt GasFastestStep None (minStack 2 1) (maxStack 2 1) None);
    (SGT, mkOp opSgt GasFastestStep None (minStack 2 1) (maxStack 2 1) None);
    (EQ, mkOp opEq GasFastestStep None (minStack 2 1) (maxStack 2 1) None);
    (ISZERO, mkOp opIszero GasFastestStep None (minStack 1 1) (maxStack 1 1) None);
    (AND, mkOp opAnd GasFastestStep None (minStack 2 1) (maxStack 2 1) None);
    (XOR, mkOp opXor GasFastestStep None (minStack 2 1) (maxStack 2 1) None);
    (OR, mkOp opOr GasFastestStep None (minStack 2 1) (maxStack 2 1) None);
    (NOT, mkOp opNot GasFastestStep None (minStack 1 1) (maxStack 1 1) None);
    (BYTE, mkOp opByte GasFastestStep None (minStack 2 1) (maxStack 2 1) None) ].

Definition frontierEnvironment : list (OpCode * operation) :=
  [ (KECCAK256, mkOp opKeccak256 params.Keccak256Gas (Some gasKeccak256) (minStack 2 1)
    (maxStack 2 1) (Some memoryKeccak256));
    (ADDRESS, mkOp opAddress GasQuickStep None (minStack 0 1) (maxStack 0 1) None);
    (BALANCE, mkOp opBalance params.BalanceGasFrontier None (minStack 1 1) (maxStack 1 1) None);
    (ORIGIN, mkOp opOrigin GasQuickStep None (minStack 0 1) (maxStack 0 1) None);
    (CALLER, mkOp opCaller GasQuickStep None (minStack 0 1) (maxStack 0 1) None);
    (CALLVALUE, mkOp opCallValue GasQuickStep None (minStack 0 1) (maxStack 0 1) None);
    (CALLDATALOAD, mkOp opCallDataLoad GasFastestStep None (minStack 1 1) (maxStack 1 1) None);
    (CALLDATASIZE, mkOp opCallDataSize GasQuickStep None (minStack 0 1) (maxStack 0 1) None);
    (CALLDATACOPY, mkOp opCallDataCopy GasFastestStep (Some gasCallDataCopy) (minStack 3 0)
      (maxStack 3 0) (Some memoryCallDataCopy));
    (CODESIZE, mkOp opCodeSize GasQuickStep None (minStack 0 1) (maxStack 0 1) None);
    (CODECOPY, mkOp opCodeCopy GasFastestStep (Some gasCodeCopy) (minStack 3 0) (maxStack 3 0)
      (Some memoryCodeCopy));
    (GASPRICE, mkOp opGasprice GasQuickStep None (minStack 0 1) (maxStack 0 1) None) ].

Definition frontierBlock : list (OpCode * operation) :=
  [ (EXTCODESIZE, mkOp opExtCodeSize params.ExtcodeSizeGasFrontier None (minStack 1 1)
    (maxStack 1 1) None);
    (EXTCODECOPY, mkOp opExtCodeCopy params.ExtcodeCopyBaseFrontier (Some gasExtCodeCopy)
      (minStack 4 0) (maxStack 4 0) (Some memoryExtCodeCopy));
    (BLOCKHASH, mkOp opBlockhash GasExtStep None (minStack 1 1) (maxStack 1 1) None);
    (COINBASE, mkOp opCoinbase GasQuickStep None (minStack 0 1) (maxStack 0 1) None);
    (TIMESTAMP, mkOp opTimestamp GasQuickStep None (minStack 0 1) (maxStack 0 1) None);
    (NUMBER, mkOp opNumber GasQuickStep None (minStack 0 1) (maxStack 0 1) None);
    (DIFFICULTY, mkOp opDifficulty GasQuickStep None (minStack 0 1) (maxStack 0 1) None);
    (GASLIMIT, mkOp opGasLimit GasQuickStep None (minStack 0 1) (maxStack 0 1) None) ].

Definition frontierMemory : list (OpCode * operation) :=
  [ (POP, mkOp opPop GasQuickStep None (minStack 1 0) (maxStack 1 0) None);
    (MLOAD, mkOp opMload GasFastestStep (Some gasMLoad) (minStack 1 1) (maxStack 1 1) (Some
      memoryMLoad));
    (MSTORE, mkOp opMstore GasFastestStep (Some gasMStore) (minStack 2 0) (maxStack 2 0) (Some
      memoryMStore));
    (MSTORE8, mkOp opMstore8 GasFastestStep (Some gasMStore8) (minStack 2 0) (maxStack 2 0)
      (Some memoryMStore8));
    (SLOAD, mkOp opSload params.SloadGasFrontier None (minStack 1 1) (maxStack 1 1) None);
    (SSTORE, mkOp opSstore 0 (Some gasSStore) (minStack 2 0) (maxStack 2 0) None);
    (JUMP, mkOp opJump GasMidStep None (minStack 1 0) (maxStack 1 0) None);
    (JUMPI, mkOp opJumpi GasSlowStep None (minStack 2 0) (maxStack 2 0) None);
    (PC, mkOp opPc GasQuickStep None (minStack 0 1) (maxStack 0 1) None);
    (MSIZE, mkOp opMsize GasQuickStep None (minStack 0 1) (maxStack 0 1) None);
    (GAS, mkOp opGas GasQuickStep None (minStack 0 1) (maxStack 0 1) None);
    (JUMPDEST, mkOp opJumpdest params.JumpdestGas None (minStack 0 0) (maxStack 0 0) None) ].

Definition frontierPush : list (OpCode * operation) :=
  [ (PUSH1, mkOp opPush1 GasFastestStep None (minStack 0 1) (maxStack 0 1) None);
    (PUSH2, mkOp (makePush 2 2) GasFastestStep None (minStack 0 1) (maxStack 0 1) None);
    (PUSH3, mkOp (makePush 3 3) GasFastestStep None (minStack 0 1) (maxStack 0 1) None);
    (PUSH4, mkOp (makePush 4 4) GasFastestStep None (minStack 0 1) (maxStack 0 1) None);
    (PUSH5, mkOp (makePush 5 5) GasFastestStep None (minStack 0 1) (maxStack 0 1) None);
    (PUSH6, mkOp (makePush 6 6) GasFastestStep None (minStack 0 1) (maxStack 0 1) None);
    (PUSH7, mkOp (makePush 7 7) GasFastestStep None (minStack 0 1) (maxStack 0 1) None);
    (PUSH8, mkOp (makePush 8 8) GasFastestStep None (minStack 0 1) (maxStack 0 1) None);
    (PUSH9, mkOp (makePush 9 9) GasFastestStep None (minStack 0 1) (maxStack 0 1) None);
    (PUSH10, mkOp (makePush 10 10) GasFastestStep None (minStack 0 1) (maxStack 0 1) None);
    (PUSH11, mkOp (makePush 11 11) GasFastestStep None (minStack 0 1) (maxStack 0 1) None);
    (PUSH12, mkOp (makePush 12 12) GasFastestStep None (minStack 0 1) (maxStack 0 1) None);
    (PUSH13, mkOp (makePush 13 13) GasFastestStep None (minStack 0 1) (maxStack 0 1) None);
    (PUSH14, mkOp (makePush 14 14) GasFastestStep None (minStack 0 1) (maxStack 0 1) None);
    (PUSH15, mkOp (makePush 15 15) GasFastestStep None (minStack 0 1) (maxStack 0 1) None);
    (PUSH16, mkOp (makePush 16 16) GasFastestStep None (minStack 0 1) (maxStack 0 1) None) ].

Definition frontierPush2 : list (OpCode * operation) :=
  [ (PUSH17, mkOp (makePush 17 17) GasFastestStep None (minStack 0 1) (maxStack 0 1) None);
    (PUSH18, mkOp (makePush 18 18) GasFastestStep None (minStack 0 1) (maxStack 0 1) None);
    (PUSH19, mkOp (makePush 19 19) GasFastestStep None (minStack 0 1) (maxStack 0 1) None);
    (PUSH20, mkOp (makePush 20 20) GasFastestStep None (minStack 0 1) (maxStack 0 1) None);
    (PUSH21, mkOp (makePush 21 21) GasFastestStep None (minStack 0 1) (maxStack 0 1) None);
    (PUSH22, mkOp (makePush 22 22) GasFastestStep None (minStack 0 1) (maxStack 0 1) None);
    (PUSH23, mkOp (makePush 23 23) GasFastestStep None (minStack 0 1) (maxStack 0 1) None);
    (PUSH24, mkOp (makePush 24 24) GasFastestStep None (minStack 0 1) (maxStack 0 1) None);
    (PUSH25, mkOp (makePush 25 25) GasFastestStep None (minStack 0 1) (maxStack 0 1) None);
    (PUSH26, mkOp (makePush 26 26) GasFastestStep None (minStack 0 1) (maxStack 0 1) None);
    (PUSH27, mkOp (makePush 27 27) GasFastestStep None (minStack 0 1) (maxStack 0 1) None);
    (PUSH28, mkOp (makePush 28 28) GasFastestStep None (minStack 0 1) (maxStack 0 1) None);
    (PUSH29, mkOp (makePush 29 29) GasFastestStep None (minStack 0 1) (maxStack 0 1) None);
    (PUSH30, mkOp (makePush 30 30) GasFastestStep None (minStack 0 1) (maxStack 0 1) None);
    (PUSH31, mkOp (makePush 31 31) GasFastestStep None (minStack 0 1) (maxStack 0 1) None);
    (PUSH32, mkOp (makePush 32 32) GasFastestStep None (minStack 0 1) (maxStack 0 1) None) ].

Definition frontierDup : list (OpCode * operation) :=
  [ (DUP1, mkOp (makeDup 1) GasFastestStep None (minDupStack 1) (maxDupStack 1) None);
    (DUP2, mkOp (makeDup 2) GasFastestStep None (minDupStack 2) (maxDupStack 2) None);
    (DUP3, mkOp (makeDup 3) GasFastestStep None (minDupStack 3) (maxDupStack 3) None);
    (DUP4, mkOp (makeDup 4) GasFastestStep None (minDupStack 4) (maxDupStack 4) None);
    (DUP5, mkOp (makeDup 5) GasFastestStep None (minDupStack 5) (maxDupStack 5) None);
    (DUP6, mkOp (makeDup 6) GasFastestStep None (minDupStack 6) (maxDupStack 6) None);
    (DUP7, mkOp (makeDup 7) GasFastestStep None (minDupStack 7) (maxDupStack 7) None);
    (DUP8, mkOp (makeDup 8) GasFastestStep None (minDupStack 8) (maxDupStack 8) None);
    (DUP9, mkOp (makeDup 9) GasFastestStep None (minDupStack 9) (maxDupStack 9) None);
    (DUP10, mkOp (makeDup 10) GasFastestStep None (minDupStack 10) (maxDupStack 10) None);
    (DUP11, mkOp (makeDup 11) GasFastestStep None (minDupStack 11) (maxDupStack 11) None);
    (DUP12, mkOp (makeDup 12) GasFastestStep None (minDupStack 12) (maxDupStack 12) None);
    (DUP13, mkOp (makeDup 13) GasFastestStep None (minDupStack 13) (maxDupStack 13) None);
    (DUP14, mkOp (makeDup 14) GasFastestStep None (minDupStack 14) (maxDupStack 14) None);
    (DUP15, mkOp (makeDup 15) GasFastestStep None (minDupStack 15) (maxDupStack 15) None);
    (DUP16, mkOp (makeDup 16) GasFastestStep None (minDupStack 16) (maxDupStack 16) None) ].

Definition frontierSwap : list (OpCode * operation) :=
  [ (SWAP1, mkOp (makeSwap 1) GasFastestStep None (minSwapStack 2) (maxSwapStack 2) None);
    (SWAP2, mkOp (makeSwap 2) GasFastestStep None (minSwapStack 3) (maxSwapStack 3) None);
    (SWAP3, mkOp (makeSwap 3) GasFastestStep None (minSwapStack 4) (maxSwapStack 4) None);
    (SWAP4, mkOp (makeSwap 4) GasFastestStep None (minSwapStack 5) (maxSwapStack 5) None);
    (SWAP5, mkOp (makeSwap 5) GasFastestStep None (minSwapStack 6) (maxSwapStack 6) None);
    (SWAP6, mkOp (makeSwap 6) GasFastestStep None (minSwapStack 7) (maxSwapStack 7) None);
    (SWAP7, mkOp (makeSwap 7) GasFastestStep None (minSwapStack 8) (maxSwapStack 8) None);
    (SWAP8, mkOp (makeSwap 8) GasFastestStep None (minSwapStack 9) (maxSwapStack 9) None);
    (SWAP9, mkOp (makeSwap 9) GasFastestStep None (minSwapStack 10) (maxSwapStack 10) None);
    (SWAP10, mkOp (makeSwap 10) GasFastestStep None (minSwapStack 11) (maxSwapStack 11) None);
    (SWAP11, mkOp (makeSwap 11) GasFastestStep None (minSwapStack 12) (maxSwapStack 12) None);
    (SWAP12, mkOp (makeSwap 12) GasFastestStep None (minSwapStack 13) (maxSwapStack 13) None);
    (SWAP13, mkOp (makeSwap 13) GasFastestStep None (minSwapStack 14) (maxSwapStack 14) None);
    (SWAP14, mkOp (makeSwap 14) GasFastestStep None (minSwapStack 15) (maxSwapStack 15) None);
    (SWAP15, mkOp (makeSwap 15) GasFastestStep None (minSwapStack 16) (maxSwapStack 16) None);
    (SWAP16, mkOp (makeSwap 16) GasFastestStep None (minSwapStack 17) (maxSwapStack 17) None) ].

Definition frontierLog : list (OpCode * operation) :=
  [ (LOG0, mkOp (makeLog 0%nat) 0 (Some (makeGasLog 0)) (minStack 2 0) (maxStack 2 0) (Some
    memoryLog));
    (LOG1, mkOp (makeLog 1%nat) 0 (Some (makeGasLog 1)) (minStack 3 0) (maxStack 3 0) (Some
      memoryLog));
    (LOG2, mkOp (makeLog 2%nat) 0 (Some (makeGasLog 2)) (minStack 4 0) (maxStack 4 0) (Some
      memoryLog));
    (LOG3, mkOp (makeLog 3%nat) 0 (Some (makeGasLog 3)) (minStack 5 0) (maxStack 5 0) (Some
      memoryLog));
    (LOG4, mkOp (makeLog 4%nat) 0 (Some (makeGasLog 4)) (minStack 6 0) (maxStack 6 0) (Some
      memoryLog)) ].

Definition frontierJournal : list (OpCode * operation) :=
  [ (RSVJNAL, mkOp opReferenceStateVarJournal 0 (Some (makeGasJournal 3)) (minStack 3 0)
    (maxStack 3 0) None);
    (VSVJNAL, mkOp opValueStateVarJournal 0 (Some (makeGasJournal 4)) (minStack 4 0) (maxStack
      4 0) None);
    (IRVVJNAL, mkOp opReferenceIndexValueStorageJournal 0 (Some (makeGasJournal 6)) (minStack 6
      0) (maxStack 6 0) None);
    (IRVRJNAL, mkOp opReferenceIndexReferenceStorageJournal 0 (Some (makeGasJournal 5))
      (minStack 5 0) (maxStack 5 0) None);
    (IVVVJNAL, mkOp opValueIndexValueStorageJournal 0 (Some (makeGasJournal 6)) (minStack 6 0)
      (maxStack 6 0) None);
    (IVVRJNAL, mkOp opValueIndexReferenceStorageJournal 0 (Some (makeGasJournal 5)) (minStack 5
      0) (maxStack 5 0) None);
    (VVJNAL, mkOp opValueChangeJournal 0 (Some (makeGasJournal 4)) (minStack 4 0) (maxStack 4
      0) None);
    (VRJNAL, mkOp opReferenceChangeJournal 0 (Some (makeGasJournal 2)) (minStack 2 0) (maxStack
      2 0) None) ].

Definition frontierSystem : list (OpCode * operation) :=
  [ (CREATE, mkOp opCreate params.CreateGas (Some gasCreate) (minStack 3 1) (maxStack 3 1)
    (Some memoryCreate));
    (CALL, mkOp opCall params.CallGasFrontier (Some gasCall) (minStack 7 1) (maxStack 7 1)
      (Some memoryCall));
    (CALLCODE, mkOp opCallCode params.CallGasFrontier (Some gasCallCode) (minStack 7 1)
      (maxStack 7 1) (Some memoryCall));
    (RETURN, mkOp opReturn 0 (Some gasReturn) (minStack 2 0) (maxStack 2 0) (Some memoryReturn));
    (SELFDESTRUCT, mkOp opSelfdestruct 0 (Some gasSelfdestruct) (minStack 1 0) (maxStack 1 0)
      None) ].

Definition frontierEntries : list (OpCode * operation) :=
  frontierArithmetic ++ frontierComparison ++ frontierEnvironment ++ frontierBlock
    ++ frontierMemory ++ frontierPush ++ frontierPush2 ++ frontierDup ++ frontierSwap
    ++ frontierLog ++ frontierJournal ++ frontierSystem.

(** The table literal: unlisted slots are nil. *)
Definition fromEntries (es : list (OpCode * operation)) : JumpTable :=
  foldl (fun jt e => assign e.1 e.2 jt) (replicate 256 None) es.

Definition undefinedOp : operation := mkOp opUndefined 0 None 0 (maxStack 0 0) None.
(** Fill all unassigned slots with [opUndefined]. *)
Definition fillUndefined (jt : JumpTable) : JumpTable :=
  map (fun entry => match entry with None => Some undefinedOp | Some o => Some o end) jt.

Definition newFrontierInstructionSet : res JumpTable :=
  validate (fillUndefined (fromEntries frontierEntries)).
End JumpTable.

(** * vm/eips.go *)
Section Eips.
Context {L : Libs}.

Definition enable1884 (jt : JumpTable) : res JumpTable :=
  let? jt := mutate SLOAD (set_constantGas params.SloadGasEIP1884) jt in
  let? jt := mutate BALANCE (set_constantGas params.BalanceGasEIP1884) jt in
  let? jt := mutate EXTCODEHASH (set_constantGas params.ExtcodeHashGasEIP1884) jt in
  Ret (assign SELFBALANCE
         (mkOp opSelfBalance GasFastStep None (minStack 0 1) (maxStack 0 1) None) jt).

Definition enable1344 (jt : JumpTable) : res JumpTable :=
  Ret (assign CHAINID
         (mkOp opChainID GasQuickStep None (minStack 0 1) (maxStack 0 1) None) jt).

Definition enable2200 (jt : JumpTable) : res JumpTable :=
  let? jt := mutate SLOAD (set_constantGas params.SloadGasEIP2200) jt in
  mutate SSTORE (set_dynamicGas gasSStoreEIP2200) jt.

Definition enable2929 (jt : JumpTable) : res JumpTable :=
  let warm := params.WarmStorageReadCostEIP2929 in
  let? jt := mutate SSTORE (set_dynamicGas gasSStoreEIP2929) jt in
  let? jt := mutate SLOAD (set_constantGas 0) jt in
  let? jt := mutate SLOAD (set_dynamicGas gasSLoadEIP2929) jt in
  let? jt := mutate EXTCODECOPY (set_constantGas warm) jt in
  let? jt := mutate EXTCODECOPY (set_dynamicGas gasExtCodeCopyEIP2929) jt in
  let? jt := mutate EXTCODESIZE (set_constantGas warm) jt in
  let? jt := mutate EXTCODESIZE (set_dynamicGas gasEip2929AccountCheck) jt in
  let? jt := mutate EXTCODEHASH (set_constantGas warm) jt in
  let? jt := mutate EXTCODEHASH (set_dynamicGas gasEip2929AccountCheck) jt in
  let? jt := mutate BALANCE (set_constantGas warm) jt in
  let? jt := mutate BALANCE (set_dynamicGas gasEip2929AccountCheck) jt in
  let? jt := mutate CALL (set_constantGas warm) jt in
  let? jt := mutate CALL (set_dynamicGas gasCallEIP2929) jt in
  let? jt := mutate CALLCODE (set_constantGas warm) jt in
  let? jt := mutate CALLCODE (set_dynamicGas gasCallCodeEIP2929) jt in
  let? jt := mutate STATICCALL (set_constantGas warm) jt in
  let? jt := mutate STATICCALL (set_dynamicGas gasStaticCallEIP2929) jt in
  let? jt := mutate DELEGATECALL (set_constantGas warm) jt in
  let? jt := mutate DELEGATECALL (set_dynamicGas gasDelegateCallEIP2929) jt in
  let? jt := mutate SELFDESTRUCT (set_constantGas params.SelfdestructGasEIP150) jt in
  mutate SELFDESTRUCT (set_dynamicGas gasSelfdestructEIP2929) jt.

Definition enable3529 (jt : JumpTable) : res JumpTable :=
  let? jt := mutate SSTORE (set_dynamicGas gasSStoreEIP3529) jt in
  mutate SELFDESTRUCT (set_dynamicGas gasSelfdestructEIP3529) jt.

Definition enable3198 (jt : JumpTable) : res JumpTable :=
  Ret (assign BASEFEE
         (mkOp opBaseFee GasQuickStep None (minStack 0 1) (maxStack 0 1) None) jt).

Definition enable1153 (jt : JumpTable) : res JumpTable :=
  let jt := assign TLOAD (mkOp opTload params.WarmStorageReadCostEIP2929 None
                            (minStack 1 1) (maxStack 1 1) None) jt in
  Ret (assign TSTORE (mkOp opTstore params.WarmStorageReadCostEIP2929 None
                        (minStack 2 0) (maxStack 2 0) None) jt).

Definition enable3855 (jt : JumpTable) : res JumpTable :=
  Ret (assign PUSH0
         (mkOp opPush0 GasQuickStep None (minStack 0 1) (maxStack 0 1) None) jt).

Definition enable3860 (jt : JumpTable) : res JumpTable :=
  let? jt := mutate CREATE (set_dynamicGas gasCreateEip3860) jt in
  mutate CREATE2 (set_dynamicGas gasCreate2Eip3860) jt.

Definition enable5656 (jt : JumpTable) : res JumpTable :=
  Ret (assign MCOPY (mkOp opMcopy GasFastestStep (Some gasMcopy) (minStack 3 0) (maxStack 3 0)
                       (Some memoryMcopy)) jt).

Definition activators : list (Z * (JumpTable -> res JumpTable)) :=
  [(3855, enable3855); (3860, enable3860); (3529, enable3529); (3198, enable3198);
   (2929, enable2929); (2200, enable2200); (1884, enable1884); (1344, enable1344);
   (1153, enable1153); (5656, enable5656)].

Fixpoint activator (eipNum : Z) (l : list (Z * (JumpTable -> res JumpTable)))
    : option (JumpTable -> res JumpTable) :=
  match l with
  | [] => None
  | (n, f) :: rest => if n =? eipNum then Some f else activator eipNum rest
  end.

(** [func EnableEIP(eipNum int, jt *JumpTable) error] *)
Definition EnableEIP (eipNum : Z) (jt : JumpTable) : res (option Err * JumpTable) :=
  match activator eipNum activators with
  | None => Ret (Some (errNew ("undefined eip " +:+ pretty eipNum)), jt)
  | Some enablerFn => let? jt := enablerFn jt in Ret (None, jt)
  end.

Definition ValidEip (eipNum : Z) : bool :=
  match activator eipNum activators with Some _ => true | None => false end.
End Eips.

(** * The instruction sets of the forks *)
Section InstructionSets.
Context {L : Libs}.

Definition newHomesteadInstructionSet : res JumpTable :=
  let? jt := newFrontierInstructionSet in
  validate (assign DELEGATECALL
    (mkOp opDelegateCall params.CallGasFrontier (Some gasDelegateCall) (minStack 6 1)
       (maxStack 6 1) (Some memoryDelegateCall)) jt).

Definition newTangerineWhistleInstructionSet : res JumpTable :=
  let? jt := newHomesteadInstructionSet in
  let? jt := mutate BALANCE (set_constantGas params.BalanceGasEIP150) jt in
  let? jt := mutate EXTCODESIZE (set_constantGas params.ExtcodeSizeGasEIP150) jt in
  let? jt := mutate SLOAD (set_constantGas params.SloadGasEIP150) jt in
  let? jt := mutate EXTCODECOPY (set_constantGas params.ExtcodeCopyBaseEIP150) jt in
  let? jt := mutate CALL (set_constantGas params.CallGasEIP150) jt in
  let? jt := mutate CALLCODE (set_constantGas params.CallGasEIP150) jt in
  let? jt := mutate DELEGATECALL (set_constantGas params.CallGasEIP150) jt in
  validate jt.

Definition newSpuriousDragonInstructionSet : res JumpTable :=
  let? jt := newTangerineWhistleInstructionSet in
  let? jt := mutate EXP (set_dynamicGas gasExpEIP158) jt in
  validate jt.

Definition newByzantiumInstructionSet : res JumpTable :=
  let? jt := newSpuriousDragonInstructionSet in
  let jt := assign STATICCALL
    (mkOp opStaticCall params.CallGasEIP150 (Some gasStaticCall) (minStack 6 1) (maxStack 6 1)
       (Some memoryStaticCall)) jt in
  let jt := assign RETURNDATASIZE
    (mkOp opReturnDataSize GasQuickStep None (minStack 0 1) (maxStack 0 1) None) jt in
  let jt := assign RETURNDATACOPY
    (mkOp opReturnDataCopy GasFastestStep (Some gasReturnDataCopy) (minStack 3 0)
       (maxStack 3 0) (Some memoryReturnDataCopy)) jt in
  let jt := assign REVERT
    (mkOp opRevert 0 (Some gasRevert) (minStack 2 0) (maxStack 2 0) (Some memoryRevert)) jt in
  validate jt.

Definition newConstantinopleInstructionSet : res JumpTable :=
  let? jt := newByzantiumInstructionSet in
  let jt := assign SHL
    (mkOp opSHL GasFastestStep None (minStack 2 1) (maxStack 2 1) None) jt in
  let jt := assign SHR
    (mkOp opSHR GasFastestStep None (minStack 2 1) (maxStack 2 1) None) jt in
  let jt := assign SAR
    (mkOp opSAR GasFastestStep None (minStack 2 1) (maxStack 2 1) None) jt in
  let jt := assign EXTCODEHASH
    (mkOp opExtCodeHash params.ExtcodeHashGasConstantinople None (minStack 1 1)
       (maxStack 1 1) None) jt in
  let jt := assign CREATE2
    (mkOp opCreate2 params.Create2Gas (Some gasCreate2) (minStack 4 1) (maxStack 4 1)
       (Some memoryCreate2)) jt in
  validate jt.

Definition newIstanbulInstructionSet : res JumpTable :=
  let? jt := newConstantinopleInstructionSet in
  let? jt := enable1344 jt in
  let? jt := enable1884 jt in
  let? jt := enable2200 jt in
  validate jt.

Definition newBerlinInstructionSet : res JumpTable :=
  let? jt := newIstanbulInstructionSet in
  let? jt := enable2929 jt in
  validate jt.

Definition newLondonInstructionSet : res JumpTable :=
  let? jt := newBerlinInstructionSet in
  let? jt := enable3529 jt in
  let? jt := enable3198 jt in
  validate jt.

Definition newMergeInstructionSet : res JumpTable :=
  let? jt := newLondonInstructionSet in
  validate (assign PREVRANDAO
    (mkOp opRandom GasQuickStep None (minStack 0 1) (maxStack 0 1) None) jt).

Definition newShanghaiInstructionSet : res JumpTable :=
  let? jt := newMergeInstructionSet in
  let? jt := enable3855 jt in
  let? jt := enable3860 jt in
  validate jt.

Definition newCancunInstructionSet : res JumpTable :=
  let? jt := newShanghaiInstructionSet in
  let? jt := enable1153 jt in
  let? jt := enable5656 jt in
  validate jt.

(** ** vm/jump_table_export.go *)
Definition LookupInstructionSet (rules : params.Rules) : res (JumpTable * option Err) :=
  let ok (t : res JumpTable) := let? jt := t in Ret (jt, None) in
  if params.IsPrague rules then
    let? jt := newShanghaiInstructionSet in
    Ret (jt, Some (errNew "prague-fork not defined yet"))
  else if params.IsCancun rules then
    let? jt := newShanghaiInstructionSet in
    Ret (jt, Some (errNew "cancun-fork not defined yet"))
  else if params.IsShanghai rules then ok newShanghaiInstructionSet
  else if params.IsMerge rules then ok newMergeInstructionSet
  else if params.IsLondon rules then ok newLondonInstructionSet
  else if params.IsBerlin rules then ok newBerlinInstructionSet
  else if params.IsIstanbul rules then ok newIstanbulInstructionSet
  else if params.IsConstantinople rules then ok newConstantinopleInstructionSet
  else if params.IsByzantium rules then ok newByzantiumInstructionSet
  else if params.IsEIP158 rules then ok newSpuriousDragonInstructionSet
  else if params.IsEIP150 rules then ok newTangerineWhistleInstructionSet
  else if params.IsHomestead rules then ok newHomesteadInstructionSet
  else ok newFrontierInstructionSet.

Definition op_Stack (op : operation) : Z * Z := (op_minStack op, op_maxStack op).
Definition HasCost (op : operation) : bool :=
  match dynamicGas op with Some _ => true | None => negb (constantGas op =? 0) end.
End InstructionSets.
