(* ===== verification/Precompiles.v ===== *)
(** The precompiled contracts (vm/contracts.go). The curve and hash functions
    are parameters; gas prices, input parsing, error cases and dispatch are
    translated. *)
From Stdlib Require Import Zpow_facts.
From S2P Require Import Prelude Opcodes Errors Externals Stack Memory Analysis Contract.

Section Precompiles.
Context {L : Libs}.

(** [type ExecutionContext struct] *)
Record ExecutionContext := {
  ec_from : Address;
  ec_to : Address;
  ec_gas : Z;
  ec_value : Z;
}.

(** The types implementing [PrecompiledContract]. *)
Inductive PrecompiledContract :=
  | ecrecover
  | sha256hash
  | ripemd160hash
  | dataCopy
  | bigModExp (eip2565 : bool)
  | bn256AddIstanbul
  | bn256AddByzantium
  | bn256ScalarMulIstanbul
  | bn256ScalarMulByzantium
  | bn256PairingIstanbul
  | bn256PairingByzantium
  | blake2F
  | bls12381G1Add
  | bls12381G1Mul
  | bls12381G1MultiExp
  | bls12381G2Add
  | bls12381G2Mul
  | bls12381G2MultiExp
  | bls12381Pairing
  | bls12381MapG1
  | bls12381MapG2
  | aspcontext
  | userOpSender
  | contextWriter (ctx : option ExecutionContext).

(** [common.BytesToAddress([]byte{n})] *)
Definition precompileAddr (n : Z) : Address := common.BytesToAddress [n].

Definition PrecompiledContractsHomestead : list (Address * PrecompiledContract) :=
  [(precompileAddr 1, ecrecover); (precompileAddr 2, sha256hash);
   (precompileAddr 3, ripemd160hash); (precompileAddr 4, dataCopy)].
Definition PrecompiledContractsByzantium : list (Address * PrecompiledContract) :=
  [(precompileAddr 1, ecrecover); (precompileAddr 2, sha256hash);
   (precompileAddr 3, ripemd160hash); (precompileAddr 4, dataCopy);
   (precompileAddr 5, bigModExp false); (precompileAddr 6, bn256AddByzantium);
   (precompileAddr 7, bn256ScalarMulByzantium); (precompileAddr 8, bn256PairingByzantium)].
Definition PrecompiledContractsIstanbul : list (Address * PrecompiledContract) :=
  [(precompileAddr 1, ecrecover); (precompileAddr 2, sha256hash);
   (precompileAddr 3, ripemd160hash); (precompileAddr 4, dataCopy);
   (precompileAddr 5, bigModExp false); (precompileAddr 6, bn256AddIstanbul);
   (precompileAddr 7, bn256ScalarMulIstanbul); (precompileAddr 8, bn256PairingIstanbul);
   (precompileAddr 9, blake2F)].
Definition PrecompiledContractsBerlin : list (Address * PrecompiledContract) :=
  [(precompileAddr 1, ecrecover); (precompileAddr 2, sha256hash);
   (precompileAddr 3, ripemd160hash); (precompileAddr 4, dataCopy);
   (precompileAddr 5, bigModExp true); (precompileAddr 6, bn256AddIstanbul);
   (precompileAddr 7, bn256ScalarMulIstanbul); (precompileAddr 8, bn256PairingIstanbul);
   (precompileAddr 9, blake2F); (precompileAddr 100, aspcontext);
   (precompileAddr 101, userOpSender); (precompileAddr 102, contextWriter None)].
Definition PrecompiledContractsBLS : list (Address * PrecompiledContract) :=
  [(precompileAddr 10, bls12381G1Add); (precompileAddr 11, bls12381G1Mul);
   (precompileAddr 12, bls12381G1MultiExp); (precompileAddr 13, bls12381G2Add);
   (precompileAddr 14, bls12381G2Mul); (precompileAddr 15, bls12381G2MultiExp);
   (precompileAddr 16, bls12381Pairing); (precompileAddr 17, bls12381MapG1);
   (precompileAddr 18, bls12381MapG2)].

Definition precompilesOf (rules : params.Rules) : list (Address * PrecompiledContract) :=
  if params.IsBerlin rules then PrecompiledContractsBerlin
  else if params.IsIstanbul rules then PrecompiledContractsIstanbul
  else if params.IsByzantium rules then PrecompiledContractsByzantium
  else PrecompiledContractsHomestead.

Fixpoint lookupPrecompile (addr : Address) (l : list (Address * PrecompiledContract))
    : option PrecompiledContract :=
  match l with
  | [] => None
  | (a, p) :: rest => if bytes_eqb a addr then Some p else lookupPrecompile addr rest
  end.

(** [func (evm *EVM) precompile(addr) (PrecompiledContract, bool)] of vm/evm.go *)
Definition precompile (rules : params.Rules) (addr : Address) : option PrecompiledContract :=
  lookupPrecompile addr (precompilesOf rules).

(** [func ActivePrecompiles(rules params.Rules) []common.Address]: the
    addresses [init] collected, in the unspecified order of a map range. *)
Definition ActivePrecompiles (rules : params.Rules) : list Address := (precompilesOf rules).*1.

(** The assertion [p.(ContextfulPrecompiledContract)] and [CloneWithCtx]. *)
Definition CloneWithCtx (ctx : ExecutionContext) (p : PrecompiledContract)
    : PrecompiledContract :=
  match p with contextWriter _ => contextWriter (Some ctx) | _ => p end.

(** ** Gas *)

(** [new(big.Int).BitLen()] and [.Bytes()] of a non-negative integer *)
Definition bigBitLen (z : Z) : Z := if z =? 0 then 0 else Z.log2 z + 1.
Definition bigBytes (z : Z) : bytes := to_be (Z.to_nat ((bigBitLen z + 7) / 8)) z.

Definition modexpMultComplexity (x : Z) : Z :=
  if x <=? 64 then x * x
  else if x <=? 1024 then x * x / 4 + (96 * x - 3072)
  else x * x / 16 + (480 * x - 199680).

(** [if len(input) > 96 { input = input[96:] } else { input = input[:0] }] *)
Definition afterHeader (input : bytes) : bytes :=
  if 96 <? len input then drop 96 input else [].

Definition bigModExp_RequiredGas (eip2565 : bool) (input : bytes) : res Z :=
  let? b := getData input 0 32 in
  let? e := getData input 32 32 in
  let? m := getData input 64 32 in
  let baseLen := be_value b in
  let expLen := be_value e in
  let modLen := be_value m in
  let input := afterHeader input in
  let? expHead :=
    (if len input <=? baseLen then Ret 0
     else if 32 <? expLen then
       let? d := getData input (u64 baseLen) 32 in Ret (be_value d)
     else
       let? d := getData input (u64 baseLen) (u64 expLen) in Ret (be_value d)) in
  let msb := if 0 <? bigBitLen expHead then bigBitLen expHead - 1 else 0 in
  let adjExpLen := (if 32 <? expLen then 8 * (expLen - 32) else 0) + msb in
  let gas := Z.max modLen baseLen in
  if eip2565 then
    let gas := (gas + 7) / 8 in
    let gas := gas * gas in
    let gas := gas * Z.max adjExpLen 1 in
    let gas := gas / 3 in
    if 64 <? bigBitLen gas then Ret MaxUint64
    else if u64 gas <? 200 then Ret 200
    else Ret (u64 gas)
  else
    let gas := modexpMultComplexity gas in
    let gas := gas * Z.max adjExpLen 1 in
    let gas := gas / 20 in
    if 64 <? bigBitLen gas then Ret MaxUint64 else Ret (u64 gas).

(** [uint64(len(input)+31)/32*perWord + base] *)
Definition perWordGas (perWord base : Z) (input : bytes) : Z :=
  u64 (u64 ((len input + 31) / 32 * perWord) + base).

Definition blake2FInputLength : Z := 213.
Definition blake2F_RequiredGas (input : bytes) : Z :=
  if negb (len input =? blake2FInputLength) then 0 else be_value (take 4 input) mod 2 ^ 32.

(** The discount of [bls12381G1MultiExp] and [bls12381G2MultiExp]. *)
Definition multiExpGas (pairLen mulGas : Z) (input : bytes) : res Z :=
  let k := len input / pairLen in
  if k =? 0 then Ret 0
  else
    let dLen := len params.Bls12381MultiExpDiscountTable in
    let? discount :=
      (if k <? dLen then index params.Bls12381MultiExpDiscountTable (k - 1)
       else index params.Bls12381MultiExpDiscountTable (dLen - 1)) in
    Ret (u64 (u64 (k * mulGas) * discount) / 1000).

(** The [RequiredGas] methods. *)
Definition ecrecover_RequiredGas (input : bytes) : Z :=
  params.EcrecoverGas.
Definition sha256hash_RequiredGas (input : bytes) : Z :=
  perWordGas params.Sha256PerWordGas params.Sha256BaseGas input.
Definition ripemd160hash_RequiredGas (input : bytes) : Z :=
  perWordGas params.Ripemd160PerWordGas params.Ripemd160BaseGas input.
Definition dataCopy_RequiredGas (input : bytes) : Z :=
  perWordGas params.IdentityPerWordGas params.IdentityBaseGas input.
Definition bn256AddIstanbul_RequiredGas (input : bytes) : Z :=
  params.Bn256AddGasIstanbul.
Definition bn256AddByzantium_RequiredGas (input : bytes) : Z :=
  params.Bn256AddGasByzantium.
Definition bn256ScalarMulIstanbul_RequiredGas (input : bytes) : Z :=
  params.Bn256ScalarMulGasIstanbul.
Definition bn256ScalarMulByzantium_RequiredGas (input : bytes) : Z :=
  params.Bn256ScalarMulGasByzantium.
Definition bn256PairingIstanbul_RequiredGas (input : bytes) : Z :=
  u64 (params.Bn256PairingBaseGasIstanbul + u64 (len input / 192 * params.Bn256PairingPerPointGasIstanbul)).
Definition bn256PairingByzantium_RequiredGas (input : bytes) : Z :=
  u64 (params.Bn256PairingBaseGasByzantium + u64 (len input / 192 * params.Bn256PairingPerPointGasByzantium)).
Definition bls12381G1Add_RequiredGas (input : bytes) : Z :=
  params.Bls12381G1AddGas.
Definition bls12381G1Mul_RequiredGas (input : bytes) : Z :=
  params.Bls12381G1MulGas.
Definition bls12381G1MultiExp_RequiredGas (input : bytes) : res Z :=
  multiExpGas 160 params.Bls12381G1MulGas input.
Definition bls12381G2Add_RequiredGas (input : bytes) : Z :=
  params.Bls12381G2AddGas.
Definition bls12381G2Mul_RequiredGas (input : bytes) : Z :=
  params.Bls12381G2MulGas.
Definition bls12381G2MultiExp_RequiredGas (input : bytes) : res Z :=
  multiExpGas 288 params.Bls12381G2MulGas input.
Definition bls12381Pairing_RequiredGas (input : bytes) : Z :=
  u64 (params.Bls12381PairingBaseGas + u64 (len input / 384 * params.Bls12381PairingPerPairGas)).
Definition bls12381MapG1_RequiredGas (input : bytes) : Z :=
  params.Bls12381MapG1Gas.
Definition bls12381MapG2_RequiredGas (input : bytes) : Z :=
  params.Bls12381MapG2Gas.
Definition aspcontext_RequiredGas (input : bytes) : Z :=
  5000.
Definition userOpSender_RequiredGas (input : bytes) : Z :=
  5000.
Definition contextWriter_RequiredGas (input : bytes) : Z :=
  5000.

(** [p.RequiredGas(input)] *)
Definition RequiredGas (p : PrecompiledContract) (input : bytes) : res Z :=
  match p with
  | ecrecover => Ret (ecrecover_RequiredGas input)
  | sha256hash => Ret (sha256hash_RequiredGas input)
  | ripemd160hash => Ret (ripemd160hash_RequiredGas input)
  | dataCopy => Ret (dataCopy_RequiredGas input)
  | bigModExp eip2565 => bigModExp_RequiredGas eip2565 input
  | bn256AddIstanbul => Ret (bn256AddIstanbul_RequiredGas input)
  | bn256AddByzantium => Ret (bn256AddByzantium_RequiredGas input)
  | bn256ScalarMulIstanbul => Ret (bn256ScalarMulIstanbul_RequiredGas input)
  | bn256ScalarMulByzantium => Ret (bn256ScalarMulByzantium_RequiredGas input)
  | bn256PairingIstanbul => Ret (bn256PairingIstanbul_RequiredGas input)
  | bn256PairingByzantium => Ret (bn256PairingByzantium_RequiredGas input)
  | blake2F => Ret (blake2F_RequiredGas input)
  | bls12381G1Add => Ret (bls12381G1Add_RequiredGas input)
  | bls12381G1Mul => Ret (bls12381G1Mul_RequiredGas input)
  | bls12381G1MultiExp => bls12381G1MultiExp_RequiredGas input
  | bls12381G2Add => Ret (bls12381G2Add_RequiredGas input)
  | bls12381G2Mul => Ret (bls12381G2Mul_RequiredGas input)
  | bls12381G2MultiExp => bls12381G2MultiExp_RequiredGas input
  | bls12381Pairing => Ret (bls12381Pairing_RequiredGas input)
  | bls12381MapG1 => Ret (bls12381MapG1_RequiredGas input)
  | bls12381MapG2 => Ret (bls12381MapG2_RequiredGas input)
  | aspcontext => Ret (aspcontext_RequiredGas input)
  | userOpSender => Ret (userOpSender_RequiredGas input)
  | contextWriter _ => Ret (contextWriter_RequiredGas input)
  end.

(** ** Run *)

Definition ecrecover_Run (input : bytes) : res (bytes * option Err) :=
  let input := common.RightPadBytes input 128 in
  let? rb := slice input 64 96 in
  let? sb := slice input 96 128 in
  let? v63 := index input 63 in
  let v := u8 (v63 - 27) in
  let? pad := slice input 32 63 in
  if negb (allZero pad)
     || negb (crypto.ValidateSignatureValues v (be_value rb) (be_value sb) false)
  then Ret ([], None)
  else
    let? rs := slice input 64 128 in
    let sig := rs ++ [v] in
    let? h := slice input 0 32 in
    let '(pubKey, err) := crypto.Ecrecover h sig in
    match err with
    | Some _ => Ret ([], None)
    | None =>
        let? key := slice pubKey 1 (len pubKey) in
        let h := crypto.Keccak256 key in
        let? a := slice h 12 (len h) in
        Ret (common.LeftPadBytes a 32, None)
    end.

Definition bigModExp_Run (input : bytes) : res (bytes * option Err) :=
  let? b := getData input 0 32 in
  let? e := getData input 32 32 in
  let? m := getData input 64 32 in
  let baseLen := u64 (be_value b) in
  let expLen := u64 (be_value e) in
  let modLen := u64 (be_value m) in
  let input := afterHeader input in
  if (baseLen =? 0) && (modLen =? 0) then Ret ([], None)
  else
    let? b := getData input 0 baseLen in
    let? e := getData input baseLen expLen in
    let? m := getData input (u64 (baseLen + expLen)) modLen in
    let base := be_value b in
    let exp := be_value e in
    let mod_ := be_value m in
    if bigBitLen mod_ =? 0 then Ret (common.LeftPadBytes [] (i64 modLen), None)
    else
      let v := if bigBitLen base =? 1 then bigBytes (base mod mod_)
               else bigBytes (Zpow_mod base exp mod_) in
      Ret (common.LeftPadBytes v (i64 modLen), None).

(** [if err != nil { return nil, err }] after unmarshalling a point. *)
Definition or_fail {A} (r : A + Err) (k : A -> res (bytes * option Err))
    : res (bytes * option Err) :=
  match r with inl a => k a | inr e => Ret ([], Some e) end.

(** [newCurvePoint] and [newTwistPoint] *)
Definition newCurvePoint (blob : bytes) : bn256.G1 + Err := bn256.UnmarshalG1 blob.
Definition newTwistPoint (blob : bytes) : bn256.G2 + Err := bn256.UnmarshalG2 blob.

Definition runBn256Add (input : bytes) : res (bytes * option Err) :=
  let? a := getData input 0 64 in
  or_fail (newCurvePoint a) (fun x =>
    let? b := getData input 64 64 in
    or_fail (newCurvePoint b) (fun y => Ret (bn256.Marshal (bn256.Add x y), None))).

Definition runBn256ScalarMul (input : bytes) : res (bytes * option Err) :=
  let? a := getData input 0 64 in
  or_fail (newCurvePoint a) (fun p =>
    let? s := getData input 64 32 in
    Ret (bn256.Marshal (bn256.ScalarMult p (be_value s)), None)).

Definition true32Byte : bytes := zeros 31 ++ [1].
Definition false32Byte : bytes := zeros 32.

(** The point loop of [runBn256Pairing]: [n] groups of 192 bytes from [i]. *)
Fixpoint bn256Points (n : nat) (i : Z) (input : bytes)
    : res ((list bn256.G1 * list bn256.G2) + Err) :=
  match n with
  | O => Ret (inl ([], []))
  | S n' =>
      let? cb := slice input i (i + 64) in
      match newCurvePoint cb with
      | inr e => Ret (inr e)
      | inl c =>
          let? tb := slice input (i + 64) (i + 192) in
          match newTwistPoint tb with
          | inr e => Ret (inr e)
          | inl t =>
              let? rest := bn256Points n' (i + 192) input in
              match rest with
              | inr e => Ret (inr e)
              | inl (cs, ts) => Ret (inl (c :: cs, t :: ts))
              end
          end
      end
  end.

Definition runBn256Pairing (input : bytes) : res (bytes * option Err) :=
  if 0 <? len input mod 192 then
    Ret ([], Some (errNew "bad elliptic curve pairing size"))
  else
    let? r := bn256Points (Z.to_nat (len input / 192)) 0 input in
    or_fail r (fun '(cs, ts) =>
      if bn256.PairingCheck cs ts then Ret (true32Byte, None) else Ret (false32Byte, None)).

(** [binary.LittleEndian.Uint64] and [PutUint64] *)
Definition le_value (b : bytes) : Z := be_value (rev b).
Definition to_le8 (z : Z) : bytes := rev (to_be 8 z).

(** [n] little-endian words from [off]. *)
Fixpoint leWords (n : nat) (off : Z) (input : bytes) : res (list Z) :=
  match n with
  | O => Ret []
  | S n' =>
      let? w := slice input off (off + 8) in
      let? rest := leWords n' (off + 8) input in
      Ret (le_value w :: rest)
  end.

Definition blake2F_Run (input : bytes) : res (bytes * option Err) :=
  if negb (len input =? blake2FInputLength) then
    Ret ([], Some (errNew "invalid input length"))
  else
    let? flag := index input 212 in
    if negb (flag =? 0) && negb (flag =? 1) then
      Ret ([], Some (errNew "invalid final flag"))
    else
      let? rb := slice input 0 4 in
      let rounds := be_value rb in
      let final := flag =? 1 in
      let? h := leWords 8 4 input in
      let? m := leWords 16 68 input in
      let? t := leWords 2 196 input in
      let h := crypto.blake2b_F rounds h m t final in
      Ret (concat (map to_le8 h), None).

Definition errBLS12381InvalidInputLength : Err := errNew "invalid input length".

(** The [Run] methods of the BLS12-381 addition, multiplication and
    multi-exponentiation contracts, at a point encoding of [n] bytes. *)
Definition blsAdd {P} (g : bls12381.Group P) (n : Z) (input : bytes)
    : res (bytes * option Err) :=
  if negb (len input =? 2 * n) then Ret ([], Some errBLS12381InvalidInputLength)
  else
    let? a := slice input 0 n in
    or_fail (bls12381.DecodePoint g a) (fun p0 =>
      let? b := slice input n (len input) in
      or_fail (bls12381.DecodePoint g b) (fun p1 =>
        Ret (bls12381.EncodePoint g (bls12381.Add g p0 p1), None))).

Definition blsMul {P} (g : bls12381.Group P) (n : Z) (input : bytes)
    : res (bytes * option Err) :=
  if negb (len input =? n + 32) then Ret ([], Some errBLS12381InvalidInputLength)
  else
    let? a := slice input 0 n in
    or_fail (bls12381.DecodePoint g a) (fun p0 =>
      let? e := slice input n (len input) in
      Ret (bls12381.EncodePoint g (bls12381.MulScalar g p0 (be_value e)), None)).

Fixpoint blsPairs {P} (g : bls12381.Group P) (n : Z) (k : nat) (off : Z) (input : bytes)
    : res ((list P * list Z) + Err) :=
  match k with
  | O => Ret (inl ([], []))
  | S k' =>
      let? pb := slice input off (off + n) in
      match bls12381.DecodePoint g pb with
      | inr e => Ret (inr e)
      | inl p =>
          let? sb := slice input (off + n) (off + n + 32) in
          let? rest := blsPairs g n k' (off + n + 32) input in
          match rest with
          | inr e => Ret (inr e)
          | inl (ps, ss) => Ret (inl (p :: ps, be_value sb :: ss))
          end
      end
  end.

(** [checkErr]: the G2 contract returns the error of [MultiExp], the G1
    contract ignores it. *)
Definition blsMultiExp {P} (g : bls12381.Group P) (n : Z) (checkErr : bool) (input : bytes)
    : res (bytes * option Err) :=
  let k := len input / (n + 32) in
  if (len input =? 0) || negb (len input mod (n + 32) =? 0) then
    Ret ([], Some errBLS12381InvalidInputLength)
  else
    let? r := blsPairs g n (Z.to_nat k) 0 input in
    or_fail r (fun '(points, scalars) =>
      let '(r, expErr) := bls12381.MultiExp g points scalars in
      match expErr with
      | Some e => if checkErr then Ret ([], Some e) else Ret (bls12381.EncodePoint g r, None)
      | None => Ret (bls12381.EncodePoint g r, None)
      end).

Fixpoint blsPairingPairs (k : nat) (off : Z) (input : bytes)
    : res (list (bls12381.PointG1 * bls12381.PointG2) + Err) :=
  match k with
  | O => Ret (inl [])
  | S k' =>
      let? b1 := slice input off (off + 128) in
      match bls12381.DecodePoint bls12381.NewG1 b1 with
      | inr e => Ret (inr e)
      | inl p1 =>
          let? b2 := slice input (off + 128) (off + 384) in
          match bls12381.DecodePoint bls12381.NewG2 b2 with
          | inr e => Ret (inr e)
          | inl p2 =>
              if negb (bls12381.InCorrectSubgroup bls12381.NewG1 p1) then
                Ret (inr (errNew "g1 point is not on correct subgroup"))
              else if negb (bls12381.InCorrectSubgroup bls12381.NewG2 p2) then
                Ret (inr (errNew "g2 point is not on correct subgroup"))
              else
                let? rest := blsPairingPairs k' (off + 384) input in
                match rest with
                | inr e => Ret (inr e)
                | inl ps => Ret (inl ((p1, p2) :: ps))
                end
          end
      end
  end.

Definition bls12381Pairing_Run (input : bytes) : res (bytes * option Err) :=
  let k := len input / 384 in
  if (len input =? 0) || negb (len input mod 384 =? 0) then
    Ret ([], Some errBLS12381InvalidInputLength)
  else
    let? r := blsPairingPairs (Z.to_nat k) 0 input in
    or_fail r (fun ps =>
      Ret (if bls12381.Check ps then zeros 31 ++ [1] else zeros 32, None)).

Definition decodeBLS12381FieldElement (in_ : bytes) : res (bytes + Err) :=
  if negb (len in_ =? 64) then Ret (inr (errNew "invalid field element length"))
  else if negb (allZero (take 16 in_)) then
    Ret (inr (errNew "invalid field element top bytes"))
  else
    let? d := slice in_ 16 64 in Ret (inl d).

Definition bls12381MapG1_Run (input : bytes) : res (bytes * option Err) :=
  if negb (len input =? 64) then Ret ([], Some errBLS12381InvalidInputLength)
  else
    let? fe := decodeBLS12381FieldElement input in
    or_fail fe (fun fe =>
      or_fail (bls12381.MapToCurve bls12381.NewG1 fe) (fun r =>
        Ret (bls12381.EncodePoint bls12381.NewG1 r, None))).

Definition bls12381MapG2_Run (input : bytes) : res (bytes * option Err) :=
  if negb (len input =? 128) then Ret ([], Some errBLS12381InvalidInputLength)
  else
    let? lo := slice input 0 64 in
    let? c0 := decodeBLS12381FieldElement lo in
    or_fail c0 (fun c0 =>
      let? hi := slice input 64 128 in
      let? c1 := decodeBLS12381FieldElement hi in
      or_fail c1 (fun c1 =>
        let fe := copy_at (copy_at (zeros 96) 48 c0) 0 (take 48 c1) in
        or_fail (bls12381.MapToCurve bls12381.NewG2 fe) (fun r =>
          Ret (bls12381.EncodePoint bls12381.NewG2 r, None)))).

(** *** The Artela precompiles *)

Definition aspcontext_Run (input : bytes) (ctx : aspect.Ctx) : res (bytes * option Err) :=
  if len input <? 20 then Ret ([], None)
  else
    let? a := slice input 0 20 in
    let? key := slice input 20 (len input) in
    let '(value, err) := aspect.GetAspectContext ctx (common.BytesToAddress a) key in
    match err with Some e => Ret ([], Some e) | None => Ret (value, None) end.

Definition userOpSender_Run (input : bytes) (ctx : aspect.Ctx) : res (bytes * option Err) :=
  if len input =? 0 then Ret ([], None)
  else
    let userOpHash := common.BytesToHash input in
    let '(aspectId, err) := aspect.JITSenderAspectByContext ctx userOpHash in
    match err with
    | Some e => Ret ([], Some e)
    | None => Ret (common.BytesToHash aspectId, None)
    end.

(** [func loadParamBytes(input []byte, index int) ([]byte, error)] *)
Definition loadParamBytes (input : bytes) (index : Z) : res (bytes + Err) :=
  let offsetLowerBound := index * 32 in
  let offsetUpperbound := offsetLowerBound + 32 in
  if len input <? offsetUpperbound then Ret (inr (errNew "invalid input data length"))
  else
    let? ob := slice input offsetLowerBound offsetUpperbound in
    let '(dataOffset, overflow) := uint256.Uint64WithOverflow (uint256.SetBytes ob) in
    if overflow then Ret (inr (errNew "invalid offset"))
    else
      let start := u64 (dataOffset + 32) in
      if len input <? start then Ret (inr (errNew "invalid param length"))
      else
        let? lb := slice input dataOffset start in
        let '(dataLen, overflow) := uint256.Uint64WithOverflow (uint256.SetBytes lb) in
        if overflow then Ret (inr (errNew "invalid length"))
        else
          let end_ := u64 (start + dataLen) in
          if len input <? end_ then Ret (inr (errNew "invalid param length"))
          else let? d := slice input start end_ in Ret (inl d).

Definition contextWriter_Run (c : option ExecutionContext) (input : bytes) (ctx : aspect.Ctx)
    : res (bytes * option Err * aspect.Ctx) :=
  if len input <? 128 then Ret ([], None, ctx)
  else
    let? key := loadParamBytes input 0 in
    match key with
    | inr e => Ret ([], Some e, ctx)
    | inl key =>
        let? value := loadParamBytes input 1 in
        match value with
        | inr e => Ret ([], Some e, ctx)
        | inl value =>
            match c with
            | None => Panicked NilDeref
            | Some c =>
                let '(err, ctx) := aspect.SetAspectContext ctx (ec_from c) key value in
                Ret ([], err, ctx)
            end
        end
    end.

(** *** The contracts that are one call of the above *)
Definition sha256hash_Run (input : bytes) : res (bytes * option Err) :=
  Ret (crypto.sha256_Sum256 input, None).
Definition ripemd160hash_Run (input : bytes) : res (bytes * option Err) :=
  Ret (common.LeftPadBytes (crypto.ripemd160_Sum input) 32, None).
Definition dataCopy_Run (input : bytes) : res (bytes * option Err) :=
  Ret (input, None).
Definition bn256AddIstanbul_Run (input : bytes) : res (bytes * option Err) :=
  runBn256Add input.
Definition bn256AddByzantium_Run (input : bytes) : res (bytes * option Err) :=
  runBn256Add input.
Definition bn256ScalarMulIstanbul_Run (input : bytes) : res (bytes * option Err) :=
  runBn256ScalarMul input.
Definition bn256ScalarMulByzantium_Run (input : bytes) : res (bytes * option Err) :=
  runBn256ScalarMul input.
Definition bn256PairingIstanbul_Run (input : bytes) : res (bytes * option Err) :=
  runBn256Pairing input.
Definition bn256PairingByzantium_Run (input : bytes) : res (bytes * option Err) :=
  runBn256Pairing input.
Definition bls12381G1Add_Run (input : bytes) : res (bytes * option Err) :=
  blsAdd bls12381.NewG1 128 input.
Definition bls12381G1Mul_Run (input : bytes) : res (bytes * option Err) :=
  blsMul bls12381.NewG1 128 input.
Definition bls12381G1MultiExp_Run (input : bytes) : res (bytes * option Err) :=
  blsMultiExp bls12381.NewG1 128 false input.
Definition bls12381G2Add_Run (input : bytes) : res (bytes * option Err) :=
  blsAdd bls12381.NewG2 256 input.
Definition bls12381G2Mul_Run (input : bytes) : res (bytes * option Err) :=
  blsMul bls12381.NewG2 256 input.
Definition bls12381G2MultiExp_Run (input : bytes) : res (bytes * option Err) :=
  blsMultiExp bls12381.NewG2 256 true input.

(** [p.Run(ctx, input)] *)
Definition Precompile_Run (p : PrecompiledContract) (input : bytes)
    : ST aspect.Ctx (bytes * option Err) := fun ctx =>
  let pure (r : res (bytes * option Err)) := let? o := r in Ret (o, ctx) in
  match p with
  | ecrecover => pure (ecrecover_Run input)
  | sha256hash => pure (sha256hash_Run input)
  | ripemd160hash => pure (ripemd160hash_Run input)
  | dataCopy => pure (dataCopy_Run input)
  | bigModExp _ => pure (bigModExp_Run input)
  | bn256AddIstanbul => pure (bn256AddIstanbul_Run input)
  | bn256AddByzantium => pure (bn256AddByzantium_Run input)
  | bn256ScalarMulIstanbul => pure (bn256ScalarMulIstanbul_Run input)
  | bn256ScalarMulByzantium => pure (bn256ScalarMulByzantium_Run input)
  | bn256PairingIstanbul => pure (bn256PairingIstanbul_Run input)
  | bn256PairingByzantium => pure (bn256PairingByzantium_Run input)
  | blake2F => pure (blake2F_Run input)
  | bls12381G1Add => pure (bls12381G1Add_Run input)
  | bls12381G1Mul => pure (bls12381G1Mul_Run input)
  | bls12381G1MultiExp => pure (bls12381G1MultiExp_Run input)
  | bls12381G2Add => pure (bls12381G2Add_Run input)
  | bls12381G2Mul => pure (bls12381G2Mul_Run input)
  | bls12381G2MultiExp => pure (bls12381G2MultiExp_Run input)
  | bls12381Pairing => pure (bls12381Pairing_Run input)
  | bls12381MapG1 => pure (bls12381MapG1_Run input)
  | bls12381MapG2 => pure (bls12381MapG2_Run input)
  | aspcontext => pure (aspcontext_Run input ctx)
  | userOpSender => pure (userOpSender_Run input ctx)
  | contextWriter c => contextWriter_Run c input ctx
  end.

(** [func RunPrecompiledContract(ctx, p, input, suppliedGas)] *)
Definition RunPrecompiledContract (p : PrecompiledContract) (input : bytes) (suppliedGas : Z)
    : ST aspect.Ctx (bytes * Z * option Err) :=
  let* gasCost := liftR (RequiredGas p input) in
  if suppliedGas <? gasCost then ret ([], 0, Some ErrOutOfGas)
  else
    let suppliedGas := u64 (suppliedGas - gasCost) in
    let* (output, err) := Precompile_Run p input in
    ret (output, suppliedGas, err).
End Precompiles.

(** Unfolding the methods of all contracts. *)
Create HintDb precompiles.
#[global] Hint Unfold ecrecover_RequiredGas sha256hash_RequiredGas ripemd160hash_RequiredGas
  dataCopy_RequiredGas bn256AddIstanbul_RequiredGas bn256AddByzantium_RequiredGas
  bn256ScalarMulIstanbul_RequiredGas bn256ScalarMulByzantium_RequiredGas
  bn256PairingIstanbul_RequiredGas bn256PairingByzantium_RequiredGas bls12381G1Add_RequiredGas
  bls12381G1Mul_RequiredGas bls12381G1MultiExp_RequiredGas bls12381G2Add_RequiredGas
  bls12381G2Mul_RequiredGas bls12381G2MultiExp_RequiredGas bls12381Pairing_RequiredGas
  bls12381MapG1_RequiredGas bls12381MapG2_RequiredGas aspcontext_RequiredGas
  userOpSender_RequiredGas contextWriter_RequiredGas : precompiles.
#[global] Hint Unfold sha256hash_Run ripemd160hash_Run dataCopy_Run bn256AddIstanbul_Run
  bn256AddByzantium_Run bn256ScalarMulIstanbul_Run bn256ScalarMulByzantium_Run
  bn256PairingIstanbul_Run bn256PairingByzantium_Run bls12381G1Add_Run bls12381G1Mul_Run
  bls12381G1MultiExp_Run bls12381G2Add_Run bls12381G2Mul_Run bls12381G2MultiExp_Run : precompiles.
