(* ===== verification/Evm.v ===== *)
(** The interpreter loop (vm/interpreter.go) and the call operations of the EVM
    (vm/evm.go).

    [Run] and the call operations are mutually recursive through the opcodes.
    The operations are first written over an arbitrary [Runner]; [Run] then
    ties the knot with fuel: an iteration of the main loop, and a nested call,
    each use one unit. *)
From S2P Require Import Prelude Opcodes Errors Externals Stack Memory Analysis Contract Tracer.
From S2P Require Import Machine Gas Instructions JumpTable Precompiles.

(** * vm/interpreter.go *)
Section Interpreter.
Context {L : Libs} {RP : AspectReports}.
Variable env : Env.

(** The locals of [Run] its deferred logger call reads. *)
Record StepInfo := mkInfo {
  si_op : OpCode;
  si_cost : Z;
  si_pc : Z;
  si_gas : Z;
  si_logged : bool;
}.

(** One iteration goes on, or leaves the loop with a result and an error. *)
Inductive Iter :=
  | Next
  | Halted (r : bytes) (err : Err) (info : StepInfo).

(** [in.evm.Config.Tracer.CaptureState(...)] before an operation executes *)
Definition captureState (info : StepInfo) : ST St unit :=
  modify (fun s => set_mach (emit env
    (CaptureState (si_pc info) (si_op info) (si_gas info) (si_cost info) (scope s)
       (returnData (mach s)) (depth (mach s)) None) (mach s)) s).

(** [operation.execute(ctx, &pc, in, callContext)] and [pc++] *)
Definition executeOp (evm : EVMCalls) (operation : operation) (info : StepInfo) : ST St Iter :=
  let* (res, err) := execute operation env evm in
  match err with
  | Some e => ret (Halted res e info)
  | None => modify (fun s => set_pc (u64 (pc s + 1)) s) ;;; ret Next
  end.

(** The memory size an operation asks for, rounded up to words; [None] on
    overflow. *)
Definition requestedMemory (operation : operation) : ST St (option Z) :=
  match memorySize operation with
  | None => ret (Some 0)
  | Some memorySizeFn =>
      let* st := gets stack in
      let* (memSize, overflow) := liftR (memorySizeFn st) in
      if overflow then ret None
      else
        let '(size, overflow) := math.SafeMul (toWordSize memSize) 32 in
        if overflow then ret None else ret (Some size)
  end.

(** The body of the main loop. *)
Definition iteration (table : JumpTable) (evm : EVMCalls) : ST St Iter :=
  let* pcCopy := gets pc in
  let* c := gets contract in
  let gasCopy := Gas c in
  let* op := liftR (GetOp c pcCopy) in
  match table !! Z.to_nat op with
  | Some (Some operation) =>
      let cost := constantGas operation in
      let info := mkInfo op cost pcCopy gasCopy false in
      let* st := gets stack in
      let sLen := slen st in
      if sLen <? op_minStack operation then
        ret (Halted [] (ErrStackUnderflow sLen (op_minStack operation)) info)
      else if op_maxStack operation <? sLen then
        ret (Halted [] (ErrStackOverflow sLen (op_maxStack operation)) info)
      else
        let* ok := useGas_ cost in
        if negb ok then ret (Halted [] ErrOutOfGas info)
        else
          match dynamicGas operation with
          | Some dynamicGasFn =>
              let* sz := requestedMemory operation in
              match sz with
              | None => ret (Halted [] ErrGasUintOverflow info)
              | Some memorySize =>
                  let* (dynamicCost, err) := dynamicGasFn env memorySize in
                  let cost := u64 (cost + dynamicCost) in
                  let info := mkInfo op cost pcCopy gasCopy false in
                  let* ok := (if is_nil err then useGas_ dynamicCost else ret false) in
                  if negb ok then ret (Halted [] ErrOutOfGas info)
                  else
                    captureState info ;;;
                    (if 0 <? memorySize then onMemory (fun m => Resize m memorySize)
                     else ret tt) ;;;
                    executeOp evm operation (mkInfo op cost pcCopy gasCopy true)
              end
          | None =>
              captureState info ;;;
              executeOp evm operation (mkInfo op cost pcCopy gasCopy true)
          end
  | _ => liftR (Panicked NilDeref)
  end.

(** [for { ... }] *)
Fixpoint loop (table : JumpTable) (evm : EVMCalls) (fuel : nat)
    : ST St (bytes * Err * StepInfo) :=
  match fuel with
  | O => fun _ => OutOfFuel
  | S n =>
      let* it := iteration table evm in
      match it with
      | Next => loop table evm n
      | Halted r err info => ret (r, err, info)
      end
  end.

(** What [Run] runs: a contract, its input and the read-only flag. The
    contract is a pointer: the caller reads its remaining gas. *)
Definition Runner : Type := Contract -> bytes -> bool ->
  ST Machine (bytes * option Err * Contract).

(** The deferred [CaptureState]/[CaptureFault] of a failed run. *)
Definition captureFailure (info : StepInfo) (err : option Err) (s : St) : Machine :=
  match err with
  | None => mach s
  | Some _ =>
      emit env
        (if negb (si_logged info) then
           CaptureState (si_pc info) (si_op info) (si_gas info) (si_cost info) (scope s)
             (returnData (mach s)) (depth (mach s)) err
         else
           CaptureFault (si_pc info) (si_op info) (si_gas info) (si_cost info) (scope s)
             (depth (mach s)) err) (mach s)
  end.

(** The frame of a run: [NewMemory], [newstack], pc 0 and the contract with
    its input. *)
Definition runFrame (mainLoop : ST St (bytes * Err * StepInfo)) (c : Contract) (input : bytes)
    : ST Machine (bytes * option Err * Contract) := fun m =>
  let frame := mkSt 0 m (mkScope NewMemory newstack (set_Input input c)) in
  let? (out, s) := mainLoop frame in
  let '(r, err, info) := out in
  let err := if bool_decide (err = errStopToken) then None else Some err in
  Ret (r, err, contract s, captureFailure info err s).

(** [func (in *EVMInterpreter) Run(ctx, contract, input, readOnly) (ret, err)] *)
Definition runWith (mainLoop : ST St (bytes * Err * StepInfo)) : Runner :=
  fun c input ro =>
    modify (fun m => set_depth (depth m + 1) m) ;;;
    let* inReadOnly := gets readOnly in
    let enter := ro && negb inReadOnly in
    (if enter then modify (set_readOnly true) else ret tt) ;;;
    modify (set_returnData []) ;;;
    let* out :=
      (if len (Code c) =? 0 then ret ([], None, c) else runFrame mainLoop c input) in
    (if enter then modify (set_readOnly false) else ret tt) ;;;
    modify (fun m => set_depth (depth m - 1) m) ;;;
    ret out.
End Interpreter.

(** * vm/evm.go *)
Section EVM.
Context {L : Libs} {RP : AspectReports}.
Variable env : Env.
Variable run : Runner.

Definition dbQuery {A} (f : StateDB.DB -> A) : ST Machine A := gets (fun m => f (db m)).
Definition dbUpdate (f : StateDB.DB -> StateDB.DB) : ST Machine unit :=
  modify (fun m => set_db (f (db m)) m).
Definition snapshot_ : ST Machine Z := fun m =>
  let '(id, d) := StateDB.Snapshot (db m) in Ret (id, set_db d m).

(** [tracer.SaveCall(from, to, data, uint256.MustFromBig(value), uint256.NewInt(gas))] *)
Definition saveCall_ (from : Address) (to : option Address) (data : bytes) (value gas : Z)
    : ST Machine unit := fun m =>
  let? v := mustFromBig value in
  Ret (tt, set_tracer (SaveCall (tracer m) from to data v (uint256.NewInt gas)) m).
(** [tracer.ExitCall(leftOverGas, ret, err)] *)
Definition exitCall_ (leftOverGas : Z) (r : bytes) (err : option Err) : ST Machine unit :=
  modify (fun m => set_tracer (ExitCall (tracer m) leftOverGas r err) m).
(** [evm.Tracer().TransferWithRecord(evm.StateDB, from, to, value, evm.Context.Transfer)] *)
Definition transferWithRecord_ (from to : Address) (value : Z) : ST Machine unit := fun m =>
  let? (t, d) := TransferWithRecord (tracer m) (db m) from to value (Transfer env) in
  Ret (tt, set_db d (set_tracer t m)).

Definition newContract_ (caller : ContractRef) (object : Address) (value : option Z) (gas : Z)
    : ST Machine Contract := fun m =>
  let '(c, h) := NewContract caller object value gas (jdests m) in
  Ret (c, set_jdests h m).

Definition runPrecompiled_ (p : PrecompiledContract) (input : bytes) (gas : Z)
    : ST Machine (bytes * Z * option Err) :=
  zoom actx set_actx (RunPrecompiledContract p input gas).

Definition emit_ (e : Event) : ST Machine unit := modify (emit env e).

(** [if err != nil { RevertToSnapshot(snapshot); if err != ErrExecutionReverted
    { gas = 0 } }; return ret, gas, err] *)
Definition settle (snapshot : Z) (out : bytes * Z * option Err)
    : ST Machine (bytes * Z * option Err) :=
  let '(r, gas, err) := out in
  if is_nil err then ret (r, gas, err)
  else
    dbUpdate (StateDB.RevertToSnapshot snapshot) ;;;
    ret (r, if err_is err ErrExecutionReverted then gas else 0, err).

(** The error of a join point, [ErrOutOfGas] when its message says so. *)
Definition jpError (e : Err) : Err :=
  if bool_decide (Error e = Error ErrOutOfGas) then ErrOutOfGas else e.

(** *** Call *)

(** The join points around a contract call. They get the logger, if there is
    one, as their [aspectLogger]. *)
Definition preContractCall_ (ci : aspect.CallInput) : ST Machine aspect.JPResult := fun m =>
  let '(r, c, d) := aspect.PreContractCall ci (actx m) (db m) in
  Ret (r, emitAll env (PreReports ci (actx m) (db m)) (set_db d (set_actx c m))).
Definition postContractCall_ (ci : aspect.CallInput) (r : bytes) (errorMsg : string)
    : ST Machine aspect.JPResult := fun m =>
  let '(res, c, d) := aspect.PostContractCall ci r errorMsg (actx m) (db m) in
  Ret (res, emitAll env (PostReports ci r errorMsg (actx m) (db m)) (set_db d (set_actx c m))).

Definition callInput (caller addr : Address) (input : bytes) (gas value index : Z)
    : aspect.CallInput :=
  {| aspect.ci_from := caller; aspect.ci_to := addr; aspect.ci_data := input;
     aspect.ci_block := i64 (u64 (BlockNumber env)); aspect.ci_gas := gas;
     aspect.ci_value := value; aspect.ci_index := index |}.

(** How the contract of a call ended: a failed pre-call join point returns
    from [Call] at once, anything else reaches the revert logic. *)
Inductive CallExit :=
  | ReturnNow (r : bytes) (leftOver : Z) (err : Err)
  | FallThrough (r : bytes) (gas : Z) (err : option Err).

(** The part of [Call] after the pre-call join point: run the contract, then
    the post-call join point. *)
Definition runContract (caller : ContractRef) (addr : Address) (code input : bytes)
    (gas value index : Z) : ST Machine CallExit :=
  let* c := newContract_ caller addr (Some value) gas in
  let* h := dbQuery (fun d => StateDB.GetCodeHash d addr) in
  let c := SetCallCode (Some addr) h code c in
  let* (r, err, c) := run c input false in
  let gas := Gas c in
  let* jp := gets IsExecuteJP in
  if jp then
    let errorMsg := match err with Some e => Error e | None => EmptyString end in
    let* post := postContractCall_
      (callInput (RefAddress caller) addr input gas value index) r errorMsg in
    let '(r, err) :=
      match aspect.JPErr post with
      | None => (r, err)
      | Some e =>
          if bool_decide (Error e = Error ErrOutOfGas) then (r, Some ErrOutOfGas)
          else (aspect.Ret post, Some e)
      end in
    ret (FallThrough r (aspect.Gas post) err)
  else ret (FallThrough r gas err).

(** The [else] branch of [Call]: run the code of [addr] between the join
    points. *)
Definition callContract (caller : ContractRef) (addr : Address) (input : bytes)
    (gas value index : Z) : ST Machine CallExit :=
  let* code := dbQuery (fun d => StateDB.GetCode d addr) in
  if len code =? 0 then ret (FallThrough [] gas None)
  else
    let* jp := gets IsExecuteJP in
    if jp then
      let* pre := preContractCall_
        (callInput (RefAddress caller) addr input gas value index) in
      match aspect.JPErr pre with
      | Some e => ret (ReturnNow (aspect.Ret pre) (aspect.Gas pre) (jpError e))
      | None => runContract caller addr code input (aspect.Gas pre) value index
      end
    else runContract caller addr code input gas value index.

(** [CaptureStart]/[CaptureEnter] and [CaptureEnd]/[CaptureExit], by the depth
    [d] of the call. *)
Definition enterEvent (d : Z) (typ : OpCode) (from to : Address) (create : bool)
    (input : bytes) (gas value : Z) : ST Machine unit :=
  emit_ (if d =? 0 then CaptureStart from to create input gas value
         else CaptureEnter typ from to input gas (Some value)).
Definition exitEvent (d : Z) (out : bytes) (gasUsed : Z) (err : option Err)
    : ST Machine unit :=
  emit_ (if d =? 0 then CaptureEnd out gasUsed err else CaptureExit out gasUsed err).

(** [Call] between the tracer's [SaveCall] and [ExitCall]. *)
Definition callBody (caller : ContractRef) (addr : Address) (input : bytes) (gas value : Z)
    : ST Machine (bytes * Z * option Err) :=
  let from := RefAddress caller in
  let* index := gets (fun m => CurrentCallIndex (tracer m)) in
  let* d := gets depth in
  let* canTransfer := dbQuery (fun db => CanTransfer env db from value) in
  if params.CallCreateDepth <? d then ret ([], gas, Some ErrDepth)
  else if negb (Z.sgn value =? 0) && negb canTransfer then
    ret ([], gas, Some ErrInsufficientBalance)
  else
    let* snapshot := snapshot_ in
    let p := precompile (chainRules env) addr in
    let p := option_map (CloneWithCtx {| ec_from := from; ec_to := addr; ec_gas := gas;
                                         ec_value := value |}) p in
    let isPrecompile := match p with Some _ => true | None => false end in
    let* exists_ := dbQuery (fun db => StateDB.Exist db addr) in
    if negb exists_ && (negb isPrecompile && params.IsEIP158 (chainRules env)
                        && (Z.sgn value =? 0)) then
      enterEvent d CALL from addr false input gas value ;;;
      exitEvent d [] 0 None ;;;
      ret ([], gas, None)
    else
      (if negb exists_ then dbUpdate (StateDB.CreateAccount addr) else ret tt) ;;;
      transferWithRecord_ from addr value ;;;
      enterEvent d CALL from addr false input gas value ;;;
      let* exit :=
        (match p with
         | Some p =>
             let* (r, gas, err) := runPrecompiled_ p input gas in
             ret (FallThrough r gas err)
         | None => callContract caller addr input gas value index
         end) in
      match exit with
      | ReturnNow r leftOver e =>
          exitEvent d r 0 (Some e) ;;; ret (r, leftOver, Some e)
      | FallThrough r gas' err =>
          let* (r, gas', err) := settle snapshot (r, gas', err) in
          exitEvent d r (u64 (gas - gas')) err ;;;
          ret (r, gas', err)
      end.

(** [func (evm *EVM) Call(ctx, caller, addr, input, gas, value)] *)
Definition Call (caller : ContractRef) (addr : Address) (input : bytes) (gas value : Z)
    : ST Machine (bytes * Z * option Err) :=
  saveCall_ (RefAddress caller) (Some addr) input value gas ;;;
  let* (r, leftOverGas, err) := callBody caller addr input gas value in
  exitCall_ leftOverGas r err ;;;
  ret (r, leftOverGas, err).

(** *** CallCode, DelegateCall, StaticCall *)

(** Run a prepared contract on the code of [addr] and return its gas. *)
Definition runCode (c : Contract) (addr : Address) (input : bytes) (ro : bool)
    : ST Machine (bytes * Z * option Err) :=
  let* h := dbQuery (fun d => StateDB.GetCodeHash d addr) in
  let* code := dbQuery (fun d => StateDB.GetCode d addr) in
  let* (r, err, c) := run (SetCallCode (Some addr) h code c) input ro in
  ret (r, Gas c, err).

Definition CallCode (caller : ContractRef) (addr : Address) (input : bytes) (gas value : Z)
    : ST Machine (bytes * Z * option Err) :=
  let from := RefAddress caller in
  let* d := gets depth in
  let* canTransfer := dbQuery (fun db => CanTransfer env db from value) in
  if params.CallCreateDepth <? d then ret ([], gas, Some ErrDepth)
  else if negb canTransfer then ret ([], gas, Some ErrInsufficientBalance)
  else
    let* snapshot := snapshot_ in
    emit_ (CaptureEnter CALLCODE from addr input gas (Some value)) ;;;
    let* out :=
      (match precompile (chainRules env) addr with
       | Some p => runPrecompiled_ p input gas
       | None =>
           let* c := newContract_ caller from (Some value) gas in
           runCode c addr input false
       end) in
    let* (r, gas', err) := settle snapshot out in
    emit_ (CaptureExit r (u64 (gas - gas')) err) ;;;
    ret (r, gas', err).

Definition DelegateCall (caller : ContractRef) (addr : Address) (input : bytes) (gas : Z)
    : ST Machine (bytes * Z * option Err) :=
  let from := RefAddress caller in
  let* d := gets depth in
  if params.CallCreateDepth <? d then ret ([], gas, Some ErrDepth)
  else
    let* snapshot := snapshot_ in
    (if hasTracer env then
       match caller with
       | AccountRef _ => liftR (Panicked (Explicit "interface conversion"))
       | ContractPtr parent =>
           emit_ (CaptureEnter DELEGATECALL from addr input gas (base_value parent))
       end
     else ret tt) ;;;
    let* out :=
      (match precompile (chainRules env) addr with
       | Some p => runPrecompiled_ p input gas
       | None =>
           let* c := newContract_ caller from None gas in
           let* c := liftR (AsDelegate c) in
           runCode c addr input false
       end) in
    let* (r, gas', err) := settle snapshot out in
    emit_ (CaptureExit r (u64 (gas - gas')) err) ;;;
    ret (r, gas', err).

Definition StaticCall (caller : ContractRef) (addr : Address) (input : bytes) (gas : Z)
    : ST Machine (bytes * Z * option Err) :=
  let from := RefAddress caller in
  let* d := gets depth in
  if params.CallCreateDepth <? d then ret ([], gas, Some ErrDepth)
  else
    let* snapshot := snapshot_ in
    dbUpdate (StateDB.AddBalance addr 0) ;;;
    emit_ (CaptureEnter STATICCALL from addr input gas None) ;;;
    let* out :=
      (match precompile (chainRules env) addr with
       | Some p => runPrecompiled_ p input gas
       | None =>
           let* c := newContract_ caller addr (Some 0) gas in
           runCode c addr input true
       end) in
    let* (r, gas', err) := settle snapshot out in
    emit_ (CaptureExit r (u64 (gas - gas')) err) ;;;
    ret (r, gas', err).

(** *** Contract creation *)

(** [func (c *codeAndHash) Hash() common.Hash] *)
Definition ch_Hash (c : codeAndHash) : codeAndHash :=
  if bytes_eqb (ch_hash c) zeroHash then
    {| ch_code := ch_code c; ch_hash := crypto.Keccak256 (ch_code c) |}
  else c.

Definition emptyCodeHash : Hash := crypto.Keccak256 [].

(** The checks on the returned code: size, first byte, and the storage gas. *)
Definition storeCode (address : Address) (r : bytes) (err : option Err) (c : Contract)
    : ST Machine (option Err * Contract) :=
  let rules := chainRules env in
  let err := if is_nil err && params.IsEIP158 rules && (params.MaxCodeSize <? len r)
             then Some ErrMaxCodeSizeExceeded else err in
  let err := if is_nil err && (1 <=? len r) && bool_decide (head r = Some 0xEF)
                && params.IsLondon rules
             then Some ErrInvalidCode else err in
  if is_nil err then
    let createDataGas := u64 (len r * params.CreateDataGas) in
    let '(ok, c) := UseGas c createDataGas in
    if ok then dbUpdate (StateDB.SetCode address r) ;;; ret (None, c)
    else ret (Some ErrCodeStoreOutOfGas, c)
  else ret (err, c).

(** [create] once the address is free. *)
Definition createContract (caller : ContractRef) (ch : codeAndHash) (gas value : Z)
    (address : Address) (typ : OpCode) : ST Machine (bytes * Address * Z * option Err) :=
  let from := RefAddress caller in
  let rules := chainRules env in
  let* snapshot := snapshot_ in
  dbUpdate (StateDB.CreateAccount address) ;;;
  (if params.IsEIP158 rules then dbUpdate (StateDB.SetNonce address 1) else ret tt) ;;;
  transferWithRecord_ from address value ;;;
  let* c := newContract_ caller address (Some value) gas in
  let c := SetCodeOptionalHash (Some address) ch c in
  let* d := gets depth in
  enterEvent d typ from address true (ch_code ch) gas value ;;;
  let* (r, err, c) := run c [] false in
  let* (err, c) := storeCode address r err c in
  let* c :=
    (if negb (is_nil err) && (params.IsHomestead rules
                              || negb (err_is err ErrCodeStoreOutOfGas)) then
       dbUpdate (StateDB.RevertToSnapshot snapshot) ;;;
       ret (if negb (err_is err ErrExecutionReverted) then (UseGas c (Gas c)).2 else c)
     else ret c) in
  let* d := gets depth in
  exitEvent d r (u64 (gas - Gas c)) err ;;;
  ret (r, address, Gas c, err).

(** [create] between the tracer's [SaveCall] and [ExitCall]. *)
Definition createBody (caller : ContractRef) (ch : codeAndHash) (gas value : Z)
    (address : Address) (typ : OpCode) : ST Machine (bytes * Address * Z * option Err) :=
  let from := RefAddress caller in
  let* d := gets depth in
  let* canTransfer := dbQuery (fun db => CanTransfer env db from value) in
  if params.CallCreateDepth <? d then ret ([], zeroAddress, gas, Some ErrDepth)
  else if negb canTransfer then ret ([], zeroAddress, gas, Some ErrInsufficientBalance)
  else
    let* nonce := dbQuery (fun d => StateDB.GetNonce d from) in
    if u64 (nonce + 1) <? nonce then ret ([], zeroAddress, gas, Some ErrNonceUintOverflow)
    else
      dbUpdate (StateDB.SetNonce from (u64 (nonce + 1))) ;;;
      (if params.IsBerlin (chainRules env)
       then dbUpdate (StateDB.AddAddressToAccessList address) else ret tt) ;;;
      let* contractHash := dbQuery (fun d => StateDB.GetCodeHash d address) in
      let* n := dbQuery (fun d => StateDB.GetNonce d address) in
      if negb (n =? 0) || (negb (bytes_eqb contractHash zeroHash)
                           && negb (bytes_eqb contractHash emptyCodeHash)) then
        ret ([], zeroAddress, 0, Some ErrContractAddressCollision)
      else createContract caller ch gas value address typ.

(** [func (evm *EVM) create(ctx, caller, codeAndHash, gas, value, address, typ)] *)
Definition create (caller : ContractRef) (ch : codeAndHash) (gas value : Z)
    (address : Address) (typ : OpCode) : ST Machine (bytes * Address * Z * option Err) :=
  saveCall_ (RefAddress caller) None (ch_code ch) value gas ;;;
  let* (r, addr, leftoverGas, err) := createBody caller ch gas value address typ in
  exitCall_ leftoverGas r err ;;;
  ret (r, addr, leftoverGas, err).

Definition Create (caller : ContractRef) (code : bytes) (gas value : Z)
    : ST Machine (bytes * Address * Z * option Err) :=
  let from := RefAddress caller in
  let* nonce := dbQuery (fun d => StateDB.GetNonce d from) in
  create caller {| ch_code := code; ch_hash := zeroHash |} gas value
    (crypto.CreateAddress from nonce) CREATE.

Definition Create2 (caller : ContractRef) (code : bytes) (gas endowment : Z)
    (salt : uint256.Int) : ST Machine (bytes * Address * Z * option Err) :=
  let ch := ch_Hash {| ch_code := code; ch_hash := zeroHash |} in
  create caller ch gas endowment
    (crypto.CreateAddress2 (RefAddress caller) (uint256.Bytes32 salt) (ch_hash ch)) CREATE2.

(** The methods the opcodes call. *)
Definition evmCalls : EVMCalls := {|
  do_Call := Call;
  do_CallCode := CallCode;
  do_DelegateCall := DelegateCall;
  do_StaticCall := StaticCall;
  do_Create := Create;
  do_Create2 := Create2;
|}.
End EVM.

(** * The closed interpreter *)
Section Machine.
Context {L : Libs} {RP : AspectReports}.

Fixpoint Run (env : Env) (table : JumpTable) (fuel : nat) : Runner :=
  match fuel with
  | O => fun _ _ _ _ => OutOfFuel
  | S n => runWith env (loop env table (evmCalls env (Run env table n)) n)
  end.

(** [func NewEVMInterpreter(evm *EVM) *EVMInterpreter]: the table the rules
    and the extra EIPs select, and the EIPs that were activated. *)
Definition selectTable (rules : params.Rules) : res JumpTable :=
  if params.IsCancun rules then newCancunInstructionSet
  else if params.IsShanghai rules then newShanghaiInstructionSet
  else if params.IsMerge rules then newMergeInstructionSet
  else if params.IsLondon rules then newLondonInstructionSet
  else if params.IsBerlin rules then newBerlinInstructionSet
  else if params.IsIstanbul rules then newIstanbulInstructionSet
  else if params.IsConstantinople rules then newConstantinopleInstructionSet
  else if params.IsByzantium rules then newByzantiumInstructionSet
  else if params.IsEIP158 rules then newSpuriousDragonInstructionSet
  else if params.IsEIP150 rules then newTangerineWhistleInstructionSet
  else if params.IsHomestead rules then newHomesteadInstructionSet
  else newFrontierInstructionSet.

Fixpoint enableExtra (eips : list Z) (jt : JumpTable) : res (JumpTable * list Z) :=
  match eips with
  | [] => Ret (jt, [])
  | eip :: rest =>
      let? (err, jt) := EnableEIP eip jt in
      let? (jt, extraEips) := enableExtra rest jt in
      Ret (jt, match err with None => eip :: extraEips | Some _ => extraEips end)
  end.

Definition NewEVMInterpreter (rules : params.Rules) (extraEips : list Z)
    : res (JumpTable * list Z) :=
  let? table := selectTable rules in
  let table := if 0 <? len extraEips then copyJumpTable table else table in
  enableExtra extraEips table.

(** The fields [NewEVM] sets. *)
Definition NewEVM (d : StateDB.DB) (c : aspect.Ctx) : Machine :=
  mkMachine d c 0 0 false None NewTracer true zeroHash false [] [] [].

(** [Reset], [CloseAspectCall] and [AspectCall] *)
Definition Reset (d : StateDB.DB) (m : Machine) : Machine := set_db d m.
Definition CloseAspectCall (m : Machine) : Machine := set_IsExecuteJP false m.
Definition AspectCall (m : Machine) : Machine := set_IsExecuteJP true m.
End Machine.
