(* ===== verification/Core.v ===== *)
(** The block and transaction context of the EVM (core/evm.go): the BLOCKHASH
    provider with its cache, and the balance guard and transfer. *)
From S2P Require Import Prelude Opcodes Errors Externals Stack Memory Contract Machine.

Section Core.
Context {L : Libs}.

(** The fields of [types.Header] the code reads. *)
Record Header := {
  h_Number : Z;
  h_ParentHash : Hash;
  h_Time : Z;
  h_GasLimit : Z;
  h_Difficulty : Z;
  h_BaseFee : option Z;
  h_MixDigest : Hash;
}.

(** [type ChainContext interface]: [Engine().Author] and [GetHeader]. *)
Record ChainContext := {
  Author : Header -> Address;
  GetHeader : Hash -> Z -> option Header;
}.

(** [func CanTransfer(db, addr, amount) bool] *)
Definition core_CanTransfer (d : StateDB.DB) (addr : Address) (amount : Z) : bool :=
  amount <=? StateDB.GetBalance d addr.

(** [func Transfer(db, sender, recipient, amount)] *)
Definition core_Transfer (d : StateDB.DB) (sender recipient : Address) (amount : Z)
    : StateDB.DB :=
  StateDB.AddBalance recipient amount (StateDB.SubBalance sender amount d).

(** ** GetHashFn

    The closure keeps the hashes of the ancestors it has seen, the parent
    first: its state is [cache]. *)

(** [for { header := chain.GetHeader(lastKnownHash, lastKnownNumber) ... }] *)
Fixpoint walk (chain : ChainContext) (fuel : nat) (n : Z) (lastKnownHash : Hash)
    (lastKnownNumber : Z) (cache : list Hash) : res (Hash * list Hash) :=
  match fuel with
  | O => OutOfFuel
  | S fuel' =>
      match GetHeader chain lastKnownHash lastKnownNumber with
      | None => Ret (zeroHash, cache)
      | Some header =>
          let cache := cache ++ [h_ParentHash header] in
          let lastKnownHash := h_ParentHash header in
          let lastKnownNumber := u64 (u64 (h_Number header) - 1) in
          if n =? lastKnownNumber then Ret (lastKnownHash, cache)
          else walk chain fuel' n lastKnownHash lastKnownNumber cache
      end
  end.

(** [GetHashFn(ref, chain)(n)] *)
Definition GetHashFn (ref : Header) (chain : ChainContext) (fuel : nat) (n : Z)
    : ST (list Hash) Hash := fun cache =>
  if u64 (h_Number ref) <=? n then Ret (zeroHash, cache)
  else
    let cache := if len cache =? 0 then [h_ParentHash ref] else cache in
    let idx := u64 (u64 (h_Number ref) - n - 1) in
    if idx <? len cache then let? h := index cache idx in Ret (h, cache)
    else
      let? lastKnownHash := index cache (len cache - 1) in
      let lastKnownNumber := u64 (u64 (h_Number ref) - len cache) in
      walk chain fuel n lastKnownHash lastKnownNumber cache.

(** [func NewEVMBlockContext(header, chain, author) vm.BlockContext] and
    [NewEVMTxContext(msg)]: the fields of the environment they fill in. *)
Definition NewEVMBlockContext (header : Header) (chain : ChainContext)
    (author : option Address) (getHash : Z -> Hash) (origin : Address) (gasPrice chainID : Z)
    (rules : params.Rules) (logger preimages : bool) : Env :=
  {| CanTransfer := core_CanTransfer;
     Transfer := core_Transfer;
     GetHash := getHash;
     Coinbase := match author with None => Author chain header | Some a => a end;
     BlockNumber := h_Number header;
     Time := h_Time header;
     Difficulty := h_Difficulty header;
     BaseFee := h_BaseFee header;
     GasLimit := h_GasLimit header;
     Random := if h_Difficulty header =? 0 then Some (h_MixDigest header) else None;
     Origin := origin; GasPrice := gasPrice; ChainID := chainID; chainRules := rules;
     hasTracer := logger; EnablePreimageRecording := preimages |}.

(** ** The ancestor chain *)
Section Ancestors.
Variable ref : Header.
Variable chain : ChainContext.
(** [hashAt i] is the hash of the ancestor at height [i]. *)
Variable hashAt : Z -> Hash.
Abbreviation N := (h_Number ref).

(** The chain knows every ancestor of [ref] under its hash and height. *)
Record ancestors_known : Prop := {
  ak_height : 0 < N < 2 ^ 64;
  ak_parent : h_ParentHash ref = hashAt (N - 1);
  ak_header : forall i, 0 < i < N -> exists h,
    GetHeader chain (hashAt i) i = Some h /\ h_Number h = i /\
    h_ParentHash h = hashAt (i - 1);
}.

(** The first [k] ancestors, the parent first. *)
Definition ancestry (k : nat) : list Hash := (fun i => hashAt (N - 1 - Z.of_nat i)) <$> seq 0 k.

Lemma ancestry_S k : ancestry (S k) = ancestry k ++ [hashAt (N - 1 - Z.of_nat k)].
Proof. unfold ancestry. rewrite seq_S, fmap_app. done. Qed.

Lemma ancestry_lookup k i :
  (i < k)%nat -> ancestry k !! i = Some (hashAt (N - 1 - Z.of_nat i)).
Proof. intros Hi. unfold ancestry. rewrite list_lookup_fmap, lookup_seq_lt by lia. done. Qed.

Lemma len_ancestry k : len (ancestry k) = Z.of_nat k.
Proof. unfold len, ancestry. by rewrite length_fmap, length_seq. Qed.

(** Walking from height [i] down to [n] returns the hash at [n] and leaves
    all ancestors down to [n] in the cache. *)
Lemma walk_reaches (H : ancestors_known) n d k fuel :
  0 <= n -> Z.of_nat k + Z.of_nat d + n = N -> (0 < k)%nat -> (0 < d)%nat ->
  (d <= fuel)%nat ->
  walk chain fuel n (hashAt (N - Z.of_nat k)) (N - Z.of_nat k) (ancestry k)
    = Ret (hashAt n, ancestry (k + d)).
Proof.
  destruct H as [HN _ Hh]. intros Hn. revert k fuel.
  induction d as [|d IH]; intros k fuel Hk Hk0 Hd Hf; [lia|].
  destruct fuel as [|fuel]; [lia|]. cbn [walk].
  destruct (Hh (N - Z.of_nat k)) as (h & -> & Hnum & ->); [lia|].
  rewrite Hnum. rewrite (u64_small (N - Z.of_nat k)) by (unfold is_u64; lia).
  rewrite u64_small by (unfold is_u64; lia).
  replace (N - Z.of_nat k - 1) with (N - 1 - Z.of_nat k) by lia.
  rewrite <- ancestry_S. destruct d as [|d].
  - replace (N - 1 - Z.of_nat k) with n by lia. rewrite Z.eqb_refl.
    by replace (k + 1)%nat with (S k) by lia.
  - rewrite (proj2 (Z.eqb_neq _ _)) by lia.
    replace (N - 1 - Z.of_nat k) with (N - Z.of_nat (S k)) by lia.
    rewrite IH by lia. by replace (S k + S d)%nat with (k + S (S d))%nat by lia.
Qed.

(** One query, from a cache that holds some prefix of the ancestry. *)
Lemma GetHashFn_step (H : ancestors_known) n fuel k :
  0 <= n -> N <= Z.of_nat fuel -> Z.of_nat k <= N ->
  exists k', Z.of_nat k' <= N /\
    GetHashFn ref chain fuel n (ancestry k)
      = Ret (if n <? N then hashAt n else zeroHash, ancestry k').
Proof.
  intros Hn Hf Hk. pose proof (ak_height H) as HN. unfold GetHashFn.
  rewrite (u64_small N) by (unfold is_u64; lia).
  destruct (Z.ltb_spec n N) as [Hlt|Hge]; zbool; [|by exists k].
  set (k1 := if decide (k = 0%nat) then 1%nat else k).
  assert (Hc : (if len (ancestry k) =? 0 then [h_ParentHash ref] else ancestry k)
               = ancestry k1).
  { rewrite len_ancestry. unfold k1. case_decide as E; zbool; [|done].
    rewrite (ak_parent H). unfold ancestry. cbn. do 2 f_equal. lia. }
  rewrite Hc. assert (Hk1 : 0 < Z.of_nat k1 <= N) by (unfold k1; case_decide; lia).
  rewrite len_ancestry. rewrite u64_small by (unfold is_u64; lia).
  destruct (Z.ltb_spec (N - n - 1) (Z.of_nat k1)) as [Hin|Hout].
  - exists k1. split; [lia|]. erewrite index_lookup;
      [|lia|apply ancestry_lookup; lia]. cbn. repeat f_equal. lia.
  - erewrite index_lookup; [|lia|apply ancestry_lookup; lia]. cbn [rbind].
    rewrite u64_small by (unfold is_u64; lia).
    replace (N - 1 - Z.of_nat (Z.to_nat (Z.of_nat k1 - 1))) with (N - Z.of_nat k1) by lia.
    exists (k1 + Z.to_nat (N - n - Z.of_nat k1))%nat. split; [lia|].
    apply walk_reaches; lia || done.
Qed.

(** A sequence of queries to one closure. *)
Fixpoint queries (fuel : nat) (ns : list Z) : ST (list Hash) (list Hash) :=
  match ns with
  | [] => ret []
  | n :: rest =>
      let* h := GetHashFn ref chain fuel n in
      let* hs := queries fuel rest in
      ret (h :: hs)
  end.

Lemma queries_spec (H : ancestors_known) fuel ns k :
  Forall (fun n => 0 <= n) ns -> N <= Z.of_nat fuel -> Z.of_nat k <= N ->
  exists cache, queries fuel ns (ancestry k)
    = Ret ((fun n => if n <? N then hashAt n else zeroHash) <$> ns, cache).
Proof.
  intros Hns Hf. revert k. induction Hns as [|n ns Hn Hns IH]; intros k Hk; cbn [queries];
    [by eexists|].
  destruct (GetHashFn_step H n fuel k) as (k1 & Hk1 & E); [done..|].
  destruct (IH k1 Hk1) as [cache E2]. exists cache. unfold bind. by rewrite E, E2.
Qed.

(** C19: BLOCKHASH is a function of the block number. On a chain that knows the
    ancestors of the block, any sequence of queries to one [GetHashFn] closure
    returns, for each number, the hash of the ancestor at that height (zero for
    the block itself and later ones), independently of the cache the earlier
    queries left, and the walk terminates within the block's height. *)
Theorem GetHashFn_correct (H : ancestors_known) fuel ns :
  Forall (fun n => 0 <= n) ns -> N <= Z.of_nat fuel ->
  exists cache, queries fuel ns []
    = Ret ((fun n => if n <? N then hashAt n else zeroHash) <$> ns, cache).
Proof.
  intros Hns Hf. pose proof (ak_height H). apply (queries_spec H fuel ns 0); [done..|lia].
Qed.
End Ancestors.

(** ** Transfers *)

(** The sum of the balances of a list of accounts. *)
Definition total_balance (d : StateDB.DB) (accounts : list Address) : Z :=
  foldr (fun a acc => StateDB.GetBalance d a + acc) 0 accounts.

Section Transfers.
Context {MD : StateDB.Model} {SD : StateDB.Spec}.

Lemma core_Transfer_balance d from to amount a :
  StateDB.GetBalance (core_Transfer d from to amount) a
  = StateDB.GetBalance d a - (if bool_decide (from = a) then amount else 0)
    + (if bool_decide (to = a) then amount else 0).
Proof. unfold core_Transfer. by rewrite StateDB.AddBalance_spec, StateDB.SubBalance_spec. Qed.

Lemma total_balance_transfer d from to amount l :
  total_balance (core_Transfer d from to amount) l
  = total_balance d l - amount * Z.of_nat (count_occ (decide_rel eq) l from)
    + amount * Z.of_nat (count_occ (decide_rel eq) l to).
Proof.
  induction l as [|a l IH]; [cbn; lia|]. cbn [total_balance foldr].
  fold (total_balance (core_Transfer d from to amount) l) (total_balance d l).
  rewrite IH, core_Transfer_balance.
  assert (Hocc : forall x, Z.of_nat (count_occ (decide_rel eq) (a :: l) x)
    = Z.of_nat (count_occ (decide_rel eq) l x) + (if bool_decide (x = a) then 1 else 0)).
  { intros x. case_bool_decide as E.
    - rewrite count_occ_cons_eq by done. lia.
    - rewrite count_occ_cons_neq by done. lia. }
  rewrite !Hocc. repeat case_bool_decide; lia.
Qed.

(** C20: a transfer the guard admits moves exactly the amount: the sender loses
    it and stays non-negative, the recipient gains it (nothing happens when
    they are the same account), every other account keeps its balance, and the
    total over any duplicate-free list with both accounts is conserved. *)
Theorem transfer_conserves d from to amount (accounts : list Address) :
  core_CanTransfer d from amount = true -> NoDup accounts -> from ∈ accounts -> to ∈ accounts ->
  let d' := core_Transfer d from to amount in
  (from <> to -> StateDB.GetBalance d' from = StateDB.GetBalance d from - amount /\
     0 <= StateDB.GetBalance d' from /\
     StateDB.GetBalance d' to = StateDB.GetBalance d to + amount) /\
  (from = to -> StateDB.GetBalance d' to = StateDB.GetBalance d to) /\
  (forall a, a <> from -> a <> to -> StateDB.GetBalance d' a = StateDB.GetBalance d a) /\
  total_balance d' accounts = total_balance d accounts.
Proof.
  intros Hc Hnd Hf Ht d'. unfold core_CanTransfer in Hc. zprop. unfold d'. clear d'.
  assert (Hone : forall a, a ∈ accounts -> count_occ (decide_rel eq) accounts a = 1%nat).
  { intros a Ha. apply (proj1 (NoDup_count_occ' (decide_rel eq) accounts));
      [by apply NoDup_ListNoDup|].
    by apply list_elem_of_In. }
  rewrite total_balance_transfer, !Hone by done.
  split; [intros Hne|split; [intros <-|split; [intros a ? ?|lia]]];
    rewrite !core_Transfer_balance; repeat case_bool_decide; subst; try congruence; lia.
Qed.
End Transfers.
End Core.
