(* ===== verification/Sample.v ===== *)
(** A concrete setting in which the theorems' witnesses are evaluated: the
    libraries of [Instances.v], a Cancun chain, and small contracts. *)
From S2P Require Import Prelude Opcodes Errors Externals Instances Stack Memory Analysis Contract.
From S2P Require Import Tracer Machine Gas Instructions JumpTable Precompiles Evm Core.

Definition cancunRules : params.Rules :=
  {| params.IsHomestead := true; params.IsEIP150 := true; params.IsEIP158 := true;
     params.IsByzantium := true; params.IsConstantinople := true; params.IsPetersburg := true;
     params.IsIstanbul := true; params.IsBerlin := true; params.IsLondon := true;
     params.IsMerge := true; params.IsShanghai := true; params.IsCancun := true;
     params.IsPrague := false |}.

Definition sampleHeader : Header :=
  {| h_Number := 7; h_ParentHash := to_be 32 6; h_Time := 1700000000; h_GasLimit := 30000000;
     h_Difficulty := 0; h_BaseFee := Some 1; h_MixDigest := to_be 32 99 |}.
Definition sampleChain : ChainContext :=
  {| Author := fun _ => zeroAddress;
     GetHeader := fun h n =>
       if bool_decide (h = to_be 32 n) then
         Some {| h_Number := n; h_ParentHash := to_be 32 (n - 1); h_Time := 0; h_GasLimit := 0;
                 h_Difficulty := 0; h_BaseFee := None; h_MixDigest := zeroHash |}
       else None |}.

Definition sampleEnv : Env :=
  NewEVMBlockContext sampleHeader sampleChain None (fun n => to_be 32 n) (to_be 20 77) 1 1
    cancunRules true false.

(** The first fork, for the runs it treats differently. *)
Definition frontierRules : params.Rules :=
  {| params.IsHomestead := false; params.IsEIP150 := false; params.IsEIP158 := false;
     params.IsByzantium := false; params.IsConstantinople := false; params.IsPetersburg := false;
     params.IsIstanbul := false; params.IsBerlin := false; params.IsLondon := false;
     params.IsMerge := false; params.IsShanghai := false; params.IsCancun := false;
     params.IsPrague := false |}.
Definition frontierEnv : Env :=
  NewEVMBlockContext sampleHeader sampleChain None (fun n => to_be 32 n) (to_be 20 77) 1 1
    frontierRules true false.

(** One aspect runs at every join point, does nothing and says so. *)
#[export] Instance sampleReports : AspectReports :=
  let ran (jp : nat) (ci : aspect.CallInput) : list Event :=
    [CaptureAspectEnter jp (aspect.ci_from ci) (aspect.ci_to ci) (to_be 20 4660)
       (aspect.ci_data ci) (aspect.ci_gas ci) (Some (aspect.ci_value ci)) tt;
     CaptureAspectExit jp {| aspect.Ret := []; aspect.Gas := aspect.ci_gas ci;
                             aspect.JPErr := None |}] in
  {| PreReports := fun ci _ _ => ran 1%nat ci; PostReports := fun ci _ _ _ _ => ran 2%nat ci |}.

Definition alice : Address := to_be 20 4096.
Definition bob : Address := to_be 20 8192.

(** A contract at [bob] that [alice] calls. *)
Definition sampleContract (code : bytes) (gas : Z) : Contract :=
  SetCallCode (Some bob) zeroHash code
    (mkContract alice (AccountRef alice) bob 0 None [] zeroHash None [] gas (Some 0)).

(** The jump table of the sample chain. *)
Definition sampleTable : JumpTable :=
  match NewEVMInterpreter cancunRules [] with Ret (t, _) => t | _ => [] end.

Lemma sampleTable_ok : NewEVMInterpreter cancunRules [] = Ret (sampleTable, []).
Proof. reflexivity. Qed.

(** Code that adds 2 and 3 and returns the sum, code that reverts, and code
    that stores 5 at slot 1. *)
Definition addCode : bytes :=
  [PUSH1; 2; PUSH1; 3; ADD; PUSH1; 0; MSTORE; PUSH1; 32; PUSH1; 0; RETURN].
Definition revertCode : bytes := [PUSH1; 0; PUSH1; 0; REVERT].
Definition storeCode5 : bytes := [PUSH1; 5; PUSH1; 1; SSTORE; STOP].

Definition dbWith (code : bytes) : StateDB.DB :=
  StateDB.AddBalance alice 1000 (StateDB.AddAddressToAccessList bob
    (StateDB.SetCode bob code MemDB.empty)).
(** A machine whose account [bob] has the code; join points off. *)
Definition machineWith (code : bytes) : Machine := CloseAspectCall (NewEVM (dbWith code) ∅).

Definition outcome {A} (r : res (A * Machine)) (a0 : A) (m0 : Machine) : A * Machine :=
  match r with Ret p => p | _ => (a0, m0) end.

Definition is_ok {A} (r : res A) : bool := match r with Ret _ => true | _ => false end.

(** To know the outcome of a run it is enough that it returns. *)
Lemma outcome_ok {A} (r : res (A * Machine)) a0 m0 :
  is_ok r = true -> r = Ret ((outcome r a0 m0).1, (outcome r a0 m0).2).
Proof. destruct r as [[a m]| |]; done. Qed.

Lemma outcome_call (r : res (bytes * Z * option Err * Machine)) a0 m0 e :
  is_ok r = true -> (outcome r a0 m0).1.2 = e ->
  r = Ret ((outcome r a0 m0).1.1.1, (outcome r a0 m0).1.1.2, e, (outcome r a0 m0).2).
Proof. destruct r as [[[[b g] e'] m]| |]; cbn; [|done..]. by intros _ ->. Qed.

Lemma outcome_create (r : res (bytes * Address * Z * option Err * Machine)) a0 m0 e :
  is_ok r = true -> (outcome r a0 m0).1.2 = e ->
  r = Ret ((outcome r a0 m0).1.1.1.1, (outcome r a0 m0).1.1.1.2, (outcome r a0 m0).1.1.2, e,
           (outcome r a0 m0).2).
Proof. destruct r as [[[[[b a] g] e'] m]| |]; cbn; [|done..]. by intros _ ->. Qed.

#[export] Instance panic_eq_dec : EqDecision panic.
Proof. solve_decision. Defined.
Definition panics_with {A} (r : res A) (p : panic) : bool :=
  match r with Panicked q => bool_decide (q = p) | _ => false end.
Lemma panics_with_ok {A} (r : res A) p : panics_with r p = true -> r = Panicked p.
Proof. destruct r; cbn; [done| |done]. by intros ->%bool_decide_eq_true. Qed.

(** * Witnesses for core/evm.go *)

Lemma sampleChain_known : ancestors_known sampleHeader sampleChain (fun i => to_be 32 i).
Proof.
  constructor; [cbn; lia|reflexivity|]. intros i Hi. eexists. cbn [sampleChain GetHeader].
  rewrite bool_decide_true by done. done.
Defined.

Lemma GetHashFn_correct_witness :
  exists cache, queries sampleHeader sampleChain 7 [3; 5; 9; 3] []
    = Ret ([to_be 32 3; to_be 32 5; zeroHash; to_be 32 3], cache).
Proof.
  destruct (GetHashFn_correct sampleHeader sampleChain _ sampleChain_known 7 [3; 5; 9; 3])
    as [cache H]; [repeat constructor; lia|cbn; lia|].
  exists cache. exact H.
Defined.

Lemma transfer_conserves_witness :
  StateDB.GetBalance (core_Transfer (L := libs) (dbWith []) alice bob 10) bob = 10 /\
  total_balance (L := libs) (core_Transfer (L := libs) (dbWith []) alice bob 10) [alice; bob]
    = total_balance (L := libs) (dbWith []) [alice; bob].
Proof.
  destruct (transfer_conserves (L := libs) (dbWith []) alice bob 10 [alice; bob]) as (H1 & _ & _ & H2).
  - reflexivity.
  - apply (bool_decide_unpack _). vm_compute. exact I.
  - apply (bool_decide_unpack _). vm_compute. exact I.
  - apply (bool_decide_unpack _). vm_compute. exact I.
  - split; [|exact H2]. destruct H1 as (_ & _ & ->); [done|]. reflexivity.
Defined.
