(* ===== verification/EvmLogger.v ===== *)
(** Loggers: the interface the EVM reports to (vm/logger.go), the tracer
    interface and directory (tracers/tracers.go), the no-op tracer
    (tracers/native/noop.go) and the multiplexer (tracers/native/mux.go). *)
From S2P Require Import Prelude Opcodes Errors Externals Stack Memory Analysis Contract Tracer.
From S2P Require Import Machine.

(** What the tracers use of aspect-core/types, accounts/abi and encoding/json.
    Encoding and decoding are opaque functions that may fail. *)
Module trace.
Abbreviation JoinPointRunType := aspect.JoinPointRunType.
Abbreviation JoinPointRunType_Unknown := aspect.JoinPointRunType_Unknown.
Abbreviation Message := aspect.Message.
Class Lib `{aspect.Lib} := {
  IsPreCall : aspect.JoinPointRunType -> bool;
  RunType_String : aspect.JoinPointRunType -> string;
  UnpackRevert : bytes -> string + Err;
  RawMessage : Type;
  emptyObject : RawMessage;                        (* {} *)
  Marshal : forall {A : Type}, A -> RawMessage + Err;
  Unmarshal : forall {A : Type}, RawMessage -> A -> A + Err;   (* into a zero value *)
}.
(** The join points of a call come before or after it; "unknown" is neither. *)
Class Spec `{Lib} : Prop := { Unknown_not_precall : IsPreCall JoinPointRunType_Unknown = false }.
End trace.

(** * vm/logger.go and the Tracer interface *)
Section Interface.
Context {L : Libs} {T : trace.Lib}.

(** [type AspectLogger interface] of aspect-core, as far as the tracers
    implement it. *)
Class AspectLogger (S : Type) := {
  onAspectEnter : aspect.JoinPointRunType -> Address -> Address -> Address -> bytes -> Z ->
                  option Z -> aspect.Message -> S -> res S;
  onAspectExit : aspect.JoinPointRunType -> aspect.JPResult -> S -> res S;
}.
(** [type EVMLogger interface] of vm/logger.go. The methods change the logger
    through its pointer and may panic. [CaptureStart] receives the EVM, whose
    state database the later methods read: they get it as the argument [d]. *)
Class EVMLogger (S : Type) := {
  onTxStart : Z -> S -> res S;
  onTxEnd : StateDB.DB -> Z -> S -> res S;
  onStart : Env -> StateDB.DB -> Address -> Address -> bool -> bytes -> Z -> Z -> S -> res S;
  onEnd : bytes -> Z -> option Err -> S -> res S;
  onEnter : OpCode -> Address -> Address -> bytes -> Z -> option Z -> S -> res S;
  onExit : bytes -> Z -> option Err -> S -> res S;
  onState : StateDB.DB -> Z -> OpCode -> Z -> Z -> ScopeContext -> bytes -> Z -> option Err ->
            S -> res S;
  onFault : StateDB.DB -> Z -> OpCode -> Z -> Z -> ScopeContext -> Z -> option Err -> S -> res S;
  asAspectLogger : option (AspectLogger S);        (* tracer.(types.AspectLogger) *)
}.
(** [type Tracer interface] of tracers/tracers.go: a logger with a result. *)
Class EvmTracer (S : Type) := {
  tracer_logger :: EVMLogger S;
  GetResult : S -> option trace.RawMessage * option Err;
  Stop : Err -> S -> S;
}.

(** The method an event stands for; what aspects tell of themselves reaches only
    a logger that is an [AspectLogger]. *)
Definition dispatch {S} `{!EVMLogger S} (env : Env) (d : StateDB.DB) (e : Event) (s : S) : res S :=
  match e with
  | CaptureStart from to create input gas value => onStart env d from to create input gas value s
  | CaptureEnd output gasUsed err => onEnd output gasUsed err s
  | CaptureEnter typ from to input gas value => onEnter typ from to input gas value s
  | CaptureExit output gasUsed err => onExit output gasUsed err s
  | CaptureState pc op gas cost scope rData depth err =>
      onState d pc op gas cost scope rData depth err s
  | CaptureFault pc op gas cost scope depth err => onFault d pc op gas cost scope depth err s
  | CaptureAspectEnter jp from to aspectId input gas value execCtx =>
      match asAspectLogger with
      | Some A => onAspectEnter (AspectLogger := A) jp from to aspectId input gas value execCtx s
      | None => Ret s
      end
  | CaptureAspectExit jp result =>
      match asAspectLogger with
      | Some A => onAspectExit (AspectLogger := A) jp result s
      | None => Ret s
      end
  end.
(** A sequence of events, each with the state database of its moment. *)
Fixpoint feed {S} `{!EVMLogger S} (env : Env) (es : list (StateDB.DB * Event)) (s : S) : res S :=
  match es with
  | [] => Ret s
  | (d, e) :: rest => let? s := dispatch env d e s in feed env rest s
  end.

(** [res, err := json.Marshal(x); if err != nil { return nil, err }; return res, reason] *)
Definition marshalled {A} (x : A) (reason : option Err) : option trace.RawMessage * option Err :=
  match trace.Marshal x with inl r => (Some r, reason) | inr e => (None, Some e) end.

(** * tracers/tracers.go *)

(** [type Context struct] *)
Record Context := {
  ctx_BlockHash : Hash; ctx_BlockNumber : option Z; ctx_TxIndex : Z; ctx_TxHash : Hash;
}.

(** A [Tracer] value: an implementation and its state. *)
Record AnyTracer := mkAny { any_state : Type; any_impl : EvmTracer any_state; any : any_state }.

Definition ctorFn : Type := option Context -> option trace.RawMessage -> res (AnyTracer + Err).
Definition jsCtorFn : Type :=
  string -> option Context -> option trace.RawMessage -> res (AnyTracer + Err).
Record elem := mkElem { el_ctor : ctorFn; el_isJS : bool }.
(** [type directory struct]; [jsEval] is nil until it is registered. *)
Record directory := mkDirectory { elems : gmap string elem; jsEval : option jsCtorFn }.

Definition DefaultDirectory : directory := mkDirectory ∅ None.
Definition Register (name : string) (f : ctorFn) (isJS : bool) (d : directory) : directory :=
  mkDirectory (<[name := mkElem f isJS]> (elems d)) (jsEval d).
Definition RegisterJSEval (f : jsCtorFn) (d : directory) : directory :=
  mkDirectory (elems d) (Some f).
Definition New (d : directory) (name : string) (ctx : option Context)
    (cfg : option trace.RawMessage) : res (AnyTracer + Err) :=
  match elems d !! name with
  | Some e => el_ctor e ctx cfg
  | None => match jsEval d with
            | Some f => f name ctx cfg
            | None => Panicked NilDeref
            end
  end.
Definition IsJS (d : directory) (name : string) : bool :=
  match elems d !! name with Some e => el_isJS e | None => true end.

Definition memoryPadLimit : Z := 1024 * 1024.

(** [func GetMemoryCopyPadded(m *vm.Memory, offset, size int64) ([]byte, error)] *)
Definition GetMemoryCopyPadded (m : Memory) (offset size : Z) : res (bytes * option Err) :=
  if (offset <? 0) || (size <? 0) then
    Ret ([], Some (errNew "offset or size must not be negative"))
  else if i64 (offset + size) <? Len m then let? c := GetCopy m offset size in Ret (c, None)
  else
    let paddingNeeded := i64 (i64 (offset + size) - Len m) in
    if memoryPadLimit <? paddingNeeded then
      Ret ([], Some (errNew ("reached limit for padding memory slice: "
                               +:+ pretty paddingNeeded)))
    else
      let? cpy := make_bytes size in
      let overlap := i64 (Len m - offset) in
      if 0 <? overlap then
        let? src := GetPtr m offset overlap in Ret (copy_at cpy 0 src, None)
      else Ret (cpy, None).
End Interface.

(** * tracers/native/noop.go *)
Section Noop.
Context {L : Libs} {T : trace.Lib}.

Inductive noopTracer := mkNoop.
Definition newNoopTracer (ctx : option Context) (cfg : option trace.RawMessage)
    : noopTracer + Err := inl mkNoop.

Definition noop_logger : EVMLogger noopTracer := {|
  onTxStart := fun _ t => Ret t;
  onTxEnd := fun _ _ t => Ret t;
  onStart := fun _ _ _ _ _ _ _ _ t => Ret t;
  onEnd := fun _ _ _ t => Ret t;
  onEnter := fun _ _ _ _ _ _ t => Ret t;
  onExit := fun _ _ _ t => Ret t;
  onState := fun _ _ _ _ _ _ _ _ _ t => Ret t;
  onFault := fun _ _ _ _ _ _ _ _ t => Ret t;
  asAspectLogger := None;
|}.
#[global] Instance noop_tracer : EvmTracer noopTracer := {|
  tracer_logger := noop_logger;
  GetResult := fun _ => (Some trace.emptyObject, None);
  Stop := fun _ t => t;
|}.
End Noop.

(** * tracers/native/mux.go *)
Section Mux.
Context {L : Libs} {T : trace.Lib}.

(** [type muxTracer struct] *)
Record muxTracer := mkMux { mux_names : list string; mux_tracers : list AnyTracer }.

(** The loop of [newMuxTracer] over its configuration, in the order the map
    range yields. *)
Fixpoint newMuxLoop (dir : directory) (ctx : option Context)
    (config : list (string * trace.RawMessage)) : res (list (string * AnyTracer) + Err) :=
  match config with
  | [] => Ret (inl [])
  | (k, v) :: rest =>
      let? t := New dir k ctx (Some v) in
      match t with
      | inr err => Ret (inr err)
      | inl t =>
          let? ts := newMuxLoop dir ctx rest in
          Ret (match ts with inr err => inr err | inl ts => inl ((k, t) :: ts) end)
      end
  end.
Definition newMuxTracer (dir : directory) (ctx : option Context) (cfg : option trace.RawMessage)
    : res (muxTracer + Err) :=
  let config : gmap string trace.RawMessage + Err :=
    match cfg with None => inl ∅ | Some c => trace.Unmarshal c ∅ end in
  match config with
  | inr err => Ret (inr err)
  | inl config =>
      let? ts := newMuxLoop dir ctx (map_to_list config) in
      Ret (match ts with
           | inr err => inr err
           | inl ts => inl (mkMux ts.*1 ts.*2)
           end)
  end.

(** [for _, t := range t.tracers { t.Capture...(...) }] *)
Definition any_run (f : forall S, EvmTracer S -> S -> res S) (t : AnyTracer) : res AnyTracer :=
  let? s := f (any_state t) (any_impl t) (any t) in Ret (mkAny (any_state t) (any_impl t) s).
Fixpoint each_tracer (f : AnyTracer -> res AnyTracer) (ts : list AnyTracer)
    : res (list AnyTracer) :=
  match ts with
  | [] => Ret []
  | t :: rest => let? t := f t in let? rest := each_tracer f rest in Ret (t :: rest)
  end.
Definition mux_forward (f : forall S, EvmTracer S -> S -> res S) (t : muxTracer)
    : res muxTracer :=
  let? ts := each_tracer (any_run f) (mux_tracers t) in Ret (mkMux (mux_names t) ts).

Definition mux_CaptureTxStart (gasLimit : Z) : muxTracer -> res muxTracer :=
  mux_forward (fun S H => onTxStart gasLimit).
Definition mux_CaptureTxEnd (d : StateDB.DB) (restGas : Z) : muxTracer -> res muxTracer :=
  mux_forward (fun S H => onTxEnd d restGas).
Definition mux_CaptureStart (env : Env) (d : StateDB.DB) (from to : Address) (create : bool)
    (input : bytes) (gas value : Z) : muxTracer -> res muxTracer :=
  mux_forward (fun S H => onStart env d from to create input gas value).
Definition mux_CaptureEnd (output : bytes) (gasUsed : Z) (err : option Err)
    : muxTracer -> res muxTracer :=
  mux_forward (fun S H => onEnd output gasUsed err).
Definition mux_CaptureEnter (typ : OpCode) (from to : Address) (input : bytes) (gas : Z)
    (value : option Z) : muxTracer -> res muxTracer :=
  mux_forward (fun S H => onEnter typ from to input gas value).
Definition mux_CaptureExit (output : bytes) (gasUsed : Z) (err : option Err)
    : muxTracer -> res muxTracer :=
  mux_forward (fun S H => onExit output gasUsed err).
Definition mux_CaptureState (d : StateDB.DB) (pc : Z) (op : OpCode) (gas cost : Z)
    (scope : ScopeContext) (rData : bytes) (depth : Z) (err : option Err)
    : muxTracer -> res muxTracer :=
  mux_forward (fun S H => onState d pc op gas cost scope rData depth err).
Definition mux_CaptureFault (d : StateDB.DB) (pc : Z) (op : OpCode) (gas cost : Z) (scope : ScopeContext)
    (depth : Z) (err : option Err) : muxTracer -> res muxTracer :=
  mux_forward (fun S H => onFault d pc op gas cost scope depth err).

(** The loop of [GetResult]: the first error ends it. *)
Fixpoint mux_results (names : list string) (ts : list AnyTracer)
    (resObject : gmap string (option trace.RawMessage))
    : gmap string (option trace.RawMessage) + Err :=
  match names, ts with
  | name :: names, t :: ts =>
      match GetResult (EvmTracer := any_impl t) (any t) with
      | (_, Some err) => inr err
      | (r, None) => mux_results names ts (<[name := r]> resObject)
      end
  | _, _ => inl resObject
  end.
Definition mux_GetResult (t : muxTracer) : option trace.RawMessage * option Err :=
  match mux_results (mux_names t) (mux_tracers t) ∅ with
  | inr err => (None, Some err)
  | inl resObject => marshalled resObject None
  end.
Definition mux_Stop (err : Err) (t : muxTracer) : muxTracer :=
  mkMux (mux_names t)
    (map (fun t => mkAny (any_state t) (any_impl t) (Stop (EvmTracer := any_impl t) err (any t)))
       (mux_tracers t)).

Definition mux_logger : EVMLogger muxTracer := {|
  onTxStart := mux_CaptureTxStart;
  onTxEnd := mux_CaptureTxEnd;
  onStart := mux_CaptureStart;
  onEnd := mux_CaptureEnd;
  onEnter := mux_CaptureEnter;
  onExit := mux_CaptureExit;
  onState := mux_CaptureState;
  onFault := mux_CaptureFault;
  asAspectLogger := None;
|}.
#[global] Instance mux_tracer : EvmTracer muxTracer := {|
  tracer_logger := mux_logger;
  GetResult := mux_GetResult;
  Stop := mux_Stop;
|}.

(** The multiplexer is its tracers side by side: feeding it events is feeding
    them to each of its tracers, which do not see each other. *)
Definition feed_any (env : Env) (es : list (StateDB.DB * Event)) (t : AnyTracer)
    : res AnyTracer :=
  any_run (fun S H => feed env es) t.
End Mux.

(** * Properties *)
Section Properties.
Context {L : Libs} {T : trace.Lib}.

Lemma each_tracer_Forall2 f ts ts' :
  each_tracer f ts = Ret ts' <-> Forall2 (fun t t' => f t = Ret t') ts ts'.
Proof.
  split.
  - revert ts'. induction ts as [|t ts IH]; intros ts' H; cbn in H; [by injection H as <-|].
    destruct (f t) as [t1| |] eqn:E; cbn in H; [|done..].
    destruct (each_tracer f ts) as [ts1| |]; cbn in H; [|done..]. injection H as <-.
    constructor; [done|by apply IH].
  - induction 1 as [|t t' ts ts' Ht _ IH]; [done|]. cbn. by rewrite Ht, IH.
Qed.
(** The events of the [EVMLogger] interface. *)
Definition isAspect (e : Event) : bool :=
  match e with
  | CaptureAspectEnter _ _ _ _ _ _ _ _ | CaptureAspectExit _ _ => true
  | _ => false
  end.
Definition loggerEvents (es : list (StateDB.DB * Event)) : list (StateDB.DB * Event) :=
  List.filter (fun e => negb (isAspect e.2)) es.

Lemma mux_dispatch env d e t :
  dispatch env d e t = if isAspect e then Ret t else mux_forward (fun S H => dispatch env d e) t.
Proof. by destruct e. Qed.
Lemma feed_any_cons env d e es t t2 :
  feed_any env ((d, e) :: es) t = Ret t2 <->
  exists t1, any_run (fun S H => dispatch env d e) t = Ret t1 /\ feed_any env es t1 = Ret t2.
Proof.
  unfold feed_any, any_run. cbn [feed]. destruct t as [S H s]. cbn.
  destruct (dispatch env d e s) as [s1| |]; cbn.
  - split; [intros E; by exists (mkAny S H s1)|]. by intros (t1 & [= <-] & E).
  - split; [done|]. by intros (t1 & ? & _).
  - split; [done|]. by intros (t1 & ? & _).
Qed.

(** C39: the multiplexer runs its tracers side by side. Feeding it any sequence
    of events returns exactly when feeding the events of the logger interface
    among them to each of its tracers on its own returns, and it then holds
    those tracers' states, in order. It is no [AspectLogger]: what aspects
    report of themselves reaches none of its tracers. *)
Theorem mux_independent env es (m m' : muxTracer) :
  feed env es m = Ret m' <->
  mux_names m' = mux_names m /\
  Forall2 (fun t t' => feed_any env (loggerEvents es) t = Ret t') (mux_tracers m) (mux_tracers m').
Proof.
  revert m. induction es as [|[d e] es IH]; intros [names ts]; cbn [feed].
  - split.
    + intros [= <-]. split; [done|]. apply Forall_Forall2_diag, Forall_true. by intros [].
    + destruct m' as [names' ts']. cbn. intros [-> H]. do 2 f_equal.
      induction H as [|t t' ts ts' Ht _ IH]; [done|]. destruct t. injection Ht as <-. by f_equal.
  - rewrite mux_dispatch. cbn [loggerEvents List.filter snd]. destruct (isAspect e); cbn [negb].
    { cbn [rbind]. apply IH. }
    unfold mux_forward. cbn [mux_tracers mux_names].
    split.
    + intros H. destruct (each_tracer _ ts) as [ts1| |] eqn:E; cbn in H; [|done..].
      apply each_tracer_Forall2 in E. apply IH in H as [Hn H]. split; [done|]. cbn in H. clear -E H.
      revert H. generalize (mux_tracers m'). induction E as [|t t1 ts ts1 Ht _ IH]; intros ts2 H;
        inversion H; subst; constructor; [apply feed_any_cons|]; eauto.
    + intros [Hn H]. assert (exists ts1, Forall2 (fun t t1 =>
        any_run (fun S H => dispatch env d e) t = Ret t1) ts ts1 /\
        Forall2 (fun t1 t2 => feed_any env (loggerEvents es) t1 = Ret t2) ts1 (mux_tracers m')) as (ts1 & E & H1).
      { clear -H. induction H as [|t t' ts ts' (t1 & Ht & Ht1)%feed_any_cons _ (ts1 & E & H1)];
          [by exists []|]. exists (t1 :: ts1). by split; constructor. }
      apply each_tracer_Forall2 in E. rewrite E. cbn. by apply IH.
Qed.

Lemma lookup_padded (l : bytes) o n i :
  0 <= o -> (i < Z.to_nat n)%nat ->
  (take (Z.to_nat n) (drop (Z.to_nat o) (l ++ zeros (o + n)))) !! i
    = Some (default 0 (l !! (Z.to_nat o + i)%nat)).
Proof.
  intros Ho Hi. rewrite lookup_take_lt, lookup_drop by done.
  destruct (l !! (Z.to_nat o + i)%nat) as [x|] eqn:E; cbn [default from_option id].
  - by apply lookup_app_l_Some.
  - apply lookup_ge_None in E. rewrite lookup_app_r by done. unfold zeros.
    apply lookup_replicate_2. lia.
Qed.

Lemma i64_overlap l o : 0 <= l < 2 ^ 63 -> 0 <= o < 2 ^ 63 -> i64 (l - o) = l - o.
Proof. intros Hl Ho. unfold i64. rewrite Z.mod_small by lia. lia. Qed.

(** On operands whose region is small or empty it does not panic, whatever the
    size of the memory. *)
Lemma GetMemoryCopyPadded_returns {RS : runtime.Spec} (m : Memory) offset size :
  mem_wf m -> - 2 ^ 63 <= offset < 2 ^ 63 -> size = 0 \/ 0 <= offset /\ 0 <= size /\
    offset + size <= 2 ^ 38 ->
  exists r, GetMemoryCopyPadded m offset size = Ret r.
Proof.
  intros Hwf Ho Hs. unfold GetMemoryCopyPadded. pose proof runtime.maxAlloc_range as Hmax.
  unfold mem_wf, Len in *. pose proof (len_nonneg (store m)).
  destruct (Z.ltb_spec offset 0); [by eexists|]. destruct (Z.ltb_spec size 0); [by eexists|].
  cbn [orb]. rewrite (i64_small (offset + size)) by lia.
  destruct (Z.ltb_spec (offset + size) (len (store m))).
  - unfold GetCopy. destruct (Z.eqb_spec size 0); [by eexists|]. zbool. unfold make_bytes. zbool.
    cbn [orb rbind]. rewrite i64_small by lia. rewrite slice_cap_inside by lia. by eexists.
  - rewrite (i64_small (offset + size - len (store m))) by lia.
    destruct (_ <? _); [by eexists|]. unfold make_bytes. zbool. cbn [orb rbind].
    rewrite i64_overlap by lia. destruct (Z.ltb_spec 0 (len (store m) - offset)); [|by eexists].
    unfold GetPtr. zbool. rewrite i64_small by lia. rewrite slice_cap_inside by lia. by eexists.
Qed.

(** [GetMemoryCopyPadded] returns the requested bytes of the memory, padded
    with zeros where the request lies beyond its end. *)
Theorem GetMemoryCopyPadded_spec (m : Memory) offset size :
  mem_wf m -> Len m < 2 ^ 63 -> 0 <= offset -> 0 <= size <= runtime.maxAlloc ->
  offset + size < 2 ^ 63 -> offset + size - Len m <= memoryPadLimit ->
  exists d, GetMemoryCopyPadded m offset size = Ret (d, None) /\ len d = size /\
    forall i, (i < Z.to_nat size)%nat ->
      d !! i = Some (default 0 (store m !! (Z.to_nat offset + i)%nat)).
Proof.
  intros Hwf Hl Ho Hs Hos Hp. unfold GetMemoryCopyPadded, memoryPadLimit in *. zbool. cbn [orb].
  rewrite i64_small by lia. pose proof (len_nonneg (store m)) as H0. unfold Len in *.
  destruct (Z.ltb_spec (offset + size) (len (store m))) as [Hin|Hout].
  - destruct (Z.eq_dec size 0) as [->|Hne].
    { exists []. split_and!; [done|done|]. intros i Hi. cbn in Hi. lia. }
    rewrite GetCopy_inside, GetPtr_inside by (try done; unfold Len; lia). cbn [rbind].
    eexists. split; [done|]. split.
    { rewrite len_take; [done|]. rewrite len_drop by lia. lia. }
    intros i Hi. rewrite lookup_take_lt, lookup_drop by done.
    destruct (lookup_lt_is_Some_2 (store m) (Z.to_nat offset + i)) as [x Hx];
      [unfold len in *; lia|]. by rewrite Hx.
  - rewrite i64_small by lia. zbool. unfold make_bytes. zbool. cbn [orb rbind].
    exists (take (Z.to_nat size) (drop (Z.to_nat offset) (store m ++ zeros (offset + size)))).
    split; [|split; [|intros i Hi; by apply lookup_padded]].
    2:{ rewrite len_take; [done|]. rewrite len_drop; rewrite len_app, len_zeros by lia; lia. }
    rewrite i64_overlap by lia. destruct (Z.ltb_spec 0 (len (store m) - offset)) as [Hov|Hov].
    + rewrite GetPtr_inside by (try done; unfold Len; lia). cbn [rbind]. do 2 f_equal.
      rewrite take_ge by (rewrite length_drop; unfold len in *; lia).
      rewrite copy_at_prefix; [|lia|rewrite len_drop, len_zeros by lia; lia].
      change (Z.to_nat 0) with 0%nat. rewrite take_0, Z.add_0_l. cbn [app].
      rewrite drop_app_le by (unfold len in *; lia).
      rewrite take_app, (take_ge (drop _ (store m))) by (rewrite length_drop; unfold len in *; lia). f_equal.
      unfold zeros, len. rewrite drop_replicate, take_replicate, !length_drop. f_equal.
      unfold len in *. lia.
    + do 2 f_equal. rewrite drop_app_ge by (unfold len in *; lia). unfold zeros.
      rewrite drop_replicate, take_replicate. f_equal. unfold len in *. lia.
Qed.
End Properties.

(** * Witnesses *)
From S2P Require Import Instances.

#[export] Instance trace_lib : @trace.Lib (@L_statedb libs) (@L_aspect libs) := {|
  trace.IsPreCall := fun n => bool_decide (n = 1%nat);
  trace.RunType_String := fun n => pretty n;
  trace.UnpackRevert := fun b => inr (errNew "invalid data");
  trace.RawMessage := unit;
  trace.emptyObject := tt;
  trace.Marshal := fun _ _ => inl tt;
  trace.Unmarshal := fun _ _ zero => inl zero;
|}.
#[export] Instance trace_spec : @trace.Spec (@L_statedb libs) (@L_aspect libs) trace_lib.
Proof. by constructor. Qed.

Lemma GetMemoryCopyPadded_spec_witness :
  exists d, GetMemoryCopyPadded twoWords 60 8 = Ret (d, None) /\ len d = 8.
Proof.
  destruct (GetMemoryCopyPadded_spec twoWords 60 8) as (d & H1 & H2 & _);
    [exact twoWords_wf|by vm_compute|lia|split; [lia|by vm_compute]|lia|by vm_compute|].
  exists d. exact (conj H1 H2).
Defined.

(** The end of the request is computed in 64 bits: a size that wraps it around
    passes for a request inside the memory, and the allocation panics. *)
Example GetMemoryCopyPadded_wraps :
  GetMemoryCopyPadded twoWords 32 (2 ^ 63 - 1) = Panicked MakeSlice.
Proof. by vm_compute. Qed.
