(* ===== verification/CallTracer.v ===== *)
(** The call tracer (tracers/native/call.go): it rebuilds the tree of calls of a
    transaction from the logger events, with a stack of open frames. *)
From S2P Require Import Prelude Opcodes Errors Externals Stack Memory Analysis Contract Tracer.
From S2P Require Import Machine EvmLogger.

Local Set Warnings "-register-all".

Section CallTracer.
Context {L : Libs} {T : trace.Lib}.

(** [type callLog struct] *)
Record callLog := mkCallLog { cl_Address : Address; cl_Topics : list Hash; cl_Data : bytes }.

(** [type aspectCallFrame struct]: the frame of a join point. Its calls are
    call frames, the parameter of the record. *)
Record aspectCallFrame (C : Type) := mkAspectFrame {
  acf_Type : trace.JoinPointRunType;
  acf_Aspect : Address;
  acf_From : Address;
  acf_Gas : Z;
  acf_GasUsed : Z;
  acf_To : Address;
  acf_Input : bytes;
  acf_Output : bytes;
  acf_Error : string;
  acf_RevertReason : string;
  acf_ExecContext : option trace.RawMessage;
  acf_Calls : list C;
  acf_Value : option Z;
}.
Arguments mkAspectFrame {C}.
Arguments acf_Type {C}. Arguments acf_Aspect {C}. Arguments acf_From {C}. Arguments acf_Gas {C}.
    Arguments acf_GasUsed {C}. Arguments acf_To {C}. Arguments acf_Input {C}. Arguments
    acf_Output {C}. Arguments acf_Error {C}. Arguments acf_RevertReason {C}. Arguments
    acf_ExecContext {C}. Arguments acf_Calls {C}. Arguments acf_Value {C}.

(** [type callFrame struct] *)
Inductive callFrame := mkCallFrame {
  cf_Type : OpCode;
  cf_From : Address;
  cf_Gas : Z;
  cf_GasUsed : Z;
  cf_To : option Address;
  cf_Input : bytes;
  cf_Output : bytes;
  cf_Error : string;
  cf_RevertReason : string;
  cf_Calls : list callFrame;
  cf_Logs : list callLog;
  cf_JoinPoints : list (aspectCallFrame callFrame);
  cf_Value : option Z;
  cf_joinPoint : trace.JoinPointRunType;
}.

Definition cf_set_Type (x : OpCode) (f : callFrame) : callFrame :=
mkCallFrame x (cf_From f) (cf_Gas f) (cf_GasUsed f) (cf_To f) (cf_Input f) (cf_Output f)
    (cf_Error f) (cf_RevertReason f) (cf_Calls f) (cf_Logs f) (cf_JoinPoints f) (cf_Value f)
    (cf_joinPoint f).
Definition cf_set_From (x : Address) (f : callFrame) : callFrame :=
mkCallFrame (cf_Type f) x (cf_Gas f) (cf_GasUsed f) (cf_To f) (cf_Input f) (cf_Output f)
    (cf_Error f) (cf_RevertReason f) (cf_Calls f) (cf_Logs f) (cf_JoinPoints f) (cf_Value f)
    (cf_joinPoint f).
Definition cf_set_Gas (x : Z) (f : callFrame) : callFrame :=
mkCallFrame (cf_Type f) (cf_From f) x (cf_GasUsed f) (cf_To f) (cf_Input f) (cf_Output f)
    (cf_Error f) (cf_RevertReason f) (cf_Calls f) (cf_Logs f) (cf_JoinPoints f) (cf_Value f)
    (cf_joinPoint f).
Definition cf_set_GasUsed (x : Z) (f : callFrame) : callFrame :=
mkCallFrame (cf_Type f) (cf_From f) (cf_Gas f) x (cf_To f) (cf_Input f) (cf_Output f) (cf_Error
    f) (cf_RevertReason f) (cf_Calls f) (cf_Logs f) (cf_JoinPoints f) (cf_Value f) (cf_joinPoint
    f).
Definition cf_set_To (x : option Address) (f : callFrame) : callFrame :=
mkCallFrame (cf_Type f) (cf_From f) (cf_Gas f) (cf_GasUsed f) x (cf_Input f) (cf_Output f)
    (cf_Error f) (cf_RevertReason f) (cf_Calls f) (cf_Logs f) (cf_JoinPoints f) (cf_Value f)
    (cf_joinPoint f).
Definition cf_set_Input (x : bytes) (f : callFrame) : callFrame :=
mkCallFrame (cf_Type f) (cf_From f) (cf_Gas f) (cf_GasUsed f) (cf_To f) x (cf_Output f)
    (cf_Error f) (cf_RevertReason f) (cf_Calls f) (cf_Logs f) (cf_JoinPoints f) (cf_Value f)
    (cf_joinPoint f).
Definition cf_set_Output (x : bytes) (f : callFrame) : callFrame :=
mkCallFrame (cf_Type f) (cf_From f) (cf_Gas f) (cf_GasUsed f) (cf_To f) (cf_Input f) x (cf_Error
    f) (cf_RevertReason f) (cf_Calls f) (cf_Logs f) (cf_JoinPoints f) (cf_Value f) (cf_joinPoint
    f).
Definition cf_set_Error (x : string) (f : callFrame) : callFrame :=
mkCallFrame (cf_Type f) (cf_From f) (cf_Gas f) (cf_GasUsed f) (cf_To f) (cf_Input f) (cf_Output
    f) x (cf_RevertReason f) (cf_Calls f) (cf_Logs f) (cf_JoinPoints f) (cf_Value f)
    (cf_joinPoint f).
Definition cf_set_RevertReason (x : string) (f : callFrame) : callFrame :=
mkCallFrame (cf_Type f) (cf_From f) (cf_Gas f) (cf_GasUsed f) (cf_To f) (cf_Input f) (cf_Output
    f) (cf_Error f) x (cf_Calls f) (cf_Logs f) (cf_JoinPoints f) (cf_Value f) (cf_joinPoint f).
Definition cf_set_Calls (x : list callFrame) (f : callFrame) : callFrame :=
mkCallFrame (cf_Type f) (cf_From f) (cf_Gas f) (cf_GasUsed f) (cf_To f) (cf_Input f) (cf_Output
    f) (cf_Error f) (cf_RevertReason f) x (cf_Logs f) (cf_JoinPoints f) (cf_Value f)
    (cf_joinPoint f).
Definition cf_set_Logs (x : list callLog) (f : callFrame) : callFrame :=
mkCallFrame (cf_Type f) (cf_From f) (cf_Gas f) (cf_GasUsed f) (cf_To f) (cf_Input f) (cf_Output
    f) (cf_Error f) (cf_RevertReason f) (cf_Calls f) x (cf_JoinPoints f) (cf_Value f)
    (cf_joinPoint f).
Definition cf_set_JoinPoints (x : list (aspectCallFrame callFrame)) (f : callFrame) : callFrame :=
mkCallFrame (cf_Type f) (cf_From f) (cf_Gas f) (cf_GasUsed f) (cf_To f) (cf_Input f) (cf_Output
    f) (cf_Error f) (cf_RevertReason f) (cf_Calls f) (cf_Logs f) x (cf_Value f) (cf_joinPoint
    f).
Definition cf_set_Value (x : option Z) (f : callFrame) : callFrame :=
mkCallFrame (cf_Type f) (cf_From f) (cf_Gas f) (cf_GasUsed f) (cf_To f) (cf_Input f) (cf_Output
    f) (cf_Error f) (cf_RevertReason f) (cf_Calls f) (cf_Logs f) (cf_JoinPoints f) x
    (cf_joinPoint f).
Definition cf_set_joinPoint (x : trace.JoinPointRunType) (f : callFrame) : callFrame :=
mkCallFrame (cf_Type f) (cf_From f) (cf_Gas f) (cf_GasUsed f) (cf_To f) (cf_Input f) (cf_Output
    f) (cf_Error f) (cf_RevertReason f) (cf_Calls f) (cf_Logs f) (cf_JoinPoints f) (cf_Value f)
    x.

Definition acf_set_GasUsed {C} (x : Z) (f : aspectCallFrame C) : aspectCallFrame C :=
mkAspectFrame (acf_Type f) (acf_Aspect f) (acf_From f) (acf_Gas f) x (acf_To f) (acf_Input f)
    (acf_Output f) (acf_Error f) (acf_RevertReason f) (acf_ExecContext f) (acf_Calls f)
    (acf_Value f).
Definition acf_set_Output {C} (x : bytes) (f : aspectCallFrame C) : aspectCallFrame C :=
mkAspectFrame (acf_Type f) (acf_Aspect f) (acf_From f) (acf_Gas f) (acf_GasUsed f) (acf_To f)
    (acf_Input f) x (acf_Error f) (acf_RevertReason f) (acf_ExecContext f) (acf_Calls f)
    (acf_Value f).
Definition acf_set_Error {C} (x : string) (f : aspectCallFrame C) : aspectCallFrame C :=
mkAspectFrame (acf_Type f) (acf_Aspect f) (acf_From f) (acf_Gas f) (acf_GasUsed f) (acf_To f)
    (acf_Input f) (acf_Output f) x (acf_RevertReason f) (acf_ExecContext f) (acf_Calls f)
    (acf_Value f).
Definition acf_set_RevertReason {C} (x : string) (f : aspectCallFrame C) : aspectCallFrame C :=
mkAspectFrame (acf_Type f) (acf_Aspect f) (acf_From f) (acf_Gas f) (acf_GasUsed f) (acf_To f)
    (acf_Input f) (acf_Output f) (acf_Error f) x (acf_ExecContext f) (acf_Calls f) (acf_Value
    f).
Definition acf_set_Calls {C} (x : list C) (f : aspectCallFrame C) : aspectCallFrame C :=
mkAspectFrame (acf_Type f) (acf_Aspect f) (acf_From f) (acf_Gas f) (acf_GasUsed f) (acf_To f)
    (acf_Input f) (acf_Output f) (acf_Error f) (acf_RevertReason f) (acf_ExecContext f) x
    (acf_Value f).


(** [make([]callFrame, 1)]: the zero frame. *)
Definition zeroFrame : callFrame :=
  mkCallFrame STOP zeroAddress 0 0 None [] [] EmptyString EmptyString [] [] [] None
    trace.JoinPointRunType_Unknown.

Definition strlen (s : string) : Z := Z.of_nat (String.length s).
(** [func (f aspectCallFrame) failed() bool] and [func (f callFrame) failed() bool] *)
Definition acf_failed {C} (f : aspectCallFrame C) : bool := 0 <? strlen (acf_Error f).
Definition cf_failed (f : callFrame) : bool := 0 <? strlen (cf_Error f).
(** [TypeString] *)
Definition acf_TypeString {C} (f : aspectCallFrame C) : string := trace.RunType_String (acf_Type f).
Definition cf_TypeString (f : callFrame) : string := OpCode_String (cf_Type f).

Definition acf_processOutput {C} (output : bytes) (err : option Err) (f : aspectCallFrame C)
    : aspectCallFrame C :=
  match err with
  | None => acf_set_Output output f
  | Some e =>
      let f := acf_set_Error (Error e) f in
      if len output =? 0 then f
      else
        let f := acf_set_Output output f in
        if len output <? 4 then f
        else match trace.UnpackRevert output with
             | inl unpacked => acf_set_RevertReason unpacked f
             | inr _ => f
             end
  end.

Definition cf_processOutput (output : bytes) (err : option Err) (f : callFrame) : callFrame :=
  match err with
  | None => cf_set_Output output f
  | Some e =>
      let f := cf_set_Error (Error e) f in
      let f := if (cf_Type f =? CREATE) || (cf_Type f =? CREATE2) then cf_set_To None f else f in
      if negb (bool_decide (e = ErrExecutionReverted)) || (len output =? 0) then f
      else
        let f := cf_set_Output output f in
        if len output <? 4 then f
        else match trace.UnpackRevert output with
             | inl unpacked => cf_set_RevertReason unpacked f
             | inr _ => f
             end
  end.

(** [type callTracerConfig struct] and [type callTracer struct] *)
Record callTracerConfig := mkCallConfig { OnlyTopCall : bool; WithLog : bool }.
Record callTracer := mkCallTracer {
  callstack : list callFrame;
  ct_config : callTracerConfig;
  ct_gasLimit : Z;
  ct_interrupt : bool;
  ct_reason : option Err;
}.
Definition set_callstack (x : list callFrame) (t : callTracer) : callTracer :=
  mkCallTracer x (ct_config t) (ct_gasLimit t) (ct_interrupt t) (ct_reason t).

Definition newCallTracer (ctx : option Context) (cfg : option trace.RawMessage)
    : callTracer + Err :=
  let config := match cfg with
                | None => inl (mkCallConfig false false)
                | Some c => trace.Unmarshal c (mkCallConfig false false)
                end in
  match config with
  | inr err => inr err
  | inl config => inl (mkCallTracer [zeroFrame] config 0 false None)
  end.

(** [func (t *callTracer) Stop(err error)] *)
Definition ct_Stop (err : Err) (t : callTracer) : callTracer :=
  mkCallTracer (callstack t) (ct_config t) (ct_gasLimit t) true (Some err).

(** Change the frame [t.callstack[i]] in place. *)
Definition at_frame (i : Z) (f : callFrame -> res callFrame) (t : callTracer)
    : res callTracer :=
  let? fr := index (callstack t) i in
  let? fr := f fr in
  let? st := index_set (callstack t) i fr in
  Ret (set_callstack st t).

(** The frame with the join point that is entered, and its update when it is
    left. *)
Definition enterPoint (joinpoint : trace.JoinPointRunType) (from to aspectId : Address)
    (input : bytes) (gas : Z) (value : option Z) (rawExecCtx : trace.RawMessage) (f : callFrame)
    : callFrame :=
  let value := match value with None => Some 0 | Some v => Some v end in
  let aspectCall := mkAspectFrame joinpoint aspectId from gas 0 to input [] EmptyString
                      EmptyString (Some rawExecCtx) [] value in
  cf_set_joinPoint joinpoint (cf_set_JoinPoints (cf_JoinPoints f ++ [aspectCall]) f).
Definition ct_CaptureAspectEnter (joinpoint : trace.JoinPointRunType) (from to aspectId : Address)
    (input : bytes) (gas : Z) (value : option Z) (execCtx : trace.Message) (t : callTracer)
    : res callTracer :=
  match trace.Marshal execCtx with
  | inr err => Ret (ct_Stop err t)
  | inl rawExecCtx =>
      at_frame (len (callstack t) - 1) (fun f =>
        Ret (enterPoint joinpoint from to aspectId input gas value rawExecCtx f)) t
  end.

(** The loop of [CaptureAspectExit]: the first frame of the join point. *)
Fixpoint updateJoinPoint (joinpoint : trace.JoinPointRunType) (result : aspect.JPResult)
    (l : list (aspectCallFrame callFrame)) : list (aspectCallFrame callFrame) :=
  match l with
  | [] => []
  | f :: rest =>
      if bool_decide (acf_Type f = joinpoint) then
        acf_processOutput (aspect.Ret result) (aspect.JPErr result)
          (acf_set_GasUsed (u64 (acf_Gas f - aspect.Gas result)) f) :: rest
      else f :: updateJoinPoint joinpoint result rest
  end.
Definition exitPoint (joinpoint : trace.JoinPointRunType) (result : aspect.JPResult)
    (f : callFrame) : callFrame :=
  let f := cf_set_joinPoint trace.JoinPointRunType_Unknown f in
  cf_set_JoinPoints (updateJoinPoint joinpoint result (cf_JoinPoints f)) f.
Definition ct_CaptureAspectExit (joinpoint : trace.JoinPointRunType) (result : aspect.JPResult)
    (t : callTracer) : res callTracer :=
  at_frame (len (callstack t) - 1) (fun f => Ret (exitPoint joinpoint result f)) t.

Definition ct_CaptureStart (env : Env) (d : StateDB.DB) (from to : Address) (create : bool)
    (input : bytes) (gas value : Z) (t : callTracer) : res callTracer :=
  at_frame 0 (fun f =>
    let f := cf_set_From from f in
    let f := cf_set_To (Some to) f in
    let f := cf_set_Input input f in
    let f := cf_set_Gas (ct_gasLimit t) f in
    let f := cf_set_Value (Some value) f in
    Ret (cf_set_Type (if create then CREATE else CALL) f)) t.

Definition ct_CaptureEnd (output : bytes) (gasUsed : Z) (err : option Err) (t : callTracer)
    : res callTracer :=
  at_frame 0 (fun f => Ret (cf_processOutput output err f)) t.

(** [topic := stackData[len(stackData)-2-(i+1)]], for [i] up to [size] *)
Fixpoint logTopics (st : Stack) (i : Z) (size : nat) : res (list Hash) :=
  match size with
  | O => Ret []
  | S n =>
      let? topic := at_index st (slen st - 2 - (i + 1)) in
      let? rest := logTopics st (i + 1) n in
      Ret (uint256.Bytes32 topic :: rest)
  end.
Definition isLog (op : OpCode) : bool :=
  (op =? LOG0) || (op =? LOG1) || (op =? LOG2) || (op =? LOG3) || (op =? LOG4).

(** The log a LOG opcode is about to emit; [None] when its size is
    unrealistically large. *)
Definition capturedLog (op : OpCode) (scope : ScopeContext) : res (option callLog) :=
  let size := Z.to_nat (u8 (op - LOG0)) in
  let stack := scStack scope in
  let? mStart := at_index stack (slen stack - 1) in
  let? mSize := at_index stack (slen stack - 2) in
  let? topics := logTopics stack 0 size in
  let? (data, err) := GetMemoryCopyPadded (scMemory scope) (i64 (uint256.Uint64 mStart))
                        (i64 (uint256.Uint64 mSize)) in
  match err with
  | Some _ => Ret None
  | None => Ret (Some (mkCallLog (ContractAddress (scContract scope)) topics data))
  end.

Definition ct_CaptureState (d : StateDB.DB) (pc : Z) (op : OpCode) (gas cost : Z)
    (scope : ScopeContext) (rData : bytes) (depth : Z) (err : option Err) (t : callTracer)
    : res callTracer :=
  if negb (is_nil err) then Ret t
  else if negb (WithLog (ct_config t)) then Ret t
  else if OnlyTopCall (ct_config t) && (0 <? depth) then Ret t
  else if ct_interrupt t then Ret t
  else if isLog op then
    let? log := capturedLog op scope in
    match log with
    | None => Ret t
    | Some log =>
        at_frame (len (callstack t) - 1) (fun f => Ret (cf_set_Logs (cf_Logs f ++ [log]) f)) t
    end
  else Ret t.

(** The frame [CaptureEnter] opens. *)
Definition enterFrame (typ : OpCode) (from to : Address) (input : bytes) (gas : Z)
    (value : option Z) : callFrame :=
  mkCallFrame typ from gas 0 (Some to) input [] EmptyString EmptyString [] [] [] value
    trace.JoinPointRunType_Unknown.
Definition ct_CaptureEnter (typ : OpCode) (from to : Address) (input : bytes) (gas : Z)
    (value : option Z) (t : callTracer) : res callTracer :=
  if OnlyTopCall (ct_config t) then Ret t
  else if ct_interrupt t then Ret t
  else Ret (set_callstack (callstack t ++ [enterFrame typ from to input gas value]) t).

(** The end of [CaptureExit]: the finished call joins the calls of its parent,
    or those of the join point that is running. *)
Definition appendCall (call parent : callFrame) : res callFrame :=
  if negb (bool_decide (cf_joinPoint parent = trace.JoinPointRunType_Unknown)) then
    let last := len (cf_JoinPoints parent) in
    let? jp := index (cf_JoinPoints parent) last in
    let? jps := index_set (cf_JoinPoints parent) last
                  (acf_set_Calls (acf_Calls jp ++ [call]) jp) in
    Ret (cf_set_JoinPoints jps parent)
  else Ret (cf_set_Calls (cf_Calls parent ++ [call]) parent).
Definition ct_CaptureExit (output : bytes) (gasUsed : Z) (err : option Err) (t : callTracer)
    : res callTracer :=
  if OnlyTopCall (ct_config t) then Ret t
  else
    let size := len (callstack t) in
    if size <=? 1 then Ret t
    else
      let? call := index (callstack t) (size - 1) in
      let t := set_callstack (take (Z.to_nat (size - 1)) (callstack t)) t in
      let size := size - 1 in
      let call := cf_processOutput output err (cf_set_GasUsed gasUsed call) in
      at_frame (size - 1) (appendCall call) t.

(** [CaptureFault] is that of the embedded no-op tracer. *)
Definition ct_CaptureFault (d : StateDB.DB) (pc : Z) (op : OpCode) (gas cost : Z) (scope : ScopeContext)
    (depth : Z) (err : option Err) (t : callTracer) : res callTracer := Ret t.

Definition ct_CaptureTxStart (gasLimit : Z) (t : callTracer) : res callTracer :=
  Ret (mkCallTracer (callstack t) (ct_config t) gasLimit (ct_interrupt t) (ct_reason t)).

(** [func clearFailedLogs(cf *callFrame, parentFailed bool)] *)
Fixpoint clearFailedLogs (parentFailed : bool) (cf : callFrame) : callFrame :=
  let failed := cf_failed cf || parentFailed in
  match cf with
  | mkCallFrame typ from gas gasUsed to input output error reason calls logs jps value jp =>
      mkCallFrame typ from gas gasUsed to input output error reason
        (map (clearFailedLogs failed) calls)
        (if failed then [] else logs)
        (map (fun a => acf_set_Calls (map (clearFailedLogs failed) (acf_Calls a)) a) jps)
        value jp
  end.
Definition ct_CaptureTxEnd (d : StateDB.DB) (restGas : Z) (t : callTracer) : res callTracer :=
  at_frame 0 (fun f =>
    let f := cf_set_GasUsed (u64 (ct_gasLimit t - restGas)) f in
    Ret (if WithLog (ct_config t) then clearFailedLogs false f else f)) t.

Definition ct_GetResult (t : callTracer) : option trace.RawMessage * option Err :=
  match callstack t with
  | [f] => marshalled f (ct_reason t)
  | _ => (None, Some (errNew "incorrect number of top-level calls"))
  end.

Definition call_logger : EVMLogger callTracer := {|
  onTxStart := ct_CaptureTxStart;
  onTxEnd := ct_CaptureTxEnd;
  onStart := ct_CaptureStart;
  onEnd := ct_CaptureEnd;
  onEnter := ct_CaptureEnter;
  onExit := ct_CaptureExit;
  onState := ct_CaptureState;
  onFault := ct_CaptureFault;
  asAspectLogger := Some {| onAspectEnter := ct_CaptureAspectEnter;
                            onAspectExit := ct_CaptureAspectExit |};
|}.
#[global] Instance call_tracer : EvmTracer callTracer := {|
  tracer_logger := call_logger;
  GetResult := ct_GetResult;
  Stop := ct_Stop;
|}.
End CallTracer.
Arguments mkAspectFrame {L T C}.
Arguments acf_Type {L T C}.
Arguments acf_Aspect {L T C}.
Arguments acf_From {L T C}.
Arguments acf_Gas {L T C}.
Arguments acf_GasUsed {L T C}.
Arguments acf_To {L T C}.
Arguments acf_Input {L T C}.
Arguments acf_Output {L T C}.
Arguments acf_Error {L T C}.
Arguments acf_RevertReason {L T C}.
Arguments acf_ExecContext {L T C}.
Arguments acf_Calls {L T C}.
Arguments acf_Value {L T C}.

(** * What the tracer computes

    A traced execution is a list of items: steps, faults, sub-calls, which are
    bracketed by an enter and an exit event, and runs of aspects, which are
    bracketed by an aspect's enter and exit. *)
Section Spec.
Context {L : Libs} {T : trace.Lib}.

Inductive item :=
  | Step (d : StateDB.DB) (pc : Z) (op : OpCode) (gas cost : Z) (scope : ScopeContext)
      (rData : bytes) (depth : Z) (err : option Err)
  | Fault (d : StateDB.DB) (pc : Z) (op : OpCode) (gas cost : Z) (scope : ScopeContext)
      (depth : Z) (err : option Err)
  | Sub (d : StateDB.DB) (typ : OpCode) (from to : Address) (input : bytes) (gas : Z)
      (value : option Z) (body : list item) (d' : StateDB.DB) (output : bytes) (gasUsed : Z)
      (err : option Err)
  | Point (d : StateDB.DB) (jp : trace.JoinPointRunType) (from to aspectId : Address)
      (input : bytes) (gas : Z) (value : option Z) (execCtx : trace.Message) (body : list item)
      (d' : StateDB.DB) (result : aspect.JPResult).

(** The events of an item, in order. *)
Fixpoint flatten (i : item) : list (StateDB.DB * Event) :=
  match i with
  | Step d pc op gas cost scope rData depth err =>
      [(d, CaptureState pc op gas cost scope rData depth err)]
  | Fault d pc op gas cost scope depth err => [(d, CaptureFault pc op gas cost scope depth err)]
  | Sub d typ from to input gas value body d' output gasUsed err =>
      (d, CaptureEnter typ from to input gas value) ::
      concat (map flatten body) ++ [(d', CaptureExit output gasUsed err)]
  | Point d jp from to aspectId input gas value execCtx body d' result =>
      (d, CaptureAspectEnter jp from to aspectId input gas value execCtx) ::
      concat (map flatten body) ++ [(d', CaptureAspectExit jp result)]
  end.
Abbreviation flattened l := (concat (map flatten l)).

(** The items directly inside an item, and a property of an item and all items
    below it. *)
Definition body_of (i : item) : list item :=
  match i with
  | Sub _ _ _ _ _ _ _ body _ _ _ _ | Point _ _ _ _ _ _ _ _ _ body _ _ => body
  | _ => []
  end.
Inductive everywhere (P : item -> Prop) : item -> Prop :=
  | everywhere_intro i : P i -> Forall (everywhere P) (body_of i) -> everywhere P i.
Lemma everywhere_here P i : everywhere P i -> P i.
Proof. by intros []. Qed.
Lemma everywhere_below P i : everywhere P i -> Forall (everywhere P) (body_of i).
Proof. by intros []. Qed.

(** The execution context of an aspect that can be encoded as JSON; otherwise
    [CaptureAspectEnter] stops the tracer. *)
Definition encoded (i : item) : Prop :=
  match i with
  | Point _ _ _ _ _ _ _ _ execCtx _ _ _ => exists raw, trace.Marshal execCtx = inl raw
  | _ => True
  end.

(** The tree the items stand for: the frame of the running call, extended by an
    item. With [OnlyTopCall] there is only the frame of the transaction. *)
Definition stepFrame (config : callTracerConfig) (op : OpCode) (scope : ScopeContext)
    (depth : Z) (err : option Err) (f : callFrame) : res callFrame :=
  if is_nil err && WithLog config && negb (OnlyTopCall config && (0 <? depth)) && isLog op then
    let? log := capturedLog op scope in
    Ret (match log with None => f | Some log => cf_set_Logs (cf_Logs f ++ [log]) f end)
  else Ret f.
Definition pointFrame (jp : trace.JoinPointRunType) (from to aspectId : Address) (input : bytes)
    (gas : Z) (value : option Z) (execCtx : trace.Message) (f : callFrame) : callFrame :=
  match trace.Marshal execCtx with
  | inl raw => enterPoint jp from to aspectId input gas value raw f
  | inr _ => f
  end.
Definition each_item {B} (step : item -> B -> res B) : list item -> B -> res B :=
  fix each l b := match l with
                  | [] => Ret b
                  | i :: l => let? b := step i b in each l b
                  end.
Fixpoint itemFrame (config : callTracerConfig) (i : item) (f : callFrame) : res callFrame :=
  let items := each_item (itemFrame config) in
  match i with
  | Step d pc op gas cost scope rData depth err => stepFrame config op scope depth err f
  | Fault d pc op gas cost scope depth err => Ret f
  | Sub d typ from to input gas value body d' output gasUsed err =>
      if OnlyTopCall config then items body f
      else
        let? g := items body (enterFrame typ from to input gas value) in
        appendCall (cf_processOutput output err (cf_set_GasUsed gasUsed g)) f
  | Point d jp from to aspectId input gas value execCtx body d' result =>
      let? g := items body (pointFrame jp from to aspectId input gas value execCtx f) in
      Ret (exitPoint jp result g)
  end.
Definition itemsFrame (config : callTracerConfig) : list item -> callFrame -> res callFrame :=
  each_item (itemFrame config).

Lemma itemFrame_sub config d typ from to input gas value body d' output gasUsed err f :
  itemFrame config (Sub d typ from to input gas value body d' output gasUsed err) f
  = if OnlyTopCall config then itemsFrame config body f
    else
      let? g := itemsFrame config body (enterFrame typ from to input gas value) in
      appendCall (cf_processOutput output err (cf_set_GasUsed gasUsed g)) f.
Proof. done. Qed.
Lemma itemFrame_point config d jp from to aspectId input gas value execCtx body d' result f :
  itemFrame config (Point d jp from to aspectId input gas value execCtx body d' result) f
  = let? g := itemsFrame config body (pointFrame jp from to aspectId input gas value execCtx f) in
    Ret (exitPoint jp result g).
Proof. done. Qed.

(** Induction over items and the items below them. *)
Lemma item_ind' (P : item -> Prop) :
  (forall d pc op gas cost scope rData depth err,
     P (Step d pc op gas cost scope rData depth err)) ->
  (forall d pc op gas cost scope depth err, P (Fault d pc op gas cost scope depth err)) ->
  (forall d typ from to input gas value body d' output gasUsed err,
     Forall P body -> P (Sub d typ from to input gas value body d' output gasUsed err)) ->
  (forall d jp from to aspectId input gas value execCtx body d' result,
     Forall P body -> P (Point d jp from to aspectId input gas value execCtx body d' result)) ->
  forall i, P i.
Proof.
  intros H1 H2 H3 H4. fix IH 1.
  assert (Hb : forall body, Forall P body).
  { induction body as [|i body IHb]; constructor; [apply IH|done]. }
  intros [| | |]; [apply H1|apply H2|apply H3, Hb|apply H4, Hb].
Qed.

Lemma feed_app {S} `{!EVMLogger S} env es es' (s : S) :
  feed env (es ++ es') s = let? s := feed env es s in feed env es' s.
Proof.
  revert s. induction es as [|[d e] es IH]; intros s; [done|]. cbn.
  destruct (dispatch env d e s); cbn; [apply IH|done|done].
Qed.

(** ** The stack of open frames *)
Lemma index_last (st : list callFrame) f : index (st ++ [f]) (len (st ++ [f]) - 1) = Ret f.
Proof.
  rewrite len_app. change (len [f]) with 1. apply index_lookup; [pose proof (len_nonneg st); lia|].
  rewrite lookup_app_r by (unfold len; lia).
  by replace (Z.to_nat _ - length st)%nat with 0%nat by (unfold len; lia).
Qed.
Lemma index_set_last (st : list callFrame) f g :
  index_set (st ++ [f]) (len (st ++ [f]) - 1) g = Ret (st ++ [g]).
Proof.
  pose proof (len_nonneg st). rewrite index_set_inside by (rewrite len_app; unfold len; cbn; lia).
  rewrite len_app. change (len [f]) with 1. f_equal.
  rewrite insert_app_r_alt by (unfold len; lia).
  by replace (Z.to_nat _ - length st)%nat with 0%nat by (unfold len; lia).
Qed.
Lemma at_last st f g t :
  callstack t = st ++ [f] ->
  at_frame (len (callstack t) - 1) g t = let? f := g f in Ret (set_callstack (st ++ [f]) t).
Proof.
  intros E. unfold at_frame. rewrite E, index_last. cbn [rbind].
  destruct (g f); cbn [rbind]; [|done|done]. by rewrite index_set_last.
Qed.

(** A tracer that collects everything, with a stack of open frames. *)
Definition open (config : callTracerConfig) (gasLimit : Z) (reason : option Err)
    (st : list callFrame) : callTracer := mkCallTracer st config gasLimit false reason.

Section Feed.
Variables (env : Env) (config : callTracerConfig) (gasLimit : Z) (reason : option Err).
Abbreviation opened st := (open config gasLimit reason st).

Lemma state_item st f d pc op gas cost scope rData depth err :
  ct_CaptureState d pc op gas cost scope rData depth err (opened (st ++ [f]))
  = let? f := stepFrame config op scope depth err f in Ret (opened (st ++ [f])).
Proof.
  unfold ct_CaptureState, stepFrame. cbn [ct_config open ct_interrupt].
  destruct (is_nil err); cbn [negb andb]; [|done]. destruct (WithLog config); cbn [negb andb]; [|done].
  destruct (OnlyTopCall config && _); cbn [negb andb]; [done|].
  destruct (isLog op); [|done]. destruct (capturedLog op scope) as [[log|]| |]; cbn [rbind]; try done.
  by rewrite (at_last st f).
Qed.
Lemma exit_item st f g output gasUsed err :
  OnlyTopCall config = false ->
  ct_CaptureExit output gasUsed err (opened ((st ++ [f]) ++ [g]))
  = let? f := appendCall (cf_processOutput output err (cf_set_GasUsed gasUsed g)) f in
    Ret (opened (st ++ [f])).
Proof.
  intros Hall. unfold ct_CaptureExit. cbn [ct_config open callstack]. rewrite Hall.
  pose proof (len_nonneg st) as H0.
  assert (Hl : len ((st ++ [f]) ++ [g]) = len (st ++ [f]) + 1) by (by rewrite (len_app (st ++ [f]))).
  assert (Hl1 : len (st ++ [f]) = len st + 1) by (by rewrite len_app).
  zbool. rewrite index_last. cbn [rbind]. rewrite Hl, Z.add_simpl_r.
  rewrite take_app_le by (unfold len; lia).
  rewrite take_ge by (unfold len; lia).
  exact (at_last st f _ (opened (st ++ [f])) eq_refl).
Qed.
Lemma enter_point st f jp from to aspectId input gas value execCtx raw :
  trace.Marshal execCtx = inl raw ->
  ct_CaptureAspectEnter jp from to aspectId input gas value execCtx (opened (st ++ [f]))
  = Ret (opened (st ++ [pointFrame jp from to aspectId input gas value execCtx f])).
Proof. intros E. unfold ct_CaptureAspectEnter, pointFrame. rewrite E. by rewrite (at_last st f). Qed.
Lemma exit_point st f jp result :
  ct_CaptureAspectExit jp result (opened (st ++ [f])) = Ret (opened (st ++ [exitPoint jp result f])).
Proof. unfold ct_CaptureAspectExit. by rewrite (at_last st f). Qed.

(** A list of items, given what its members do. *)
Definition feeds (i : item) : Prop :=
  everywhere encoded i -> forall st f,
  feed env (flatten i) (opened (st ++ [f]))
  = let? f := itemFrame config i f in Ret (opened (st ++ [f])).
Lemma feeds_items l : Forall feeds l -> Forall (everywhere encoded) l -> forall st f,
  feed env (flattened l) (opened (st ++ [f]))
  = let? f := itemsFrame config l f in Ret (opened (st ++ [f])).
Proof.
  intros Hl. induction Hl as [|i l Hi _ IH]; intros He st f; [done|].
  apply Forall_cons in He as [He Hes]. unfold itemsFrame. cbn [map concat each_item].
  rewrite feed_app, Hi by done. destruct (itemFrame config i f); cbn [rbind]; [by apply IH|done|done].
Qed.

(** The stack machine computes the recursive tree. *)
Lemma feed_item i : feeds i.
Proof.
  induction i as [| |d typ from to input gas value body d' output gasUsed err IH
    |d jp from to aspectId input gas value execCtx body d' result IH] using item_ind'; intros He st f.
  - cbn [flatten feed dispatch onState tracer_logger call_tracer call_logger]. rewrite state_item.
    cbn [itemFrame]. by destruct (stepFrame config op scope depth err f).
  - done.
  - pose proof (everywhere_below _ _ He) as Hb. cbn [body_of] in Hb.
    rewrite itemFrame_sub. cbn [flatten feed dispatch onEnter tracer_logger call_tracer call_logger].
    unfold ct_CaptureEnter. cbn [ct_config open ct_interrupt callstack].
    destruct (OnlyTopCall config) eqn:Hall; cbn [rbind]; rewrite feed_app.
    + rewrite feeds_items by done. destruct (itemsFrame config body f) as [g| |]; [|done..].
      cbn [rbind feed dispatch onExit tracer_logger call_tracer call_logger].
      unfold ct_CaptureExit. cbn [ct_config open]. by rewrite Hall.
    + change (set_callstack ?x (opened _)) with (opened x). rewrite feeds_items by done.
      destruct (itemsFrame config body _) as [g| |]; [|done..].
      cbn [rbind feed dispatch onExit tracer_logger call_tracer call_logger].
      rewrite exit_item by done. by destruct (appendCall _ f).
  - pose proof (everywhere_below _ _ He) as Hb. apply everywhere_here in He as [raw He].
    cbn [body_of] in Hb. rewrite itemFrame_point.
    cbn [flatten feed dispatch asAspectLogger onAspectEnter tracer_logger call_tracer call_logger].
    rewrite (enter_point _ _ _ _ _ _ _ _ _ _ _ He). cbn [rbind]. rewrite feed_app, feeds_items by done.
    destruct (itemsFrame config body _) as [g| |]; [|done..].
    cbn [rbind feed dispatch asAspectLogger onAspectExit tracer_logger call_tracer call_logger].
    by rewrite exit_point.
Qed.
Lemma feed_items l st f :
  Forall (everywhere encoded) l ->
  feed env (flattened l) (opened (st ++ [f]))
  = let? f := itemsFrame config l f in Ret (opened (st ++ [f])).
Proof. intros He. by apply feeds_items; [apply Forall_true, feed_item|]. Qed.
End Feed.
End Spec.

(** * Claims *)
Section Claims.
Context {L : Libs} {T : trace.Lib}.

(** The root frame [CaptureStart] fills in. *)
Definition startFrame (gasLimit : Z) (from to : Address) (create : bool) (input : bytes)
    (value : Z) : callFrame :=
  mkCallFrame (if create then CREATE else CALL) from gasLimit 0 (Some to) input [] EmptyString
    EmptyString [] [] [] (Some value) trace.JoinPointRunType_Unknown.

(** Fed the events of a transaction, the tracer ends with one frame. *)
Lemma feed_transaction env config gasLimit reason d from to create input gas value
    items d' output gasUsed err :
  Forall (everywhere encoded) items ->
  feed env ((d, CaptureStart from to create input gas value) ::
            concat (map flatten items) ++ [(d', CaptureEnd output gasUsed err)])
    (open config gasLimit reason [zeroFrame])
  = (let? f := itemsFrame config items (startFrame gasLimit from to create input value) in
     Ret (open config gasLimit reason [cf_processOutput output err f])).
Proof.
  intros He. cbn [feed].
  change (dispatch env d (CaptureStart from to create input gas value)
            (open config gasLimit reason [zeroFrame]))
    with (Ret (open config gasLimit reason ([] ++ [startFrame gasLimit from to create input value]))).
  cbn [rbind]. rewrite feed_app, feed_items by done.
  by destruct (itemsFrame config items _) as [f| |].
Qed.

(** C28: the call tracer rebuilds the call tree. Fed the events of a transaction
    (start, any nesting of steps, faults, sub-calls and runs of aspects, end),
    its stack machine computes the tree defined by recursion on the execution:
    all calls, or with [OnlyTopCall] the frame of the transaction alone. It
    panics exactly when that recursion does, otherwise ends with exactly one
    frame, and [GetResult] reports no structural error. The execution contexts
    of the aspects must be encodable as JSON; another one stops the tracer. *)
Theorem call_tracer_builds_tree env config gasLimit reason d from to create input gas value
    items d' output gasUsed err :
  Forall (everywhere encoded) items ->
  feed env ((d, CaptureStart from to create input gas value) ::
            concat (map flatten items) ++ [(d', CaptureEnd output gasUsed err)])
    (open config gasLimit reason [zeroFrame])
  = (let? f := itemsFrame config items (startFrame gasLimit from to create input value) in
     Ret (open config gasLimit reason [cf_processOutput output err f])) /\
  forall f, GetResult (open config gasLimit reason [f]) = marshalled f reason.
Proof. intros He. split; [by apply feed_transaction|done]. Qed.

(** The calls of a frame: its own and those of its join points. *)
Definition child (f g : callFrame) : Prop :=
  g ∈ cf_Calls f \/ exists a : aspectCallFrame callFrame, a ∈ cf_JoinPoints f /\ g ∈ acf_Calls a.




(** A second aspect at the same join point of a call is never finished: its exit
    is recorded in the frame of the first one. *)
Theorem aspect_exit_updates_first joinpoint result
    (l : list (aspectCallFrame callFrame)) (x : aspectCallFrame callFrame) :
  Exists (fun a => acf_Type a = joinpoint) l ->
  updateJoinPoint joinpoint result (l ++ [x]) = updateJoinPoint joinpoint result l ++ [x].
Proof.
  induction l as [|a l IH]; intros H; [by apply Exists_nil in H|]. cbn [app updateJoinPoint].
  case_bool_decide as E; [done|]. apply Exists_cons in H as [H|H]; [done|].
  by rewrite IH.
Qed.

(** A sub-call made while a join point runs crashes the call tracer:
    [CaptureExit] indexes the join points of the parent frame at their length
    instead of at the last one. *)
Theorem aspect_subcall_panics config gasLimit reason st f joinpoint from to aspectId input gas
    value execCtx raw typ from' to' input' gas' value' output gasUsed err :
  OnlyTopCall config = false -> joinpoint <> trace.JoinPointRunType_Unknown ->
  trace.Marshal execCtx = inl raw ->
  (let? t := ct_CaptureAspectEnter joinpoint from to aspectId input gas value execCtx
               (open config gasLimit reason (st ++ [f])) in
   let? t := ct_CaptureEnter typ from' to' input' gas' value' t in
   ct_CaptureExit output gasUsed err t) = Panicked IndexRange.
Proof.
  intros Hc Hj Hm. unfold ct_CaptureAspectEnter. rewrite Hm, (at_last st f) by done.
  cbn [rbind]. set (f' := enterPoint _ _ _ _ _ _ _ _ _). unfold ct_CaptureEnter.
  cbn [ct_config set_callstack open ct_interrupt]. rewrite Hc. cbn [rbind].
  match goal with |- ct_CaptureExit _ _ _ ?t = _ =>
    change t with (open config gasLimit reason ((st ++ [f']) ++ [enterFrame typ from' to' input' gas' value']))
  end. rewrite exit_item by done. unfold appendCall.
  rewrite bool_decide_eq_false_2 by done. cbn [negb]. unfold index.
  rewrite Z.ltb_irrefl, andb_false_r. done.
Qed.
End Claims.

(** * Witnesses *)
From S2P Require Import Instances Core Sample.

Definition quietConfig : callTracerConfig := mkCallConfig false false.
Definition sampleItems : list item :=
  [Sub (dbWith []) CALL alice bob [1; 2; 3; 4] 50 (Some 7)
     [Point (dbWith []) 1%nat alice bob bob [] 50 (Some 7) tt [] (dbWith [])
        {| aspect.Ret := []; aspect.Gas := 50; aspect.JPErr := None |}]
     (dbWith []) [] 10 (Some ErrExecutionReverted)].
Ltac everywhere := repeat (first [apply Forall_nil|apply Forall_cons; split|constructor
  |progress cbn [encoded body_of]|by eexists]).
Lemma sampleItems_encoded : Forall (everywhere encoded) sampleItems.
Proof. everywhere. Qed.

Lemma call_tracer_builds_tree_witness :
  exists t, feed sampleEnv ((dbWith [], CaptureStart alice bob false [] 100 0) ::
      concat (map flatten sampleItems) ++ [(dbWith [], CaptureEnd [] 20 None)])
    (open quietConfig 100 None [zeroFrame]) = Ret t /\
    map cf_Error (concat (map cf_Calls (callstack t))) = ["execution reverted"].
Proof.
  eexists. split.
  - etrans; [exact (proj1 (call_tracer_builds_tree sampleEnv quietConfig 100 None (dbWith []) alice
      bob false [] 100 0 sampleItems (dbWith []) [] 20 None sampleItems_encoded))|reflexivity].
  - reflexivity.
Defined.

(** A reverted call with one log and a nested call with another. *)
Definition innerFrame : callFrame := cf_set_Logs [mkCallLog bob [] [1]] zeroFrame.
Definition failedFrame : callFrame :=
  cf_set_Calls [innerFrame] (cf_set_Error "execution reverted"
    (cf_set_Logs [mkCallLog alice [] [2]] zeroFrame)).
(** Both logs are gone after [CaptureTxEnd]. *)
Example failed_logs_gone :
  (let? t := ct_CaptureTxEnd (dbWith []) 0 (open (mkCallConfig false true) 100 None [failedFrame]) in
   Ret (map cf_Logs (concat (map (fun f => f :: cf_Calls f) (callstack t))))) = Ret [[]; []].
Proof. vm_compute. reflexivity. Qed.
