(* ===== verification/FlatTracer.v ===== *)
(** The flat call tracer (tracers/native/call_flat.go): it runs a call tracer
    and lists its tree in pre-order, in the format of Parity. *)
From S2P Require Import Prelude Opcodes Errors Externals Stack Memory Analysis Contract Tracer.
From S2P Require Import Machine Precompiles EvmLogger CallTracer.

Local Set Warnings "-register-all".

(** [strings.ToLower] on ASCII strings. *)
Definition lowerAscii (c : Ascii.ascii) : Ascii.ascii :=
  let n := Ascii.nat_of_ascii c in
  if (65 <=? n)%nat && (n <=? 90)%nat then Ascii.ascii_of_nat (n + 32) else c.
Fixpoint ToLower (s : string) : string :=
  match s with
  | EmptyString => EmptyString
  | String c s => String (lowerAscii c) (ToLower s)
  end.

Section FlatTracer.
Context {L : Libs} {T : trace.Lib}.

Definition parityErrorMapping : gmap string string := list_to_map
  [("contract creation code storage out of gas", "Out of gas");
   ("out of gas", "Out of gas");
   ("gas uint64 overflow", "Out of gas");
   ("max code size exceeded", "Out of gas");
   ("invalid jump destination", "Bad jump destination");
   ("execution reverted", "Reverted");
   ("return data out of bounds", "Out of bounds");
   ("stack limit reached 1024 (1023)", "Out of stack");
   ("precompiled failed", "Built-in failed");
   ("invalid input length", "Built-in failed")].
Definition parityErrorMappingStartingWith : list (string * string) :=
  [("invalid opcode:", "Bad instruction"); ("stack underflow", "Stack underflow")].

(** [type flatCallAction struct] *)
Record flatCallAction := mkAction {
  fa_Author : option Address;
  fa_RewardType : string;
  fa_SelfDestructed : option Address;
  fa_Balance : option Z;
  fa_CallType : string;
  fa_CreationMethod : string;
  fa_From : option Address;
  fa_Aspect : option Address;
  fa_Gas : option Z;
  fa_Init : option bytes;
  fa_Input : option bytes;
  fa_RefundAddress : option Address;
  fa_To : option Address;
  fa_Value : option Z;
  fa_ExecContext : option trace.RawMessage;
}.
(** [type flatCallResult struct] *)
Record flatCallResult := mkResult {
  fr_Address : option Address;
  fr_Code : option bytes;
  fr_GasUsed : option Z;
  fr_Output : option bytes;
}.
(** [type flatCallFrame struct] *)
Record flatCallFrame := mkFlat {
  ff_Action : flatCallAction;
  ff_BlockHash : option Hash;
  ff_BlockNumber : Z;
  ff_Error : string;
  ff_Result : option flatCallResult;
  ff_Subtraces : Z;
  ff_TraceAddress : list Z;
  ff_TransactionHash : option Hash;
  ff_TransactionPosition : Z;
  ff_Type : string;
}.
(** A frame of which only the action, the result and the type are set. *)
Definition flatOf (a : flatCallAction) (r : option flatCallResult) (typ : string)
    : flatCallFrame := mkFlat a None 0 EmptyString r 0 [] None 0 typ.

Definition newFlatCreate (input : callFrame) : flatCallFrame :=
  flatOf (mkAction None EmptyString None None EmptyString EmptyString (Some (cf_From input)) None
            (Some (cf_Gas input)) (Some (cf_Input input)) None None None (cf_Value input) None)
    (Some (mkResult (cf_To input) (Some (cf_Output input)) (Some (cf_GasUsed input)) None))
    (ToLower (OpCode_String CREATE)).

Definition newFlatJoinPoint (input : aspectCallFrame callFrame) : flatCallFrame :=
  flatOf (mkAction None EmptyString None None (ToLower (acf_TypeString input)) EmptyString
            (Some (acf_From input)) (Some (acf_Aspect input)) (Some (acf_Gas input)) None
            (Some (acf_Input input)) None (Some (acf_To input)) (acf_Value input)
            (acf_ExecContext input))
    (Some (mkResult None None (Some (acf_GasUsed input)) (Some (acf_Output input))))
    (ToLower (OpCode_String CALL)).

Definition newFlatCall (input : callFrame) : flatCallFrame :=
  flatOf (mkAction None EmptyString None None (ToLower (cf_TypeString input)) EmptyString
            (Some (cf_From input)) None (Some (cf_Gas input)) None (Some (cf_Input input)) None
            (cf_To input) (cf_Value input) None)
    (Some (mkResult None None (Some (cf_GasUsed input)) (Some (cf_Output input))))
    (ToLower (OpCode_String CALL)).

Definition newFlatSuicide (input : callFrame) : flatCallFrame :=
  flatOf (mkAction None EmptyString (Some (cf_From input)) (cf_Value input) EmptyString
            EmptyString None None None None None (cf_To input) None None None)
    None "suicide".

Definition fillCallFrameFromContext (ctx : option Context) (f : flatCallFrame) : flatCallFrame :=
  match ctx with
  | None => f
  | Some c =>
      mkFlat (ff_Action f)
        (if bool_decide (ctx_BlockHash c = zeroHash) then ff_BlockHash f
         else Some (ctx_BlockHash c))
        (match ctx_BlockNumber c with None => ff_BlockNumber f | Some n => u64 (Z.abs n) end)
        (ff_Error f) (ff_Result f) (ff_Subtraces f) (ff_TraceAddress f)
        (if bool_decide (ctx_TxHash c = zeroHash) then ff_TransactionHash f
         else Some (ctx_TxHash c))
        (u64 (ctx_TxIndex c)) (ff_Type f)
  end.

(** The loop of [convertErrorToParity] over the prefixes, in the order of a map
    range. *)
Fixpoint convertByPrefix (l : list (string * string)) (err : string) : string :=
  match l with
  | [] => err
  | (gethError, parityError) :: l =>
      convertByPrefix l (if String.prefix gethError err then parityError else err)
  end.
Definition parityError (err : string) : string :=
  if bool_decide (err = EmptyString) then err
  else match parityErrorMapping !! err with
       | Some e => e
       | None => convertByPrefix parityErrorMappingStartingWith err
       end.
Definition ff_set_Error (e : string) (f : flatCallFrame) : flatCallFrame :=
  mkFlat (ff_Action f) (ff_BlockHash f) (ff_BlockNumber f) e (ff_Result f) (ff_Subtraces f)
    (ff_TraceAddress f) (ff_TransactionHash f) (ff_TransactionPosition f) (ff_Type f).
Definition ff_set_Result (r : option flatCallResult) (f : flatCallFrame) : flatCallFrame :=
  mkFlat (ff_Action f) (ff_BlockHash f) (ff_BlockNumber f) (ff_Error f) r (ff_Subtraces f)
    (ff_TraceAddress f) (ff_TransactionHash f) (ff_TransactionPosition f) (ff_Type f).
Definition ff_set_Place (addr : list Z) (subtraces : Z) (f : flatCallFrame) : flatCallFrame :=
  mkFlat (ff_Action f) (ff_BlockHash f) (ff_BlockNumber f) (ff_Error f) (ff_Result f) subtraces
    addr (ff_TransactionHash f) (ff_TransactionPosition f) (ff_Type f).
Definition convertErrorToParity (call : flatCallFrame) : flatCallFrame :=
  ff_set_Error (parityError (ff_Error call)) call.

(** [func childTraceAddress(a []int, i int) []int] *)
Definition childTraceAddress (a : list Z) (i : Z) : list Z := a ++ [i].

(** The part [flatFromNested] and [flatAspectNested] share: the frame itself. *)
Definition finishFlat (frame : flatCallFrame) (traceAddress : list Z) (error : string)
    (subtraces : Z) (convertErrs : bool) (ctx : option Context) : flatCallFrame :=
  let frame := ff_set_Place traceAddress subtraces (ff_set_Error error frame) in
  let frame := fillCallFrameFromContext ctx frame in
  let frame := if convertErrs then convertErrorToParity frame else frame in
  if negb (bool_decide (error = EmptyString)) && negb (bool_decide (error = Error ErrExecutionReverted))
  then ff_set_Result None frame else frame.

(** One of the loops over the children: those [keep] selects, flattened by [f]
    at the address their index (from [i]) and [shift] give; the first error
    ends it. *)
Fixpoint flatLoop {C : Type} (keep : C -> bool) (f : C -> list Z -> list flatCallFrame + Err)
    (addr : list Z) (shift i : Z) (l : list C) : list flatCallFrame + Err :=
  match l with
  | [] => inl []
  | c :: l =>
      if keep c then
        match f c (childTraceAddress addr (i + shift)) with
        | inr err => inr err
        | inl flat => match flatLoop keep f addr shift (i + 1) l with
                      | inr err => inr err
                      | inl rest => inl (flat ++ rest)
                      end
        end
      else flatLoop keep f addr shift (i + 1) l
  end.

(** [preCallJPCount] after the first loop. *)
Definition preCallCount (l : list (aspectCallFrame callFrame)) : Z :=
  len (List.filter (fun a => trace.IsPreCall (acf_Type a)) l).

Definition newFlat (input : callFrame) : flatCallFrame + Err :=
  let t := cf_Type input in
  if (t =? CREATE) || (t =? CREATE2) then inl (newFlatCreate input)
  else if t =? SELFDESTRUCT then inl (newFlatSuicide input)
  else if (t =? CALL) || (t =? STATICCALL) || (t =? CALLCODE) || (t =? DELEGATECALL) then
    inl (newFlatCall input)
  else inr (errNew ("unrecognized call frame type: " +:+ OpCode_String t)).

(** [flatAspectNested], with [flatFromNested] as an argument *)
Definition flatAspectWith (rec : callFrame -> list Z -> list flatCallFrame + Err)
    (convertErrs : bool) (ctx : option Context) (input : aspectCallFrame callFrame)
    (traceAddress : list Z) : list flatCallFrame + Err :=
  let frame := finishFlat (newFlatJoinPoint input) traceAddress (acf_Error input)
                 (len (acf_Calls input)) convertErrs ctx in
  match flatLoop (fun _ => true) rec traceAddress 0 0 (acf_Calls input) with
  | inr err => inr err
  | inl rest => inl (frame :: rest)
  end.

Fixpoint flatFromNested (convertErrs : bool) (ctx : option Context) (input : callFrame)
    (traceAddress : list Z) : list flatCallFrame + Err :=
  match newFlat input with
  | inr err => inr err
  | inl frame =>
      let frame := finishFlat frame traceAddress (cf_Error input)
                     (len (cf_Calls input) + len (cf_JoinPoints input)) convertErrs ctx in
      let aspect := flatAspectWith (flatFromNested convertErrs ctx) convertErrs ctx in
      match flatLoop (fun a => trace.IsPreCall (acf_Type a)) aspect traceAddress 0 0
              (cf_JoinPoints input) with
      | inr err => inr err
      | inl pre =>
          match flatLoop (fun _ => true) (flatFromNested convertErrs ctx) traceAddress
                  (preCallCount (cf_JoinPoints input)) 0 (cf_Calls input) with
          | inr err => inr err
          | inl calls =>
              match flatLoop (fun a => negb (trace.IsPreCall (acf_Type a))) aspect traceAddress
                      (len (cf_Calls input)) 0 (cf_JoinPoints input) with
              | inr err => inr err
              | inl post => inl (frame :: pre ++ calls ++ post)
              end
          end
      end
  end.
Definition flatAspectNested (convertErrs : bool) (ctx : option Context)
    : aspectCallFrame callFrame -> list Z -> list flatCallFrame + Err :=
  flatAspectWith (flatFromNested convertErrs ctx) convertErrs ctx.

(** [type flatCallTracerConfig struct] and [type flatCallTracer struct] *)
Record flatCallTracerConfig := mkFlatConfig {
  ConvertParityErrors : bool; IncludePrecompiles : bool }.
Record flatCallTracer := mkFlatTracer {
  ft_tracer : callTracer;
  ft_config : flatCallTracerConfig;
  ft_ctx : option Context;
  ft_reason : option Err;
  ft_activePrecompiles : list Address;
}.
Definition ft_set_tracer (x : callTracer) (t : flatCallTracer) : flatCallTracer :=
  mkFlatTracer x (ft_config t) (ft_ctx t) (ft_reason t) (ft_activePrecompiles t).
Definition ft_set_activePrecompiles (x : list Address) (t : flatCallTracer) : flatCallTracer :=
  mkFlatTracer (ft_tracer t) (ft_config t) (ft_ctx t) (ft_reason t) x.

(** The directory's "callTracer" is the constructor [newCallTracer]. *)
Definition newFlatCallTracer (ctx : option Context) (cfg : option trace.RawMessage)
    : flatCallTracer + Err :=
  let config := match cfg with
                | None => inl (mkFlatConfig false false)
                | Some c => trace.Unmarshal c (mkFlatConfig false false)
                end in
  match config with
  | inr err => inr err
  | inl config =>
      match newCallTracer ctx None with
      | inr err => inr err
      | inl tracer => inl (mkFlatTracer tracer config ctx None [])
      end
  end.

(** A method that only forwards to the call tracer. *)
Definition ft_forward (f : callTracer -> res callTracer) (t : flatCallTracer)
    : res flatCallTracer :=
  let? c := f (ft_tracer t) in Ret (ft_set_tracer c t).

Definition ft_CaptureAspectEnter (joinpoint : trace.JoinPointRunType) (from to aspectId : Address)
    (input : bytes) (gas : Z) (value : option Z) (execCtx : trace.Message)
    : flatCallTracer -> res flatCallTracer :=
  ft_forward (ct_CaptureAspectEnter joinpoint from to aspectId input gas value execCtx).
Definition ft_CaptureAspectExit (joinpoint : trace.JoinPointRunType) (result : aspect.JPResult)
    : flatCallTracer -> res flatCallTracer := ft_forward (ct_CaptureAspectExit joinpoint result).
Definition ft_CaptureTxStart (gasLimit : Z) : flatCallTracer -> res flatCallTracer :=
  ft_forward (ct_CaptureTxStart gasLimit).
Definition ft_CaptureTxEnd (d : StateDB.DB) (restGas : Z) : flatCallTracer -> res flatCallTracer :=
  ft_forward (ct_CaptureTxEnd d restGas).

Definition ft_CaptureStart (env : Env) (d : StateDB.DB) (from to : Address) (create : bool)
    (input : bytes) (gas value : Z) (t : flatCallTracer) : res flatCallTracer :=
  let? t := ft_forward (ct_CaptureStart env d from to create input gas value) t in
  Ret (ft_set_activePrecompiles (ActivePrecompiles (chainRules env)) t).

(** [if t.tracer.callstack[last].Value == nil && value == nil { ... = big.NewInt(0) }] *)
Definition zeroValue (value : option Z) (f : callFrame) : callFrame :=
  match cf_Value f, value with None, None => cf_set_Value (Some 0) f | _, _ => f end.
Definition ft_CaptureEnter (typ : OpCode) (from to : Address) (input : bytes) (gas : Z)
    (value : option Z) (t : flatCallTracer) : res flatCallTracer :=
  let? t := ft_forward (ct_CaptureEnter typ from to input gas value) t in
  ft_forward (fun c => at_frame (len (callstack c) - 1) (fun f => Ret (zeroValue value f)) c) t.

Definition ft_isPrecompiled (t : flatCallTracer) (addr : Address) : bool :=
  existsb (fun p => bytes_eqb p addr) (ft_activePrecompiles t).

(** The end of [CaptureExit]: drop the last call of the parent if it is a call
    of a precompile. *)
Definition dropPrecompile (t : flatCallTracer) (parent : callFrame) : res callFrame :=
  let? call := index (cf_Calls parent) (len (cf_Calls parent) - 1) in
  if (cf_Type call =? CALL) || (cf_Type call =? STATICCALL) then
    match cf_To call with
    | None => Panicked NilDeref
    | Some to =>
        Ret (if ft_isPrecompiled t to then
               cf_set_Calls (take (Z.to_nat (len (cf_Calls parent) - 1)) (cf_Calls parent)) parent
             else parent)
    end
  else Ret parent.
Definition ft_CaptureExit (output : bytes) (gasUsed : Z) (err : option Err) (t : flatCallTracer)
    : res flatCallTracer :=
  let? t := ft_forward (ct_CaptureExit output gasUsed err) t in
  if IncludePrecompiles (ft_config t) then Ret t
  else ft_forward (fun c => at_frame (len (callstack c) - 1) (dropPrecompile t) c) t.

Definition ft_GetResult (t : flatCallTracer) : option trace.RawMessage * option Err :=
  match callstack (ft_tracer t) with
  | [] => (None, Some (errNew "invalid number of calls"))
  | f :: _ =>
      match flatFromNested (ConvertParityErrors (ft_config t)) (ft_ctx t) f [] with
      | inr err => (None, Some err)
      | inl flat => marshalled flat (ft_reason t)
      end
  end.
Definition ft_Stop (err : Err) (t : flatCallTracer) : flatCallTracer :=
  ft_set_tracer (ct_Stop err (ft_tracer t)) t.

Definition flat_logger : EVMLogger flatCallTracer := {|
  onTxStart := ft_CaptureTxStart;
  onTxEnd := ft_CaptureTxEnd;
  onStart := ft_CaptureStart;
  onEnd := fun output gasUsed err => ft_forward (ct_CaptureEnd output gasUsed err);
  onEnter := ft_CaptureEnter;
  onExit := ft_CaptureExit;
  onState := fun d pc op gas cost scope rData depth err =>
    ft_forward (ct_CaptureState d pc op gas cost scope rData depth err);
  onFault := fun d pc op gas cost scope depth err =>
    ft_forward (ct_CaptureFault d pc op gas cost scope depth err);
  asAspectLogger := Some {| onAspectEnter := ft_CaptureAspectEnter;
                            onAspectExit := ft_CaptureAspectExit |};
|}.
#[global] Instance flat_tracer : EvmTracer flatCallTracer := {|
  tracer_logger := flat_logger;
  GetResult := ft_GetResult;
  Stop := ft_Stop;
|}.
End FlatTracer.

(** * The calls a traced execution shows *)
Section Spec.
Context {L : Libs} {T : trace.Lib}.
Variables (env : Env) (include : bool).

(** Is [typ] to [to] a call the Parity format leaves out? *)
Definition hiddenCall (typ : OpCode) (to : Address) : bool :=
  negb include && ((typ =? CALL) || (typ =? STATICCALL)) &&
  existsb (fun p => bytes_eqb p to) (ActivePrecompiles (chainRules env)).

Definition addCalls (l : list callFrame) (f : callFrame) : callFrame :=
  cf_set_Calls (cf_Calls f ++ l) f.
(** The frame an item runs in, extended by what the tracer shows of the item. *)
Fixpoint tracedFrame (i : item) (f : callFrame) : callFrame :=
  match i with
  | Step _ _ _ _ _ _ _ _ _ | Fault _ _ _ _ _ _ _ _ => f
  | Sub _ typ from to input gas value body _ output gasUsed err =>
      if hiddenCall typ to then f
      else addCalls [cf_processOutput output err (cf_set_GasUsed gasUsed
             (foldl (fun g i => tracedFrame i g)
                (enterFrame typ from to input gas (Some (default 0 value))) body))] f
  | Point _ jp from to aspectId input gas value execCtx body _ result =>
      exitPoint jp result (foldl (fun g i => tracedFrame i g)
        (pointFrame jp from to aspectId input gas value execCtx f) body)
  end.
Definition tracedFrames (l : list item) (f : callFrame) : callFrame :=
  foldl (fun g i => tracedFrame i g) f l.

(** The aspects make no calls of their own, which would crash the call tracer. *)
Definition isSub (i : item) : bool :=
  match i with Sub _ _ _ _ _ _ _ _ _ _ _ _ => true | _ => false end.
Definition callFree (i : item) : Prop :=
  match i with
  | Point _ _ _ _ _ _ _ _ _ body _ _ => Forall (fun j => isSub j = false) body
  | _ => True
  end.
Definition traceable (i : item) : Prop := encoded i /\ callFree i.

Lemma addCalls_nil f : addCalls [] f = f.
Proof. unfold addCalls. rewrite app_nil_r. by destruct f. Qed.
Lemma tracedFrame_point i f :
  cf_joinPoint f = trace.JoinPointRunType_Unknown ->
  cf_joinPoint (tracedFrame i f) = trace.JoinPointRunType_Unknown.
Proof. destruct i; cbn; [done|done|by destruct (hiddenCall _ _)|done]. Qed.
Lemma zeroValue_enter typ from to input gas value :
  zeroValue value (enterFrame typ from to input gas value)
  = enterFrame typ from to input gas (Some (default 0 value)).
Proof. by destruct value. Qed.
Lemma processOutput_Type output err f : cf_Type (cf_processOutput output err f) = cf_Type f.
Proof. destruct err; cbn; repeat case_match; done. Qed.
Lemma processOutput_To output err f :
  (cf_Type f =? CALL) || (cf_Type f =? STATICCALL) = true ->
  cf_To (cf_processOutput output err f) = cf_To f.
Proof.
  intros H. assert (Hc : (cf_Type f =? CREATE) || (cf_Type f =? CREATE2) = false).
  { apply orb_true_iff in H as [->%Z.eqb_eq| ->%Z.eqb_eq]; done. }
  destruct err; cbn [cf_processOutput]; [|done]. cbn [cf_Type cf_set_Error]. rewrite Hc.
  repeat case_match; done.
Qed.
Lemma appendCall_plain call f :
  cf_joinPoint f = trace.JoinPointRunType_Unknown -> appendCall call f = Ret (addCalls [call] f).
Proof. intros H. unfold appendCall. by rewrite bool_decide_eq_true_2. Qed.

(** The tracer with the open frames [st]. *)
Variables (gasLimit : Z) (reason : option Err) (convert : bool) (ctx : option Context).
Definition flatOpen (pcs : list Address) (st : list callFrame) : flatCallTracer :=
  mkFlatTracer (open (mkCallConfig false false) gasLimit reason st) (mkFlatConfig convert include)
    ctx None pcs.
Abbreviation running := (flatOpen (ActivePrecompiles (chainRules env))).

Lemma drop_exit g f typ to :
  cf_Type g = typ -> ((typ =? CALL) || (typ =? STATICCALL) = true -> cf_To g = Some to) ->
  include = false ->
  dropPrecompile (running []) (addCalls [g] f) = Ret (addCalls (if hiddenCall typ to then [] else [g]) f).
Proof.
  intros Ht Hto Hinc. unfold dropPrecompile, hiddenCall, addCalls. rewrite Hinc. cbn [cf_Calls cf_set_Calls].
  rewrite index_last. cbn [rbind negb andb]. rewrite Ht.
  destruct ((typ =? CALL) || (typ =? STATICCALL)) eqn:E; cbn [andb]; [|done].
  rewrite Hto by done. unfold ft_isPrecompiled. cbn [ft_activePrecompiles flatOpen].
  destruct (existsb _ _); [|done]. rewrite len_app. change (len [g]) with 1.
  rewrite Z.add_simpl_r. unfold len. rewrite Nat2Z.id, take_app_length, app_nil_r. done.
Qed.

Lemma flat_exit st f g typ to output gasUsed err :
  cf_joinPoint f = trace.JoinPointRunType_Unknown -> cf_Type g = typ -> cf_To g = Some to ->
  ft_CaptureExit output gasUsed err (running ((st ++ [f]) ++ [g]))
  = Ret (running (st ++ [addCalls (if hiddenCall typ to then []
      else [cf_processOutput output err (cf_set_GasUsed gasUsed g)]) f])).
Proof.
  intros Hj Ht Hto. unfold ft_CaptureExit, ft_forward. cbn [ft_tracer flatOpen].
  rewrite exit_item, appendCall_plain by done. cbn [rbind].
  set (g' := cf_processOutput _ _ _).
  change (IncludePrecompiles (ft_config (ft_set_tracer _ _))) with include.
  destruct (Bool.bool_dec include true) as [Hinc|Hinc%not_true_is_false]; rewrite Hinc.
  - unfold hiddenCall. by rewrite Hinc.
  - cbn [ft_tracer ft_set_tracer].
    erewrite (at_last st (addCalls [g'] f)) by done.
    change (dropPrecompile _ ?x) with (dropPrecompile (running []) x).
    rewrite (drop_exit g' f typ to); [done| |  |done].
    + subst g'. rewrite processOutput_Type. done.
    + intros E. subst g'. by rewrite processOutput_To; cbn; rewrite ?Ht.
Qed.

(** What feeding an item does; a sub-call needs a frame no aspect runs in. *)
Definition flat_feeds (i : item) : Prop :=
  everywhere traceable i -> forall st f,
  (isSub i = true -> cf_joinPoint f = trace.JoinPointRunType_Unknown) ->
  feed env (flatten i) (running (st ++ [f])) = Ret (running (st ++ [tracedFrame i f])).
Lemma flat_feeds_items l : Forall flat_feeds l -> Forall (everywhere traceable) l -> forall st f,
  cf_joinPoint f = trace.JoinPointRunType_Unknown \/ Forall (fun i => isSub i = false) l ->
  feed env (concat (map flatten l)) (running (st ++ [f])) = Ret (running (st ++ [tracedFrames l f])).
Proof.
  intros Hl. induction Hl as [|i l Hi _ IH]; intros He st f Hf; [done|].
  apply Forall_cons in He as [He Hes]. cbn [map concat]. rewrite feed_app, Hi; [|done|].
  - cbn [rbind]. apply IH; [done|]. destruct Hf as [Hf|Hf].
    + left. by apply tracedFrame_point.
    + right. by apply Forall_cons in Hf as [_ Hf].
  - intros Hs. destruct Hf as [Hf|Hf]; [done|]. apply Forall_cons in Hf as [Hf _]. congruence.
Qed.

Lemma flat_enter st f typ from to input gas value :
  ft_CaptureEnter typ from to input gas value (running (st ++ [f]))
  = Ret (running ((st ++ [f]) ++ [enterFrame typ from to input gas (Some (default 0 value))])).
Proof.
  unfold ft_CaptureEnter, ft_forward.
  change (ct_CaptureEnter _ _ _ _ _ _ _) with (Ret (open (mkCallConfig false false) gasLimit
    reason ((st ++ [f]) ++ [enterFrame typ from to input gas value]))).
  cbn [rbind ft_tracer ft_set_tracer]. erewrite at_last by done. cbn [rbind].
  by rewrite zeroValue_enter.
Qed.
Lemma foldl_keeps {A B C} (g : B -> C) (step : B -> A -> B) l : forall b,
  (forall b a, g (step b a) = g b) -> g (foldl step b l) = g b.
Proof. induction l as [|a l IH]; intros b H; [done|]. cbn. by rewrite IH. Qed.
Lemma tracedFrame_Type i f : cf_Type (tracedFrame i f) = cf_Type f.
Proof.
  revert f. induction i as [| |d typ from to input gas value body d' output gasUsed err IH
    |d jp from to aspectId input gas value execCtx body d' result IH] using item_ind'; intros f;
    cbn [tracedFrame]; [done|done|by destruct (hiddenCall _ _)|].
  change (cf_Type (exitPoint jp result ?g)) with (cf_Type g).
  transitivity (cf_Type (pointFrame jp from to aspectId input gas value execCtx f)).
  - clear -IH. generalize (pointFrame jp from to aspectId input gas value execCtx f).
    induction IH as [|i l Hi _ IH]; intros g; [done|]. cbn [foldl]. by rewrite IH.
  - unfold pointFrame. by destruct (trace.Marshal _).
Qed.
Lemma tracedFrame_To i f : cf_To (tracedFrame i f) = cf_To f.
Proof.
  revert f. induction i as [| |d typ from to input gas value body d' output gasUsed err IH
    |d jp from to aspectId input gas value execCtx body d' result IH] using item_ind'; intros f;
    cbn [tracedFrame]; [done|done|by destruct (hiddenCall _ _)|].
  change (cf_To (exitPoint jp result ?g)) with (cf_To g).
  transitivity (cf_To (pointFrame jp from to aspectId input gas value execCtx f)).
  - clear -IH. generalize (pointFrame jp from to aspectId input gas value execCtx f).
    induction IH as [|i l Hi _ IH]; intros g; [done|]. cbn [foldl]. by rewrite IH.
  - unfold pointFrame. by destruct (trace.Marshal _).
Qed.

Lemma flat_feed_item i : flat_feeds i.
Proof.
  induction i as [| |d typ from to input gas value body d' output gasUsed err IH
    |d jp from to aspectId input gas value execCtx body d' result IH] using item_ind'; intros He st f Hj.
  - cbn. unfold ft_forward, ct_CaptureState. cbn. by destruct (is_nil err).
  - done.
  - pose proof (everywhere_below _ _ He) as Hb. cbn [body_of] in Hb.
    cbn [flatten feed dispatch onEnter tracer_logger flat_tracer flat_logger tracedFrame].
    rewrite flat_enter. cbn [rbind]. rewrite feed_app, flat_feeds_items by (done || by left).
    cbn [rbind feed dispatch onExit tracer_logger flat_tracer flat_logger].
    rewrite (flat_exit st f _ typ to);
      [|by apply Hj|by apply (foldl_keeps cf_Type); intros; apply tracedFrame_Type
       |by apply (foldl_keeps cf_To); intros; apply tracedFrame_To].
    cbn [rbind]. destruct (hiddenCall typ to); [by rewrite addCalls_nil|done].
  - pose proof (everywhere_below _ _ He) as Hb. apply everywhere_here in He as [[raw He] Hc].
    cbn [body_of callFree] in *.
    cbn [flatten feed dispatch asAspectLogger onAspectEnter tracer_logger flat_tracer flat_logger].
    unfold ft_CaptureAspectEnter, ft_forward at 1. cbn [ft_tracer flatOpen].
    rewrite (enter_point _ _ _ _ _ _ _ _ _ _ _ _ _ _ He). cbn [rbind].
    change (ft_set_tracer (open _ _ _ ?x) _) with (running x).
    rewrite feed_app, flat_feeds_items by (done || by right).
    cbn [rbind feed dispatch asAspectLogger onAspectExit tracer_logger flat_tracer flat_logger].
    unfold ft_CaptureAspectExit, ft_forward. cbn [ft_tracer flatOpen]. by rewrite exit_point.
Qed.
Lemma flat_feed_items l st f :
  Forall (everywhere traceable) l -> cf_joinPoint f = trace.JoinPointRunType_Unknown ->
  feed env (concat (map flatten l)) (running (st ++ [f])) = Ret (running (st ++ [tracedFrames l f])).
Proof.
  intros He Hf. by apply flat_feeds_items; [apply Forall_true, flat_feed_item| |left].
Qed.
End Spec.

(** * Trace addresses *)

(** A tree of traces, and its nodes in pre-order, each with its address (the
    path of child indices from the root) and its number of children. *)
Inductive shape := Node (children : list shape).
Fixpoint preorder (addr : list Z) (t : shape) : list (list Z * Z) :=
  match t with
  | Node cs => (addr, len cs) ::
      (fix go (i : Z) (cs : list shape) : list (list Z * Z) :=
         match cs with
         | [] => []
         | c :: cs => preorder (addr ++ [i]) c ++ go (i + 1) cs
         end) 0 cs
  end.
Fixpoint forest (addr : list Z) (i : Z) (cs : list shape) : list (list Z * Z) :=
  match cs with
  | [] => []
  | c :: cs => preorder (addr ++ [i]) c ++ forest addr (i + 1) cs
  end.
Lemma preorder_node addr cs : preorder addr (Node cs) = (addr, len cs) :: forest addr 0 cs.
Proof.
  cbn [preorder]. f_equal. generalize 0. induction cs as [|c cs IH]; intros i; [done|].
  cbn [forest]. by f_equal.
Qed.
Lemma forest_app addr cs cs' i :
  forest addr i (cs ++ cs') = forest addr i cs ++ forest addr (i + len cs) cs'.
Proof.
  revert i. induction cs as [|c cs IH]; intros i; [by rewrite Z.add_0_r|].
  cbn [app forest]. rewrite IH, app_assoc. do 2 f_equal. unfold len. cbn [length]. lia.
Qed.

Lemma shape_ind' (P : shape -> Prop) :
  (forall cs, Forall P cs -> P (Node cs)) -> forall t, P t.
Proof.
  intros H. fix IH 1. intros [cs]. apply H. induction cs as [|c cs IHc]; constructor; [apply IH|done].
Qed.

(** Addresses below a node extend its address. *)
Lemma forest_prefix addr cs i a n :
  Forall (fun c => forall addr a n, (a, n) ∈ preorder addr c -> addr `prefix_of` a) cs ->
  (a, n) ∈ forest addr i cs -> exists j, i <= j /\ addr ++ [j] `prefix_of` a.
Proof.
  intros H. revert i. induction H as [|c cs Hc _ IH]; intros i Ha; [by apply elem_of_nil in Ha|].
  cbn in Ha. apply elem_of_app in Ha as [Ha|Ha].
  - exists i. split; [done|]. by eapply Hc.
  - apply IH in Ha as (j & Hj & Ha). exists j. split; [lia|done].
Qed.
Lemma preorder_prefix t : forall addr a n, (a, n) ∈ preorder addr t -> addr `prefix_of` a.
Proof.
  induction t as [cs IH] using shape_ind'. intros addr a n Ha. rewrite preorder_node in Ha.
  apply elem_of_cons in Ha as [[= -> ->]|Ha]; [done|].
  apply forest_prefix in Ha as (j & _ & Ha); [|done].
  etrans; [|exact Ha]. by apply prefix_app_r.
Qed.
Lemma prefix_snoc_inj (addr : list Z) i j a :
  addr ++ [i] `prefix_of` a -> addr ++ [j] `prefix_of` a -> i = j.
Proof.
  intros [x ->] [y H]. rewrite <- !app_assoc in H. apply app_inv_head in H. by injection H.
Qed.
Lemma NoDup_addresses t : forall addr, NoDup (preorder addr t).*1.
Proof.
  induction t as [cs IH] using shape_ind'. intros addr. rewrite preorder_node. cbn [fmap list_fmap].
  apply NoDup_cons. split.
  - cbn. intros ([a n] & E & Ha)%list_elem_of_fmap. cbn in E. subst.
    apply forest_prefix in Ha as (j & _ & x & H); [|apply Forall_true, preorder_prefix].
    apply (f_equal length) in H. rewrite !length_app in H. cbn in H. lia.
  - generalize 0. induction IH as [|c cs Hc _ IH]; intros i; [constructor|].
    cbn [forest]. rewrite fmap_app. apply NoDup_app. split_and!; [done| |done].
    intros a ([a1 n1] & -> & H1)%list_elem_of_fmap ([a2 n2] & E & H2)%list_elem_of_fmap.
    cbn in E. subst a2. apply preorder_prefix in H1.
    apply forest_prefix in H2 as (j & Hj & H2); [|apply Forall_true, preorder_prefix].
    pose proof (prefix_snoc_inj _ _ _ _ H1 H2). lia.
Qed.

Section Claims.
Context {L : Libs} {T : trace.Lib}.

(** The tree of a call frame: the join points before the call, its sub-calls,
    the join points after it. *)
Fixpoint pick {A B} (keep : A -> bool) (f : A -> B) (l : list A) : list B :=
  match l with
  | [] => []
  | x :: l => if keep x then f x :: pick keep f l else pick keep f l
  end.
Abbreviation isPre := (fun a => trace.IsPreCall (acf_Type a)).
Abbreviation isPost := (fun a => negb (trace.IsPreCall (acf_Type a))).
Fixpoint shapeOf (f : callFrame) : shape :=
  let aspectShape a := Node (map shapeOf (acf_Calls a)) in
  Node (pick isPre aspectShape (cf_JoinPoints f) ++ map shapeOf (cf_Calls f) ++
        pick isPost aspectShape (cf_JoinPoints f)).
Definition aspectShape (a : aspectCallFrame callFrame) : shape := Node (map shapeOf (acf_Calls a)).

(** A frame the tracer can list: its type and those below it are known, and the
    join points before a call were recorded before those after it. *)
Inductive listable : callFrame -> Prop :=
  | listable_frame f pre post :
      (exists fr, newFlat f = inl fr) ->
      cf_JoinPoints f = pre ++ post ->
      Forall (fun a => isPre a = true) pre -> Forall (fun a => isPre a = false) post ->
      (forall g, child f g -> listable g) ->
      listable f.

Definition place (f : flatCallFrame) : list Z * Z := (ff_TraceAddress f, ff_Subtraces f).
Lemma place_finish frame addr error n convertErrs ctx :
  place (finishFlat frame addr error n convertErrs ctx) = (addr, n).
Proof. unfold finishFlat. destruct ctx, convertErrs; case_match; done. Qed.

Section Loop.
Context {C : Type} (keep : C -> bool) (f : C -> list Z -> list flatCallFrame + Err)
  (sh : C -> shape).
(** [f] lists the tree [sh c] of [c]. *)
Definition lists (c : C) : Prop :=
  forall addr, exists out, f c addr = inl out /\ map place out = preorder addr (sh c).

Lemma flatLoop_kept addr shift i l :
  Forall (fun c => keep c = true) l -> Forall lists l ->
  exists out, flatLoop keep f addr shift i l = inl out /\
    map place out = forest addr (i + shift) (map sh l).
Proof.
  intros Hk. revert i. induction Hk as [|c l Hc _ IH]; intros i Hl; [by exists []|].
  inversion Hl as [|? ? Hf Hl']; subst. destruct (Hf (childTraceAddress addr (i + shift))) as (o & E & Ho).
  destruct (IH (i + 1) Hl') as (o' & E' & Ho'). exists (o ++ o'). cbn [flatLoop map forest].
  rewrite Hc, E, E', map_app, Ho, Ho'. split; [done|].
  by replace (i + 1 + shift) with (i + shift + 1) by lia.
Qed.
Lemma flatLoop_skip addr shift i l l' :
  Forall (fun c => keep c = false) l ->
  flatLoop keep f addr shift i (l ++ l') = flatLoop keep f addr shift (i + len l) l'.
Proof.
  intros H. revert i. induction H as [|c l Hc _ IH]; intros i; [by rewrite Z.add_0_r|].
  cbn [app flatLoop]. rewrite Hc, IH. f_equal. unfold len. cbn [length]. lia.
Qed.
Lemma flatLoop_tail addr shift i l l' :
  Forall (fun c => keep c = false) l' ->
  flatLoop keep f addr shift i (l ++ l') = flatLoop keep f addr shift i l.
Proof.
  intros H. revert i. induction l as [|c l IH]; intros i; cbn [app flatLoop].
  - rewrite <- (app_nil_r l'), flatLoop_skip by done. done.
  - by rewrite IH.
Qed.
End Loop.

Lemma pick_split {A B} (keep : A -> bool) (f : A -> B) l l' :
  Forall (fun x => keep x = true) l -> Forall (fun x => keep x = false) l' ->
  pick keep f (l ++ l') = map f l /\ pick (fun x => negb (keep x)) f (l ++ l') = map f l' /\
  List.filter keep (l ++ l') = l.
Proof.
  intros H H'. induction H as [|x l Hx _ (IH1 & IH2 & IH3)]; cbn.
  - induction H' as [|x l' Hx _ (IH1 & IH2 & IH3)]; [done|]. cbn. rewrite Hx. cbn.
    by rewrite IH1, IH2, IH3.
  - rewrite Hx. cbn. by rewrite IH1, IH2, IH3.
Qed.

Lemma aspect_lists convertErrs ctx a :
  Forall (lists (flatFromNested convertErrs ctx) shapeOf) (acf_Calls a) ->
  lists (flatAspectNested convertErrs ctx) aspectShape a.
Proof.
  intros H addr. unfold flatAspectNested, flatAspectWith.
  destruct (flatLoop_kept (fun _ => true) (flatFromNested convertErrs ctx) shapeOf addr 0 0
    (acf_Calls a)) as (o & E & Ho); [by apply Forall_true|done|].
  rewrite E. eexists. split; [done|]. cbn [map]. rewrite place_finish, Ho.
  unfold aspectShape. rewrite preorder_node. unfold len. by rewrite length_map.
Qed.
Lemma listable_lists convertErrs ctx f :
  listable f -> lists (flatFromNested convertErrs ctx) shapeOf f.
Proof.
  induction 1 as [f pre post [fr Hfr] Hjp Hpre Hpost _ IH]. intros addr.
  assert (Hcalls : Forall (lists (flatFromNested convertErrs ctx) shapeOf) (cf_Calls f)).
  { apply Forall_forall. intros g Hg. apply IH. by left. }
  assert (Hasp : Forall (lists (flatAspectNested convertErrs ctx) aspectShape) (pre ++ post)).
  { apply Forall_forall. intros a Ha. apply aspect_lists, Forall_forall. intros g Hg.
    apply IH. right. exists a. by rewrite Hjp. }
  apply Forall_app in Hasp as [Ha1 Ha2].
  assert (Hn : Forall (fun a => isPost a = false) pre).
  { eapply Forall_impl; [exact Hpre|]. by intros a ->. }
  assert (Hp : Forall (fun a => isPost a = true) post).
  { eapply Forall_impl; [exact Hpost|]. by intros a ->. }
  destruct (pick_split isPre aspectShape pre post Hpre Hpost) as (E1 & E2 & E3).
  destruct (flatLoop_kept isPre (flatAspectNested convertErrs ctx) aspectShape addr 0 0 pre
    Hpre Ha1) as (o1 & H1 & P1).
  destruct (flatLoop_kept (fun _ => true) (flatFromNested convertErrs ctx) shapeOf addr (len pre) 0
    (cf_Calls f) ltac:(by apply Forall_true) Hcalls) as (o2 & H2 & P2).
  destruct (flatLoop_kept isPost (flatAspectNested convertErrs ctx) aspectShape addr
    (len (cf_Calls f)) (0 + len pre) post Hp Ha2) as (o3 & H3 & P3).
  destruct f as [typ from gas gu to input output error reason calls logs jps v jp].
  cbn [cf_JoinPoints cf_Calls] in *. subst jps.
  cbn [flatFromNested cf_JoinPoints cf_Calls]. rewrite Hfr.
  change (flatAspectWith _ convertErrs ctx) with (flatAspectNested convertErrs ctx).
  rewrite flatLoop_tail, H1 by done. unfold preCallCount. rewrite E3, H2.
  rewrite flatLoop_skip, H3 by done. eexists. split; [done|]. cbn [map].
  rewrite place_finish, !map_app, P1, P2, P3. cbn [shapeOf cf_JoinPoints cf_Calls].
  change (fun a => Node (map shapeOf (acf_Calls a))) with aspectShape. rewrite E1, E2, preorder_node.
  unfold len. rewrite !length_app, !length_map, !forest_app. unfold len. rewrite !length_map.
  by replace (Z.of_nat (length calls) + _) with (Z.of_nat (length pre + (length calls + length post)))
    by lia.
Qed.

(** C31: the flat tracer lists every trace of the transaction once, in pre-order,
    under an address of its own. For a tree whose types are known and whose
    join points before a call precede those after it, [flatFromNested]
    succeeds; the addresses and the numbers of sub-traces it reports are those
    of the tree, and no two entries share an address. *)
Theorem flat_addresses convertErrs ctx f :
  listable f ->
  exists out, flatFromNested convertErrs ctx f [] = inl out /\
    map place out = preorder [] (shapeOf f) /\ NoDup (map ff_TraceAddress out).
Proof.
  intros H. destruct (listable_lists convertErrs ctx f H []) as (out & E & P).
  exists out. split_and!; [done|done|].
  replace (map ff_TraceAddress out) with (map place out).*1 by (by rewrite <- list_fmap_compose).
  rewrite P. apply NoDup_addresses.
Qed.

(** Fed the events of a transaction, the flat tracer ends with one frame. *)
Lemma flat_feed_transaction env include gasLimit reason convert ctx pcs d from to create input
    gas value items d' output gasUsed err :
  Forall (everywhere traceable) items ->
  feed env ((d, CaptureStart from to create input gas value) ::
            concat (map flatten items) ++ [(d', CaptureEnd output gasUsed err)])
    (flatOpen include gasLimit reason convert ctx pcs [zeroFrame])
  = Ret (flatOpen include gasLimit reason convert ctx (ActivePrecompiles (chainRules env))
      [cf_processOutput output err
         (tracedFrames env include items (startFrame gasLimit from to create input value))]).
Proof.
  intros He. cbn [feed].
  change (dispatch env d (CaptureStart from to create input gas value)
            (flatOpen include gasLimit reason convert ctx pcs [zeroFrame]))
    with (Ret (flatOpen include gasLimit reason convert ctx (ActivePrecompiles (chainRules env))
            ([] ++ [startFrame gasLimit from to create input value]))).
  cbn [rbind]. rewrite feed_app, flat_feed_items by done. done.
Qed.

(** C32: the flat tracer keeps the call tree of the execution, without the calls
    of precompiles unless they are asked for. Fed the events of a transaction
    (start, any nesting of steps, faults, sub-calls and runs of aspects, end),
    it does not panic and ends with one frame, the one defined by recursion on
    the execution. The aspects make no calls of their own and their execution
    contexts can be encoded. *)
Theorem flat_tracer_builds_tree env include gasLimit reason convert ctx pcs d from to create input
    gas value items d' output gasUsed err :
  Forall (everywhere traceable) items ->
  feed env ((d, CaptureStart from to create input gas value) ::
            concat (map flatten items) ++ [(d', CaptureEnd output gasUsed err)])
    (flatOpen include gasLimit reason convert ctx pcs [zeroFrame])
  = Ret (flatOpen include gasLimit reason convert ctx (ActivePrecompiles (chainRules env))
      [cf_processOutput output err
         (tracedFrames env include items (startFrame gasLimit from to create input value))]).
Proof. apply flat_feed_transaction. Qed.

(** A stopped flat tracer reports no error: [GetResult] returns a reason that
    nothing sets. *)
Theorem flat_stop_unreported err t : GetResult (Stop err t) = GetResult t.
Proof. done. Qed.

(** A flat tracer stopped before its first sub-call crashes when that call
    returns: [CaptureEnter] does not open a frame, and [CaptureExit] looks for
    the last call of the root. *)
Theorem flat_stop_panics gasLimit reason convert ctx pcs err f typ from to input gas value output
    gasUsed err' :
  cf_Calls f = [] ->
  (let? t := ft_CaptureEnter typ from to input gas value
               (Stop err (flatOpen false gasLimit reason convert ctx pcs [f])) in
   ft_CaptureExit output gasUsed err' t) = Panicked IndexRange.
Proof.
  intros H. destruct f as [? ? ? ? ? ? ? ? ? calls ? ? v ?]. cbn in H. subst calls.
  by destruct value, v.
Qed.
End Claims.

(** * Witnesses *)
From S2P Require Import Instances Core Sample.

(** A call with a join point before and after it, and two sub-calls, the
    second with a sub-call of its own. *)
Definition leafCall : callFrame := enterFrame CALL alice bob [] 10 (Some 0).
Definition sampleJoinPoint (n : nat) : aspectCallFrame callFrame :=
  mkAspectFrame n bob alice 5 2 bob [] [] EmptyString EmptyString None [] (Some 0).
Definition sampleTree : callFrame :=
  cf_set_JoinPoints [sampleJoinPoint 1; sampleJoinPoint 2]
    (cf_set_Calls [leafCall; cf_set_Calls [leafCall] leafCall] leafCall).
Lemma leafCall_listable : listable leafCall.
Proof.
  apply (listable_frame leafCall [] []); [by eexists|done|constructor..|].
  intros g [Hg|(a & Ha & _)]; by apply elem_of_nil in Hg || apply elem_of_nil in Ha.
Qed.
Lemma sampleTree_listable : listable sampleTree.
Proof.
  apply (listable_frame sampleTree [sampleJoinPoint 1] [sampleJoinPoint 2]);
    [by eexists|done|by repeat constructor..|].
  intros g [Hg|(a & Ha & Hg)].
  - apply elem_of_cons in Hg as [->|Hg]; [exact leafCall_listable|].
    apply list_elem_of_singleton in Hg as ->.
    apply (listable_frame _ [] []); [by eexists|done|constructor..|].
    intros g [Hg|(a & Ha & _)]; [|by apply elem_of_nil in Ha].
    apply list_elem_of_singleton in Hg as ->. exact leafCall_listable.
  - apply elem_of_cons in Ha as [->|Ha]; [by apply elem_of_nil in Hg|].
    apply list_elem_of_singleton in Ha as ->. by apply elem_of_nil in Hg.
Qed.
Lemma flat_addresses_witness :
  exists out, flatFromNested true None sampleTree [] = inl out /\
    map ff_TraceAddress out = [[]; [0]; [1]; [2]; [2; 0]; [3]] /\ NoDup (map ff_TraceAddress out).
Proof.
  destruct (flat_addresses true None sampleTree sampleTree_listable) as (out & E & _ & H).
  exists out. split; [exact E|]. split; [|exact H].
  assert (A : match flatFromNested true None sampleTree [] with
              | inl l => bool_decide (map ff_TraceAddress l = [[]; [0]; [1]; [2]; [2; 0]; [3]])
              | inr _ => false end = true) by (vm_compute; reflexivity).
  rewrite E in A. by apply bool_decide_eq_true in A.
Defined.

Lemma sampleItems_traceable : Forall (everywhere traceable) sampleItems.
Proof. repeat constructor; by eexists. Qed.
Lemma flat_tracer_builds_tree_witness :
  exists f, feed sampleEnv ((dbWith [], CaptureStart alice bob false [] 100 0) ::
      concat (map flatten sampleItems) ++ [(dbWith [], CaptureEnd [] 20 None)])
    (flatOpen false 100 None false None [] [zeroFrame])
    = Ret (flatOpen false 100 None false None (ActivePrecompiles (chainRules sampleEnv)) [f]) /\
    map (fun g => len (cf_JoinPoints g)) (cf_Calls f) = [1].
Proof.
  eexists. split.
  - exact (flat_tracer_builds_tree sampleEnv false 100 None false None [] (dbWith []) alice bob false
      [] 100 0 sampleItems (dbWith []) [] 20 None sampleItems_traceable).
  - vm_compute. reflexivity.
Defined.

(** Without the order of the join points the addresses may collide: the shift of
    the calls counts the join points before the call wherever they were
    recorded, that of the join points after it does not. *)
Example flat_addresses_collide :
  (fun l => map ff_TraceAddress l) <$>
    (match flatFromNested true None (cf_set_JoinPoints [sampleJoinPoint 2; sampleJoinPoint 1]
             (cf_set_Calls [leafCall] leafCall)) [] with inl l => Some l | inr _ => None end)
  = Some [[]; [1]; [1]; [1]].
Proof. vm_compute. reflexivity. Qed.
