(* ===== verification/FourByte.v ===== *)
(** The four-byte tracer (tracers/native/4byte.go): it counts the selectors of
    the calls of a transaction, with the sizes of their arguments. *)
From S2P Require Import Prelude Opcodes Errors Externals Stack Memory Analysis Contract Tracer.
From S2P Require Import Machine Precompiles EvmLogger.

Section FourByte.
Context {L : Libs} {T : trace.Lib}.

(** [common.Bytes2Hex] *)
Definition Bytes2Hex (b : bytes) : string :=
  foldr (fun x s => hex_digit (x / 16) +:+ hex_digit (x mod 16) +:+ s) EmptyString b.
Definition bytesToHex (s : bytes) : string := "0x" +:+ Bytes2Hex s.

(** [type fourByteTracer struct]; a key that is absent counts zero. *)
Record fourByteTracer := mkFourByte {
  ids : gmap string Z;
  fb_interrupt : bool;
  fb_reason : option Err;
  fb_activePrecompiles : list Address;
}.
Definition newFourByteTracer (ctx : option Context) (cfg : option trace.RawMessage)
    : fourByteTracer + Err := inl (mkFourByte ∅ false None []).

Definition fb_isPrecompiled (t : fourByteTracer) (addr : Address) : bool :=
  existsb (fun p => bytes_eqb p addr) (fb_activePrecompiles t).

(** The key of [store] *)
Definition idKey (id : bytes) (size : Z) : string := bytesToHex id +:+ "-" +:+ pretty size.
Definition fb_store (id : bytes) (size : Z) (t : fourByteTracer) : fourByteTracer :=
  let key := idKey id size in
  mkFourByte (<[key := i64 (default 0 (ids t !! key) + 1)]> (ids t)) (fb_interrupt t)
    (fb_reason t) (fb_activePrecompiles t).

Definition fb_CaptureStart (env : Env) (d : StateDB.DB) (from to : Address) (create : bool)
    (input : bytes) (gas value : Z) (t : fourByteTracer) : res fourByteTracer :=
  let t := mkFourByte (ids t) (fb_interrupt t) (fb_reason t)
             (ActivePrecompiles (chainRules env)) in
  if 4 <=? len input then
    let? id := slice input 0 4 in Ret (fb_store id (len input - 4) t)
  else Ret t.

Definition fb_CaptureEnter (op : OpCode) (from to : Address) (input : bytes) (gas : Z)
    (value : option Z) (t : fourByteTracer) : res fourByteTracer :=
  if fb_interrupt t then Ret t
  else if len input <? 4 then Ret t
  else if negb (op =? DELEGATECALL) && negb (op =? STATICCALL) && negb (op =? CALL) &&
          negb (op =? CALLCODE) then Ret t
  else if fb_isPrecompiled t to then Ret t
  else let? id := slice input 0 4 in Ret (fb_store id (len input - 4) t).

Definition fb_GetResult (t : fourByteTracer) : option trace.RawMessage * option Err :=
  marshalled (ids t) (fb_reason t).
Definition fb_Stop (err : Err) (t : fourByteTracer) : fourByteTracer :=
  mkFourByte (ids t) true (Some err) (fb_activePrecompiles t).

(** The other methods are those of the embedded no-op tracer. *)
Definition four_byte_logger : EVMLogger fourByteTracer := {|
  onTxStart := fun _ t => Ret t;
  onTxEnd := fun _ _ t => Ret t;
  onStart := fb_CaptureStart;
  onEnd := fun _ _ _ t => Ret t;
  onEnter := fb_CaptureEnter;
  onExit := fun _ _ _ t => Ret t;
  onState := fun _ _ _ _ _ _ _ _ _ t => Ret t;
  onFault := fun _ _ _ _ _ _ _ _ t => Ret t;
  asAspectLogger := None;
|}.
#[global] Instance four_byte_tracer : EvmTracer fourByteTracer := {|
  tracer_logger := four_byte_logger;
  GetResult := fb_GetResult;
  Stop := fb_Stop;
|}.

(** * Counting *)

(** Distinct selectors and sizes have distinct keys. *)
Lemma hex_digit_char n : (n < 16)%nat -> exists c, hex_digit (Z.of_nat n) = String c EmptyString.
Proof. intros H. do 16 (destruct n as [|n]; [by eexists|]). lia. Qed.
Lemma hex_digit_nat_inj n m :
  (n < 16)%nat -> (m < 16)%nat -> hex_digit (Z.of_nat n) = hex_digit (Z.of_nat m) -> n = m.
Proof.
  intros Hn Hm. do 16 (destruct n as [|n]; [do 16 (destruct m as [|m]; [done|]); lia|]). lia.
Qed.
Lemma hex_digit_inj a b s s' :
  0 <= a < 16 -> 0 <= b < 16 -> hex_digit a +:+ s = hex_digit b +:+ s' -> a = b /\ s = s'.
Proof.
  intros Ha Hb H. rewrite <- (Z2Nat.id a), <- (Z2Nat.id b) in H by lia.
  destruct (hex_digit_char (Z.to_nat a)) as [c Ec]; [lia|].
  destruct (hex_digit_char (Z.to_nat b)) as [c' Ec']; [lia|].
  rewrite Ec, Ec' in H. injection H as -> H. split; [|exact H].
  apply Z2Nat.inj; [lia..|]. apply hex_digit_nat_inj; [lia..|]. by rewrite Ec, Ec'.
Qed.
Lemma byte_digits x y : is_byte x -> is_byte y -> x / 16 = y / 16 -> x mod 16 = y mod 16 -> x = y.
Proof. intros _ _ H1 H2. rewrite (Z.div_mod x 16), (Z.div_mod y 16), H1, H2; lia. Qed.
Lemma byte_digit_bounds x : is_byte x -> 0 <= x / 16 < 16 /\ 0 <= x mod 16 < 16.
Proof.
  unfold is_byte. intros H. split; [|by apply Z.mod_pos_bound].
  split; [apply Z.div_pos|apply Z.div_lt_upper_bound]; lia.
Qed.
Lemma string_app_assoc (s1 s2 s3 : string) : (s1 +:+ s2) +:+ s3 = s1 +:+ (s2 +:+ s3).
Proof. induction s1 as [|c s1 IH]; [done|]. exact (f_equal (String c) IH). Qed.
Lemma hex_inj a b s s' :
  Forall is_byte a -> Forall is_byte b -> length a = length b ->
  Bytes2Hex a +:+ s = Bytes2Hex b +:+ s' -> a = b /\ s = s'.
Proof.
  intros Ha. revert b. induction Ha as [|x a Hx _ IH]; intros [|y b] Hb Hl; try done.
  inversion Hb as [|? ? Hy Hb']; subst. cbn [Bytes2Hex foldr]. rewrite !string_app_assoc.
  destruct (byte_digit_bounds x Hx), (byte_digit_bounds y Hy).
  intros (E1 & E)%hex_digit_inj; [|done..]. apply hex_digit_inj in E as (E2 & E); [|done..].
  apply IH in E as (-> & ->); [|done|by injection Hl]. split; [|done]. f_equal.
  by apply byte_digits.
Qed.
Lemma idKey_inj a b n m :
  Forall is_byte a -> Forall is_byte b -> length a = length b ->
  idKey a n = idKey b m -> a = b /\ n = m.
Proof.
  intros Ha Hb Hl H. unfold idKey, bytesToHex in H. rewrite !string_app_assoc in H.
  apply (inj (String.append "0x")), hex_inj in H as (-> & H); [|done..]. split; [done|].
  by apply (inj (String.append "-")), (inj pretty) in H.
Qed.

(** ** The count of a selector *)
Section Count.
Variables (env : Env) (s : bytes) (n : Z).
Hypotheses (selector : length s = 4%nat) (selector_bytes : Forall is_byte s).

(** Does the input call the selector [s] with [n] bytes of arguments? *)
Definition matchesInput (input : bytes) : bool :=
  bool_decide (take 4 input = s) && (len input =? n + 4).
(** Does the event start a call the tracer counts for [s] and [n]: the outer
    call, or a call that is neither a creation nor a call of a precompile? *)
Definition selects (e : StateDB.DB * Event) : bool :=
  match e.2 with
  | CaptureStart _ _ _ input _ _ => matchesInput input
  | CaptureEnter op _ to input _ _ =>
      ((op =? DELEGATECALL) || (op =? STATICCALL) || (op =? CALL) || (op =? CALLCODE)) &&
      negb (existsb (fun p => bytes_eqb p to) (ActivePrecompiles (chainRules env))) &&
      matchesInput input
  | _ => false
  end.
Definition eventInput (e : StateDB.DB * Event) : bytes :=
  match e.2 with
  | CaptureStart _ _ _ input _ _ | CaptureEnter _ _ _ input _ _ => input
  | _ => []
  end.
Definition countOf (t : fourByteTracer) : Z := default 0 (ids t !! idKey s n).
(** A tracer at work. *)
Definition counting (t : fourByteTracer) : Prop :=
  fb_interrupt t = false /\ fb_activePrecompiles t = ActivePrecompiles (chainRules env).

Lemma store_count id size t :
  length id = 4%nat -> Forall is_byte id -> 0 <= countOf t < 2 ^ 63 - 1 ->
  countOf (fb_store id size t)
  = countOf t + (if bool_decide (id = s) && (size =? n) then 1 else 0).
Proof.
  intros Hl Hb Hc. unfold countOf, fb_store in *. cbn [ids].
  destruct (decide (idKey id size = idKey s n)) as [E|E].
  - rewrite E, lookup_insert_eq. cbn [default from_option].
    apply idKey_inj in E as [-> ->]; [|done|done|by rewrite selector].
    rewrite bool_decide_eq_true_2, Z.eqb_refl by done. apply i64_small. cbn. lia.
  - rewrite lookup_insert_ne by done. destruct (bool_decide_reflect (id = s)) as [->|]; cbn; [|lia].
    destruct (Z.eqb_spec size n) as [->|]; [done|lia].
Qed.

Lemma input_count input t :
  Forall is_byte input -> 0 <= countOf t < 2 ^ 63 - 1 ->
  exists t', (if 4 <=? len input then
                let? id := slice input 0 4 in Ret (fb_store id (len input - 4) t)
              else Ret t) = Ret t' /\ (counting t -> counting t') /\
    countOf t' = countOf t + (if matchesInput input then 1 else 0).
Proof.
  intros Hb Hc. unfold matchesInput. destruct (Z.leb_spec 4 (len input)) as [Hl|Hl].
  - assert (Hs : slice input 0 4 = Ret (take 4 input)).
    { unfold slice, slice_cap. zbool. cbn [andb]. change (Z.to_nat (4 - 0)) with 4%nat.
      change (Z.to_nat 0) with 0%nat. rewrite drop_0, take_app_le by (unfold len in *; lia). done. }
    rewrite Hs. cbn [rbind]. eexists. split; [done|]. split; [by intros []|].
    rewrite store_count; [|rewrite length_take; unfold len in *; lia|by apply Forall_take|done].
    by replace (len input =? n + 4) with (len input - 4 =? n)
      by (destruct (Z.eqb_spec (len input) (n + 4)), (Z.eqb_spec (len input - 4) n); lia).
  - exists t. split_and!; [done|done|]. rewrite bool_decide_eq_false_2; [cbn; lia|].
    intros E. apply (f_equal length) in E. rewrite length_take, selector in E. unfold len in *. lia.
Qed.

Lemma event_count d e t :
  counting t -> Forall is_byte (eventInput (d, e)) -> 0 <= countOf t < 2 ^ 63 - 1 ->
  exists t', dispatch env d e t = Ret t' /\ counting t' /\
    countOf t' = countOf t + (if selects (d, e) then 1 else 0).
Proof.
  intros Ht Hb Hc. unfold selects, eventInput in *. destruct e; cbn [snd] in *;
    try (exists t; split_and!; [done|done|lia]).
  - cbn [dispatch onStart tracer_logger four_byte_tracer four_byte_logger]. unfold fb_CaptureStart.
    edestruct (input_count input (mkFourByte (ids t) (fb_interrupt t) (fb_reason t)
      (ActivePrecompiles (chainRules env)))) as (t' & E & Hk & Hn); [done|done|].
    exists t'. split; [exact E|]. split; [apply Hk; by destruct Ht; split|done].
  - cbn [dispatch onEnter tracer_logger four_byte_tracer four_byte_logger]. unfold fb_CaptureEnter. destruct Ht as [Hi Hp].
    rewrite Hi. destruct (input_count input t Hb Hc) as (t' & E & Hk & Hn).
    rewrite Z.ltb_antisym. destruct (4 <=? len input) eqn:E4; cbn [negb].
    2:{ exists t. injection E as <-. split_and!; [done|done|].
        destruct (matchesInput input); [lia|]. rewrite andb_false_r. lia. }
    rewrite <- !negb_orb. destruct (_ || _ || _ || _) eqn:Eop; cbn [negb andb].
    2:{ exists t. split_and!; [done|done|lia]. }
    unfold fb_isPrecompiled. rewrite Hp. destruct (existsb _ _); cbn [negb andb].
    + exists t. split_and!; [done|done|lia].
    + exists t'. split; [exact E|]. by split; [apply Hk|].
Qed.

Lemma feed_counts es : forall t,
  counting t -> Forall (fun e => Forall is_byte (eventInput e)) es ->
  0 <= countOf t -> countOf t + len es < 2 ^ 63 ->
  exists t', feed env es t = Ret t' /\ counting t' /\
    countOf t' = countOf t + len (List.filter selects es).
Proof.
  induction es as [|[d e] es IH]; intros t Ht Hb H0 Hl.
  { exists t. split_and!; [done|done|]. unfold len. cbn [List.filter length]. lia. }
  inversion Hb as [|? ? He Hes]; subst. assert (Hc : len ((d, e) :: es) = len es + 1) by (unfold len; cbn; lia).
  destruct (event_count d e t Ht He) as (t1 & E1 & Ht1 & H1); [pose proof (len_nonneg es); lia|].
  destruct (IH t1 Ht1 Hes) as (t2 & E2 & Ht2 & H2); [case_match; lia|case_match; lia|].
  exists t2. cbn [feed]. rewrite E1. cbn [rbind]. split_and!; [done|done|]. rewrite H2, H1. cbn.
  destruct (selects (d, e)); unfold len; cbn; lia.
Qed.
End Count.

(** The four-byte tracer counts selectors. Fed a transaction, it does not
    panic, and the count it holds for a four-byte selector and an argument size
    is the number of calls with that selector and size, the outer call
    included, creations and calls of precompiles left out. *)
Theorem four_byte_counts env s n d from to create input gas value es ctx cfg t0 :
  length s = 4%nat -> Forall is_byte s ->
  Forall (fun e => Forall is_byte (eventInput e))
    ((d, CaptureStart from to create input gas value) :: es) ->
  len es < 2 ^ 63 - 1 -> newFourByteTracer ctx cfg = inl t0 ->
  exists t, feed env ((d, CaptureStart from to create input gas value) :: es) t0 = Ret t /\
    default 0 (ids t !! idKey s n)
    = len (List.filter (selects env s n) ((d, CaptureStart from to create input gas value) :: es)).
Proof.
  intros Hs Hb He Hl [= <-]. set (start := CaptureStart _ _ _ _ _ _) in *.
  set (t1 := mkFourByte ∅ false None (ActivePrecompiles (chainRules env))).
  replace (feed env ((d, start) :: es) (mkFourByte ∅ false None []))
    with (feed env ((d, start) :: es) t1) by done.
  assert (H0 : countOf s n t1 = 0) by (unfold countOf; cbn [ids t1]; by rewrite lookup_empty).
  destruct (feed_counts env s n Hs Hb ((d, start) :: es) t1) as (t & E & _ & H);
    [done|done|by rewrite H0|rewrite H0; unfold len in *; cbn [length]; lia|].
  exists t. split; [exact E|]. by rewrite H0 in H.
Qed.
End FourByte.

(** * Witnesses *)
From S2P Require Import Instances Core Sample.

Definition sampleCalls : list (StateDB.DB * Event) :=
  [(dbWith [], CaptureEnter CALL alice bob [1; 2; 3; 4; 5] 50 (Some 7));
   (dbWith [], CaptureEnter CREATE alice bob [1; 2; 3; 4; 5] 50 (Some 7));
   (dbWith [], CaptureEnter STATICCALL alice bob [1; 2; 3; 4; 6] 50 None)].
Lemma four_byte_counts_witness :
  exists t, feed sampleEnv ((dbWith [], CaptureStart alice bob false [1; 2; 3; 4] 100 0) ::
      sampleCalls) (mkFourByte ∅ false None []) = Ret t /\
    default 0 (ids t !! idKey [1; 2; 3; 4] 1) = 2.
Proof.
  apply (four_byte_counts sampleEnv [1; 2; 3; 4] 1 (dbWith []) alice bob false [1; 2; 3; 4] 100 0
    sampleCalls None None); [reflexivity|repeat constructor; by vm_compute| |by vm_compute|reflexivity].
  repeat constructor; by vm_compute.
Defined.
