(* ===== verification/AccessList.v ===== *)
(** The access-list tracer (tracers/logger/access_list_tracer.go): it collects
    the accounts and storage slots an execution touches. *)
From S2P Require Import Prelude Opcodes Errors Externals Stack Memory Analysis Contract Tracer.
From S2P Require Import Machine EvmLogger.

Section AccessList.
Context {L : Libs}.

(** [type accessListSlots] and [type accessList] *)
Abbreviation accessListSlots := (gset Hash).
Abbreviation accessList := (gmap Address accessListSlots).
Definition newAccessList : accessList := ∅.

Definition addAddress (address : Address) (al : accessList) : accessList :=
  match al !! address with
  | Some _ => al
  | None => <[address := ∅]> al
  end.
Definition addSlot (address : Address) (slot : Hash) (al : accessList) : accessList :=
  let al := addAddress address al in
  <[address := {[slot]} ∪ default ∅ (al !! address)]> al.

(** [func (al accessList) equal(other accessList) bool]; a missing entry of
    [other] reads as the nil map. *)
Definition sameSlots (slots otherslots : accessListSlots) : bool :=
  if negb (size slots =? size otherslots)%nat then false
  else forallb (fun hash => bool_decide (hash ∈ otherslots)) (elements slots).
Definition al_equal (al other : accessList) : bool :=
  if negb (size al =? size other)%nat then false
  else if negb (forallb (fun p => negb (bool_decide (other !! p.1 = None))) (map_to_list al))
  then false
  else forallb (fun p => sameSlots p.2 (default ∅ (other !! p.1))) (map_to_list al).

(** [types.AccessList] and [func (al accessList) accessList()], in the order of
    the map ranges. *)
Record AccessTuple := mkTuple { at_Address : Address; at_StorageKeys : list Hash }.
Definition al_accessList (al : accessList) : list AccessTuple :=
  map (fun p => mkTuple p.1 (elements p.2)) (map_to_list al).

(** [type AccessListTracer struct] *)
Record AccessListTracer := mkAccessTracer { excl : gset Address; al_list : accessList }.

(** The loops of [NewAccessListTracer] *)
Definition addTuple (excl : gset Address) (al : AccessTuple) (list : accessList) : accessList :=
  let list := if bool_decide (at_Address al ∈ excl) then list
              else addAddress (at_Address al) list in
  foldl (fun list slot => addSlot (at_Address al) slot list) list (at_StorageKeys al).
Definition NewAccessListTracer (acl : list AccessTuple) (from to : Address)
    (precompiles : list Address) : AccessListTracer :=
  let excl := foldl (fun excl addr => {[addr]} ∪ excl) ({[from]} ∪ {[to]}) precompiles in
  mkAccessTracer excl (foldl (fun list al => addTuple excl al list) newAccessList acl).

Definition al_set_list (x : accessList) (a : AccessListTracer) : AccessListTracer :=
  mkAccessTracer (excl a) x.
(** [if _, ok := a.excl[addr]; !ok { a.list.addAddress(addr) }] *)
Definition al_touch (addr : Address) (a : AccessListTracer) : AccessListTracer :=
  if bool_decide (addr ∈ excl a) then a else al_set_list (addAddress addr (al_list a)) a.

Definition al_CaptureState (d : StateDB.DB) (pc : Z) (op : OpCode) (gas cost : Z)
    (scope : ScopeContext) (rData : bytes) (depth : Z) (err : option Err) (a : AccessListTracer)
    : res AccessListTracer :=
  let stack := scStack scope in
  let stackLen := slen stack in
  let? a :=
    (if ((op =? SLOAD) || (op =? SSTORE)) && (1 <=? stackLen) then
       let? slot := at_index stack (stackLen - 1) in
       Ret (al_set_list (addSlot (ContractAddress (scContract scope)) (uint256.Bytes32 slot)
                           (al_list a)) a)
     else Ret a) in
  let? a :=
    (if ((op =? EXTCODECOPY) || (op =? EXTCODEHASH) || (op =? EXTCODESIZE) || (op =? BALANCE) ||
         (op =? SELFDESTRUCT)) && (1 <=? stackLen) then
       let? addr := at_index stack (stackLen - 1) in Ret (al_touch (uint256.Bytes20 addr) a)
     else Ret a) in
  if ((op =? DELEGATECALL) || (op =? CALL) || (op =? STATICCALL) || (op =? CALLCODE)) &&
     (5 <=? stackLen) then
    let? addr := at_index stack (stackLen - 2) in Ret (al_touch (uint256.Bytes20 addr) a)
  else Ret a.

Definition al_AccessList (a : AccessListTracer) : list AccessTuple := al_accessList (al_list a).
Definition al_Equal (a other : AccessListTracer) : bool := al_equal (al_list a) (al_list other).

#[global] Instance access_list_logger : EVMLogger AccessListTracer := {|
  onTxStart := fun _ t => Ret t;
  onTxEnd := fun _ _ t => Ret t;
  onStart := fun _ _ _ _ _ _ _ _ t => Ret t;
  onEnd := fun _ _ _ t => Ret t;
  onEnter := fun _ _ _ _ _ _ t => Ret t;
  onExit := fun _ _ _ t => Ret t;
  onState := al_CaptureState;
  onFault := fun _ _ _ _ _ _ _ _ t => Ret t;
  asAspectLogger := None;
|}.

(** * Sets and maps *)
Definition slotsOf (al : accessList) (addr : Address) : accessListSlots := default ∅ (al !! addr).

Lemma addAddress_lookup address al a :
  addAddress address al !! a = if decide (a = address) then Some (slotsOf al address) else al !! a.
Proof.
  unfold addAddress, slotsOf. destruct (decide (a = address)) as [->|Hne].
  - destruct (al !! address) as [s|] eqn:E; [done|]. by rewrite lookup_insert_eq.
  - destruct (al !! address); [done|]. by rewrite lookup_insert_ne.
Qed.
Lemma addSlot_insert address slot al :
  addSlot address slot al = <[address := {[slot]} ∪ slotsOf al address]> al.
Proof.
  apply map_eq. intros a. unfold addSlot. rewrite (addAddress_lookup _ _ address).
  rewrite decide_True by done. cbn [default from_option].
  destruct (decide (a = address)) as [->|Hne]; [by rewrite !lookup_insert_eq|].
  rewrite !lookup_insert_ne, addAddress_lookup by done. by rewrite decide_False.
Qed.

Lemma sameSlots_iff s s' : sameSlots s s' = true <-> s = s'.
Proof.
  unfold sameSlots. destruct (Nat.eqb_spec (size s) (size s')) as [Hs|Hs]; cbn [negb].
  - rewrite forallb_forall. split.
    + intros H. apply set_subseteq_size_eq; [|lia].
      intros x Hx%elem_of_elements. apply list_elem_of_In in Hx. by apply H, bool_decide_eq_true in Hx.
    + intros <- x Hx%list_elem_of_In. apply bool_decide_eq_true. by apply elem_of_elements.
  - split; [done|]. by intros ->.
Qed.

Lemma al_equal_refl al : al_equal al al = true.
Proof.
  unfold al_equal. rewrite Nat.eqb_refl. cbn [negb].
  assert (H : forall p, List.In p (map_to_list al) -> al !! p.1 = Some p.2).
  { intros [a s] Hp. by apply list_elem_of_In, elem_of_map_to_list in Hp. }
  rewrite (proj2 (forallb_forall _ _)).
  - cbn [negb]. apply forallb_forall. intros p Hp. rewrite H by done. by apply sameSlots_iff.
  - intros p Hp. by rewrite H.
Qed.
Lemma al_equal_eq al other : al_equal al other = true -> al = other.
Proof.
  unfold al_equal. destruct (Nat.eqb_spec (size al) (size other)) as [Hs|]; cbn [negb]; [|done].
  destruct (forallb (fun p => negb _) _) eqn:Hd; cbn [negb]; [|done]. intros Hf.
  rewrite forallb_forall in Hd, Hf.
  apply map_subseteq_size_eq; [|lia]. apply map_subseteq_spec. intros a s Ha.
  assert (Hp : List.In (a, s) (map_to_list al)) by (by apply list_elem_of_In, elem_of_map_to_list).
  specialize (Hf _ Hp). specialize (Hd _ Hp). cbn in Hf, Hd. apply sameSlots_iff in Hf. subst s.
  destruct (other !! a); [done|]. by rewrite bool_decide_eq_true_2 in Hd.
Qed.

(** * Round trip *)
Lemma slots_fold address l al :
  foldl (fun list slot => addSlot address slot list) al l
  = match l with [] => al | _ => <[address := list_to_set l ∪ slotsOf al address]> al end.
Proof.
  revert al. induction l as [|x l IH]; intros al; [done|]. cbn [foldl]. rewrite IH, addSlot_insert.
  unfold slotsOf at 2. rewrite lookup_insert_eq. cbn [default from_option list_to_set].
  destruct l as [|y l]; [cbn; by rewrite union_empty_r_L|].
  rewrite insert_insert_eq. f_equal. set_solver.
Qed.
Lemma addTuple_fresh (ex : gset Address) (a : Address) (s : accessListSlots) al :
  al !! a = None -> (a ∈ ex -> s <> ∅) ->
  addTuple ex (mkTuple a (elements s)) al = <[a := s]> al.
Proof.
  intros Ha Hs. unfold addTuple. cbn [at_Address at_StorageKeys]. rewrite slots_fold.
  assert (Hel : forall al', slotsOf al' a = ∅ -> (forall b, b <> a -> al' !! b = al !! b) ->
    <[a := list_to_set (elements s) ∪ slotsOf al' a]> al' = <[a := s]> al).
  { intros al' He Hb. rewrite He, union_empty_r_L, list_to_set_elements_L. apply map_eq. intros b.
    destruct (decide (b = a)) as [->|Hne]; [by rewrite !lookup_insert_eq|].
    rewrite !lookup_insert_ne by done. by apply Hb. }
  assert (He : slotsOf al a = ∅) by (unfold slotsOf; by rewrite Ha).
  case_bool_decide as Hex.
  - specialize (Hs Hex). destruct (elements s) as [|x l] eqn:E.
    { apply elements_empty_inv, leibniz_equiv in E. done. }
    by apply Hel.
  - destruct (elements s) as [|x l] eqn:E.
    + apply elements_empty_inv, leibniz_equiv in E. subst s. unfold addAddress. by rewrite Ha.
    + apply Hel.
      * unfold slotsOf. rewrite addAddress_lookup, decide_True by done. exact He.
      * intros b Hb. rewrite addAddress_lookup. by rewrite decide_False.
Qed.
Lemma tuples_fold (ex : gset Address) (l : list (Address * accessListSlots)) al :
  NoDup l.*1 -> (forall p, p ∈ l -> p.1 ∈ ex -> p.2 <> ∅) -> (forall a, a ∈ l.*1 -> al !! a = None) ->
  foldl (fun list t => addTuple ex t list) al (map (fun p => mkTuple p.1 (elements p.2)) l)
  = list_to_map l ∪ al.
Proof.
  revert al. induction l as [|[a s] l IH]; intros al Hnd Hs Ha; cbn [map foldl].
  { by rewrite list_to_map_nil, map_empty_union. }
  cbn in Hnd. apply NoDup_cons in Hnd as [Hn Hnd]. rewrite addTuple_fresh.
  - rewrite IH; [|done| |].
    + rewrite list_to_map_cons. apply map_eq. intros b.
      destruct (decide (b = a)) as [->|Hne].
      * rewrite lookup_union_r, !lookup_insert_eq.
        2:{ by apply not_elem_of_list_to_map_1. }
        symmetry. apply lookup_union_Some_l. by rewrite lookup_insert_eq.
      * rewrite !lookup_union, !lookup_insert_ne by done. done.
    + intros p Hp. apply Hs. by right.
    + intros b Hb. rewrite lookup_insert_ne; [apply Ha; by right|]. intros E. cbn in E. by subst b.
  - apply Ha. by left.
  - apply (Hs (a, s)). by left.
Qed.

(** * What a step touches *)
Inductive touch := TouchSlot (addr : Address) (slot : Hash) | TouchAccount (addr : Address).
Definition touchOf (e : Event) : option touch :=
  match e with
  | CaptureState _ op _ _ scope _ _ _ =>
      if (op =? SLOAD) || (op =? SSTORE) then
        match data (scStack scope) with
        | x :: _ => Some (TouchSlot (ContractAddress (scContract scope)) (uint256.Bytes32 x))
        | _ => None
        end
      else if (op =? EXTCODECOPY) || (op =? EXTCODEHASH) || (op =? EXTCODESIZE) ||
              (op =? BALANCE) || (op =? SELFDESTRUCT) then
        match data (scStack scope) with x :: _ => Some (TouchAccount (uint256.Bytes20 x)) | _ => None end
      else if (op =? DELEGATECALL) || (op =? CALL) || (op =? STATICCALL) || (op =? CALLCODE) then
        match data (scStack scope) with
        | _ :: x :: _ :: _ :: _ :: _ => Some (TouchAccount (uint256.Bytes20 x))
        | _ => None
        end
      else None
  | _ => None
  end.
Definition applyTouch (t : option touch) (a : AccessListTracer) : AccessListTracer :=
  match t with
  | None => a
  | Some (TouchSlot addr slot) => al_set_list (addSlot addr slot (al_list a)) a
  | Some (TouchAccount addr) => al_touch addr a
  end.

(** The opcode classes of the three tests exclude each other. *)
Lemma storage_op_alone op :
  (op =? SLOAD) || (op =? SSTORE) = true ->
  (op =? EXTCODECOPY) || (op =? EXTCODEHASH) || (op =? EXTCODESIZE) || (op =? BALANCE) ||
  (op =? SELFDESTRUCT) = false /\
  (op =? DELEGATECALL) || (op =? CALL) || (op =? STATICCALL) || (op =? CALLCODE) = false.
Proof. by intros [->%Z.eqb_eq| ->%Z.eqb_eq]%orb_true_iff. Qed.
Lemma account_op_alone op :
  (op =? EXTCODECOPY) || (op =? EXTCODEHASH) || (op =? EXTCODESIZE) || (op =? BALANCE) ||
  (op =? SELFDESTRUCT) = true ->
  (op =? DELEGATECALL) || (op =? CALL) || (op =? STATICCALL) || (op =? CALLCODE) = false.
Proof.
  rewrite !orb_true_iff. by intros [[[[->%Z.eqb_eq| ->%Z.eqb_eq]| ->%Z.eqb_eq]| ->%Z.eqb_eq]|
    ->%Z.eqb_eq].
Qed.
Lemma data_top (st : Stack) n x :
  data st !! n = Some x -> at_index st (slen st - (Z.of_nat n + 1)) = Ret x.
Proof.
  intros H. destruct st as [l]. rewrite slen_mk. apply at_index_top; [lia|].
  by replace (Z.to_nat (Z.of_nat n + 1 - 1)) with n by lia.
Qed.

Lemma dispatch_touch env d e a : dispatch env d e a = Ret (applyTouch (touchOf e) a).
Proof.
  destruct e as [| | | |pc op gas cost scope rData depth err| | |]; try done.
  cbn [dispatch onState access_list_logger touchOf]. unfold al_CaptureState.
  pose proof (data_top (scStack scope)) as Hi. pose proof (data_top (scStack scope) 1) as Hi1.
  specialize (Hi 0%nat). change (Z.of_nat 0 + 1) with 1 in Hi. change (Z.of_nat 1 + 1) with 2 in Hi1.
  assert (Hl : slen (scStack scope) = len (data (scStack scope))) by done.
  destruct ((op =? SLOAD) || (op =? SSTORE)) eqn:E1.
  { destruct (storage_op_alone op E1) as [-> ->]. cbn [andb].
    destruct (data (scStack scope)) as [|x l] eqn:E; rewrite Hl; [done|]. rewrite <- Hl, (Hi x) by done.
    rewrite Hl, len_cons. pose proof (len_nonneg l). zbool. done. }
  cbn [andb rbind].
  destruct ((op =? EXTCODECOPY) || _ || _ || _ || _) eqn:E2.
  { rewrite (account_op_alone op E2). cbn [andb].
    destruct (data (scStack scope)) as [|x l] eqn:E; rewrite Hl; [done|]. rewrite <- Hl, (Hi x) by done.
    rewrite Hl, len_cons. pose proof (len_nonneg l). zbool. done. }
  cbn [andb rbind]. destruct ((op =? DELEGATECALL) || _ || _ || _); cbn [andb]; [|done].
  destruct (data (scStack scope)) as [|? [|x [|? [|? [|? l]]]]] eqn:E; rewrite Hl; try done.
  rewrite <- Hl, (Hi1 x) by done. rewrite Hl, !len_cons. pose proof (len_nonneg l). zbool. done.
Qed.

Lemma slotsOf_addAddress addr al b : slotsOf (addAddress addr al) b = slotsOf al b.
Proof. unfold slotsOf at 1. rewrite addAddress_lookup. case_decide; by subst. Qed.
Lemma slotsOf_addSlot addr slot al b :
  slotsOf (addSlot addr slot al) b = if decide (b = addr) then {[slot]} ∪ slotsOf al b else slotsOf al b.
Proof.
  rewrite addSlot_insert. unfold slotsOf at 1. case_decide as Hb; subst.
  - by rewrite lookup_insert_eq.
  - by rewrite lookup_insert_ne.
Qed.
Lemma applyTouch_excl t a : excl (applyTouch t a) = excl a.
Proof. destruct t as [[|addr]|]; cbn; try done. unfold al_touch. by case_bool_decide. Qed.
Lemma applyTouch_slots t a addr slot :
  slot ∈ slotsOf (al_list (applyTouch t a)) addr <->
  slot ∈ slotsOf (al_list a) addr \/ t = Some (TouchSlot addr slot).
Proof.
  destruct t as [[b s|b]|]; cbn.
  - rewrite slotsOf_addSlot. case_decide as Hb; [subst b|].
    + rewrite elem_of_union, elem_of_singleton. naive_solver.
    + naive_solver.
  - unfold al_touch. case_bool_decide; cbn [al_list al_set_list]; rewrite ?slotsOf_addAddress; naive_solver.
  - naive_solver.
Qed.
Lemma applyTouch_listed t a addr :
  is_Some (al_list (applyTouch t a) !! addr) <->
  is_Some (al_list a !! addr) \/ (exists slot, t = Some (TouchSlot addr slot)) \/
  (addr ∉ excl a /\ t = Some (TouchAccount addr)).
Proof.
  destruct t as [[b s|b]|]; cbn.
  - rewrite addSlot_insert. destruct (decide (addr = b)) as [->|Hne].
    + rewrite lookup_insert_eq. naive_solver.
    + rewrite lookup_insert_ne by done. naive_solver.
  - unfold al_touch. case_bool_decide as Hx; cbn [al_list al_set_list].
    + naive_solver.
    + rewrite addAddress_lookup. case_decide as Hb; [subst b|]; naive_solver.
  - naive_solver.
Qed.

(** An excluded account is listed only with the slots it was seen with. *)
Definition excl_with_slots (a : AccessListTracer) : Prop :=
  forall addr, addr ∈ excl a -> al_list a !! addr <> Some ∅.
Lemma applyTouch_excl_slots t a : excl_with_slots a -> excl_with_slots (applyTouch t a).
Proof.
  intros H addr Hx. rewrite applyTouch_excl in Hx. specialize (H addr Hx).
  destruct t as [[b s|b]|]; cbn; [|unfold al_touch; case_bool_decide; cbn [al_list al_set_list]|done]; [|done|].
  - rewrite addSlot_insert. destruct (decide (addr = b)) as [->|].
    + rewrite lookup_insert_eq. intros [= E]. set_solver.
    + by rewrite lookup_insert_ne.
  - rewrite addAddress_lookup. by rewrite decide_False by (by intros ->).
Qed.
Lemma feed_excl_slots env es : forall a a',
  feed env es a = Ret a' -> excl_with_slots a -> excl_with_slots a' /\ excl a' = excl a.
Proof.
  induction es as [|[d e] es IH]; intros a a' H Ha; cbn [feed] in H; [by injection H as <-|].
  rewrite dispatch_touch in H. cbn [rbind] in H.
  destruct (IH _ _ H (applyTouch_excl_slots _ _ Ha)) as [H1 H2].
  by rewrite applyTouch_excl in H2.
Qed.
Lemma addTuple_excl_slots ex t al :
  excl_with_slots (mkAccessTracer ex al) -> excl_with_slots (mkAccessTracer ex (addTuple ex t al)).
Proof.
  intros H. unfold addTuple.
  assert (H1 : excl_with_slots (mkAccessTracer ex
    (if bool_decide (at_Address t ∈ ex) then al else addAddress (at_Address t) al))).
  { pose proof (applyTouch_excl_slots (Some (TouchAccount (at_Address t))) _ H) as H1.
    cbn in H1. unfold al_touch in H1. cbn [excl] in H1. by case_bool_decide. }
  revert H1. generalize (if bool_decide (at_Address t ∈ ex) then al else addAddress (at_Address t) al).
  induction (at_StorageKeys t) as [|slot l IH]; intros al' Hal; [done|]. cbn [foldl]. apply IH.
  exact (applyTouch_excl_slots (Some (TouchSlot (at_Address t) slot)) _ Hal).
Qed.
Lemma New_excl_slots acl from to pcs : excl_with_slots (NewAccessListTracer acl from to pcs).
Proof.
  unfold NewAccessListTracer. set (ex := foldl _ _ pcs).
  assert (H0 : excl_with_slots (mkAccessTracer ex newAccessList)) by (intros addr _; done).
  revert H0. generalize newAccessList. induction acl as [|t acl IH]; intros al Hal; [done|].
  cbn [foldl]. by apply IH, addTuple_excl_slots.
Qed.
Lemma New_of_list a from to pcs :
  excl_with_slots a -> excl a = excl (NewAccessListTracer [] from to pcs) ->
  NewAccessListTracer (al_AccessList a) from to pcs = a.
Proof.
  intros Ha Hex. destruct a as [ex al]. cbn in Hex. unfold NewAccessListTracer.
  rewrite <- Hex. unfold al_AccessList, al_accessList, newAccessList. cbn [al_list].
  rewrite tuples_fold.
  - by rewrite list_to_map_to_list, map_union_empty.
  - apply NoDup_fst_map_to_list.
  - intros [b s] Hp Hx. cbn in *. intros ->. apply elem_of_map_to_list in Hp. by apply (Ha b).
  - done.
Qed.

(** C35: the access-list tracer collects what an execution touches. It never
    panics; afterwards a slot is listed if and only if it was before or a SLOAD
    or SSTORE step accessed it, and an account if and only if it was before, or
    one of its slots was accessed, or it is not excluded and a step addressed
    it. *)
Theorem access_list_collects env es (a : AccessListTracer) :
  exists a', feed env es a = Ret a' /\ excl a' = excl a /\
    (forall addr slot, slot ∈ slotsOf (al_list a') addr <->
       slot ∈ slotsOf (al_list a) addr \/
       exists d e, (d, e) ∈ es /\ touchOf e = Some (TouchSlot addr slot)) /\
    (forall addr, is_Some (al_list a' !! addr) <->
       is_Some (al_list a !! addr) \/
       (exists slot d e, (d, e) ∈ es /\ touchOf e = Some (TouchSlot addr slot)) \/
       (addr ∉ excl a /\ exists d e, (d, e) ∈ es /\ touchOf e = Some (TouchAccount addr))).
Proof.
  revert a. induction es as [|[d e] es IH]; intros a.
  { exists a. split_and!; [done|done|..]; setoid_rewrite elem_of_nil; naive_solver. }
  destruct (IH (applyTouch (touchOf e) a)) as (a' & E & Hx & Hs & Hl). exists a'.
  cbn [feed]. rewrite dispatch_touch. split; [exact E|]. rewrite applyTouch_excl in Hx, Hl.
  split; [done|]. setoid_rewrite elem_of_cons. split.
  - intros addr slot. rewrite Hs, applyTouch_slots. naive_solver.
  - intros addr. rewrite Hl, applyTouch_listed. naive_solver.
Qed.

(** Two access-list tracers compare equal exactly when their lists are the
    same, although [equal] compares sizes and one inclusion only. *)
Theorem access_list_equal a other : al_Equal a other = true <-> al_list a = al_list other.
Proof. split; [apply al_equal_eq|]. unfold al_Equal. intros ->. apply al_equal_refl. Qed.

(** C36: an access list survives the round trip through [types.AccessList]: a
    tracer started from the list another tracer reports, with the same
    exclusions, is that tracer. *)
Theorem access_list_roundtrip env acl from to pcs es a :
  feed env es (NewAccessListTracer acl from to pcs) = Ret a ->
  NewAccessListTracer (al_AccessList a) from to pcs = a.
Proof.
  intros H. apply feed_excl_slots in H as [Ha Hx]; [|apply New_excl_slots].
  by apply New_of_list.
Qed.
End AccessList.

(** * Witness *)
From S2P Require Import Instances Core Sample.

(** A list with an excluded account without slots, which is dropped, one with a
    slot and one account that is not excluded. *)
Definition sampleAcl : list AccessTuple :=
  [mkTuple alice []; mkTuple bob [zeroHash]; mkTuple zeroAddress []].
Lemma access_list_roundtrip_witness :
  NewAccessListTracer (al_AccessList (NewAccessListTracer sampleAcl alice bob []))
    alice bob [] = NewAccessListTracer sampleAcl alice bob [] /\
  size (al_list (NewAccessListTracer sampleAcl alice bob [])) = 2%nat.
Proof.
  split; [|by vm_compute].
  exact (access_list_roundtrip sampleEnv sampleAcl alice bob [] [] _ eq_refl).
Defined.
