(* ===== verification/Prestate.v ===== *)
(** The pre-state tracer (tracers/native/prestate.go): it records the accounts
    and slots a transaction reads as they were before it, and in diff mode what
    the transaction changed. *)
From S2P Require Import Prelude Opcodes Errors Externals Stack Memory Analysis Contract Tracer.
From S2P Require Import Machine EvmLogger.

Section Prestate.
Context {L : Libs} {T : trace.Lib}.

(** [type account struct]; [Balance] is a pointer. *)
Record account := mkAccount {
  acc_Balance : option Z;
  acc_Code : bytes;
  acc_Nonce : Z;
  acc_Storage : gmap Hash Hash;
}.
Definition acc_exists (a : account) : bool :=
  (0 <? acc_Nonce a) || (0 <? len (acc_Code a)) || negb (size (acc_Storage a) =? 0)%nat ||
  match acc_Balance a with None => false | Some b => negb (b =? 0) end.
Definition acc_set_Balance (x : option Z) (a : account) : account :=
  mkAccount x (acc_Code a) (acc_Nonce a) (acc_Storage a).
Definition acc_set_Nonce (x : Z) (a : account) : account :=
  mkAccount (acc_Balance a) (acc_Code a) x (acc_Storage a).
Definition acc_set_Storage (x : gmap Hash Hash) (a : account) : account :=
  mkAccount (acc_Balance a) (acc_Code a) (acc_Nonce a) x.

(** [type state = map[common.Address]*account]: every account belongs to one
    entry of one map. *)
Abbreviation pstate := (gmap Address account).

(** [type prestateTracer struct]; [ps_env] is nil until [CaptureStart]. *)
Record prestateTracer := mkPrestate {
  ps_env : option Env;
  ps_pre : pstate;
  ps_post : pstate;
  ps_create : bool;
  ps_to : Address;
  ps_gasLimit : Z;
  ps_diffMode : bool;
  ps_interrupt : bool;
  ps_reason : option Err;
  ps_created : gset Address;
  ps_deleted : gset Address;
}.
Definition ps_set_pre (x : pstate) (t : prestateTracer) : prestateTracer :=
  mkPrestate (ps_env t) x (ps_post t) (ps_create t) (ps_to t) (ps_gasLimit t) (ps_diffMode t)
    (ps_interrupt t) (ps_reason t) (ps_created t) (ps_deleted t).
Definition ps_set_post (x : pstate) (t : prestateTracer) : prestateTracer :=
  mkPrestate (ps_env t) (ps_pre t) x (ps_create t) (ps_to t) (ps_gasLimit t) (ps_diffMode t)
    (ps_interrupt t) (ps_reason t) (ps_created t) (ps_deleted t).
Definition ps_add_created (a : Address) (t : prestateTracer) : prestateTracer :=
  mkPrestate (ps_env t) (ps_pre t) (ps_post t) (ps_create t) (ps_to t) (ps_gasLimit t)
    (ps_diffMode t) (ps_interrupt t) (ps_reason t) ({[a]} ∪ ps_created t) (ps_deleted t).
Definition ps_add_deleted (a : Address) (t : prestateTracer) : prestateTracer :=
  mkPrestate (ps_env t) (ps_pre t) (ps_post t) (ps_create t) (ps_to t) (ps_gasLimit t)
    (ps_diffMode t) (ps_interrupt t) (ps_reason t) (ps_created t) ({[a]} ∪ ps_deleted t).
(** [t.env = env; t.create = create; t.to = to] *)
Definition ps_begin (env : Env) (create : bool) (to : Address) (t : prestateTracer)
    : prestateTracer :=
  mkPrestate (Some env) (ps_pre t) (ps_post t) create to (ps_gasLimit t) (ps_diffMode t)
    (ps_interrupt t) (ps_reason t) (ps_created t) (ps_deleted t).

(** [type prestateTracerConfig struct] holds [DiffMode] only. *)
Definition newPrestateTracer (ctx : option Context) (cfg : option trace.RawMessage)
    : prestateTracer + Err :=
  let config := match cfg with None => inl false | Some c => trace.Unmarshal c false end in
  match config with
  | inr err => inr err
  | inl diffMode => inl (mkPrestate None ∅ ∅ false zeroAddress 0 diffMode false None ∅ ∅)
  end.

(** The record [lookupAccount] makes of an account. *)
Definition accountAt (d : StateDB.DB) (addr : Address) : account :=
  mkAccount (Some (StateDB.GetBalance d addr)) (StateDB.GetCode d addr)
    (StateDB.GetNonce d addr) ∅.
Definition lookupAccount (d : StateDB.DB) (addr : Address) (t : prestateTracer)
    : res prestateTracer :=
  match ps_pre t !! addr with
  | Some _ => Ret t
  | None => match ps_env t with
            | None => Panicked NilDeref
            | Some _ => Ret (ps_set_pre (<[addr := accountAt d addr]> (ps_pre t)) t)
            end
  end.
Definition lookupStorage (d : StateDB.DB) (addr : Address) (key : Hash) (t : prestateTracer)
    : res prestateTracer :=
  match ps_pre t !! addr with
  | None => Panicked NilDeref
  | Some a =>
      match acc_Storage a !! key with
      | Some _ => Ret t
      | None => match ps_env t with
                | None => Panicked NilDeref
                | Some _ => Ret (ps_set_pre (<[addr := acc_set_Storage
                              (<[key := StateDB.GetState d addr key]> (acc_Storage a)) a]>
                              (ps_pre t)) t)
                end
      end
  end.

(** Change the account [t.pre[addr]] in place. *)
Definition ps_alter (addr : Address) (f : account -> res account) (t : prestateTracer)
    : res prestateTracer :=
  match ps_pre t !! addr with
  | None => Panicked NilDeref
  | Some a => let? a := f a in Ret (ps_set_pre (<[addr := a]> (ps_pre t)) t)
  end.
(** [big.Int] arithmetic on a balance: a nil pointer panics. *)
Definition addBalance (x : Z) (a : account) : res account :=
  match acc_Balance a with
  | None => Panicked NilDeref
  | Some b => Ret (acc_set_Balance (Some (b + x)) a)
  end.

Definition ps_CaptureStart (env : Env) (d : StateDB.DB) (from to : Address) (create : bool)
    (input : bytes) (gas value : Z) (t : prestateTracer) : res prestateTracer :=
  let t := ps_begin env create to t in
  let? t := lookupAccount d from t in
  let? t := lookupAccount d to t in
  let? t := lookupAccount d (Coinbase env) t in
  let? t := ps_alter to (addBalance (- value)) t in
  let consumedGas := GasPrice env * ps_gasLimit t in
  let? t := ps_alter from (addBalance (value + consumedGas)) t in
  let? t := ps_alter from (fun a => Ret (acc_set_Nonce (u64 (acc_Nonce a - 1)) a)) t in
  Ret (if create && ps_diffMode t then ps_add_created to t else t).

(** [if s := t.pre[a]; s != nil && !s.exists() { delete(t.pre, a) }] *)
Definition dropEmpty (pre : pstate) (addr : Address) : pstate :=
  match pre !! addr with
  | None => pre
  | Some s => if acc_exists s then pre else delete addr pre
  end.
Definition ps_CaptureEnd (output : bytes) (gasUsed : Z) (err : option Err) (t : prestateTracer)
    : res prestateTracer :=
  if ps_diffMode t then Ret t
  else if ps_create t then Ret (ps_set_pre (dropEmpty (ps_pre t) (ps_to t)) t)
  else Ret t.

Definition ps_CaptureState (d : StateDB.DB) (pc : Z) (op : OpCode) (gas cost : Z)
    (scope : ScopeContext) (rData : bytes) (depth : Z) (err : option Err) (t : prestateTracer)
    : res prestateTracer :=
  if negb (is_nil err) then Ret t
  else if ps_interrupt t then Ret t
  else
    let stack := scStack scope in
    let stackLen := slen stack in
    let caller := ContractAddress (scContract scope) in
    if (1 <=? stackLen) && ((op =? SLOAD) || (op =? SSTORE)) then
      let? slot := at_index stack (stackLen - 1) in
      lookupStorage d caller (uint256.Bytes32 slot) t
    else if (1 <=? stackLen) && ((op =? EXTCODECOPY) || (op =? EXTCODEHASH) ||
              (op =? EXTCODESIZE) || (op =? BALANCE) || (op =? SELFDESTRUCT)) then
      let? addr := at_index stack (stackLen - 1) in
      let? t := lookupAccount d (uint256.Bytes20 addr) t in
      Ret (if op =? SELFDESTRUCT then ps_add_deleted caller t else t)
    else if (5 <=? stackLen) && ((op =? DELEGATECALL) || (op =? CALL) || (op =? STATICCALL) ||
              (op =? CALLCODE)) then
      let? addr := at_index stack (stackLen - 2) in
      lookupAccount d (uint256.Bytes20 addr) t
    else if op =? CREATE then
      match ps_env t with
      | None => Panicked NilDeref
      | Some _ =>
          let addr := crypto.CreateAddress caller (StateDB.GetNonce d caller) in
          let? t := lookupAccount d addr t in
          Ret (ps_add_created addr t)
      end
    else if (4 <=? stackLen) && (op =? CREATE2) then
      let? offset := at_index stack (stackLen - 2) in
      let? size := at_index stack (stackLen - 3) in
      let? init := GetCopy (scMemory scope) (i64 (uint256.Uint64 offset))
                     (i64 (uint256.Uint64 size)) in
      let inithash := crypto.Keccak256 init in
      let? salt := at_index stack (stackLen - 4) in
      let addr := crypto.CreateAddress2 caller (uint256.Bytes32 salt) inithash in
      let? t := lookupAccount d addr t in
      Ret (ps_add_created addr t)
    else Ret t.

Definition ps_CaptureTxStart (gasLimit : Z) (t : prestateTracer) : res prestateTracer :=
  Ret (mkPrestate (ps_env t) (ps_pre t) (ps_post t) (ps_create t) (ps_to t) gasLimit
         (ps_diffMode t) (ps_interrupt t) (ps_reason t) (ps_created t) (ps_deleted t)).

(** The loop of [CaptureTxEnd] over the slots of an account: the storage of its
    pre-state, the storage of its post-state, and [modified]. *)
Definition diffSlot (d : StateDB.DB) (addr : Address) (key val : Hash)
    (st : gmap Hash Hash * gmap Hash Hash * bool) : gmap Hash Hash * gmap Hash Hash * bool :=
  let '(pre, post, modified) := st in
  let pre := if bool_decide (val = zeroHash) then delete key pre else pre in
  let newVal := StateDB.GetState d addr key in
  if bool_decide (val = newVal) then (delete key pre, post, modified)
  else (pre, if bool_decide (newVal = zeroHash) then post else <[key := newVal]> post, true).
Definition diffStorage (d : StateDB.DB) (addr : Address) (slots : list (Hash * Hash))
    (st : gmap Hash Hash * gmap Hash Hash * bool) : gmap Hash Hash * gmap Hash Hash * bool :=
  foldl (fun st p => diffSlot d addr p.1 p.2 st) st slots.
(** One account of the loop: its pre- and post-state, or [None] when nothing
    changed. [newBalance.Cmp] of a nil balance panics. *)
Definition diffAccount (d : StateDB.DB) (addr : Address) (s : account)
    : res (option (account * account)) :=
  match acc_Balance s with
  | None => Panicked NilDeref
  | Some balance =>
      let newBalance := StateDB.GetBalance d addr in
      let newNonce := StateDB.GetNonce d addr in
      let newCode := StateDB.GetCode d addr in
      let b := negb (newBalance =? balance) in
      let n := negb (newNonce =? acc_Nonce s) in
      let c := negb (bytes_eqb newCode (acc_Code s)) in
      let '(pre, post, modified) :=
        diffStorage d addr (map_to_list (acc_Storage s)) (acc_Storage s, ∅, b || n || c) in
      Ret (if modified then
             Some (acc_set_Storage pre s,
                   mkAccount (if b then Some newBalance else None) (if c then newCode else [])
                     (if n then newNonce else 0) post)
           else None)
  end.
Fixpoint diffLoop (d : StateDB.DB) (l : list (Address * account)) (t : prestateTracer)
    : res prestateTracer :=
  match l with
  | [] => Ret t
  | (addr, s) :: l =>
      if bool_decide (addr ∈ ps_deleted t) then diffLoop d l t
      else match ps_env t with
           | None => Panicked NilDeref
           | Some _ =>
               let? r := diffAccount d addr s in
               diffLoop d l
                 (match r with
                  | Some (pre, post) =>
                      ps_set_post (<[addr := post]> (ps_post t))
                        (ps_set_pre (<[addr := pre]> (ps_pre t)) t)
                  | None => ps_set_pre (delete addr (ps_pre t)) t
                  end)
           end
  end.
Definition ps_CaptureTxEnd (d : StateDB.DB) (restGas : Z) (t : prestateTracer)
    : res prestateTracer :=
  if negb (ps_diffMode t) then Ret t
  else
    let? t := diffLoop d (map_to_list (ps_pre t)) t in
    Ret (ps_set_pre (foldl dropEmpty (ps_pre t) (elements (ps_created t))) t).

Definition ps_GetResult (t : prestateTracer) : option trace.RawMessage * option Err :=
  if ps_diffMode t then marshalled (ps_post t, ps_pre t) (ps_reason t)
  else marshalled (ps_pre t) (ps_reason t).
Definition ps_Stop (err : Err) (t : prestateTracer) : prestateTracer :=
  mkPrestate (ps_env t) (ps_pre t) (ps_post t) (ps_create t) (ps_to t) (ps_gasLimit t)
    (ps_diffMode t) true (Some err) (ps_created t) (ps_deleted t).

Definition prestate_logger : EVMLogger prestateTracer := {|
  onTxStart := ps_CaptureTxStart;
  onTxEnd := ps_CaptureTxEnd;
  onStart := ps_CaptureStart;
  onEnd := ps_CaptureEnd;
  onEnter := fun _ _ _ _ _ _ t => Ret t;
  onExit := fun _ _ _ t => Ret t;
  onState := ps_CaptureState;
  onFault := fun _ _ _ _ _ _ _ _ t => Ret t;
  asAspectLogger := None;
|}.
#[global] Instance prestate_tracer : EvmTracer prestateTracer := {|
  tracer_logger := prestate_logger;
  GetResult := ps_GetResult;
  Stop := ps_Stop;
|}.

(** * Diff mode *)
Section Diff.
Variables (d : StateDB.DB) (a : Address).
Abbreviation new k := (StateDB.GetState d a k).

Lemma diffStorage_cons key val l st :
  diffStorage d a ((key, val) :: l) st = diffStorage d a l (diffSlot d a key val st).
Proof. done. Qed.
(** A slot of the list is dropped from the pre-state if it is empty or kept its
    value, and enters the post-state if it got another value but not zero. *)
Lemma diffStorage_lookup l pre post m k :
  NoDup l.*1 ->
  let '(pre', post', m') := diffStorage d a l (pre, post, m) in
  pre' !! k = match (list_to_map l : gmap Hash Hash) !! k with
              | Some v => if decide (v = zeroHash \/ v = new k) then None else pre !! k
              | None => pre !! k
              end /\
  post' !! k = match (list_to_map l : gmap Hash Hash) !! k with
               | Some v => if decide (v = new k \/ new k = zeroHash) then post !! k else Some (new k)
               | None => post !! k
               end.
Proof.
  revert pre post m. induction l as [|[key val] l IH]; intros pre post m Hnd; [done|].
  cbn in Hnd. apply NoDup_cons in Hnd as [Hn Hnd]. rewrite diffStorage_cons, list_to_map_cons.
  destruct (diffSlot d a key val (pre, post, m)) as [[pre1 post1] m1] eqn:E.
  specialize (IH pre1 post1 m1 Hnd). destruct (diffStorage d a l _) as [[pre' post'] m'].
  unfold diffSlot in E. destruct (decide (k = key)) as [->|Hne].
  - rewrite lookup_insert_eq. rewrite (not_elem_of_list_to_map_1 l key Hn) in IH.
    destruct IH as [-> ->]. repeat case_bool_decide; simplify_eq; rewrite ?lookup_delete_eq,
      ?lookup_insert_eq; repeat case_decide; naive_solver.
  - rewrite lookup_insert_ne by done. destruct IH as [-> ->].
    repeat case_bool_decide; simplify_eq; rewrite ?lookup_delete_ne, ?lookup_insert_ne by done; done.
Qed.
Lemma diffStorage_modified l pre post m :
  (diffStorage d a l (pre, post, m)).2 = true <->
  m = true \/ exists k v, (k, v) ∈ l /\ v <> new k.
Proof.
  revert pre post m. induction l as [|[key val] l IH]; intros pre post m.
  { cbn. setoid_rewrite elem_of_nil. naive_solver. }
  rewrite diffStorage_cons. setoid_rewrite elem_of_cons. unfold diffSlot.
  case_bool_decide as E; rewrite IH.
  - split; intros [?|(k1 & v1 & H1 & H2)]; [by left|right; exists k1, v1; by split; [right|]|by left|].
    destruct H1 as [E1|H1]; [by simplify_eq|]. right. by exists k1, v1.
  - split; [intros _; right; exists key, val; eauto|]. by left.
Qed.

(** What an account has become by the end of the transaction. *)
Definition unchanged (s : account) : Prop :=
  acc_Balance s = Some (StateDB.GetBalance d a) /\ acc_Nonce s = StateDB.GetNonce d a /\
  acc_Code s = StateDB.GetCode d a /\ forall k v, acc_Storage s !! k = Some v -> v = new k.
(** [p] and [q] are the entries of the pre- and the post-state for [s]: [p]
    keeps the old fields and the old values of the slots that changed, [q] has
    the new values of what changed; zero values are left out of both. *)
Record differs (s p q : account) : Prop := {
  differs_changed : ~ unchanged s;
  differs_pre : acc_Balance p = acc_Balance s /\ acc_Nonce p = acc_Nonce s /\ acc_Code p = acc_Code s;
  differs_pre_storage : forall k v, acc_Storage p !! k = Some v <->
    acc_Storage s !! k = Some v /\ v <> zeroHash /\ v <> new k;
  differs_balance : acc_Balance q = if decide (acc_Balance s = Some (StateDB.GetBalance d a))
                                    then None else Some (StateDB.GetBalance d a);
  differs_nonce : acc_Nonce q = if decide (acc_Nonce s = StateDB.GetNonce d a)
                                then 0 else StateDB.GetNonce d a;
  differs_code : acc_Code q = if decide (acc_Code s = StateDB.GetCode d a)
                              then [] else StateDB.GetCode d a;
  differs_post_storage : forall k v, acc_Storage q !! k = Some v <->
    exists v0, acc_Storage s !! k = Some v0 /\ v0 <> v /\ v = new k /\ v <> zeroHash;
}.

Lemma diffAccount_spec s :
  acc_Balance s <> None ->
  exists r, diffAccount d a s = Ret r /\
    match r with None => unchanged s | Some (p, q) => differs s p q end.
Proof.
  intros Hb. unfold diffAccount. destruct (acc_Balance s) as [balance|] eqn:Eb; [|done]. clear Hb.
  pose proof (diffStorage_lookup (map_to_list (acc_Storage s)) (acc_Storage s) ∅) as Hl.
  set (m := _ || _ || _). specialize (fun k => Hl m k (NoDup_fst_map_to_list _)).
  pose proof (diffStorage_modified (map_to_list (acc_Storage s)) (acc_Storage s) ∅ m) as Hm.
  assert (Hch : m = false <-> acc_Balance s = Some (StateDB.GetBalance d a) /\
    acc_Nonce s = StateDB.GetNonce d a /\ acc_Code s = StateDB.GetCode d a).
  { subst m. rewrite Eb, !orb_false_iff, !negb_false_iff, !Z.eqb_eq. unfold bytes_eqb.
    rewrite bool_decide_eq_true. naive_solver. }
  setoid_rewrite elem_of_map_to_list in Hm.
  destruct (diffStorage d a _ _) as [[pre post] modified]. cbn [snd] in Hm.
  setoid_rewrite list_to_map_to_list in Hl. eexists. split; [done|].
  destruct modified.
  - split; cbn [acc_Balance acc_Nonce acc_Code acc_Storage acc_set_Storage].
    + intros (H1 & H2 & H3 & H4). destruct (proj1 Hm eq_refl) as [Hf|(k & v & Hk & Hv)].
      * by rewrite (proj2 Hch) in Hf.
      * by apply Hv, H4.
    + done.
    + intros k v. destruct (Hl k) as [-> _]. destruct (acc_Storage s !! k) as [w|]; [|naive_solver].
      case_decide; naive_solver.
    + rewrite Eb. destruct (Z.eqb_spec (StateDB.GetBalance d a) balance) as [<-|]; cbn [negb].
      * by rewrite decide_True.
      * rewrite decide_False; [done|]. by intros [= ->].
    + destruct (Z.eqb_spec (StateDB.GetNonce d a) (acc_Nonce s)) as [<-|]; cbn [negb];
        [by rewrite decide_True|by rewrite decide_False].
    + unfold bytes_eqb. case_bool_decide; cbn [negb]; [by rewrite decide_True|by rewrite decide_False].
    + intros k v. destruct (Hl k) as [_ ->]. rewrite lookup_empty.
      destruct (acc_Storage s !! k) as [w|]; [|naive_solver]. case_decide; naive_solver.
  - assert (Hmf : m = false) by (destruct m; [by rewrite (proj2 Hm) by (by left)|done]). apply Hch in Hmf as (H1 & H2 & H3).
    split_and!; [done..|]. intros k v Hk. destruct (decide (v = new k)); [done|].
    exfalso. enough (false = true) by done. apply Hm. naive_solver.
Qed.
End Diff.

(** The entries of the pre- and the post-state for an account [s] of the loop,
    which has [q0] in the post-state before it. *)
Definition diffEntry (d : StateDB.DB) (deleted : gset Address) (a : Address) (s : account)
    (q0 p q : option account) : Prop :=
  if decide (a ∈ deleted) then p = Some s /\ q = q0
  else (unchanged d a s /\ p = None /\ q = q0) \/
       (exists p' q', differs d a s p' q' /\ p = Some p' /\ q = Some q').

(** [r] is [t] with the entries of the accounts of [l] settled. *)
Definition settled (d : StateDB.DB) (l : list (Address * account)) (t : prestateTracer)
    (r : res prestateTracer) : Prop :=
  exists pre post, r = Ret (ps_set_post post (ps_set_pre pre t)) /\
    forall a, match (list_to_map l : pstate) !! a with
              | None => pre !! a = ps_pre t !! a /\ post !! a = ps_post t !! a
              | Some s => diffEntry d (ps_deleted t) a s (ps_post t !! a) (pre !! a) (post !! a)
              end.
Lemma settled_cons d addr s l t pre1 post1 r :
  addr ∉ l.*1 ->
  (forall a, a <> addr -> pre1 !! a = ps_pre t !! a /\ post1 !! a = ps_post t !! a) ->
  diffEntry d (ps_deleted t) addr s (ps_post t !! addr) (pre1 !! addr) (post1 !! addr) ->
  settled d l (ps_set_post post1 (ps_set_pre pre1 t)) r -> settled d ((addr, s) :: l) t r.
Proof.
  intros Hn Hother Haddr (pre & post & -> & H). exists pre, post. split; [done|]. intros a.
  specialize (H a). cbn [ps_pre ps_post ps_deleted ps_set_post ps_set_pre] in H.
  rewrite list_to_map_cons. destruct (decide (a = addr)) as [->|Hne].
  - rewrite lookup_insert_eq. rewrite (not_elem_of_list_to_map_1 l addr Hn) in H.
    by destruct H as [-> ->].
  - rewrite lookup_insert_ne by done. by destruct (Hother a Hne) as [<- <-].
Qed.
Lemma diffLoop_spec d l t :
  NoDup l.*1 -> ps_env t <> None -> Forall (fun p => acc_Balance p.2 <> None) l ->
  (forall a s, (a, s) ∈ l -> ps_pre t !! a = Some s) -> settled d l t (diffLoop d l t).
Proof.
  revert t. induction l as [|[addr s] l IH]; intros t Hnd He Hb Hp.
  { exists (ps_pre t), (ps_post t). by destruct t. }
  cbn in Hnd. apply NoDup_cons in Hnd as [Hn Hnd]. inversion Hb as [|? ? Hs Hb']; subst.
  assert (Hrest : forall pre1 post1,
    (forall a, a <> addr -> pre1 !! a = ps_pre t !! a /\ post1 !! a = ps_post t !! a) ->
    diffEntry d (ps_deleted t) addr s (ps_post t !! addr) (pre1 !! addr) (post1 !! addr) ->
    settled d ((addr, s) :: l) t (diffLoop d l (ps_set_post post1 (ps_set_pre pre1 t)))).
  { intros pre1 post1 Hother Haddr. eapply settled_cons; [done..|]. apply IH; [done..|].
    intros a s' Ha. cbn. destruct (Hother a) as [-> _]; [|apply Hp; by right].
    intros ->. apply Hn. apply list_elem_of_fmap. by exists (addr, s'). }
  cbn [diffLoop]. case_bool_decide as Hdel.
  - replace t with (ps_set_post (ps_post t) (ps_set_pre (ps_pre t) t)) at 2 by (by destruct t).
    apply Hrest; [done|]. unfold diffEntry. rewrite decide_True by done. split; [|done].
    apply Hp. by left.
  - destruct (ps_env t); [|done].
    destruct (diffAccount_spec d addr s Hs) as (r & -> & Hr). cbn [rbind]. destruct r as [[p q]|].
    + apply Hrest; [intros a Hne; by rewrite !lookup_insert_ne|]. rewrite !lookup_insert_eq.
      unfold diffEntry. rewrite decide_False by done. right. by exists p, q.
    + replace (ps_set_pre (delete addr (ps_pre t)) t)
        with (ps_set_post (ps_post t) (ps_set_pre (delete addr (ps_pre t)) t)) by (by destruct t).
      apply Hrest; [intros a Hne; by rewrite lookup_delete_ne|]. rewrite lookup_delete_eq.
      unfold diffEntry. rewrite decide_False by done. by left.
Qed.

Lemma dropEmpty_lookup pre addr a :
  dropEmpty pre addr !! a =
  if decide (a = addr) then
    match pre !! a with Some s => if acc_exists s then Some s else None | None => None end
  else pre !! a.
Proof.
  unfold dropEmpty. case_decide as Ha; subst.
  - destruct (pre !! addr) as [s|] eqn:E; [|done]. destruct (acc_exists s); [done|].
    by rewrite lookup_delete_eq.
  - destruct (pre !! addr); [|done]. case_match; [done|]. by rewrite lookup_delete_ne.
Qed.
Lemma dropEmpty_fold l pre a :
  foldl dropEmpty pre l !! a =
  if decide (a ∈ l) then
    match pre !! a with Some s => if acc_exists s then Some s else None | None => None end
  else pre !! a.
Proof.
  revert pre. induction l as [|x l IH]; intros pre; [done|]. cbn [foldl].
  rewrite IH, dropEmpty_lookup. destruct (decide (a = x)) as [->|Hne].
  - rewrite (decide_True (P := x ∈ x :: l)) by (by left).
    destruct (pre !! x) as [s|]; [|by case_decide].
    case_decide; destruct (acc_exists s) eqn:E; rewrite ?E; done.
  - destruct (decide (a ∈ l)); [rewrite decide_True by (by right)|rewrite decide_False]; try done.
    intros [->|?]%elem_of_cons; done.
Qed.

(** Invariant: accounts are recorded only once the EVM is known, with a
    balance. *)
Definition ps_ok (t : prestateTracer) : Prop :=
  (ps_env t = None -> ps_pre t = ∅) /\
  forall a s, ps_pre t !! a = Some s -> acc_Balance s <> None.

Lemma TxEnd_diff d restGas t :
  ps_diffMode t = true -> ps_ok t ->
  exists pre post,
    ps_CaptureTxEnd d restGas t
    = Ret (ps_set_pre (foldl dropEmpty pre (elements (ps_created t)))
             (ps_set_post post (ps_set_pre pre t))) /\
    forall a, match ps_pre t !! a with
              | None => pre !! a = None /\ post !! a = ps_post t !! a
              | Some s => diffEntry d (ps_deleted t) a s (ps_post t !! a) (pre !! a) (post !! a)
              end.
Proof.
  intros Hd [He Hb]. unfold ps_CaptureTxEnd. rewrite Hd. cbn [negb].
  destruct (decide (ps_env t = None)) as [Hn|Hn].
  - specialize (He Hn). exists ∅, (ps_post t). rewrite He, map_to_list_empty. cbn [diffLoop rbind].
    split; [rewrite He; by destruct t|]. intros a. by rewrite !lookup_empty.
  - destruct (diffLoop_spec d (map_to_list (ps_pre t)) t) as (pre & post & E & H);
      [apply NoDup_fst_map_to_list|done| | |].
    + apply Forall_forall. intros [a s] Ha%elem_of_map_to_list. by apply (Hb a).
    + intros a s. by rewrite elem_of_map_to_list.
    + exists pre, post. rewrite E. split; [done|]. intros a. specialize (H a).
      rewrite list_to_map_to_list in H. destruct (ps_pre t !! a) eqn:Ea; [done|].
      exact H.
Qed.

(** C33: in diff mode the pre-state tracer reports exactly the changes. At the
    end of the transaction every recorded account that was not destroyed is in
    the post-state if and only if a field or a recorded slot of it differs from
    the final state, with just the new values that differ, and its pre-state
    entry keeps the old fields and the old non-zero values of the slots that
    changed; unchanged accounts are in neither, destroyed ones keep their
    pre-state, and created accounts that were empty have none. *)
Theorem prestate_diff d restGas t :
  ps_diffMode t = true -> ps_ok t ->
  exists t', ps_CaptureTxEnd d restGas t = Ret t' /\
    forall a, match ps_pre t !! a with
              | None => ps_pre t' !! a = None /\ ps_post t' !! a = ps_post t !! a
              | Some s =>
                  exists p, diffEntry d (ps_deleted t) a s (ps_post t !! a) p (ps_post t' !! a) /\
                    ps_pre t' !! a = (if decide (a ∈ ps_created t)
                                      then p ≫= (fun s => if acc_exists s then Some s else None)
                                      else p)
              end.
Proof.
  intros Hd Hok. destruct (TxEnd_diff d restGas t Hd Hok) as (pre & post & E & H).
  eexists. split; [exact E|]. intros a. specialize (H a).
  cbn [ps_pre ps_post ps_set_pre ps_set_post]. rewrite dropEmpty_fold.
  rewrite (decide_ext (a ∈ elements (ps_created t)) (a ∈ ps_created t) _ _ (elem_of_elements _ _)).
  destruct (ps_pre t !! a) as [s|].
  - exists (pre !! a). split; [done|]. by destruct (pre !! a).
  - destruct H as [-> ->]. by case_decide.
Qed.

(** * First touch *)

(** What a step at the state [d] may do to the recorded pre-state: keep it, add
    an account, or add a slot of a recorded account, as they are in [d]. *)
Inductive records (d : StateDB.DB) (pre : pstate) : pstate -> Prop :=
  | records_none : records d pre pre
  | records_account a : pre !! a = None -> records d pre (<[a := accountAt d a]> pre)
  | records_slot a s k : pre !! a = Some s -> acc_Storage s !! k = None ->
      records d pre (<[a := acc_set_Storage (<[k := StateDB.GetState d a k]> (acc_Storage s)) s]> pre).

(** A step of the tracer that records at most one thing, once it has the EVM. *)
Definition recorded (d : StateDB.DB) (t t' : prestateTracer) : Prop :=
  records d (ps_pre t) (ps_pre t') /\ ps_env t' = ps_env t /\
  (ps_env t = None -> ps_pre t' = ps_pre t).
Lemma recorded_refl d t : recorded d t t.
Proof. split_and!; [constructor|done|done]. Qed.
Lemma lookupAccount_recorded d a t t' : lookupAccount d a t = Ret t' -> recorded d t t'.
Proof.
  unfold lookupAccount. destruct (ps_pre t !! a) eqn:E; [intros [= <-]; apply recorded_refl|].
  destruct (ps_env t) eqn:Ee; [|done]. intros [= <-]. split_and!; [by constructor|done|by rewrite Ee].
Qed.
Lemma lookupStorage_recorded d a k t t' : lookupStorage d a k t = Ret t' -> recorded d t t'.
Proof.
  unfold lookupStorage. destruct (ps_pre t !! a) as [s|] eqn:E; [|done].
  destruct (acc_Storage s !! k) eqn:Ek; [intros [= <-]; apply recorded_refl|].
  destruct (ps_env t) eqn:Ee; [|done]. intros [= <-]. split_and!; [by constructor|done|by rewrite Ee].
Qed.
Lemma state_recorded d pc op gas cost scope rData depth err t t' :
  ps_CaptureState d pc op gas cost scope rData depth err t = Ret t' -> recorded d t t'.
Proof.
  unfold ps_CaptureState. intros H.
  repeat match type of H with
  | context [if ?c then _ else _] => destruct c
  | context [rbind ?r _] => destruct r eqn:?; cbn [rbind] in H
  | context [match ps_env _ with _ => _ end] => destruct (ps_env t)
  end; simplify_eq;
    repeat match goal with
    | |- recorded d t (ps_add_deleted _ ?x) => change (recorded d t x)
    | |- recorded d t (ps_add_created _ ?x) => change (recorded d t x)
    end; eauto using recorded_refl, lookupAccount_recorded, lookupStorage_recorded.
Qed.

(** The events of the execution between its start and its end. *)
Definition isStep (e : Event) : bool :=
  match e with CaptureStart _ _ _ _ _ _ | CaptureEnd _ _ _ => false | _ => true end.
Lemma dispatch_records env d e t t' :
  isStep e = true -> dispatch env d e t = Ret t' -> recorded d t t'.
Proof.
  destruct e; try done; intros _ H; try (injection H as <-; apply recorded_refl).
  exact (state_recorded _ _ _ _ _ _ _ _ _ _ _ H).
Qed.

(** ** The invariant holds throughout *)
Lemma recorded_ok d t t' : recorded d t t' -> ps_ok t -> ps_ok t'.
Proof.
  intros (Hr & He & Hn) [Ht Hb]. split.
  - rewrite He. intros E. rewrite Hn by done. by apply Ht.
  - revert Hr. generalize (ps_pre t'). intros pre' Hr a s. destruct Hr as [|b Hb'|b s' k Hs' Hk].
    + apply Hb.
    + intros [[<- <-]|[_ H]]%lookup_insert_Some; [done|by apply (Hb a)].
    + intros [[<- <-]|[_ H]]%lookup_insert_Some; [exact (Hb b s' Hs')|by apply (Hb a)].
Qed.
Lemma alter_ok a f t t' :
  (forall s s', f s = Ret s' -> acc_Balance s <> None -> acc_Balance s' <> None) ->
  ps_alter a f t = Ret t' -> ps_ok t -> ps_ok t' /\ ps_env t' = ps_env t.
Proof.
  intros Hf H [Ht Hb]. unfold ps_alter in H. destruct (ps_pre t !! a) as [s|] eqn:E; [|done].
  destruct (f s) as [s'| |] eqn:Es; [|done..]. injection H as <-. split; [|done]. split; cbn.
  - intros He. rewrite (Ht He) in E. done.
  - intros b s1 [[<- <-]|[_ H]]%lookup_insert_Some; [by eapply Hf, Hb|by apply (Hb b)].
Qed.
Lemma start_ok env d from to create input gas value t t' :
  ps_CaptureStart env d from to create input gas value t = Ret t' -> ps_ok t -> ps_ok t'.
Proof.
  intros H [Ht Hb]. unfold ps_CaptureStart in H.
  assert (H0 : ps_ok (ps_begin env create to t)) by (split; [done|exact Hb]).
  destruct (lookupAccount d from _) as [t1| |] eqn:E1; [|done..]. cbn [rbind] in H.
  apply lookupAccount_recorded, recorded_ok in E1; [|done].
  destruct (lookupAccount d to t1) as [t2| |] eqn:E2; [|done..]. cbn [rbind] in H.
  apply lookupAccount_recorded, recorded_ok in E2; [|done].
  destruct (lookupAccount d (Coinbase env) t2) as [t3| |] eqn:E3; [|done..]. cbn [rbind] in H.
  apply lookupAccount_recorded, recorded_ok in E3; [|done].
  assert (Hadd : forall x s s', addBalance x s = Ret s' -> acc_Balance s <> None -> acc_Balance s' <> None).
  { intros x s s'. unfold addBalance. destruct (acc_Balance s); [|done]. by intros [= <-]. }
  destruct (ps_alter to _ t3) as [t4| |] eqn:E4; [|done..]. cbn [rbind] in H.
  apply alter_ok in E4 as [E4 _]; [|apply Hadd|done].
  destruct (ps_alter from _ t4) as [t5| |] eqn:E5; [|done..]. cbn [rbind] in H.
  apply alter_ok in E5 as [E5 _]; [|apply Hadd|done].
  destruct (ps_alter from _ t5) as [t6| |] eqn:E6; [|done..]. cbn [rbind] in H.
  apply alter_ok in E6 as [E6 _]; [|by intros s s' [= <-]|done].
  injection H as <-. by case_match.
Qed.
Lemma reachable_ok env ctx cfg t0 es : forall t,
  newPrestateTracer ctx cfg = inl t0 -> feed env es t0 = Ret t -> ps_ok t.
Proof.
  intros t H0. assert (Hok : ps_ok t0).
  { unfold newPrestateTracer in H0. destruct (match cfg with None => _ | Some _ => _ end); [|done].
    injection H0 as <-. by split. }
  clear H0. revert t0 Hok. induction es as [|[d e] es IH]; intros t0 Hok H; cbn [feed] in H.
  { by injection H as <-. }
  destruct (dispatch env d e t0) as [t1| |] eqn:E; [|done..]. apply (IH t1); [|done].
  destruct (isStep e) eqn:Es; [by eapply recorded_ok, Hok; eapply dispatch_records|].
  destruct e; try done; [exact (start_ok env d from to create input gas value t0 t1 E Hok)|].
  change (ps_CaptureEnd output gasUsed err t0 = Ret t1) in E. unfold ps_CaptureEnd in E.
  destruct (ps_diffMode t0); [by injection E as <-|]. destruct (ps_create t0); injection E as <-; [|done].
  destruct Hok as [Ht Hb]. split; cbn [ps_env ps_pre ps_set_pre].
  - intros He. by rewrite (Ht He).
  - intros a s. rewrite dropEmpty_lookup. case_decide; [|by apply Hb].
    destruct (ps_pre t0 !! a) as [s0|] eqn:Ea; [|done]. destruct (acc_exists s0); [|done].
    intros [= <-]. by apply (Hb a).
Qed.


Section FirstSeen.
Context {X : Type} (obs : pstate -> option X) (src : StateDB.DB -> X).
(** The observation is made once, from the state of the moment. *)
Hypothesis kept : forall d pre pre' x, records d pre pre' -> obs pre = Some x -> obs pre' = Some x.
Hypothesis made : forall d pre pre' x,
  records d pre pre' -> obs pre = None -> obs pre' = Some x -> x = src d.


End FirstSeen.


(** ** The start of the transaction *)




End Prestate.

(** * Witnesses *)
From S2P Require Import Instances Core Sample.

(** The tracer in diff mode after the start of a call from alice to bob. *)
Definition diffTracer : prestateTracer :=
  mkPrestate None ∅ ∅ false zeroAddress 0 true false None ∅ ∅.
Definition startedTracer : prestateTracer :=
  match feed sampleEnv [(dbWith [], CaptureStart alice bob false [] 100 0)] diffTracer with
  | Ret t => t
  | _ => diffTracer
  end.
Lemma startedTracer_ok : ps_ok startedTracer.
Proof.
  split; [done|]. intros a s Ha.
  assert (H : map_Forall (fun _ s => acc_Balance s <> None) (ps_pre startedTracer)).
  { apply (bool_decide_unpack _). by vm_compute. }
  by apply (H a).
Qed.

(** Bob receives 5. *)
Lemma prestate_diff_witness :
  exists t', ps_CaptureTxEnd (L := libs) (StateDB.AddBalance bob 5 (dbWith [])) 0 startedTracer = Ret t' /\
    ps_post t' !! bob = Some (mkAccount (Some 5) [] 0 ∅).
Proof.
  destruct (prestate_diff (L := libs) (StateDB.AddBalance bob 5 (dbWith [])) 0 startedTracer eq_refl
    startedTracer_ok) as (t' & E & _).
  exists t'. split; [exact E|].
  assert (H : match ps_CaptureTxEnd (L := libs) (StateDB.AddBalance bob 5 (dbWith [])) 0 startedTracer with
              | Ret t => ps_post t !! bob
              | _ => None
              end = Some (mkAccount (Some 5) [] 0 ∅)) by (by vm_compute).
  by rewrite E in H.
Defined.

