(* ===== verification/StructLogger.v ===== *)
(** The structured loggers (tracers/logger/logger.go and logger_json.go): one
    log entry per step, kept in memory or written to a stream as JSON. *)
From S2P Require Import Prelude Opcodes Errors Externals Stack Memory Analysis Contract Tracer.
From S2P Require Import Machine EvmLogger FourByte.

(** [func (z *Int) Hex() string] of the uint256 package *)
Class IntHex `{uint256.Lib} := { Int_Hex : uint256.Int -> string }.

Section StructLogger.
Context {L : Libs} {T : trace.Lib} {X : IntHex}.

(** [type Storage map[common.Hash]common.Hash]; [Copy] makes an equal map. *)
Abbreviation Storage := (gmap Hash Hash).

(** [type Config struct], less the chain overrides, which the loggers do not
    read. *)
Record LogConfig := mkLogConfig {
  EnableMemory : bool;
  DisableStack : bool;
  DisableStorage : bool;
  EnableReturnData : bool;
  Debug : bool;
  Limit : Z;
}.
Definition zeroLogConfig : LogConfig := mkLogConfig false false false false false 0.

(** [type StructLog struct]; a slice or map that may be nil is an option. The
    stack is listed from the bottom, as [Data()] returns it. *)
Record StructLog := mkStructLog {
  sl_Pc : Z;
  sl_Op : OpCode;
  sl_Gas : Z;
  sl_GasCost : Z;
  sl_Memory : option bytes;
  sl_MemorySize : Z;
  sl_Stack : option (list uint256.Int);
  sl_ReturnData : option bytes;
  sl_Storage : option Storage;
  sl_Depth : Z;
  sl_RefundCounter : Z;
  sl_Err : option Err;
}.
Definition OpName (s : StructLog) : string := OpCode_String (sl_Op s).
Definition ErrorString (s : StructLog) : string :=
  match sl_Err s with Some e => Error e | None => EmptyString end.

(** [type StructLogger struct]; [slg_env] says whether [CaptureStart] has set
    the EVM. *)
Record StructLogger := mkStructLogger {
  slg_cfg : LogConfig;
  slg_env : bool;
  slg_storage : gmap Address Storage;
  slg_logs : list StructLog;
  slg_output : bytes;
  slg_err : option Err;
  slg_gasLimit : Z;
  slg_usedGas : Z;
  slg_interrupt : bool;
  slg_reason : option Err;
}.
Definition NewStructLogger (cfg : option LogConfig) : StructLogger :=
  mkStructLogger (default zeroLogConfig cfg) false ∅ [] [] None 0 0 false None.
Definition slg_Reset (l : StructLogger) : StructLogger :=
  mkStructLogger (slg_cfg l) (slg_env l) ∅ [] [] None (slg_gasLimit l) (slg_usedGas l)
    (slg_interrupt l) (slg_reason l).

Definition slg_CaptureStart (env : Env) (d : StateDB.DB) (from to : Address) (create : bool)
    (input : bytes) (gas value : Z) (l : StructLogger) : res StructLogger :=
  Ret (mkStructLogger (slg_cfg l) true (slg_storage l) (slg_logs l) (slg_output l) (slg_err l)
         (slg_gasLimit l) (slg_usedGas l) (slg_interrupt l) (slg_reason l)).

(** The storage part of [CaptureState]: the tracked storage and the copy the
    log gets. *)
Definition trackStorage (d : StateDB.DB) (op : OpCode) (scope : ScopeContext) (l : StructLogger)
    : res (gmap Address Storage * option Storage) :=
  let stack := scStack scope in
  let stackLen := slen stack in
  let addr := ContractAddress (scContract scope) in
  if negb (DisableStorage (slg_cfg l)) && ((op =? SLOAD) || (op =? SSTORE)) then
    let tracked := match slg_storage l !! addr with
                   | None => <[addr := ∅]> (slg_storage l)
                   | Some _ => slg_storage l
                   end in
    let record (address value : Hash) :=
      let s := <[address := value]> (default ∅ (tracked !! addr)) in (<[addr := s]> tracked, Some s) in
    if (op =? SLOAD) && (1 <=? stackLen) then
      let? x := at_index stack (stackLen - 1) in
      if slg_env l then
        Ret (record (uint256.Bytes32 x) (StateDB.GetState d addr (uint256.Bytes32 x)))
      else Panicked NilDeref
    else if (op =? SSTORE) && (2 <=? stackLen) then
      let? v := at_index stack (stackLen - 2) in
      let? x := at_index stack (stackLen - 1) in
      Ret (record (uint256.Bytes32 x) (uint256.Bytes32 v))
    else Ret (tracked, None)
  else Ret (slg_storage l, None).

Definition slg_CaptureState (d : StateDB.DB) (pc : Z) (op : OpCode) (gas cost : Z)
    (scope : ScopeContext) (rData : bytes) (depth : Z) (err : option Err) (l : StructLogger)
    : res StructLogger :=
  if slg_interrupt l then Ret l
  else if negb (Limit (slg_cfg l) =? 0) && (Limit (slg_cfg l) <=? len (slg_logs l)) then Ret l
  else
    let memory := scMemory scope in
    let mem := if EnableMemory (slg_cfg l) then Some (Data memory) else None in
    let stck := if DisableStack (slg_cfg l) then None else Some (rev (data (scStack scope))) in
    let? (tracked, storage) := trackStorage d op scope l in
    let rdata := if EnableReturnData (slg_cfg l) then Some rData else None in
    if slg_env l then
      let log := mkStructLog pc op gas cost mem (Len memory) stck rdata storage depth
                   (StateDB.GetRefund d) err in
      Ret (mkStructLogger (slg_cfg l) (slg_env l) tracked (slg_logs l ++ [log]) (slg_output l)
             (slg_err l) (slg_gasLimit l) (slg_usedGas l) (slg_interrupt l) (slg_reason l))
    else Panicked NilDeref.

(** [CaptureEnd]; what it prints when debugging is [slg_debug] of TextLogger.v. *)
Definition slg_CaptureEnd (output : bytes) (gasUsed : Z) (err : option Err) (l : StructLogger)
    : res StructLogger :=
  Ret (mkStructLogger (slg_cfg l) (slg_env l) (slg_storage l) (slg_logs l) output err
         (slg_gasLimit l) (slg_usedGas l) (slg_interrupt l) (slg_reason l)).
Definition slg_CaptureTxStart (gasLimit : Z) (l : StructLogger) : res StructLogger :=
  Ret (mkStructLogger (slg_cfg l) (slg_env l) (slg_storage l) (slg_logs l) (slg_output l)
         (slg_err l) gasLimit (slg_usedGas l) (slg_interrupt l) (slg_reason l)).
Definition slg_CaptureTxEnd (d : StateDB.DB) (restGas : Z) (l : StructLogger)
    : res StructLogger :=
  Ret (mkStructLogger (slg_cfg l) (slg_env l) (slg_storage l) (slg_logs l) (slg_output l)
         (slg_err l) (slg_gasLimit l) (u64 (slg_gasLimit l - restGas)) (slg_interrupt l)
         (slg_reason l)).
Definition slg_Stop (err : Err) (l : StructLogger) : StructLogger :=
  mkStructLogger (slg_cfg l) (slg_env l) (slg_storage l) (slg_logs l) (slg_output l) (slg_err l)
    (slg_gasLimit l) (slg_usedGas l) true (Some err).

(** [StructLogs], [Error] and [Output] *)
Definition StructLogs (l : StructLogger) : list StructLog := slg_logs l.
Definition slg_Error (l : StructLogger) : option Err := slg_err l.
Definition slg_Output (l : StructLogger) : bytes := slg_output l.

(** [type StructLogRes struct] and [type ExecutionResult struct] *)
Record StructLogRes := mkLogRes {
  lr_Pc : Z;
  lr_Op : string;
  lr_Gas : Z;
  lr_GasCost : Z;
  lr_Depth : Z;
  lr_Error : string;
  lr_Stack : option (list string);
  lr_Memory : option (list string);
  lr_Storage : option (gmap string string);
  lr_RefundCounter : Z;
}.
Record ExecutionResult := mkExecutionResult {
  er_Gas : Z;
  er_Failed : bool;
  er_ReturnValue : string;
  er_StructLogs : list StructLogRes;
}.

(** [for i := 0; i+32 <= len(trace.Memory); i += 32]: [n] bounds the turns. *)
Fixpoint memoryWords (n : nat) (mem : bytes) (i : Z) : list string :=
  match n with
  | O => []
  | S n => if i + 32 <=? len mem then
             Bytes2Hex (take 32 (drop (Z.to_nat i) mem)) :: memoryWords n mem (i + 32)
           else []
  end.
Definition formatLog (trace : StructLog) : StructLogRes :=
  mkLogRes (sl_Pc trace) (OpCode_String (sl_Op trace)) (sl_Gas trace) (sl_GasCost trace)
    (sl_Depth trace) (ErrorString trace)
    (map Int_Hex <$> sl_Stack trace)
    ((fun m => memoryWords (length m) m 0) <$> sl_Memory trace)
    ((fun s => foldl (fun acc p => <[Bytes2Hex p.1 := Bytes2Hex p.2]> acc) ∅ (map_to_list s))
       <$> sl_Storage trace)
    (sl_RefundCounter trace).
Definition formatLogs (logs : list StructLog) : list StructLogRes := map formatLog logs.

Definition slg_result (l : StructLogger) : ExecutionResult :=
  let failed := negb (is_nil (slg_err l)) in
  let returnVal := if failed && negb (err_is (slg_err l) ErrExecutionReverted) then EmptyString
                   else Bytes2Hex (slg_output l) in
  mkExecutionResult (slg_usedGas l) failed returnVal (formatLogs (StructLogs l)).
Definition slg_GetResult (l : StructLogger) : option trace.RawMessage * option Err :=
  match slg_reason l with
  | Some reason => (None, Some reason)
  | None => marshalled (slg_result l) None
  end.

Definition struct_logger : EVMLogger StructLogger := {|
  onTxStart := slg_CaptureTxStart;
  onTxEnd := slg_CaptureTxEnd;
  onStart := slg_CaptureStart;
  onEnd := slg_CaptureEnd;
  onEnter := fun _ _ _ _ _ _ l => Ret l;
  onExit := fun _ _ _ l => Ret l;
  onState := slg_CaptureState;
  onFault := fun _ _ _ _ _ _ _ _ l => Ret l;
  asAspectLogger := None;
|}.
#[global] Instance struct_tracer : EvmTracer StructLogger := {|
  tracer_logger := struct_logger;
  GetResult := slg_GetResult;
  Stop := slg_Stop;
|}.

(** * tracers/logger/logger_json.go *)

(** What the encoder is given: a log, or the [endLog] of [CaptureEnd]. *)
Inductive jsonValue :=
  | JsonLog (log : StructLog)
  | JsonEnd (Output : string) (GasUsed : Z) (Err : string).
(** [type JSONLogger struct]: the encoder is the list of values written. *)
Record JSONLogger := mkJSONLogger {
  js_written : list jsonValue;
  js_cfg : LogConfig;
  js_env : bool;
}.
Definition NewJSONLogger (cfg : option LogConfig) : JSONLogger :=
  mkJSONLogger [] (default zeroLogConfig cfg) false.
Definition js_encode (v : jsonValue) (l : JSONLogger) : JSONLogger :=
  mkJSONLogger (js_written l ++ [v]) (js_cfg l) (js_env l).

Definition js_CaptureState (d : StateDB.DB) (pc : Z) (op : OpCode) (gas cost : Z)
    (scope : ScopeContext) (rData : option bytes) (depth : Z) (err : option Err) (l : JSONLogger)
    : res JSONLogger :=
  if js_env l then
    let log := mkStructLog pc op gas cost
                 (if EnableMemory (js_cfg l) then Some (Data (scMemory scope)) else None)
                 (Len (scMemory scope))
                 (if DisableStack (js_cfg l) then None else Some (rev (data (scStack scope))))
                 (if EnableReturnData (js_cfg l) then rData else None)
                 None depth (StateDB.GetRefund d) err in
    Ret (js_encode (JsonLog log) l)
  else Panicked NilDeref.
Definition js_CaptureFault (d : StateDB.DB) (pc : Z) (op : OpCode) (gas cost : Z)
    (scope : ScopeContext) (depth : Z) (err : option Err) (l : JSONLogger) : res JSONLogger :=
  js_CaptureState d pc op gas cost scope None depth err l.
Definition js_CaptureEnd (output : bytes) (gasUsed : Z) (err : option Err) (l : JSONLogger)
    : res JSONLogger :=
  let errMsg := match err with Some e => Error e | None => EmptyString end in
  Ret (js_encode (JsonEnd (Bytes2Hex output) gasUsed errMsg) l).

#[global] Instance json_logger : EVMLogger JSONLogger := {|
  onTxStart := fun _ l => Ret l;
  onTxEnd := fun _ _ l => Ret l;
  onStart := fun _ _ _ _ _ _ _ _ l => Ret (mkJSONLogger (js_written l) (js_cfg l) true);
  onEnd := js_CaptureEnd;
  onEnter := fun _ _ _ _ _ _ l => Ret l;
  onExit := fun _ _ _ l => Ret l;
  onState := fun d pc op gas cost scope rData => js_CaptureState d pc op gas cost scope (Some rData);
  onFault := js_CaptureFault;
  asAspectLogger := None;
|}.

(** * The log of an execution *)

(** The entry for a step, without the storage snapshot. *)
Definition stepLog (cfg : LogConfig) (e : StateDB.DB * Event) : option StructLog :=
  match e.2 with
  | CaptureState pc op gas cost scope rData depth err =>
      Some (mkStructLog pc op gas cost
        (if EnableMemory cfg then Some (Data (scMemory scope)) else None) (Len (scMemory scope))
        (if DisableStack cfg then None else Some (rev (data (scStack scope))))
        (if EnableReturnData cfg then Some rData else None) None depth (StateDB.GetRefund e.1) err)
  | _ => None
  end.
Definition withoutStorage (s : StructLog) : StructLog :=
  mkStructLog (sl_Pc s) (sl_Op s) (sl_Gas s) (sl_GasCost s) (sl_Memory s) (sl_MemorySize s)
    (sl_Stack s) (sl_ReturnData s) None (sl_Depth s) (sl_RefundCounter s) (sl_Err s).
(** The entries that still fit, after [n]. *)
Definition fitting {A} (cfg : LogConfig) (n : Z) (l : list A) : list A :=
  if Limit cfg =? 0 then l else take (Z.to_nat (Limit cfg - n)) l.
(** A logger at work. *)
Definition logging (l : StructLogger) : Prop := slg_env l = true /\ slg_interrupt l = false.

Lemma fitting_nil {A} cfg n : fitting cfg n ([] : list A) = [].
Proof. unfold fitting. case_match; [done|apply take_nil]. Qed.
Lemma fitting_cons {A} cfg n (x : A) l :
  0 <= n ->
  fitting cfg n (x :: l) =
  if negb (Limit cfg =? 0) && (Limit cfg <=? n) then [] else x :: fitting cfg (n + 1) l.
Proof.
  intros Hn. unfold fitting. destruct (Z.eqb_spec (Limit cfg) 0) as [E|E]; cbn [negb andb]; [done|].
  destruct (Z.leb_spec (Limit cfg) n) as [Hl|Hl].
  - by replace (Z.to_nat (Limit cfg - n)) with 0%nat by lia.
  - by replace (Z.to_nat (Limit cfg - n)) with (S (Z.to_nat (Limit cfg - (n + 1)))) by lia.
Qed.
Lemma fitting_full {A} cfg n (l : list A) :
  negb (Limit cfg =? 0) && (Limit cfg <=? n) = true -> fitting cfg n l = [].
Proof.
  intros [E1 E2]%andb_true_iff. unfold fitting. apply negb_true_iff in E1. rewrite E1.
  apply Z.leb_le in E2. by replace (Z.to_nat (Limit cfg - n)) with 0%nat by lia.
Qed.

Lemma trackStorage_ok d op scope l : slg_env l = true -> is_Ret (trackStorage d op scope l).
Proof.
  intros He. unfold trackStorage, is_Ret. rewrite He. destruct (_ && _); [|by eexists].
  pose proof (len_nonneg (data (scStack scope))) as H0. change (0 <= slen (scStack scope)) in H0.
  destruct (_ && (1 <=? _)) eqn:E1.
  { apply andb_true_iff in E1 as [_ E1%Z.leb_le].
    destruct (at_index_ok (scStack scope) (slen (scStack scope) - 1)) as [x ->]; [lia|].
    by eexists. }
  destruct (_ && (2 <=? _)) eqn:E2; [|by eexists]. apply andb_true_iff in E2 as [_ E2%Z.leb_le].
  destruct (at_index_ok (scStack scope) (slen (scStack scope) - 2)) as [v ->]; [lia|].
  destruct (at_index_ok (scStack scope) (slen (scStack scope) - 1)) as [x ->]; [lia|].
  by eexists.
Qed.

Lemma event_logged env d e l :
  logging l ->
  exists l', dispatch env d e l = Ret l' /\ logging l' /\ slg_cfg l' = slg_cfg l /\
    map withoutStorage (slg_logs l') = map withoutStorage (slg_logs l) ++
      fitting (slg_cfg l) (len (slg_logs l)) (omap (stepLog (slg_cfg l)) [(d, e)]).
Proof.
  intros [He Hi].
  destruct e as [| | | |pc op gas cost scope rData depth err| | |];
    try (eexists; split; [reflexivity|]; cbn [omap list_omap stepLog snd]; rewrite fitting_nil, app_nil_r;
         split; [by split|by split]).
  cbn [omap list_omap stepLog snd fst]. rewrite fitting_cons by apply len_nonneg.
  cbn [dispatch onState tracer_logger struct_tracer struct_logger]. unfold slg_CaptureState.
  rewrite Hi. destruct (negb _ && _).
  - exists l. by rewrite app_nil_r.
  - destruct (trackStorage_ok d op scope l He) as [[tracked storage] ->]. cbn [rbind]. rewrite He.
    eexists. split; [done|]. split; [by split|]. split; [done|]. cbn [slg_logs].
    by rewrite map_app, fitting_nil.
Qed.
Lemma feed_logged env es : forall l,
  logging l ->
  exists l', feed env es l = Ret l' /\ logging l' /\
    map withoutStorage (slg_logs l') = map withoutStorage (slg_logs l) ++
      fitting (slg_cfg l) (len (slg_logs l)) (omap (stepLog (slg_cfg l)) es).
Proof.
  induction es as [|[d e] es IH]; intros l Hl.
  { exists l. split_and!; [done|apply Hl|].
    cbn [omap list_omap]. by rewrite fitting_nil, app_nil_r. }
  destruct (event_logged env d e l Hl) as (l1 & E1 & Hl1 & Hc & H1).
  destruct (IH l1 Hl1) as (l2 & E2 & Hl2 & H2). exists l2. cbn [feed]. rewrite E1. cbn [rbind].
  split_and!; [done|apply Hl2|]. rewrite H2, Hc, H1, <- app_assoc. f_equal.
  assert (Hlen : len (slg_logs l1) = len (slg_logs l) + len (fitting (slg_cfg l) (len (slg_logs l))
    (omap (stepLog (slg_cfg l)) [(d, e)]))).
  { apply (f_equal length) in H1. rewrite length_app, !length_map in H1. unfold len in *. lia. }
  rewrite Hlen. cbn [omap list_omap]. destruct (stepLog (slg_cfg l) (d, e)) as [x|].
  - rewrite !fitting_cons by apply len_nonneg. destruct (negb _ && _) eqn:Ef.
    + rewrite Z.add_0_r. by apply fitting_full.
    + by rewrite fitting_nil.
  - by rewrite fitting_nil, Z.add_0_r.
Qed.

(** C38: the structured logger has one entry per step, in order, up to its limit.
    A fresh logger fed a transaction does not panic; its entries are the steps
    with their counter, opcode, gas, cost, depth and error and the configured
    copies of memory, stack and return data, cut off at [Limit] entries (0
    means no limit). The storage snapshots of the entries are left out of the
    comparison. *)
Theorem struct_logger_logs env cfg d from to create input gas value es :
  exists l, feed env ((d, CaptureStart from to create input gas value) :: es)
              (NewStructLogger (Some cfg)) = Ret l /\
    map withoutStorage (StructLogs l) = fitting cfg 0 (omap (stepLog cfg) es) /\
    (0 < Limit cfg -> len (StructLogs l) <= Limit cfg).
Proof.
  set (l0 := mkStructLogger cfg true ∅ [] [] None 0 0 false None).
  destruct (feed_logged env es l0) as (l & E & _ & H); [done|]. exists l. split; [exact E|].
  split; [exact H|]. intros Hlim. change (slg_cfg l0) with cfg in H. unfold StructLogs.
  replace (len (slg_logs l)) with (len (map withoutStorage (slg_logs l)))
    by (unfold len; by rewrite length_map).
  rewrite H. change (len (slg_logs l0)) with 0. unfold fitting.
  rewrite (proj2 (Z.eqb_neq (Limit cfg) 0)) by lia. unfold len. cbn [map app slg_logs l0].
  rewrite length_take. lia.
Qed.

(** The memory of a log entry is printed in whole words, none left out: the
    bound of [memoryWords] suffices. *)
Lemma Bytes2Hex_app a b : Bytes2Hex (a ++ b) = Bytes2Hex a +:+ Bytes2Hex b.
Proof.
  induction a as [|x a IH]; [done|]. cbn [app Bytes2Hex foldr].
  change (foldr _ EmptyString (a ++ b)) with (Bytes2Hex (a ++ b)). rewrite IH.
  by rewrite !string_app_assoc.
Qed.
Lemma memoryWords_all n : forall m i,
  0 <= i -> (length m <= n + Z.to_nat i)%nat ->
  foldr String.append EmptyString (memoryWords n m i)
  = Bytes2Hex (take (Z.to_nat ((len m - i) / 32 * 32)) (drop (Z.to_nat i) m)).
Proof.
  induction n as [|n IH]; intros m i Hi Hn.
  - cbn. rewrite drop_ge by lia. by rewrite take_nil.
  - cbn [memoryWords]. destruct (Z.leb_spec (i + 32) (len m)) as [H|H].
    + cbn [foldr]. rewrite IH by lia.
      replace (Z.to_nat (i + 32)) with (Z.to_nat i + 32)%nat by lia. rewrite <- drop_drop.
      rewrite <- Bytes2Hex_app. f_equal.
      replace (Z.to_nat ((len m - i) / 32 * 32))
        with (32 + Z.to_nat ((len m - (i + 32)) / 32 * 32))%nat.
      * by rewrite take_take_drop.
      * replace (len m - i) with (len m - (i + 32) + 1 * 32) by lia. rewrite Z.div_add by lia.
        pose proof (Z.div_pos (len m - (i + 32)) 32). lia.
    + cbn [foldr]. destruct (Z.leb_spec i (len m)) as [H1|H1].
      * rewrite Z.div_small by lia. done.
      * rewrite drop_ge by (unfold len in *; lia). by rewrite take_nil.
Qed.
End StructLogger.
