(* ===== verification/Logic.v ===== *)
(** Reasoning about [ST] computations: inversion of successful runs, relations
    that every step preserves, and properties of all entries of a jump table. *)
From S2P Require Import Prelude Opcodes Errors Externals Stack Memory Analysis Contract Tracer.
From S2P Require Import Machine Gas Instructions JumpTable.

(** * Successful runs *)
Section Runs.
Context {S A B : Type}.

Lemma bind_Ret (m : ST S A) (k : A -> ST S B) s r :
  bind m k s = Ret r -> exists a s1, m s = Ret (a, s1) /\ k a s1 = Ret r.
Proof. unfold bind. destruct (m s) as [[a s1]| |]; [eauto|done..]. Qed.

Lemma liftR_Ret (x : res A) (s : S) r : liftR x s = Ret r -> exists a, x = Ret a /\ r = (a, s).
Proof. unfold liftR. destruct x; cbn; [|done..]. intros [= <-]. eauto. Qed.

Lemma zoom_Ret {T} (get : S -> T) put (m : ST T A) s r :
  zoom get put m s = Ret r -> exists a t, m (get s) = Ret (a, t) /\ r = (a, put t s).
Proof. unfold zoom. destruct (m (get s)) as [[a t]| |]; [|done..]. intros [= <-]. eauto. Qed.

Lemma rbind_Ret (x : res A) (k : A -> res B) b :
  rbind x k = Ret b -> exists a, x = Ret a /\ k a = Ret b.
Proof. destruct x; cbn; [eauto|done..]. Qed.
End Runs.

(** Take a successful run of a composed computation apart. *)
Ltac inv_step :=
  match goal with
  | H : bind ?m ?k ?s = Ret _ |- _ =>
      let a := fresh "a" in let s1 := fresh "s" in let H1 := fresh "H" in
      apply bind_Ret in H as (a & s1 & H1 & H)
  | H : ret _ _ = Ret _ |- _ => injection H as H; simplify_eq
  | H : gets _ _ = Ret _ |- _ => injection H as H; simplify_eq
  | H : modify _ _ = Ret _ |- _ => injection H as H; simplify_eq
  | H : Ret _ = Ret _ |- _ => injection H as H; simplify_eq
  | H : liftR _ _ = Ret _ |- _ => apply liftR_Ret in H as (? & ? & ?); simplify_eq
  | H : zoom _ _ _ _ = Ret _ |- _ => apply zoom_Ret in H as (? & ? & ? & ?); simplify_eq
  | H : rbind _ _ = Ret _ |- _ => apply rbind_Ret in H as (? & ? & ?)
  | H : Panicked _ = Ret _ |- _ => discriminate H
  | H : OutOfFuel = Ret _ |- _ => discriminate H
  | H : _ * _ |- _ => destruct H
  end.
Ltac inv_run := repeat (inv_step; cbn beta iota in *).

(** * Preservation

    [pres P R m]: a successful run of [m] from a state in [P] is related by [R]
    to its start. [P] must be closed under [R] for sequences. *)
Definition pres {S A} (P : S -> Prop) (R : S -> S -> Prop) (m : ST S A) : Prop :=
  forall s a s', P s -> m s = Ret (a, s') -> R s s'.

Section Pres.
Context {S : Type} (P : S -> Prop) (R : S -> S -> Prop) `{!PreOrder R}.
Context (closed : forall s s', P s -> R s s' -> P s').

Lemma pres_ret {A} (a : A) : pres P R (ret a).
Proof. intros s x s' _ H. injection H as _ <-. reflexivity. Qed.

Lemma pres_gets {A} (f : S -> A) : pres P R (gets f).
Proof. intros s x s' _ H. injection H as _ <-. reflexivity. Qed.

Lemma pres_liftR {A} (r : res A) : pres P R (liftR r).
Proof. intros s x s' _ H. inv_run. reflexivity. Qed.

Lemma pres_modify (f : S -> S) : (forall s, P s -> R s (f s)) -> pres P R (modify f).
Proof. intros Hf s x s' Hs H. injection H as _ <-. by apply Hf. Qed.

Lemma pres_bind {A B} (m : ST S A) (k : A -> ST S B) :
  pres P R m -> (forall a, pres P R (k a)) -> pres P R (bind m k).
Proof.
  intros Hm Hk s b s' Hs H. apply bind_Ret in H as (a & s1 & H1 & H2).
  pose proof (Hm _ _ _ Hs H1). transitivity s1; [done|].
  eapply Hk; [|done]. by eapply closed.
Qed.

Lemma pres_zoom {T A} (get : S -> T) put (m : ST T A) :
  (forall s t, R s (put t s)) -> pres P R (zoom get put m).
Proof. intros Hput s x s' _ H. apply zoom_Ret in H as (? & t & _ & [= -> ->]). apply Hput. Qed.
End Pres.

(** * All entries of a jump table *)
Section Tables.
Context {L : Libs} {RP : AspectReports}.

Definition table_all (P : nat -> operation -> Prop) (jt : JumpTable) : Prop :=
  forall i o, jt !! i = Some (Some o) -> P i o.

Lemma table_all_impl (P Q : nat -> operation -> Prop) jt :
  (forall i o, P i o -> Q i o) -> table_all P jt -> table_all Q jt.
Proof. unfold table_all. eauto. Qed.

Lemma table_all_assign P op o jt :
  table_all P jt -> P (Z.to_nat op) o -> table_all P (assign op o jt).
Proof.
  intros Hjt Ho i x Hx. apply list_lookup_insert_Some in Hx as [(Hi & Hox & _)|(_ & Hx)];
    [by injection Hox as <-; subst i|by apply Hjt].
Qed.

Lemma table_all_mutate P op f jt jt' :
  table_all P jt -> mutate op f jt = Ret jt' ->
  (forall o, P (Z.to_nat op) o -> P (Z.to_nat op) (f o)) -> table_all P jt'.
Proof.
  unfold mutate. intros Hjt Hm Hf.
  destruct (jt !! Z.to_nat op) as [[o|]|] eqn:E; [|done..].
  injection Hm as <-. apply table_all_assign; [done|]. by apply Hf, Hjt.
Qed.

Lemma table_all_validate P jt jt' :
  table_all P jt -> validate jt = Ret jt' -> table_all P jt'.
Proof. unfold validate. intros Hjt Hv. inv_run. done. Qed.

Lemma table_all_entries P es :
  Forall (fun e => P (Z.to_nat e.1) e.2) es -> table_all P (fromEntries es).
Proof.
  unfold fromEntries.
  assert (Hgen : forall jt, table_all P jt -> Forall (fun e => P (Z.to_nat e.1) e.2) es ->
    table_all P (foldl (fun jt e => assign e.1 e.2 jt) jt es)).
  { induction es as [|e es IH]; intros jt Hjt Hes; [done|]. cbn. inversion Hes; subst.
    apply IH; [|done]. by apply table_all_assign. }
  apply Hgen. intros i o Hi. apply lookup_replicate in Hi as [? _]. done.
Qed.

Lemma table_all_fill P jt :
  table_all P jt -> (forall i, P i undefinedOp) -> table_all P (fillUndefined jt).
Proof.
  intros Hjt Hu i o Hi. unfold fillUndefined in Hi. apply list_lookup_fmap_Some in Hi
    as ([x|] & Ho & Hx); injection Ho as ->; [by apply Hjt|apply Hu].
Qed.
End Tables.

(** Follow the construction of an instruction set, one assignment at a time. *)
Ltac table_steps :=
  repeat match goal with
  | H : rbind _ _ = Ret _ |- _ => apply rbind_Ret in H as (? & ? & ?)
  | H : Ret _ = Ret _ |- _ => injection H as H; subst
  | H : validate _ = Ret ?jt |- table_all _ ?jt =>
      refine (table_all_validate _ _ _ _ H); clear H
  | H : mutate _ _ _ = Ret ?jt |- table_all _ ?jt =>
      refine (table_all_mutate _ _ _ _ _ _ H _); clear H
  | |- table_all _ (assign _ _ _) => apply table_all_assign
  end.
Tactic Notation "each_entry" tactic3(tac) :=
  repeat (apply Forall_cons_2; [cbn [fst snd]; tac|]); apply Forall_nil_2.
