(* ===== verification/Tables.v ===== *)
(** What holds of every entry the forks and the EIP activators write holds of
    every entry of every interpreter's jump table: an induction principle over
    the construction of the instruction sets. *)
From S2P Require Import Prelude Opcodes Errors Externals Stack Memory Analysis Contract Tracer.
From S2P Require Import Machine Gas Instructions JumpTable Precompiles Evm Logic.

Section Tables.
Context {L : Libs}.

(** The operations the forks after Frontier and the EIPs add. *)
Definition forkEntries : list (OpCode * operation) :=
  [ (DELEGATECALL, mkOp opDelegateCall params.CallGasFrontier (Some gasDelegateCall)
       (minStack 6 1) (maxStack 6 1) (Some memoryDelegateCall));
    (STATICCALL, mkOp opStaticCall params.CallGasEIP150 (Some gasStaticCall) (minStack 6 1)
       (maxStack 6 1) (Some memoryStaticCall));
    (RETURNDATASIZE, mkOp opReturnDataSize GasQuickStep None (minStack 0 1) (maxStack 0 1) None);
    (RETURNDATACOPY, mkOp opReturnDataCopy GasFastestStep (Some gasReturnDataCopy)
       (minStack 3 0) (maxStack 3 0) (Some memoryReturnDataCopy));
    (REVERT, mkOp opRevert 0 (Some gasRevert) (minStack 2 0) (maxStack 2 0) (Some memoryRevert));
    (SHL, mkOp opSHL GasFastestStep None (minStack 2 1) (maxStack 2 1) None);
    (SHR, mkOp opSHR GasFastestStep None (minStack 2 1) (maxStack 2 1) None);
    (SAR, mkOp opSAR GasFastestStep None (minStack 2 1) (maxStack 2 1) None);
    (EXTCODEHASH, mkOp opExtCodeHash params.ExtcodeHashGasConstantinople None (minStack 1 1)
       (maxStack 1 1) None);
    (CREATE2, mkOp opCreate2 params.Create2Gas (Some gasCreate2) (minStack 4 1) (maxStack 4 1)
       (Some memoryCreate2));
    (PREVRANDAO, mkOp opRandom GasQuickStep None (minStack 0 1) (maxStack 0 1) None);
    (SELFBALANCE, mkOp opSelfBalance GasFastStep None (minStack 0 1) (maxStack 0 1) None);
    (CHAINID, mkOp opChainID GasQuickStep None (minStack 0 1) (maxStack 0 1) None);
    (BASEFEE, mkOp opBaseFee GasQuickStep None (minStack 0 1) (maxStack 0 1) None);
    (TLOAD, mkOp opTload params.WarmStorageReadCostEIP2929 None (minStack 1 1) (maxStack 1 1)
       None);
    (TSTORE, mkOp opTstore params.WarmStorageReadCostEIP2929 None (minStack 2 0) (maxStack 2 0)
       None);
    (PUSH0, mkOp opPush0 GasQuickStep None (minStack 0 1) (maxStack 0 1) None);
    (MCOPY, mkOp opMcopy GasFastestStep (Some gasMcopy) (minStack 3 0) (maxStack 3 0)
       (Some memoryMcopy)) ].

(** The fields they change: constant costs, dynamic costs, and (EIP-2929)
    both. *)
Definition constantChanges : list (OpCode * Z) :=
  [ (BALANCE, params.BalanceGasEIP150); (EXTCODESIZE, params.ExtcodeSizeGasEIP150);
    (SLOAD, params.SloadGasEIP150); (EXTCODECOPY, params.ExtcodeCopyBaseEIP150);
    (CALL, params.CallGasEIP150); (CALLCODE, params.CallGasEIP150);
    (DELEGATECALL, params.CallGasEIP150); (SLOAD, params.SloadGasEIP1884);
    (BALANCE, params.BalanceGasEIP1884); (EXTCODEHASH, params.ExtcodeHashGasEIP1884);
    (SLOAD, params.SloadGasEIP2200) ].
Definition dynamicChanges : list (OpCode * gasFunc) :=
  [ (EXP, gasExpEIP158); (SSTORE, gasSStoreEIP2200); (SSTORE, gasSStoreEIP2929);
    (SSTORE, gasSStoreEIP3529); (SELFDESTRUCT, gasSelfdestructEIP3529);
    (CREATE, gasCreateEip3860); (CREATE2, gasCreate2Eip3860) ].
Definition bothChanges : list (OpCode * (Z * gasFunc)) :=
  let warm := params.WarmStorageReadCostEIP2929 in
  [ (SLOAD, (0, gasSLoadEIP2929)); (EXTCODECOPY, (warm, gasExtCodeCopyEIP2929));
    (EXTCODESIZE, (warm, gasEip2929AccountCheck)); (EXTCODEHASH, (warm, gasEip2929AccountCheck));
    (BALANCE, (warm, gasEip2929AccountCheck)); (CALL, (warm, gasCallEIP2929));
    (CALLCODE, (warm, gasCallCodeEIP2929)); (STATICCALL, (warm, gasStaticCallEIP2929));
    (DELEGATECALL, (warm, gasDelegateCallEIP2929));
    (SELFDESTRUCT, (params.SelfdestructGasEIP150, gasSelfdestructEIP2929)) ].

Record closed (P : nat -> operation -> Prop) : Prop := {
  cl_undefined : forall i, P i undefinedOp;
  cl_frontier : Forall (fun e => P (Z.to_nat e.1) e.2) frontierEntries;
  cl_fork : Forall (fun e => P (Z.to_nat e.1) e.2) forkEntries;
  cl_constant : Forall (fun e => forall o, P (Z.to_nat e.1) o ->
    P (Z.to_nat e.1) (set_constantGas e.2 o)) constantChanges;
  cl_dynamic : Forall (fun e => forall o, P (Z.to_nat e.1) o ->
    P (Z.to_nat e.1) (set_dynamicGas e.2 o)) dynamicChanges;
  cl_both : Forall (fun e => forall o, P (Z.to_nat e.1) o ->
    P (Z.to_nat e.1) (set_dynamicGas e.2.2 (set_constantGas e.2.1 o))) bothChanges;
}.

(** Two changes of one entry are one. *)
Lemma mutate_mutate op f g jt j1 j2 :
  mutate op f jt = Ret j1 -> mutate op g j1 = Ret j2 -> mutate op (fun o => g (f o)) jt = Ret j2.
Proof.
  unfold mutate. destruct (jt !! Z.to_nat op) as [[o|]|] eqn:E; [|done..]. intros [= <-].
  unfold assign, JumpTable in *. apply lookup_lt_Some in E.
  rewrite (list_lookup_insert_eq (A := option operation)) by done.
  intros [= <-]. by rewrite list_insert_insert_eq.
Qed.

Section Closed.
Context (P : nat -> operation -> Prop) (HP : closed P).

Lemma closed_entry op o : (op, o) ∈ forkEntries -> P (Z.to_nat op) o.
Proof. intros H. pose proof (cl_fork _ HP) as HF. rewrite Forall_forall in HF. by apply HF in H. Qed.
Lemma closed_constant op g jt jt' :
  (op, g) ∈ constantChanges -> table_all P jt -> mutate op (set_constantGas g) jt = Ret jt' ->
  table_all P jt'.
Proof.
  intros H Hjt Hm. pose proof (cl_constant _ HP) as HF. rewrite Forall_forall in HF.
  eapply table_all_mutate; [done..|exact (HF _ H)].
Qed.
Lemma closed_dynamic op g jt jt' :
  (op, g) ∈ dynamicChanges -> table_all P jt -> mutate op (set_dynamicGas g) jt = Ret jt' ->
  table_all P jt'.
Proof.
  intros H Hjt Hm. pose proof (cl_dynamic _ HP) as HF. rewrite Forall_forall in HF.
  eapply table_all_mutate; [done..|exact (HF _ H)].
Qed.
Lemma closed_both op c g jt j1 jt' :
  (op, (c, g)) ∈ bothChanges -> table_all P jt -> mutate op (set_constantGas c) jt = Ret j1 ->
  mutate op (set_dynamicGas g) j1 = Ret jt' -> table_all P jt'.
Proof.
  intros H Hjt H1 H2. pose proof (mutate_mutate _ _ _ _ _ _ H1 H2) as Hm.
  pose proof (cl_both _ HP) as HF. rewrite Forall_forall in HF.
  eapply table_all_mutate; [done..|exact (HF _ H)].
Qed.

Ltac listed := repeat first [apply list_elem_of_here|apply list_elem_of_further].
Ltac closed_steps :=
  repeat match goal with
  | H : rbind _ _ = Ret _ |- _ => apply rbind_Ret in H as (? & ? & ?)
  | H : Ret _ = Ret _ |- _ => injection H as H; subst
  end;
  repeat match goal with
  | H : validate _ = Ret ?jt |- table_all _ ?jt => refine (table_all_validate _ _ _ _ H); clear H
  | |- table_all _ (assign _ _ _) => apply table_all_assign; [|apply closed_entry; solve [listed]]
  | H1 : mutate ?op (set_constantGas _) _ = Ret ?j, H2 : mutate ?op (set_dynamicGas _) ?j = Ret ?jt
    |- table_all _ ?jt => refine (closed_both _ _ _ _ _ _ _ _ H1 H2); [solve [listed]|]; clear H1 H2
  | H : mutate _ (set_constantGas _) _ = Ret ?jt |- table_all _ ?jt =>
      refine (closed_constant _ _ _ _ _ _ H); [solve [listed]|]; clear H
  | H : mutate _ (set_dynamicGas _) _ = Ret ?jt |- table_all _ ?jt =>
      refine (closed_dynamic _ _ _ _ _ _ H); [solve [listed]|]; clear H
  end.

Lemma activator_closed n f jt jt' :
  activator n activators = Some f -> table_all P jt -> f jt = Ret jt' -> table_all P jt'.
Proof.
  intros Hf Hjt H. unfold activators in Hf. cbn [activator] in Hf.
  repeat match type of Hf with (if ?b then _ else _) = _ =>
    destruct b; [injection Hf as <-;
      unfold enable3855, enable3860, enable3529, enable3198, enable2929, enable2200, enable1884,
        enable1344, enable1153, enable5656 in H; cbv zeta in H; closed_steps; exact Hjt|] end; done.
Qed.

Lemma EnableEIP_closed n jt err jt' :
  table_all P jt -> EnableEIP n jt = Ret (err, jt') -> table_all P jt'.
Proof.
  unfold EnableEIP. intros Hjt H. destruct (activator n activators) as [f|] eqn:E.
  - apply rbind_Ret in H as (j & Hj & [= _ <-]). by eapply activator_closed.
  - by injection H as _ <-.
Qed.

Lemma frontier_closed jt : newFrontierInstructionSet = Ret jt -> table_all P jt.
Proof.
  unfold newFrontierInstructionSet. intros H. refine (table_all_validate _ _ _ _ H).
  apply table_all_fill; [|apply (cl_undefined _ HP)]. apply table_all_entries, (cl_frontier _ HP).
Qed.
Lemma homestead_closed jt : newHomesteadInstructionSet = Ret jt -> table_all P jt.
Proof. intros H. unfold newHomesteadInstructionSet in H. closed_steps. by apply frontier_closed. Qed.
Lemma tangerine_closed jt : newTangerineWhistleInstructionSet = Ret jt -> table_all P jt.
Proof.
  intros H. unfold newTangerineWhistleInstructionSet in H. closed_steps. by apply homestead_closed.
Qed.
Lemma spurious_closed jt : newSpuriousDragonInstructionSet = Ret jt -> table_all P jt.
Proof.
  intros H. unfold newSpuriousDragonInstructionSet in H. closed_steps. by apply tangerine_closed.
Qed.
Lemma byzantium_closed jt : newByzantiumInstructionSet = Ret jt -> table_all P jt.
Proof. intros H. unfold newByzantiumInstructionSet in H. closed_steps. by apply spurious_closed. Qed.
Lemma constantinople_closed jt : newConstantinopleInstructionSet = Ret jt -> table_all P jt.
Proof.
  intros H. unfold newConstantinopleInstructionSet in H. closed_steps. by apply byzantium_closed.
Qed.
Lemma istanbul_closed jt : newIstanbulInstructionSet = Ret jt -> table_all P jt.
Proof.
  intros H. unfold newIstanbulInstructionSet, enable1344, enable1884, enable2200 in H.
  closed_steps. by apply constantinople_closed.
Qed.
Lemma berlin_closed jt : newBerlinInstructionSet = Ret jt -> table_all P jt.
Proof.
  intros H. unfold newBerlinInstructionSet, enable2929 in H. cbv zeta in H. closed_steps.
  by apply istanbul_closed.
Qed.
Lemma london_closed jt : newLondonInstructionSet = Ret jt -> table_all P jt.
Proof.
  intros H. unfold newLondonInstructionSet, enable3529, enable3198 in H. closed_steps.
  by apply berlin_closed.
Qed.
Lemma merge_closed jt : newMergeInstructionSet = Ret jt -> table_all P jt.
Proof. intros H. unfold newMergeInstructionSet in H. closed_steps. by apply london_closed. Qed.
Lemma shanghai_closed jt : newShanghaiInstructionSet = Ret jt -> table_all P jt.
Proof.
  intros H. unfold newShanghaiInstructionSet, enable3855, enable3860 in H. closed_steps.
  by apply merge_closed.
Qed.
Lemma cancun_closed jt : newCancunInstructionSet = Ret jt -> table_all P jt.
Proof.
  intros H. unfold newCancunInstructionSet, enable1153, enable5656 in H. cbv zeta in H.
  closed_steps. by apply shanghai_closed.
Qed.

Lemma selectTable_closed rules jt : selectTable rules = Ret jt -> table_all P jt.
Proof.
  unfold selectTable. destruct (params.IsCancun rules); [apply cancun_closed|].
  destruct (params.IsShanghai rules); [apply shanghai_closed|].
  destruct (params.IsMerge rules); [apply merge_closed|].
  destruct (params.IsLondon rules); [apply london_closed|].
  destruct (params.IsBerlin rules); [apply berlin_closed|].
  destruct (params.IsIstanbul rules); [apply istanbul_closed|].
  destruct (params.IsConstantinople rules); [apply constantinople_closed|].
  destruct (params.IsByzantium rules); [apply byzantium_closed|].
  destruct (params.IsEIP158 rules); [apply spurious_closed|].
  destruct (params.IsEIP150 rules); [apply tangerine_closed|].
  destruct (params.IsHomestead rules); [apply homestead_closed|apply frontier_closed].
Qed.
End Closed.

Lemma copyJumpTable_id (jt : JumpTable) : copyJumpTable jt = jt.
Proof.
  unfold copyJumpTable. rewrite <- (list_fmap_id jt) at 2. apply list_fmap_ext.
  by intros i [[]|] _.
Qed.

(** The table of every interpreter, whatever the fork and the extra EIPs. *)
Lemma NewEVMInterpreter_closed P rules eips jt active :
  closed P -> NewEVMInterpreter rules eips = Ret (jt, active) -> table_all P jt.
Proof.
  unfold NewEVMInterpreter. intros HP H. apply rbind_Ret in H as (t & Ht & H).
  pose proof (selectTable_closed P HP _ _ Ht) as Hf. clear Ht. rewrite copyJumpTable_id in H.
  assert (H' : enableExtra eips t = Ret (jt, active)) by (by destruct (0 <? len eips)).
  clear H. revert t jt active Hf H'.
  induction eips as [|e eips IH]; intros t jt active Ht H; cbn in H; [by inv_run|].
  inv_run. by eauto using EnableEIP_closed.
Qed.
End Tables.
