(* ===== verification/Complete.v ===== *)
(** The jump tables are well formed: whatever the fork and the extra EIPs, the
    construction of an interpreter's table succeeds, every byte has an
    operation, an operation that sizes memory has a dynamic gas function, and
    the LOG opcodes keep their stack and gas requirements. *)
From stdpp Require Import sorting.
From S2P Require Import Prelude Opcodes Errors Externals Stack Memory Analysis Contract Tracer.
From S2P Require Import Machine Gas Instructions JumpTable Precompiles Evm Logic Tables.

(** [func ActivateableEips() []string] of vm/eips.go: the numbers of the known
    EIPs, as sorted strings. *)
Definition stringLe (a b : string) : Prop := String.leb a b = true.
#[export] Instance stringLe_dec : RelDecision stringLe.
Proof. intros a b. unfold stringLe. apply _. Defined.
Definition ActivateableEips {L : Libs} : list string :=
  merge_sort stringLe (map (fun e => pretty e.1) activators).

Section Complete.
Context {L : Libs}.

(** Memory is paid for: what [validate] checks. *)
Definition memory_paid (o : operation) : Prop := memorySize o <> None -> dynamicGas o <> None.
Lemma memory_paid_unsized e c g lo hi : memory_paid (mkOp e c g lo hi None).
Proof. by intros []. Qed.
Lemma memory_paid_dynamic e c g lo hi ms : memory_paid (mkOp e c (Some g) lo hi ms).
Proof. done. Qed.
(** LOG opcodes, and what their operation asks for. *)
Definition is_LOG (op : OpCode) : Prop := LOG0 <= op <= LOG4.
Record log_operation (n : Z) (o : operation) : Prop := {
  lo_minStack : op_minStack o = n + 2;
  lo_memorySize : memorySize o = Some memoryLog;
  lo_dynamicGas : dynamicGas o = Some (makeGasLog n);
}.
Definition log_entry (i : nat) (o : operation) : Prop :=
  forall op, is_LOG op -> i = Z.to_nat op -> log_operation (op - LOG0) o.
Record complete (jt : JumpTable) : Prop := {
  cp_length : length jt = 256%nat;
  cp_entry : forall i, (i < 256)%nat -> exists o, jt !! i = Some (Some o) /\ memory_paid o;
  cp_logs : forall op o, is_LOG op -> jt !! Z.to_nat op = Some (Some o) ->
    log_operation (op - LOG0) o;
}.
(** A construction that succeeds with a complete table. *)
Definition yields (r : res JumpTable) : Prop := exists jt, r = Ret jt /\ complete jt.

Lemma complete_assign op o jt :
  complete jt -> 0 <= op -> ~ is_LOG op -> memory_paid o -> complete (assign op o jt).
Proof.
  intros [Hl He Hg] Hop Hn Ho. unfold assign, JumpTable in *. constructor; unfold JumpTable in *.
  - by rewrite length_insert.
  - intros i Hi. destruct (decide (i = Z.to_nat op)) as [->|Hne].
    + exists o. split; [|done]. apply list_lookup_insert_eq. lia.
    + rewrite list_lookup_insert_ne by done. by apply He.
  - intros k x Hk. assert (k <> op) by (by intros ->).
    unfold is_LOG in *. change LOG0 with 160 in *. change LOG4 with 164 in *.
    rewrite list_lookup_insert_ne by lia. by apply Hg.
Qed.
Lemma yields_mutate op f jt :
  complete jt -> 0 <= op < 256 -> ~ is_LOG op ->
  (forall o, memory_paid o -> memory_paid (f o)) -> yields (mutate op f jt).
Proof.
  intros Hc Hop Hn Hf. destruct (cp_entry _ Hc (Z.to_nat op)) as (o & E & Ho); [lia|].
  unfold mutate. rewrite E. eexists. split; [done|]. apply complete_assign; auto. lia.
Qed.
Lemma yields_constantGas op g jt :
  complete jt -> 0 <= op < 256 -> ~ is_LOG op -> yields (mutate op (set_constantGas g) jt).
Proof. intros Hc Hop Hn. by apply yields_mutate. Qed.
Lemma yields_dynamicGas op g jt :
  complete jt -> 0 <= op < 256 -> ~ is_LOG op -> yields (mutate op (set_dynamicGas g) jt).
Proof. intros Hc Hop Hn. apply yields_mutate; [done..|]. by intros o _ _. Qed.

Lemma validateFrom_ok i (l : list (option operation)) :
  Forall (fun e => exists o, e = Some o /\ memory_paid o) l -> validateFrom i l = Ret tt.
Proof.
  intros H. revert i. induction H as [|e l (o & -> & Ho) _ IH]; intros i; [done|]. cbn.
  unfold memory_paid in Ho.
  destruct (memorySize o), (dynamicGas o); try apply IH. by destruct Ho.
Qed.
Lemma yields_validate jt : complete jt -> yields (validate jt).
Proof.
  intros Hc. exists jt. split; [|done]. unfold validate. rewrite validateFrom_ok; [done|].
  apply Forall_lookup. intros i e He. pose proof (lookup_lt_Some _ _ _ He) as Hi.
  rewrite (cp_length _ Hc) in Hi. destruct (cp_entry _ Hc i Hi) as (o & Eo & Ho).
  exists o. split; [|done]. unfold JumpTable in *. congruence.
Qed.
Lemma yields_ret jt : complete jt -> yields (Ret jt).
Proof. intros H. by exists jt. Qed.
Lemma yields_bind (r : res JumpTable) (k : JumpTable -> res JumpTable) :
  yields r -> (forall jt, complete jt -> yields (k jt)) -> yields (rbind r k).
Proof. intros (jt & -> & Hc) Hk. by apply Hk. Qed.

Lemma complete_fill jt :
  length jt = 256%nat -> table_all (fun _ => memory_paid) jt ->
  (forall op, is_LOG op -> exists o, jt !! Z.to_nat op = Some (Some o) /\
     log_operation (op - LOG0) o) ->
  complete (fillUndefined jt).
Proof.
  intros Hl Ha Hg. constructor; [by unfold fillUndefined; rewrite length_map| |].
  2: { intros op o Hop. destruct (Hg op Hop) as (x & Ex & Hx). unfold fillUndefined.
    change (map ?f jt) with (f <$> jt). unfold JumpTable in *. rewrite list_lookup_fmap, Ex.
    by intros [= <-]. }
  intros i Hi.
  destruct (lookup_lt_is_Some_2 jt i) as [e He]; [unfold JumpTable in *; lia|].
  unfold fillUndefined. change (map ?f jt) with (f <$> jt). unfold JumpTable in *.
  rewrite list_lookup_fmap, He. destruct e as [o|]; cbn.
  - exists o. split; [done|]. by eapply Ha.
  - exists undefinedOp. split; [done|]. by intros [].
Qed.
Lemma length_entries es : length (fromEntries es) = 256%nat.
Proof.
  unfold fromEntries. assert (H : forall jt, length (foldl (fun jt e => assign e.1 e.2 jt) jt es)
    = length jt).
  { induction es as [|e es IH]; intros jt; [done|]. cbn. rewrite IH. apply length_insert. }
  by rewrite H.
Qed.
End Complete.

(** Follow the construction of a table. *)
Ltac op_range :=
  match goal with
  | |- 0 <= ?op => let v := eval vm_compute in op in change op with v; lia
  | |- 0 <= ?op < 256 => let v := eval vm_compute in op in change op with v; lia
  | |- ~ is_LOG ?op =>
      let v := eval vm_compute in op in change (~ (160 <= v <= 164)); lia
  end.
Ltac table_step :=
  match goal with
  | |- forall _, _ => intros
  | |- yields (rbind _ _) => apply yields_bind
  | |- yields (mutate _ (set_constantGas _) _) => apply yields_constantGas; [|op_range..]
  | |- yields (mutate _ (set_dynamicGas _) _) => apply yields_dynamicGas; [|op_range..]
  | |- yields (validate _) => apply yields_validate
  | |- yields (Ret _) => apply yields_ret
  | |- complete (assign _ _ _) => apply complete_assign; [|op_range..|]
  | |- memory_paid _ => first [apply memory_paid_unsized|apply memory_paid_dynamic]
  end.
Ltac build_table := repeat (table_step; cbv zeta); try done.

(** An entry at another index, or one of the five. *)
Ltac log_index :=
  idtac; match goal with |- log_entry (Z.to_nat ?k) _ =>
    let v := eval vm_compute in k in change k with v;
    intros op Hop Hi; unfold is_LOG in Hop; change LOG0 with 160 in *; change LOG4 with 164 in *;
    first [exfalso; lia | replace op with v by lia; by constructor]
  end.

Section Sets.
Context {L : Libs}.

Lemma memory_paid_frontier : Forall (fun e => memory_paid e.2) frontierEntries.
Proof.
  unfold frontierEntries. rewrite !Forall_app. split_and!; unfold frontierArithmetic,
    frontierComparison, frontierEnvironment, frontierBlock, frontierMemory, frontierPush,
    frontierPush2, frontierDup, frontierSwap, frontierLog, frontierJournal, frontierSystem;
    each_entry (first [apply memory_paid_unsized|apply memory_paid_dynamic]).
Qed.
(** The LOG opcodes are set, and nothing else is at their index. *)
Lemma LOG_listed op : is_LOG op -> op ∈ frontierEntries.*1.
Proof.
  unfold is_LOG. change LOG0 with 160. change LOG4 with 164. intros H.
  assert (op = 160 \/ op = 161 \/ op = 162 \/ op = 163 \/ op = 164) as Ho by lia.
  destruct_or! Ho; subst op; apply (bool_decide_unpack _); vm_compute; exact I.
Qed.
Lemma log_entries : Forall (fun e => log_entry (Z.to_nat e.1) e.2) frontierEntries.
Proof.
  unfold frontierEntries. rewrite !Forall_app. split_and!; unfold frontierArithmetic,
    frontierComparison, frontierEnvironment, frontierBlock, frontierMemory, frontierPush,
    frontierPush2, frontierDup, frontierSwap, frontierLog, frontierJournal, frontierSystem;
    each_entry log_index.
Qed.
Lemma entries_set (es : list (OpCode * operation)) op :
  0 <= op < 256 -> op ∈ es.*1 -> exists o, fromEntries es !! Z.to_nat op = Some (Some o).
Proof.
  intros Hop. unfold fromEntries.
  assert (H : forall jt : JumpTable, length jt = 256%nat ->
    op ∈ es.*1 \/ (exists o, jt !! Z.to_nat op = Some (Some o)) ->
    exists o, foldl (fun jt e => assign e.1 e.2 jt) jt es !! Z.to_nat op = Some (Some o));
    [|intros Hin; apply H; [done|by left]].
  induction es as [|[k x] es IH]; intros jt Hl [Hin|(o & Ho)]; cbn [foldl fst snd].
  - by apply elem_of_nil in Hin.
  - by exists o.
  - apply IH; [by unfold assign, JumpTable in *; rewrite length_insert|].
    apply elem_of_cons in Hin as [->|Hin]; [|by left]. right. exists x.
    apply list_lookup_insert_eq. unfold JumpTable in *. cbn [fst] in *. rewrite Hl. lia.
  - apply IH; [by unfold assign, JumpTable in *; rewrite length_insert|]. right. unfold assign.
    destruct (decide (Z.to_nat k = Z.to_nat op)) as [E|E].
    + exists x. rewrite E. apply list_lookup_insert_eq. unfold JumpTable in *. lia.
    + exists o. unfold JumpTable in *. by rewrite list_lookup_insert_ne.
Qed.
Lemma frontier_yields : yields newFrontierInstructionSet.
Proof.
  apply yields_validate, complete_fill; [apply length_entries| |].
  - apply (table_all_entries (fun _ => memory_paid)), memory_paid_frontier.
  - intros op Hop. destruct (entries_set frontierEntries op) as (o & Eo).
    + unfold is_LOG in Hop. change LOG0 with 160 in *. change LOG4 with 164 in *. lia.
    + by apply LOG_listed.
    + exists o. split; [done|]. eapply (table_all_entries log_entry); [apply log_entries| |done|done].
      exact Eo.
Qed.

(** The activators of the EIPs keep a table complete. *)
Lemma enable1884_yields jt : complete jt -> yields (enable1884 jt).
Proof. unfold enable1884. build_table. Qed.
Lemma enable1344_yields jt : complete jt -> yields (enable1344 jt).
Proof. unfold enable1344. build_table. Qed.
Lemma enable2200_yields jt : complete jt -> yields (enable2200 jt).
Proof. unfold enable2200. build_table. Qed.
Lemma enable2929_yields jt : complete jt -> yields (enable2929 jt).
Proof. unfold enable2929. build_table. Qed.
Lemma enable3529_yields jt : complete jt -> yields (enable3529 jt).
Proof. unfold enable3529. build_table. Qed.
Lemma enable3198_yields jt : complete jt -> yields (enable3198 jt).
Proof. unfold enable3198. build_table. Qed.
Lemma enable1153_yields jt : complete jt -> yields (enable1153 jt).
Proof. unfold enable1153. build_table. Qed.
Lemma enable3855_yields jt : complete jt -> yields (enable3855 jt).
Proof. unfold enable3855. build_table. Qed.
Lemma enable3860_yields jt : complete jt -> yields (enable3860 jt).
Proof. unfold enable3860. build_table. Qed.
Lemma enable5656_yields jt : complete jt -> yields (enable5656 jt).
Proof. unfold enable5656. build_table. Qed.
#[local] Hint Resolve enable1884_yields enable1344_yields enable2200_yields enable2929_yields
  enable3529_yields enable3198_yields enable1153_yields enable3855_yields enable3860_yields
  enable5656_yields yields_validate : core.

Lemma homestead_yields : yields newHomesteadInstructionSet.
Proof. unfold newHomesteadInstructionSet. refine (yields_bind _ _ frontier_yields _). build_table. Qed.
Lemma tangerine_yields : yields newTangerineWhistleInstructionSet.
Proof. unfold newTangerineWhistleInstructionSet. refine (yields_bind _ _ homestead_yields _). build_table. Qed.
Lemma spurious_yields : yields newSpuriousDragonInstructionSet.
Proof. unfold newSpuriousDragonInstructionSet. refine (yields_bind _ _ tangerine_yields _). build_table. Qed.
Lemma byzantium_yields : yields newByzantiumInstructionSet.
Proof. unfold newByzantiumInstructionSet. refine (yields_bind _ _ spurious_yields _). build_table. Qed.
Lemma constantinople_yields : yields newConstantinopleInstructionSet.
Proof. unfold newConstantinopleInstructionSet. refine (yields_bind _ _ byzantium_yields _). build_table. Qed.
Lemma istanbul_yields : yields newIstanbulInstructionSet.
Proof. unfold newIstanbulInstructionSet. refine (yields_bind _ _ constantinople_yields _). build_table; auto. Qed.
Lemma berlin_yields : yields newBerlinInstructionSet.
Proof. unfold newBerlinInstructionSet. refine (yields_bind _ _ istanbul_yields _). build_table; auto. Qed.
Lemma london_yields : yields newLondonInstructionSet.
Proof. unfold newLondonInstructionSet. refine (yields_bind _ _ berlin_yields _). build_table; auto. Qed.
Lemma merge_yields : yields newMergeInstructionSet.
Proof. unfold newMergeInstructionSet. refine (yields_bind _ _ london_yields _). build_table; auto. Qed.
Lemma shanghai_yields : yields newShanghaiInstructionSet.
Proof. unfold newShanghaiInstructionSet. refine (yields_bind _ _ merge_yields _). build_table; auto. Qed.
Lemma cancun_yields : yields newCancunInstructionSet.
Proof. unfold newCancunInstructionSet. refine (yields_bind _ _ shanghai_yields _). build_table; auto. Qed.

Lemma selectTable_yields rules : yields (selectTable rules).
Proof.
  unfold selectTable. destruct (params.IsCancun rules); [exact cancun_yields|].
  destruct (params.IsShanghai rules); [exact shanghai_yields|].
  destruct (params.IsMerge rules); [exact merge_yields|].
  destruct (params.IsLondon rules); [exact london_yields|].
  destruct (params.IsBerlin rules); [exact berlin_yields|].
  destruct (params.IsIstanbul rules); [exact istanbul_yields|].
  destruct (params.IsConstantinople rules); [exact constantinople_yields|].
  destruct (params.IsByzantium rules); [exact byzantium_yields|].
  destruct (params.IsEIP158 rules); [exact spurious_yields|].
  destruct (params.IsEIP150 rules); [exact tangerine_yields|].
  destruct (params.IsHomestead rules); [exact homestead_yields|exact frontier_yields].
Qed.

Lemma activator_yields n f jt :
  activator n activators = Some f -> complete jt -> yields (f jt).
Proof.
  intros Hf Hc. unfold activators in Hf. cbn [activator] in Hf.
  repeat match type of Hf with (if ?b then _ else _) = _ =>
    destruct b; [injection Hf as <-; by auto|] end. done.
Qed.
Lemma enableExtra_yields eips : forall jt, complete jt ->
  exists jt', enableExtra eips jt = Ret (jt', List.filter ValidEip eips) /\ complete jt'.
Proof.
  induction eips as [|n eips IH]; intros jt Hc; [by exists jt|].
  cbn [enableExtra List.filter]. unfold EnableEIP, ValidEip at 1.
  destruct (activator n activators) as [f|] eqn:E; cbn [rbind].
  - destruct (activator_yields n f jt E Hc) as (j & -> & Hj). cbn [rbind].
    destruct (IH j Hj) as (jt' & -> & Hc'). by exists jt'.
  - destruct (IH jt Hc) as (jt' & -> & Hc'). by exists jt'.
Qed.
End Sets.

(** The table of every interpreter is complete. *)
Section Interpreters.
Context {L : Libs}.

Lemma NewEVMInterpreter_yields rules eips :
  exists jt, NewEVMInterpreter rules eips = Ret (jt, List.filter ValidEip eips) /\ complete jt.
Proof.
  destruct (selectTable_yields rules) as (t & E & Ht).
  unfold NewEVMInterpreter. rewrite E. cbn [rbind]. rewrite copyJumpTable_id.
  destruct (enableExtra_yields eips t Ht) as (jt & Ej & Hj). exists jt.
  split; [by destruct (0 <? len eips)|done].
Qed.
Lemma NewEVMInterpreter_complete rules eips jt active :
  NewEVMInterpreter rules eips = Ret (jt, active) -> complete jt.
Proof.
  intros H. destruct (NewEVMInterpreter_yields rules eips) as (jt' & E & Hc).
  rewrite H in E. by injection E as -> _.
Qed.
End Interpreters.

(** * Claims *)
Section Claims.
Context {L : Libs}.

(** C14: every interpreter has a well-formed jump table. Whatever the rules of
    the chain and the extra EIPs, [NewEVMInterpreter] does not panic: the EIPs
    it activates are the known ones among those asked for, in order, and its
    table has 256 entries, each set, so that no byte of code dereferences nil;
    an operation with a memory-size function has a dynamic gas function. *)
Theorem interpreter_table_well_formed rules eips :
  exists jt, NewEVMInterpreter rules eips = Ret (jt, List.filter ValidEip eips) /\
    length jt = 256%nat /\
    forall op, is_byte op -> exists o, jt !! Z.to_nat op = Some (Some o) /\
      (memorySize o <> None -> dynamicGas o <> None).
Proof.
  destruct (NewEVMInterpreter_yields rules eips) as (jt & E & Hj). exists jt. split_and!.
  - done.
  - apply Hj.
  - intros op Hop. apply (cp_entry _ Hj). unfold is_byte in Hop. lia.
Qed.

(** The EIPs that can be listed are those that can be activated. *)
Theorem ActivateableEips_valid n : ValidEip n = true -> pretty n ∈ ActivateableEips.
Proof.
  intros H. unfold ActivateableEips. rewrite merge_sort_Permutation. unfold ValidEip in H.
  revert H. generalize activators. intros l.
  induction l as [|[k f] l IH]; cbn [activator map]; [done|].
  destruct (k =? n) eqn:E.
  - intros _. apply Z.eqb_eq in E. subst. apply list_elem_of_here.
  - intros H. by apply list_elem_of_further, IH.
Qed.
End Claims.
