(* ===== verification/Fuel.v ===== *)
(** Fuel is only a proof device: more of it never changes a result. The order
    [r <= r'] says that [r] ran out of fuel or is [r']; every operation of the
    machine is monotone in the runner it calls, hence [Run] in its fuel. *)
From S2P Require Import Prelude Opcodes Errors Externals Stack Memory Analysis Contract Tracer.
From S2P Require Import Machine Gas Instructions JumpTable Precompiles Evm Logic Tables.

(** * The order *)
Definition res_le {A} (r r' : res A) : Prop := r = OutOfFuel \/ r = r'.
Definition st_le {S A} (m m' : ST S A) : Prop := forall s, res_le (m s) (m' s).

#[global] Instance res_le_preorder {A} : PreOrder (res_le (A := A)).
Proof. split; [by right|]. intros a b c [->| ->] ?; [by left|done]. Qed.
#[global] Instance st_le_preorder {S A} : PreOrder (st_le (S := S) (A := A)).
Proof.
  split; [intros m s; reflexivity|]. intros a b c H1 H2 s. transitivity (b s); [apply H1|apply H2].
Qed.

Section Monotone.
Context {S A B : Type}.

Lemma bind_le (m m' : ST S A) (k k' : A -> ST S B) :
  st_le m m' -> (forall a, st_le (k a) (k' a)) -> st_le (bind m k) (bind m' k').
Proof.
  intros Hm Hk s. unfold bind. destruct (Hm s) as [->| ->]; [by left|].
  destruct (m' s) as [[a s']| |]; [apply Hk|by right..].
Qed.
Lemma zoom_le {T} (get : S -> T) put (m m' : ST T A) :
  st_le m m' -> st_le (zoom get put m) (zoom get put m').
Proof. intros Hm s. unfold zoom. destruct (Hm (get s)) as [->| ->]; [by left|reflexivity]. Qed.
End Monotone.

Section Fuel.
Context {L : Libs} {RP : AspectReports}.

Definition runner_le (run run' : Runner) : Prop := forall c i ro, st_le (run c i ro) (run' c i ro).

Record calls_le (evm evm' : EVMCalls) : Prop := {
  cle_Call : forall r a i g v, st_le (do_Call evm r a i g v) (do_Call evm' r a i g v);
  cle_CallCode : forall r a i g v, st_le (do_CallCode evm r a i g v) (do_CallCode evm' r a i g v);
  cle_DelegateCall : forall r a i g,
    st_le (do_DelegateCall evm r a i g) (do_DelegateCall evm' r a i g);
  cle_StaticCall : forall r a i g, st_le (do_StaticCall evm r a i g) (do_StaticCall evm' r a i g);
  cle_Create : forall r i g v, st_le (do_Create evm r i g v) (do_Create evm' r i g v);
  cle_Create2 : forall r i g v s, st_le (do_Create2 evm r i g v s) (do_Create2 evm' r i g v s);
}.
End Fuel.

Create HintDb fuel.
#[export] Hint Resolve cle_Call cle_CallCode cle_DelegateCall cle_StaticCall cle_Create
  cle_Create2 : fuel.

Ltac le_step :=
  lazymatch goal with
  | |- st_le ?m ?m => reflexivity
  | |- st_le (bind _ _) (bind _ _) => apply bind_le; [|intros ?]
  | |- st_le (onMachine _) (onMachine _) => apply zoom_le
  | |- st_le (zoom _ _ _) (zoom _ _ _) => apply zoom_le
  | |- st_le (writeProtected _) (writeProtected _) => unfold writeProtected
  | |- st_le (if ?c then _ else _) (if ?c then _ else _) => destruct c
  | |- st_le (match ?x with _ => _ end) _ => destruct x
  | H : runner_le ?r _ |- st_le (?r _ _ _) _ => apply H
  | |- st_le _ _ => solve [eauto with fuel]
  end.
Ltac solve_le := repeat (le_step; cbv beta zeta).

Section Operations.
Context {L : Libs} {RP : AspectReports}.

(** An opcode is monotone in the calls it makes. *)
Definition op_mono (i : nat) (o : operation) : Prop := forall env evm evm',
  calls_le evm evm' -> st_le (execute o env evm) (execute o env evm').

Lemma opCall_mono env evm evm' : calls_le evm evm' -> st_le (opCall env evm) (opCall env evm').
Proof. intros H. unfold opCall. solve_le. Qed.
Lemma opCallCode_mono env evm evm' :
  calls_le evm evm' -> st_le (opCallCode env evm) (opCallCode env evm').
Proof. intros H. unfold opCallCode. solve_le. Qed.
Lemma opDelegateCall_mono env evm evm' :
  calls_le evm evm' -> st_le (opDelegateCall env evm) (opDelegateCall env evm').
Proof. intros H. unfold opDelegateCall. solve_le. Qed.
Lemma opStaticCall_mono env evm evm' :
  calls_le evm evm' -> st_le (opStaticCall env evm) (opStaticCall env evm').
Proof. intros H. unfold opStaticCall. solve_le. Qed.
Lemma opCreate_mono env evm evm' :
  calls_le evm evm' -> st_le (opCreate env evm) (opCreate env evm').
Proof. intros H. unfold opCreate. solve_le. Qed.
Lemma opCreate2_mono env evm evm' :
  calls_le evm evm' -> st_le (opCreate2 env evm) (opCreate2 env evm').
Proof. intros H. unfold opCreate2. solve_le. Qed.
End Operations.
#[export] Hint Resolve opCall_mono opCallCode_mono opDelegateCall_mono opStaticCall_mono
  opCreate_mono opCreate2_mono : fuel.
Ltac entry_mono :=
  intros ? ? ? ?; cbn [execute]; first [solve [eauto with fuel nocore]|reflexivity].

Section Calls.
Context {L : Libs} {RP : AspectReports}.

Lemma op_mono_closed : closed op_mono.
Proof.
  split.
  - intros i. entry_mono.
  - unfold frontierEntries, frontierArithmetic, frontierComparison, frontierEnvironment,
      frontierBlock, frontierMemory, frontierPush, frontierPush2, frontierDup, frontierSwap,
      frontierLog, frontierJournal, frontierSystem. cbn [app]. each_entry entry_mono.
  - unfold forkEntries. each_entry entry_mono.
  - unfold constantChanges. each_entry (intros ? H; exact H).
  - unfold dynamicChanges. each_entry (intros ? H; exact H).
  - unfold bothChanges. cbv zeta. each_entry (intros ? H; exact H).
Qed.

Variable env : Env.
Variables run run' : Runner.
Hypothesis Hrun : runner_le run run'.

Lemma runCode_le c a i ro : st_le (runCode run c a i ro) (runCode run' c a i ro).
Proof. unfold runCode. solve_le. Qed.
Lemma runContract_le r a c i g v x :
  st_le (runContract env run r a c i g v x) (runContract env run' r a c i g v x).
Proof. unfold runContract. solve_le. Qed.
#[local] Hint Resolve runCode_le runContract_le : fuel.
Lemma callContract_le r a i g v x :
  st_le (callContract env run r a i g v x) (callContract env run' r a i g v x).
Proof. unfold callContract. solve_le. Qed.
#[local] Hint Resolve callContract_le : fuel.
Lemma callBody_le r a i g v : st_le (callBody env run r a i g v) (callBody env run' r a i g v).
Proof. unfold callBody. cbv zeta. solve_le. Qed.
#[local] Hint Resolve callBody_le : fuel.
Lemma createContract_le r ch g v a t :
  st_le (createContract env run r ch g v a t) (createContract env run' r ch g v a t).
Proof. unfold createContract. cbv zeta. solve_le. Qed.
#[local] Hint Resolve createContract_le : fuel.
Lemma createBody_le r ch g v a t :
  st_le (createBody env run r ch g v a t) (createBody env run' r ch g v a t).
Proof. unfold createBody. cbv zeta. solve_le. Qed.
#[local] Hint Resolve createBody_le : fuel.
Lemma create_le r ch g v a t :
  st_le (create env run r ch g v a t) (create env run' r ch g v a t).
Proof. unfold create. solve_le. Qed.
#[local] Hint Resolve create_le : fuel.

Lemma evmCalls_le : calls_le (evmCalls env run) (evmCalls env run').
Proof.
  split; intros; cbn; unfold Call, CallCode, DelegateCall, StaticCall, Create, Create2;
    cbv zeta; solve_le.
Qed.
End Calls.

(** * The interpreter *)
Section Interpreter.
Context {L : Libs} {RP : AspectReports}.
Variable env : Env.
Variable table : JumpTable.
Hypothesis Htable : table_all op_mono table.

Lemma iteration_le evm evm' :
  calls_le evm evm' -> st_le (iteration env table evm) (iteration env table evm').
Proof.
  intros Hevm. unfold iteration.
  do 3 (apply bind_le; [reflexivity|intros ?]).
  match goal with |- context [table !! ?i] => destruct (table !! i) as [[o|]|] eqn:E end;
    [|reflexivity..].
  pose proof (Htable _ _ E env _ _ Hevm) as Ho.
  assert (Hexec : forall info, st_le (executeOp env evm o info) (executeOp env evm' o info)).
  { intros info. unfold executeOp. apply bind_le; [exact Ho|reflexivity]. }
  cbv zeta. solve_le.
Qed.

Lemma loop_le evm evm' n n' :
  calls_le evm evm' -> (n <= n')%nat -> st_le (loop env table evm n) (loop env table evm' n').
Proof.
  intros Hevm. revert n'. induction n as [|n IH]; intros n' Hn; [by left|].
  destruct n' as [|n']; [lia|]. cbn [loop]. apply bind_le; [by apply iteration_le|].
  intros [|r e info]; [apply IH; lia|reflexivity].
Qed.

Lemma runFrame_le l l' c i : st_le l l' -> st_le (runFrame env l c i) (runFrame env l' c i).
Proof.
  intros Hl m. unfold runFrame.
  destruct (Hl (mkSt 0 m (mkScope NewMemory newstack (set_Input i c)))) as [->| ->];
    [by left|reflexivity].
Qed.

Lemma Run_le n n' : (n <= n')%nat -> runner_le (Run env table n) (Run env table n').
Proof.
  revert n'. induction n as [|n IH]; intros n' Hn c i ro; [by left|].
  destruct n' as [|n']; [lia|]. cbn [Run]. unfold runWith.
  assert (Hl : st_le (loop env table (evmCalls env (Run env table n)) n)
                     (loop env table (evmCalls env (Run env table n')) n')).
  { apply loop_le; [|lia]. apply evmCalls_le, IH. lia. }
  apply (runFrame_le _ _ c i) in Hl. solve_le.
Qed.
End Interpreter.
