(* ===== verification/Quiet.v ===== *)
(** Library code that fails only in its own ways: a computation is [quiet] when
    it neither indexes the operand stack out of range nor runs out of fuel.
    Everything below the interpreter is quiet: memory, analysis, tracer,
    precompiled contracts. *)
From S2P Require Import Prelude Opcodes Errors Externals Stack Memory Analysis Contract Tracer.
From S2P Require Import Machine Gas Instructions JumpTable Precompiles.

Definition quiet {A} (r : res A) : Prop := r <> Panicked StackIndex /\ r <> OutOfFuel.

Create HintDb quiet.

Lemma quiet_Ret {A} (a : A) : quiet (Ret a).
Proof. done. Qed.
Lemma quiet_Panicked {A} p : p <> StackIndex -> quiet (A := A) (Panicked p).
Proof. intros H. split; [|done]. by intros [= ?]. Qed.
Lemma quiet_rbind {A B} (r : res A) (k : A -> res B) :
  quiet r -> (forall a, quiet (k a)) -> quiet (rbind r k).
Proof.
  intros [Hr Hf] Hk. destruct r; cbn; [apply Hk|apply quiet_Panicked; congruence|done].
Qed.

Ltac quiet_step :=
  match goal with
  | |- quiet (Ret _) => apply quiet_Ret
  | |- quiet (Panicked _) => by apply quiet_Panicked
  | |- quiet (rbind _ _) => apply quiet_rbind; [|intros ?]
  | |- quiet (if ?c then _ else _) => destruct c
  | |- quiet (match ?x with _ => _ end) => destruct x
  | |- quiet _ => solve [eauto with quiet]
  end.
Ltac solve_quiet := repeat (quiet_step; cbv beta zeta).

Section Basics.
Lemma quiet_slice_cap c l lo hi : quiet (slice_cap c l lo hi).
Proof. unfold slice_cap. solve_quiet. Qed.
Lemma quiet_slice l lo hi : quiet (slice l lo hi).
Proof. apply quiet_slice_cap. Qed.
Lemma quiet_index {A} (l : list A) i : quiet (index l i).
Proof. unfold index. solve_quiet. Qed.
Lemma quiet_index_set {A} (l : list A) i x : quiet (index_set l i x).
Proof. unfold index_set. solve_quiet. Qed.
End Basics.
#[export] Hint Resolve quiet_slice_cap quiet_slice quiet_index quiet_index_set : quiet.

Section Memory.
Context {L : Libs} {RP : AspectReports}.

Lemma quiet_make_bytes n : quiet (make_bytes n).
Proof. unfold make_bytes. solve_quiet. Qed.
#[local] Hint Resolve quiet_make_bytes : quiet.
Lemma quiet_Set m o n v : quiet (Set_ m o n v).
Proof. unfold Set_. solve_quiet. Qed.
Lemma quiet_Set32 m o v : quiet (Set32 m o v).
Proof. unfold Set32. solve_quiet. Qed.
Lemma quiet_Resize m n : quiet (Resize m n).
Proof. unfold Resize. solve_quiet. Qed.
Lemma quiet_GetCopy m o n : quiet (GetCopy m o n).
Proof. unfold GetCopy. solve_quiet. Qed.
Lemma quiet_GetPtr m o n : quiet (GetPtr m o n).
Proof. unfold GetPtr. solve_quiet. Qed.
Lemma quiet_Copy m d s n : quiet (Copy m d s n).
Proof. unfold Copy. solve_quiet. Qed.
Lemma quiet_getData d s n : quiet (getData d s n).
Proof. unfold getData. solve_quiet. Qed.
End Memory.
#[export] Hint Resolve quiet_Set quiet_Set32 quiet_Resize quiet_GetCopy quiet_GetPtr quiet_Copy
  quiet_getData : quiet.

(** * Analysis and contracts *)
Section Analysis.
Lemma quiet_or_at b i x : quiet (or_at b i x).
Proof. unfold or_at. solve_quiet. Qed.
#[local] Hint Resolve quiet_or_at : quiet.
Lemma quiet_set16 b p : quiet (set16 b p).
Proof. unfold set16. solve_quiet. Qed.
Lemma quiet_set8 b p : quiet (set8 b p).
Proof. unfold set8. solve_quiet. Qed.
Lemma quiet_setRest b p n : quiet (setRest b p n).
Proof. unfold setRest, set1, setN. solve_quiet. Qed.
#[local] Hint Resolve quiet_set16 quiet_set8 quiet_setRest : quiet.

Lemma u8_range z : 0 <= u8 z < 2 ^ 8.
Proof. apply Z.mod_pos_bound. lia. Qed.


(** The loops make progress: [numbits] falls by 16 or 8 each time, [pc] grows. *)
Lemma loop16_progress fuel b pc n :
  0 <= n < 2 ^ 8 -> n < 16 * Z.of_nat (S fuel) ->
  quiet (loop16 fuel b pc n) /\
  (forall b' pc' n', loop16 fuel b pc n = Ret (b', pc', n') ->
     0 <= n' <= n /\ (pc + n < 2 ^ 64 -> 0 <= pc -> pc <= pc' /\ pc' + n' = pc + n)).
Proof.
  revert b pc n. induction fuel as [|f IH]; intros b pc n Hn Hf; cbn [loop16];
    destruct (Z.leb_spec 16 n); [lia|split; [done|intros ? ? ? [= <- <- <-]; lia]| |
    split; [done|intros ? ? ? [= <- <- <-]; lia]].
  rewrite u8_small by lia. split.
  - apply quiet_rbind; [apply quiet_set16|intros b1]. apply IH; lia.
  - intros b' pc' n'. destruct (set16 b pc) as [b1| |]; cbn; [|done..].
    intros H'. apply IH in H' as [? Hp]; [|lia..]. split; [lia|]. intros.
    rewrite u64_small in Hp by (unfold is_u64; lia). lia.
Qed.

Lemma loop8_progress fuel b pc n :
  0 <= n < 2 ^ 8 -> n < 8 * Z.of_nat (S fuel) ->
  quiet (loop8 fuel b pc n) /\
  (forall b' pc' n', loop8 fuel b pc n = Ret (b', pc', n') ->
     0 <= n' <= n /\ (pc + n < 2 ^ 64 -> 0 <= pc -> pc <= pc' /\ pc' + n' = pc + n)).
Proof.
  revert b pc n. induction fuel as [|f IH]; intros b pc n Hn Hf; cbn [loop8];
    destruct (Z.leb_spec 8 n); [lia|split; [done|intros ? ? ? [= <- <- <-]; lia]| |
    split; [done|intros ? ? ? [= <- <- <-]; lia]].
  rewrite u8_small by lia. split.
  - apply quiet_rbind; [apply quiet_set8|intros b1]. apply IH; lia.
  - intros b' pc' n'. destruct (set8 b pc) as [b1| |]; cbn; [|done..].
    intros H'. apply IH in H' as [? Hp]; [|lia..]. split; [lia|]. intros.
    rewrite u64_small in Hp by (unfold is_u64; lia). lia.
Qed.
(** The push-data part of an iteration. *)
Lemma push_progress b pc n :
  0 <= n < 2 ^ 8 ->
  let r := (if 8 <=? n then
              let? (b, pc, n) := loop16 16 b pc n in loop8 32 b pc n
            else Ret (b, pc, n)) in
  quiet r /\ (forall b' pc' n', r = Ret (b', pc', n') -> pc + n < 2 ^ 64 -> 0 <= pc ->
                pc <= pc' /\ 0 <= n' /\ pc' + n' = pc + n).
Proof.
  intros Hn r. unfold r. destruct (Z.leb_spec 8 n);
    [|split; [done|intros ? ? ? [= <- <- <-]; lia]].
  destruct (loop16_progress 16 b pc n) as [Q1 P1]; [lia..|].
  destruct (loop16 16 b pc n) as [[[b1 pc1] n1]| |]; cbn [rbind];
    [|split; [split; [destruct Q1; congruence|done]|done]|by destruct Q1].
  destruct (P1 _ _ _ eq_refl) as [? H1].
  destruct (loop8_progress 32 b1 pc1 n1) as [Q2 P2]; [lia..|].
  split; [done|]. intros b' pc' n' E2 Hpc Hpc0. destruct (P2 _ _ _ E2) as [? H2]. lia.
Qed.

Lemma setRest_progress b pc n b' pc' :
  setRest b pc n = Ret (b', pc') -> 0 <= pc -> pc + n < 2 ^ 64 -> 0 <= n -> pc <= pc'.
Proof.
  unfold setRest. intros H H0 Hn Hn0.
  repeat match type of H with
  | (if ?a =? ?b then _ else _) = _ => destruct (Z.eqb_spec a b)
  | rbind ?r _ = _ => destruct r; cbn in H; [|done..]
  end; injection H as _ <-; try rewrite u64_small by (unfold is_u64; lia); lia.
Qed.

(** The bitmap loop never runs out: [pc] grows in every iteration. *)
Lemma codeBitmapLoop_quiet fuel code bits pc :
  len code < 2 ^ 63 -> 0 <= pc -> len code <= pc + Z.of_nat fuel ->
  quiet (codeBitmapLoop fuel code bits pc).
Proof.
  intros Hl. revert bits pc. induction fuel as [|f IH]; intros bits pc H0 Hf;
    cbn [codeBitmapLoop]; destruct (Z.ltb_spec pc (len code)); [lia|done| |done].
  apply quiet_rbind; [apply quiet_index|intros op]. cbv zeta.
  rewrite (u64_small (pc + 1)) by (unfold is_u64; lia).
  destruct (i8 op <? i8 PUSH1); [apply IH; lia|].
  pose proof (u8_range (op - PUSH1 + 1)) as Hn. set (n := u8 (op - PUSH1 + 1)) in *.
  destruct (push_progress bits (pc + 1) n Hn) as [Q P].
  match goal with |- quiet (rbind ?r _) => change r with r in Q; set (x := r) in * end.
  destruct x as [[[b1 pc1] n1]| |] eqn:E; cbn [rbind];
    [|split; [destruct Q; congruence|done]|by destruct Q].
  destruct (P _ _ _ eq_refl) as (? & ? & ?); [lia..|].
  destruct (setRest b1 pc1 n1) as [[b2 pc2]| |] eqn:E2; cbn [rbind];
    [|pose proof (quiet_setRest b1 pc1 n1) as [Hq Hq']; rewrite E2 in Hq, Hq'..].
  - apply setRest_progress in E2; [|lia..]. apply IH; lia.
  - split; congruence.
  - done.
Qed.

Lemma codeBitmap_quiet code : len code < 2 ^ 63 -> quiet (codeBitmap code).
Proof.
  intros Hl. apply codeBitmapLoop_quiet; [done|lia|]. unfold len. lia.
Qed.
End Analysis.

(** For code of any length: no stack index panic. *)
Definition calm {A} (r : res A) : Prop := r <> Panicked StackIndex.

Lemma quiet_calm {A} (r : res A) : quiet r -> calm r.
Proof. by intros []. Qed.
Lemma calm_rbind {A B} (r : res A) (k : A -> res B) :
  calm r -> (forall a, calm (k a)) -> calm (rbind r k).
Proof. unfold calm. intros Hr Hk. destruct r; cbn; [apply Hk|congruence|done]. Qed.

Ltac calm_step :=
  match goal with
  | |- calm (rbind _ _) => apply calm_rbind; [|intros ?]
  | |- calm (if ?c then _ else _) => destruct c
  | |- calm (match ?x with _ => _ end) => destruct x
  | |- calm OutOfFuel => done
  | |- calm _ => solve [apply quiet_calm; eauto using quiet_Ret with quiet]
  end.
Ltac solve_calm := repeat (calm_step; cbv beta zeta).

Section Contracts.
Context {L : Libs} {RP : AspectReports}.

Lemma loop16_calm fuel b pc n : calm (loop16 fuel b pc n).
Proof.
  revert b pc n. induction fuel as [|f IH]; intros b pc n; cbn [loop16];
    (destruct (16 <=? n); [|done]); [done|].
  apply calm_rbind; [apply quiet_calm, quiet_set16|intros; apply IH].
Qed.
Lemma loop8_calm fuel b pc n : calm (loop8 fuel b pc n).
Proof.
  revert b pc n. induction fuel as [|f IH]; intros b pc n; cbn [loop8];
    (destruct (8 <=? n); [|done]); [done|].
  apply calm_rbind; [apply quiet_calm, quiet_set8|intros; apply IH].
Qed.
Lemma codeBitmap_calm code : calm (codeBitmap code).
Proof.
  unfold codeBitmap, codeBitmapInternal. generalize (length code), 0, (zeros (len code / 8 + 1 + 4)).
  intros fuel. induction fuel as [|f IH]; intros pc bits; cbn [codeBitmapLoop];
    (destruct (pc <? len code); [|done]); [done|].
  pose proof (fun b p n => quiet_calm _ (quiet_setRest b p n)).
  pose proof loop16_calm. pose proof loop8_calm.
  repeat first [apply IH|done|calm_step; cbv beta zeta|by eauto].
Qed.

Lemma quiet_codeSegment b p : quiet (codeSegment b p).
Proof. unfold codeSegment. solve_quiet. Qed.
#[local] Hint Resolve quiet_codeSegment : quiet.

Lemma validJumpdest_calm c h d : calm (validJumpdest c h d).
Proof.
  unfold validJumpdest, isCode. pose proof codeBitmap_calm.
  repeat first [done|calm_step; cbv beta zeta|by eauto].
Qed.
Lemma validJumpdest_quiet c h d : len (Code c) < 2 ^ 63 -> quiet (validJumpdest c h d).
Proof.
  intros Hc. unfold validJumpdest, isCode. pose proof (codeBitmap_quiet (Code c) Hc).
  repeat first [done|quiet_step; cbv beta zeta|by eauto].
Qed.
Lemma quiet_AsDelegate c : quiet (AsDelegate c).
Proof. unfold AsDelegate. solve_quiet. Qed.
Lemma quiet_GetOp c n : quiet (GetOp c n).
Proof. unfold GetOp. solve_quiet. Qed.
End Contracts.
#[export] Hint Resolve quiet_AsDelegate quiet_GetOp : quiet.

(** * Tracer *)
Section Tracer.
Context {L : Libs} {RP : AspectReports}.

Lemma quiet_deref s p : quiet (deref s p).
Proof. unfold deref. solve_quiet. Qed.
#[local] Hint Resolve quiet_deref : quiet.
Lemma quiet_AddChild s k c : quiet (AddChild s k c).
Proof. unfold AddChild. solve_quiet. Qed.
Lemma quiet_addKey s a sl o k : quiet (addKey s a sl o k).
Proof. unfold addKey. solve_quiet. Qed.
Lemma quiet_saveBalance s a b i : quiet (saveBalance s a b i).
Proof. unfold saveBalance. solve_quiet. Qed.
#[local] Hint Resolve quiet_AddChild quiet_addKey quiet_saveBalance : quiet.
Lemma quiet_SaveStateKey t a p s o ti pi i : quiet (SaveStateKey t a p s o ti pi i).
Proof. unfold SaveStateKey, saveKey. solve_quiet. Qed.
Lemma quiet_SaveStateChange t a s o ti v : quiet (SaveStateChange t a s o ti v).
Proof. unfold SaveStateChange, saveChange. solve_quiet. Qed.
Lemma quiet_mustFromBig z : quiet (mustFromBig z).
Proof. unfold mustFromBig. solve_quiet. Qed.
#[local] Hint Resolve quiet_mustFromBig : quiet.
Lemma quiet_TransferWithRecord t d f a v tr : quiet (TransferWithRecord t d f a v tr).
Proof. unfold TransferWithRecord, recordBalance. solve_quiet. Qed.
End Tracer.
#[export] Hint Resolve quiet_SaveStateKey quiet_SaveStateChange quiet_mustFromBig
  quiet_TransferWithRecord : quiet.

(** * Precompiled contracts *)
Section Precompiles.
Context {L : Libs} {RP : AspectReports}.

Lemma quiet_or_fail {A} (r : A + Err) k : (forall a, quiet (k a)) -> quiet (or_fail r k).
Proof. intros Hk. destruct r; [apply Hk|done]. Qed.
Lemma quiet_bn256Points n i input : quiet (bn256Points n i input).
Proof. revert i. induction n; intros i; cbn [bn256Points]; solve_quiet. Qed.
Lemma quiet_leWords n o input : quiet (leWords n o input).
Proof. revert o. induction n; intros o; cbn [leWords]; solve_quiet. Qed.
Lemma quiet_blsPairs {P} (g : bls12381.Group P) n k o input : quiet (blsPairs g n k o input).
Proof. revert o. induction k; intros o; cbn [blsPairs]; solve_quiet. Qed.
Lemma quiet_blsPairingPairs k o input : quiet (blsPairingPairs k o input).
Proof. revert o. induction k; intros o; cbn [blsPairingPairs]; solve_quiet. Qed.
Lemma quiet_decodeFE b : quiet (decodeBLS12381FieldElement b).
Proof. unfold decodeBLS12381FieldElement. solve_quiet. Qed.
Lemma quiet_loadParamBytes b i : quiet (loadParamBytes b i).
Proof. unfold loadParamBytes. solve_quiet. Qed.
#[local] Hint Resolve quiet_bn256Points quiet_leWords quiet_blsPairs quiet_blsPairingPairs
  quiet_decodeFE quiet_loadParamBytes : quiet.
Ltac quiet_run := repeat first [apply quiet_or_fail; intros ?|quiet_step; cbv beta zeta].

Lemma quiet_RequiredGas p input : quiet (RequiredGas p input).
Proof.
  destruct p; cbn [RequiredGas]; autounfold with precompiles;
    unfold bigModExp_RequiredGas, multiExpGas; quiet_run.
Qed.
Lemma quiet_Precompile_Run p input ctx : quiet (Precompile_Run p input ctx).
Proof.
  destruct p; unfold Precompile_Run; cbv zeta; autounfold with precompiles; unfold ecrecover_Run, bigModExp_Run, runBn256Add,
    runBn256ScalarMul, runBn256Pairing, blake2F_Run, blsAdd, blsMul, blsMultiExp,
    bls12381Pairing_Run, bls12381MapG1_Run, bls12381MapG2_Run, aspcontext_Run, userOpSender_Run,
    contextWriter_Run; quiet_run.
Qed.
Lemma quiet_RunPrecompiledContract p input g ctx : quiet (RunPrecompiledContract p input g ctx).
Proof.
  unfold RunPrecompiledContract, bind, liftR, ret.
  pose proof (quiet_RequiredGas p input) as [H1 H2].
  destruct (RequiredGas p input) as [c| |]; cbn [rbind]; [|split; congruence|done].
  destruct (g <? c); [done|].
  pose proof (quiet_Precompile_Run p input ctx) as [H3 H4].
  destruct (Precompile_Run p input ctx) as [[[o e] x]| |]; [done|split; congruence|done].
Qed.
End Precompiles.
#[export] Hint Resolve quiet_RunPrecompiledContract : quiet.
