(* ===== verification/StackSafety.v ===== *)
(** The operand stack is never indexed out of range and never outgrows its
    limit: the stack bounds in the jump table are right for every opcode, gas
    function and memory-size function of every fork. *)
From S2P Require Import Prelude Opcodes Errors Externals Stack Memory Analysis Contract Tracer.
From S2P Require Import Machine Gas Instructions JumpTable Precompiles Evm Logic Quiet Tables Complete.

(** * The height judgement

    [stk i m Q]: from a stack of [i] items, [m] does not index the stack out of
    range, and if it returns [a] with a stack of [h] items then [Q a h]. *)
Section Judgement.
Context {L : Libs} {RP : AspectReports}.

Definition stk {A} (i : Z) (m : ST St A) (Q : A -> Z -> Prop) : Prop :=
  forall s, slen (stack s) = i ->
    match m s with
    | Ret (a, s') => Q a (slen (stack s'))
    | Panicked p => p <> StackIndex
    | OutOfFuel => True
    end.
(** [m] turns a stack of [i] items into one of [j]. *)
Definition stk_to {A} (i : Z) (m : ST St A) (j : Z) : Prop := stk i m (fun _ h => h = j).

Lemma stk_mono {A} i (m : ST St A) (Q Q' : A -> Z -> Prop) :
  stk i m Q -> (forall a h, Q a h -> Q' a h) -> stk i m Q'.
Proof. intros H HQ s Hs. specialize (H s Hs). destruct (m s) as [[a s']| |]; eauto. Qed.

Lemma stk_bind {A B} i j (m : ST St A) (k : A -> ST St B) Q :
  stk_to i m j -> (forall a, stk j (k a) Q) -> stk i (bind m k) Q.
Proof.
  intros Hm Hk s Hs. specialize (Hm s Hs). unfold bind.
  destruct (m s) as [[a s']| |]; [by apply Hk|done..].
Qed.

Lemma stk_ret {A} i (a : A) (Q : A -> Z -> Prop) : Q a i -> stk i (ret a) Q.
Proof. intros H s <-. exact H. Qed.

(** Computations that do not touch the stack. *)
Definition keeps_stack {A} (m : ST St A) : Prop :=
  forall s, match m s with
            | Ret (_, s') => stack s' = stack s
            | Panicked p => p <> StackIndex
            | OutOfFuel => True
            end.
Lemma stk_keep {A} i (m : ST St A) : keeps_stack m -> stk_to i m i.
Proof.
  intros H s <-. specialize (H s). destruct (m s) as [[a s']| |]; [by rewrite H|done..].
Qed.

Lemma keeps_gets {A} (f : St -> A) : keeps_stack (gets f).
Proof. by intros s. Qed.
Lemma keeps_modify f : (forall s, stack (f s) = stack s) -> keeps_stack (modify f).
Proof. intros H s. apply H. Qed.
Lemma keeps_liftR {A} (r : res A) : calm r -> keeps_stack (liftR r).
Proof. intros H s. destruct r; cbn; [done|congruence|done]. Qed.
Lemma keeps_zoom {T A} (get : St -> T) put (m : ST T A) :
  (forall s t, stack (put t s) = stack s) -> (forall t, calm (m t)) ->
  keeps_stack (zoom get put m).
Proof.
  intros Hp Hm s. unfold zoom. specialize (Hm (get s)).
  destruct (m (get s)) as [[a t]| |]; [apply Hp|congruence|done].
Qed.
Lemma keeps_bind {A B} (m : ST St A) (k : A -> ST St B) :
  keeps_stack m -> (forall a, keeps_stack (k a)) -> keeps_stack (bind m k).
Proof.
  intros Hm Hk s. specialize (Hm s). unfold bind. destruct (m s) as [[a s']| |]; [|done..].
  rewrite <- Hm. apply Hk.
Qed.

(** Stack primitives. *)
Lemma set_index_ok st i x :
  0 <= i < slen st -> exists st', Stack.set_index st i x = Ret st' /\ slen st' = slen st.
Proof.
  intros H. unfold Stack.set_index. zbool. cbn [andb]. eexists; split; [done|].
  unfold slen, len. cbn. by rewrite length_insert.
Qed.

Lemma stk_pop i : 0 < i -> stk_to i pop_ (i - 1).
Proof.
  intros Hi s Hs. unfold pop_, zoom, pop.
  destruct (at_index_ok (stack s) (slen (stack s) - 1)) as [x ->]; [lia|]. cbn.
  unfold slen, len in *. cbn. destruct (data (stack s)); cbn in *; lia.
Qed.
Lemma stk_peek i : 0 < i -> stk_to i peek_ i.
Proof.
  intros Hi s Hs. unfold peek_, bind, gets, peek.
  by destruct (at_index_ok (stack s) (slen (stack s) - 1)) as [x ->]; [lia|].
Qed.
Lemma stk_poke i x : 0 < i -> stk_to i (poke_ x) i.
Proof.
  intros Hi s Hs. unfold poke_, zoom, poke.
  destruct (set_index_ok (stack s) (slen (stack s) - 1) x) as (st' & -> & Hst); [lia|]. cbn.
  by rewrite Hst.
Qed.
Lemma stk_push i x : stk_to i (push_ x) (i + 1).
Proof. intros s <-. cbn. unfold slen. cbn. by rewrite len_cons. Qed.
Lemma stk_back i n : 0 <= n < i -> stk_to i (back_ n) i.
Proof.
  intros Hi s Hs. unfold back_, bind, gets, Back.
  by destruct (at_index_ok (stack s) (slen (stack s) - n - 1)) as [x ->]; [lia|].
Qed.
Lemma stk_second i : 2 <= i -> stk_to i second_ i.
Proof.
  intros Hi s Hs. unfold second_, bind, gets.
  by destruct (at_index_ok (stack s) (slen (stack s) - 2)) as [x ->]; [lia|].
Qed.
Lemma stk_dup i n : 1 <= n <= i ->
  stk_to i (zoom stack set_stack (fun st => let? st' := dup st n in Ret (tt, st'))) (i + 1).
Proof.
  intros Hi s Hs. unfold zoom, dup.
  destruct (at_index_ok (stack s) (slen (stack s) - n)) as [x ->]; [lia|]. cbn.
  unfold slen in *. cbn. by rewrite len_cons, Hs.
Qed.
Lemma stk_swap i n : 1 <= n <= i ->
  stk_to i (zoom stack set_stack (fun st => let? st' := swap st n in Ret (tt, st'))) i.
Proof.
  intros Hi s Hs. unfold zoom, swap.
  destruct (at_index_ok (stack s) (slen (stack s) - 1)) as [x ->]; [lia|]. cbn [rbind].
  destruct (at_index_ok (stack s) (slen (stack s) - n)) as [y ->]; [lia|]. cbn [rbind].
  destruct (set_index_ok (stack s) (slen (stack s) - n) x) as (st1 & -> & H1); [lia|].
  cbn [rbind].
  destruct (set_index_ok st1 (slen (stack s) - 1) y) as (st2 & -> & H2); [lia|]. cbn. lia.
Qed.
Lemma Back_calm st n : 0 <= n < slen st -> calm (Back st n).
Proof. intros H. unfold Back. destruct (at_index_ok st (slen st - n - 1)) as [x ->]; [lia|done]. Qed.
End Judgement.

(** * Automation *)
Create HintDb stk.

Section Primitives.
Context {L : Libs} {RP : AspectReports}.

Lemma keeps_ret {A} (a : A) : keeps_stack (ret a).
Proof. by intros s. Qed.
Lemma keeps_onMachine {A} (m : ST Machine A) :
  (forall x, calm (m x)) -> keeps_stack (onMachine m).
Proof. by apply keeps_zoom. Qed.
Lemma keeps_onMemory f : (forall m, quiet (f m)) -> keeps_stack (onMemory f).
Proof.
  intros Hf. apply keeps_zoom; [done|]. intros m. apply quiet_calm, quiet_rbind; [apply Hf|done].
Qed.
Lemma keeps_readMemory {A} (f : Memory -> res A) :
  (forall m, quiet (f m)) -> keeps_stack (readMemory f).
Proof. intros Hf. apply keeps_bind; [apply keeps_gets|]. intros m. apply keeps_liftR, quiet_calm, Hf. Qed.
Lemma keeps_useGas g : keeps_stack (useGas_ g).
Proof. by apply keeps_zoom. Qed.
Lemma keeps_addGas g : keeps_stack (addGas_ g).
Proof. by apply keeps_modify. Qed.
Lemma keeps_memGas n : keeps_stack (memGas n).
Proof. by apply keeps_zoom. Qed.
Lemma keeps_query {A} (f : StateDB.DB -> A) : keeps_stack (query f).
Proof. apply keeps_gets. Qed.
Lemma keeps_update f : keeps_stack (update f).
Proof. by apply keeps_modify. Qed.
Lemma keeps_address : keeps_stack address_.
Proof. apply keeps_gets. Qed.
Lemma keeps_selfRef : keeps_stack selfRef_.
Proof. apply keeps_gets. Qed.
Lemma keeps_setReturnData d : keeps_stack (setReturnData d).
Proof. by apply keeps_modify. Qed.
Lemma keeps_setCallGasTemp d : keeps_stack (setCallGasTemp d).
Proof. by apply keeps_modify. Qed.
Lemma keeps_keccak d : keeps_stack (keccak_ d).
Proof. apply keeps_bind; [by apply keeps_modify|intros; apply keeps_gets]. Qed.
Lemma keeps_fromBig b : keeps_stack (fromBig_ b).
Proof. destruct b; [apply keeps_ret|by apply keeps_liftR]. Qed.
Lemma keeps_set_pc p : keeps_stack (modify (set_pc p)).
Proof. by apply keeps_modify. Qed.
Lemma keeps_aborted : keeps_stack aborted_.
Proof. by apply keeps_onMachine. Qed.
Lemma keeps_validJumpdest p : keeps_stack (validJumpdest_ p).
Proof.
  intros s. unfold validJumpdest_. pose proof (validJumpdest_calm (contract s) (jdests (mach s)) p).
  destruct (validJumpdest _ _ _) as [[[ok c] h]| |]; cbn; [done|congruence|done].
Qed.
Lemma keeps_emit env e : keeps_stack (onMachine (modify (emit env e))).
Proof. by apply keeps_onMachine. Qed.
Lemma keeps_journal f : (forall t, quiet (f t)) ->
  keeps_stack (onMachine (zoom (A := option Err) tracer set_tracer f)).
Proof.
  intros Hf. apply keeps_onMachine. intros m. unfold zoom. pose proof (Hf (tracer m)) as [H _].
  destruct (f (tracer m)) as [[a t]| |]; unfold calm; congruence.
Qed.
Lemma keeps_saveStateChange a s o t v : keeps_stack (saveStateChange_ a s o t v).
Proof.
  apply keeps_bind; [apply keeps_journal; eauto with quiet|intros; apply keeps_ret].
Qed.
Lemma keeps_saveStateKey a p s o t pt i : keeps_stack (saveStateKey_ a p s o t pt i).
Proof.
  apply keeps_bind; [apply keeps_journal; eauto with quiet|intros; apply keeps_ret].
Qed.
End Primitives.
#[export] Hint Resolve keeps_gets keeps_useGas keeps_addGas keeps_memGas keeps_query keeps_update
  keeps_address keeps_selfRef keeps_setReturnData keeps_setCallGasTemp keeps_keccak keeps_fromBig
  keeps_set_pc keeps_aborted keeps_validJumpdest keeps_emit keeps_saveStateChange
  keeps_saveStateKey : stk.

Lemma stk_eq {L : Libs} {A} i (m : ST St A) j j' : stk_to i m j -> j = j' -> stk_to i m j'.
Proof. by intros H ->. Qed.

Lemma stk_of_to {L : Libs} {A} i (m : ST St A) j (Q : A -> Z -> Prop) :
  stk_to i m j -> (forall a, Q a j) -> stk i m Q.
Proof. intros H HQ. eapply stk_mono; [exact H|]. by intros a h ->. Qed.
Lemma stk_panic {L : Libs} {A} i p (Q : A -> Z -> Prop) :
  p <> StackIndex -> stk i (liftR (Panicked p)) Q.
Proof. by intros H s Hs. Qed.

(** The primitive at the head of the goal. *)
Ltac stk_prim :=
  lazymatch goal with
  | |- stk_to _ pop_ _ => apply stk_pop; lia
  | |- stk_to _ peek_ _ => apply stk_peek; lia
  | |- stk_to _ (poke_ _) _ => apply stk_poke; lia
  | |- stk_to _ (push_ _) _ => apply stk_push
  | |- stk_to _ (back_ _) _ => apply stk_back; lia
  | |- stk_to _ second_ _ => apply stk_second; lia
  | |- stk_to _ (zoom stack set_stack _) _ => first [apply stk_dup; lia|apply stk_swap; lia]
  | |- stk_to _ (ret _) _ => apply stk_keep, keeps_ret
  | |- stk_to _ (liftR _) _ =>
      apply stk_keep, keeps_liftR;
      first [done|apply quiet_calm; solve [eauto with quiet|solve_quiet]]
  | |- stk_to _ (onMemory _) _ =>
      apply stk_keep, keeps_onMemory; intros; solve [eauto with quiet|solve_quiet]
  | |- stk_to _ (readMemory _) _ => apply stk_keep, keeps_readMemory; intros; eauto with quiet
  | |- stk_to _ _ _ => solve [eauto using stk_keep with stk]
  end.
Ltac stk_step :=
  lazymatch goal with
  | |- stk _ (bind _ _) _ => eapply stk_bind; [|intros ?]
  | |- stk_to _ (bind _ _) _ => unfold stk_to at 1; eapply stk_bind; [|intros ?]
  | |- stk _ (gas_try _ _) _ => unfold gas_try at 1
  | |- stk_to _ (gas_try _ _) _ => unfold gas_try at 1
  | |- stk _ (gas_ovf _ _) _ => unfold gas_ovf at 1
  | |- stk_to _ (gas_ovf _ _) _ => unfold gas_ovf at 1
  | |- stk _ done_ _ => unfold done_
  | |- stk _ (fail_ _) _ => unfold fail_
  | |- stk _ (ret _) _ => apply stk_ret; cbn [snd]; try solve [discriminate|reflexivity|intros; lia]
  | |- stk _ (writeProtected _) _ => unfold writeProtected
  | |- stk _ (withMemData _ _) _ => unfold withMemData
  | |- stk _ (if ?c then _ else _) _ => destruct c
  | |- stk_to _ (if ?c then _ else _) _ => destruct c
  | |- stk _ (match ?x with _ => _ end) _ => destruct x
  | |- stk_to _ (match ?x with _ => _ end) _ => destruct x
  | |- stk_to _ _ _ => first [stk_prim|eapply stk_eq; [stk_prim|lia]]
  | |- stk _ (liftR (Panicked _)) _ => by apply stk_panic
  | |- stk _ _ _ => eapply stk_of_to; [stk_prim|intros; try done; try lia]
  end.
Ltac solve_stk := repeat (stk_step; cbv beta zeta).

(** * Gas and memory-size functions *)
Section GasFunctions.
Context {L : Libs} {RP : AspectReports}.

(** Safe on [k] items, and the stack is left as it was. *)
Definition gas_stack (g : gasFunc) (k : Z) : Prop :=
  forall env n i, k <= i -> stk_to i (g env n) i.
Definition mem_stack (f : memorySizeFunc) (k : Z) : Prop :=
  forall st, k <= slen st -> calm (f st).

Ltac solve_gas := let env := fresh "env" in intros; intros env ? ? ?; solve_stk.

Lemma memoryCopierGas_stk p k : 0 <= p < k -> gas_stack (memoryCopierGas p) k.
Proof. intros Hp. unfold memoryCopierGas. solve_gas. Qed.
Lemma makeGasLog_stk n k : 2 <= k -> gas_stack (makeGasLog n) k.
Proof. unfold makeGasLog. solve_gas. Qed.
Lemma makeGasJournal_stk n k : gas_stack (makeGasJournal n) k.
Proof. unfold makeGasJournal. solve_gas. Qed.
Lemma gasKeccak256_stk k : 2 <= k -> gas_stack gasKeccak256 k.
Proof. unfold gasKeccak256. solve_gas. Qed.
Lemma pureMemoryGascost_stk k : gas_stack pureMemoryGascost k.
Proof. unfold pureMemoryGascost. solve_gas. Qed.
Lemma gasCreate2_stk k : 3 <= k -> gas_stack gasCreate2 k.
Proof. unfold gasCreate2. solve_gas. Qed.
Lemma gasCreateEip3860_stk k : 3 <= k -> gas_stack gasCreateEip3860 k.
Proof. unfold gasCreateEip3860. solve_gas. Qed.
Lemma gasCreate2Eip3860_stk k : 3 <= k -> gas_stack gasCreate2Eip3860 k.
Proof. unfold gasCreate2Eip3860. solve_gas. Qed.
Lemma gasExpFrontier_stk k : 2 <= k -> gas_stack gasExpFrontier k.
Proof. unfold gasExpFrontier. solve_gas. Qed.
Lemma gasExpEIP158_stk k : 2 <= k -> gas_stack gasExpEIP158 k.
Proof. unfold gasExpEIP158. solve_gas. Qed.
Lemma gasCall_stk k : 3 <= k -> gas_stack gasCall k.
Proof. unfold gasCall, setCallGas. solve_gas. Qed.
Lemma gasCallCode_stk k : 3 <= k -> gas_stack gasCallCode k.
Proof. unfold gasCallCode, setCallGas. solve_gas. Qed.
Lemma gasDelegateCall_stk k : 1 <= k -> gas_stack gasDelegateCall k.
Proof. unfold gasDelegateCall, setCallGas. solve_gas. Qed.
Lemma gasStaticCall_stk k : 1 <= k -> gas_stack gasStaticCall k.
Proof. unfold gasStaticCall, setCallGas. solve_gas. Qed.
Lemma gasSelfdestruct_stk k : 1 <= k -> gas_stack gasSelfdestruct k.
Proof. unfold gasSelfdestruct. solve_gas. Qed.
Lemma gasSStore_stk k : 2 <= k -> gas_stack gasSStore k.
Proof. unfold gasSStore. solve_gas. Qed.
Lemma gasSStoreEIP2200_stk k : 2 <= k -> gas_stack gasSStoreEIP2200 k.
Proof. unfold gasSStoreEIP2200. solve_gas. Qed.
Lemma makeGasSStoreFunc_stk r k : 2 <= k -> gas_stack (makeGasSStoreFunc r) k.
Proof. unfold makeGasSStoreFunc. solve_gas. Qed.
Lemma gasSLoadEIP2929_stk k : 1 <= k -> gas_stack gasSLoadEIP2929 k.
Proof. unfold gasSLoadEIP2929. solve_gas. Qed.
Lemma gasExtCodeCopyEIP2929_stk k : 4 <= k -> gas_stack gasExtCodeCopyEIP2929 k.
Proof.
  intros Hk env n i Hi. unfold gasExtCodeCopyEIP2929, gas_try at 1.
  eapply stk_bind; [apply (memoryCopierGas_stk 3 4); lia|intros ?]. solve_stk.
Qed.
Lemma gasEip2929AccountCheck_stk k : 1 <= k -> gas_stack gasEip2929AccountCheck k.
Proof. unfold gasEip2929AccountCheck. solve_gas. Qed.
Lemma makeCallVariant_stk g k : 2 <= k -> gas_stack g k ->
  gas_stack (makeCallVariantGasCallEIP2929 g) k.
Proof.
  intros Hk Hg env n i Hi. unfold makeCallVariantGasCallEIP2929.
  repeat first [apply Hg; lia|stk_step; cbv beta zeta].
Qed.
Lemma makeSelfdestructGasFn_stk r k : 1 <= k -> gas_stack (makeSelfdestructGasFn r) k.
Proof. unfold makeSelfdestructGasFn. solve_gas. Qed.

Ltac solve_mem :=
  let st := fresh "st" in intros; intros st ?; unfold maxRegion;
  repeat first [apply Back_calm; lia|calm_step; cbv beta zeta|done].
Lemma back2_stk a b k f : 0 <= a < k -> 0 <= b < k ->
  mem_stack (fun st => let? x := Back st a in let? y := Back st b in Ret (f x y)) k.
Proof. intros Ha Hb. solve_mem. Qed.
Lemma back1_stk a k f : 0 <= a < k ->
  mem_stack (fun st => let? x := Back st a in Ret (f x)) k.
Proof. intros Ha. solve_mem. Qed.
Lemma memoryMcopy_stk k : 3 <= k -> mem_stack memoryMcopy k.
Proof. unfold memoryMcopy. solve_mem. Qed.
Lemma maxRegion_stk a b c d k : 0 <= a < k -> 0 <= b < k -> 0 <= c < k -> 0 <= d < k ->
  mem_stack (fun st => maxRegion st a b c d) k.
Proof. intros Ha Hb Hc Hd. solve_mem. Qed.
End GasFunctions.

#[export] Hint Resolve memoryCopierGas_stk makeGasLog_stk makeGasJournal_stk gasKeccak256_stk
  pureMemoryGascost_stk gasCreate2_stk gasCreateEip3860_stk gasCreate2Eip3860_stk
  gasExpFrontier_stk gasExpEIP158_stk gasCall_stk gasCallCode_stk gasDelegateCall_stk
  gasStaticCall_stk gasSelfdestruct_stk gasSStore_stk gasSStoreEIP2200_stk makeGasSStoreFunc_stk
  gasSLoadEIP2929_stk gasExtCodeCopyEIP2929_stk gasEip2929AccountCheck_stk makeCallVariant_stk
  makeSelfdestructGasFn_stk back2_stk back1_stk memoryMcopy_stk maxRegion_stk : stk.
#[export] Hint Extern 1 (_ <= _) => lia : stk.
#[export] Hint Extern 1 (_ <= _ < _) => lia : stk.

(** * Operations *)
Section Operations.
Context {L : Libs} {RP : AspectReports}.

(** What the interpreter needs of the call operations. *)
Record calls_calm (evm : EVMCalls) : Prop := {
  cc_Call : forall r a i g v m, calm (do_Call evm r a i g v m);
  cc_CallCode : forall r a i g v m, calm (do_CallCode evm r a i g v m);
  cc_DelegateCall : forall r a i g m, calm (do_DelegateCall evm r a i g m);
  cc_StaticCall : forall r a i g m, calm (do_StaticCall evm r a i g m);
  cc_Create : forall r i g v m, calm (do_Create evm r i g v m);
  cc_Create2 : forall r i g v s m, calm (do_Create2 evm r i g v s m);
}.

(** The bounds of an operation are right: on [op_minStack] items nothing it
    runs reaches below the stack, and if it does not fail it changes the
    height by the difference [op_maxStack] leaves to the limit. *)
Record op_stack (o : operation) : Prop := {
  os_execute : forall env evm i, calls_calm evm -> op_minStack o <= i ->
    stk i (execute o env evm)
      (fun r h => r.2 = None -> h = i + (params.StackLimit - op_maxStack o));
  os_gas : forall g, dynamicGas o = Some g -> gas_stack g (op_minStack o);
  os_memory : forall f, memorySize o = Some f -> mem_stack f (op_minStack o);
}.

Lemma finishCall_stk i o n out : stk_to i (finishCall o n out) (i + 1).
Proof. unfold finishCall. destruct out as [[r g] e]. solve_stk. Qed.
Lemma popTopics_stk n i : Z.of_nat n <= i -> stk_to i (popTopics n) (i - Z.of_nat n).
Proof.
  revert i. induction n as [|n IH]; intros i Hi; cbn [popTopics].
  - apply stk_ret. lia.
  - eapply stk_bind; [apply stk_pop; lia|intros x].
    eapply stk_bind; [apply IH; lia|intros y]. apply stk_ret. lia.
Qed.
Lemma opUndefined_stk env evm i Q :
  (forall e h, Q ([], Some e) h) -> stk i (opUndefined env evm) Q.
Proof.
  intros HQ. unfold opUndefined. eapply stk_bind; [stk_prim|intros c].
  eapply stk_bind; [stk_prim|intros p]. eapply stk_bind; [stk_prim|intros op]. by apply stk_ret.
Qed.
Lemma loadDataFromMem_quiet p m : quiet (loadDataFromMem p m).
Proof. unfold loadDataFromMem. solve_quiet. Qed.
End Operations.
#[export] Hint Resolve loadDataFromMem_quiet : quiet.

Ltac op_stk_step H :=
  match goal with
  | |- stk_to _ (onMachine (do_Call _ _ _ _ _ _)) _ => apply stk_keep, keeps_onMachine, (cc_Call _ H)
  | |- stk_to _ (onMachine (do_CallCode _ _ _ _ _ _)) _ =>
      apply stk_keep, keeps_onMachine, (cc_CallCode _ H)
  | |- stk_to _ (onMachine (do_DelegateCall _ _ _ _ _)) _ =>
      apply stk_keep, keeps_onMachine, (cc_DelegateCall _ H)
  | |- stk_to _ (onMachine (do_StaticCall _ _ _ _ _)) _ =>
      apply stk_keep, keeps_onMachine, (cc_StaticCall _ H)
  | |- stk_to _ (onMachine (do_Create _ _ _ _ _)) _ =>
      apply stk_keep, keeps_onMachine, (cc_Create _ H)
  | |- stk_to _ (onMachine (do_Create2 _ _ _ _ _ _)) _ =>
      apply stk_keep, keeps_onMachine, (cc_Create2 _ H)
  | |- stk_to _ (popTopics _) _ => apply popTopics_stk; lia
  | |- stk _ (finishCall _ _ _) _ =>
      eapply stk_of_to; [apply finishCall_stk|intros; try done; try lia]
  | |- stk_to _ (if _ then _ else _) _ => idtac
  | |- _ => stk_step
  end.
Ltac stk_branch H :=
  first [progress (op_stk_step H; cbv beta zeta)
        |lazymatch goal with |- stk_to _ (if ?c then _ else _) _ => destruct c end].
Ltac head_term t := match t with ?f _ => head_term f | _ => t end.
Ltac solve_op_stack :=
  idtac; match goal with
  | |- op_stack _ =>
      let H := fresh "Hevm" in
      constructor;
      [ intros ? ? ? H; cbn [op_minStack op_maxStack execute];
        unfold minStack, maxStack, minSwapStack, maxSwapStack, minDupStack, maxDupStack,
          minStack, maxStack; intros ?;
        match goal with |- stk _ ?t _ => let h := head_term t in unfold h end; cbv beta zeta;
        repeat (stk_branch H)
      | intros ?; cbn [dynamicGas op_minStack]; intros [= <-];
        unfold minStack, minSwapStack, minDupStack, gasCallDataCopy, gasCodeCopy, gasMcopy,
          gasExtCodeCopy, gasReturnDataCopy, gasReturn, gasRevert, gasMLoad, gasMStore8, gasMStore,
          gasCreate; eauto with stk
      | intros ?; cbn [memorySize op_minStack]; intros [= <-];
        unfold minStack, memoryKeccak256, memoryCallDataCopy, memoryReturnDataCopy, memoryCodeCopy,
          memoryExtCodeCopy, memoryMLoad, memoryMStore8, memoryMStore, memoryCreate, memoryCreate2,
          memoryCall, memoryDelegateCall, memoryStaticCall, memoryReturn, memoryRevert, memoryLog;
        eauto with stk ]
  end.

(** * The instruction sets *)
Section Sets.
Context {L : Libs} {RP : AspectReports}.
Abbreviation all_stack l := (Forall (fun e => op_stack e.2) l).

Lemma frontierArithmetic_stk : all_stack frontierArithmetic.
Proof. unfold frontierArithmetic. each_entry solve_op_stack. Qed.
Lemma frontierComparison_stk : all_stack frontierComparison.
Proof. unfold frontierComparison. each_entry solve_op_stack. Qed.
Lemma frontierEnvironment_stk : all_stack frontierEnvironment.
Proof. unfold frontierEnvironment. each_entry solve_op_stack. Qed.
Lemma frontierBlock_stk : all_stack frontierBlock.
Proof. unfold frontierBlock. each_entry solve_op_stack. Qed.
Lemma frontierMemory_stk : all_stack frontierMemory.
Proof. unfold frontierMemory. each_entry solve_op_stack. Qed.
Lemma frontierPush_stk : all_stack frontierPush.
Proof. unfold frontierPush. each_entry solve_op_stack. Qed.
Lemma frontierPush2_stk : all_stack frontierPush2.
Proof. unfold frontierPush2. each_entry solve_op_stack. Qed.
Lemma frontierDup_stk : all_stack frontierDup.
Proof. unfold frontierDup. each_entry solve_op_stack. Qed.
Lemma frontierSwap_stk : all_stack frontierSwap.
Proof. unfold frontierSwap. each_entry solve_op_stack. Qed.
Lemma frontierLog_stk : all_stack frontierLog.
Proof. unfold frontierLog. each_entry solve_op_stack. Qed.
Lemma frontierJournal_stk : all_stack frontierJournal.
Proof. unfold frontierJournal. each_entry solve_op_stack. Qed.
Lemma frontierSystem_stk : all_stack frontierSystem.
Proof. unfold frontierSystem. each_entry solve_op_stack. Qed.
Lemma undefinedOp_stk : op_stack undefinedOp.
Proof. constructor; [|done..]. intros. by apply opUndefined_stk. Qed.

(** A fork that replaces the gas function of an opcode relies on the opcode
    being defined with enough stack: [defs] lists those that are. *)
Fixpoint need (defs : list (OpCode * Z)) (i : nat) : Z :=
  match defs with
  | [] => 0
  | (op, k) :: rest => if (Z.to_nat op =? i)%nat then k else need rest i
  end.
Definition good (defs : list (OpCode * Z)) (i : nat) (o : operation) : Prop :=
  op_stack o /\ need defs i <= op_minStack o.

Lemma good_assign defs op k o jt :
  table_all (good defs) jt -> op_stack o -> k <= op_minStack o ->
  table_all (good ((op, k) :: defs)) (assign op o jt).
Proof.
  intros Hjt Ho Hk i x Hx. apply list_lookup_insert_Some in Hx as [(<- & Hox & _)|(Hne & Hx)].
  - injection Hox as <-. split; [done|]. cbn. by rewrite Nat.eqb_refl.
  - destruct (Hjt i x Hx) as [H1 H2]. split; [done|]. cbn.
    by rewrite (proj2 (Nat.eqb_neq _ _) Hne).
Qed.
(** A new opcode no later fork refers to. *)
Lemma good_keep defs op o jt :
  table_all (good defs) jt -> op_stack o -> need defs (Z.to_nat op) <= op_minStack o ->
  table_all (good defs) (assign op o jt).
Proof. intros Hjt Ho Hk. apply table_all_assign; [done|]. by split. Qed.

Lemma good_constantGas defs i g o : good defs i o -> good defs i (set_constantGas g o).
Proof. intros [[H1 H2 H3] H]. by split; [constructor|]. Qed.
Lemma good_dynamicGas defs i g o :
  gas_stack g (need defs i) -> good defs i o -> good defs i (set_dynamicGas g o).
Proof.
  intros Hg [[H1 H2 H3] H]. split; [|done]. constructor; [done| |done].
  intros g' [= <-] env n j Hj. apply Hg. cbn in Hj. lia.
Qed.

(** The opcodes of the Frontier set whose gas later forks change. *)
Definition defs0 : list (OpCode * Z) :=
  [(EXP, 2); (BALANCE, 1); (EXTCODESIZE, 1); (EXTCODECOPY, 4); (SLOAD, 1); (SSTORE, 2);
   (CREATE, 3); (CALL, 7); (CALLCODE, 7); (SELFDESTRUCT, 1)].
Definition defs1 := (DELEGATECALL, 6) :: defs0.
Definition defs2 := (STATICCALL, 6) :: defs1.
Definition defs3 := (CREATE2, 4) :: (EXTCODEHASH, 1) :: defs2.

Lemma good_entries es :
  all_stack es -> Forall (fun e => need defs0 (Z.to_nat e.1) <= op_minStack e.2) es ->
  Forall (fun e => good defs0 (Z.to_nat e.1) e.2) es.
Proof. intros H1 H2. by apply Forall_and. Qed.

Lemma frontierEntries_stk : all_stack frontierEntries.
Proof.
  unfold frontierEntries. rewrite !Forall_app.
  eauto 20 using frontierArithmetic_stk, frontierComparison_stk, frontierEnvironment_stk,
    frontierBlock_stk, frontierMemory_stk, frontierPush_stk, frontierPush2_stk, frontierDup_stk,
    frontierSwap_stk, frontierLog_stk, frontierJournal_stk, frontierSystem_stk.
Qed.
Lemma frontierEntries_need :
  Forall (fun e => need defs0 (Z.to_nat e.1) <= op_minStack e.2) frontierEntries.
Proof.
  apply List.Forall_forall. intros e He.
  assert (Hb : forallb (fun e => need defs0 (Z.to_nat e.1) <=? op_minStack e.2) frontierEntries = true)
    by (vm_compute; reflexivity).
  rewrite forallb_forall in Hb. specialize (Hb e He). by apply Z.leb_le in Hb.
Qed.
End Sets.

(** One assignment of an activator or a fork, at the concrete list of defined
    opcodes. *)
Ltac gas_need :=
  match goal with
  | |- gas_stack ?g ?k =>
      let k' := eval vm_compute in k in change (gas_stack g k');
      unfold gasCallEIP2929, gasDelegateCallEIP2929, gasStaticCallEIP2929, gasCallCodeEIP2929,
        gasSelfdestructEIP2929, gasSelfdestructEIP3529, gasSStoreEIP2929, gasSStoreEIP3529;
      solve [eauto with stk]
  end.
Ltac stk_table_step :=
  match goal with
  | H : rbind _ _ = Ret _ |- _ => apply rbind_Ret in H as (? & ? & ?)
  | H : Ret _ = Ret _ |- _ => injection H as H; subst
  | H : validate _ = Ret ?jt |- table_all _ ?jt =>
      refine (table_all_validate _ _ _ _ H); clear H
  | H : mutate _ (set_constantGas _) _ = Ret ?jt |- table_all _ ?jt =>
      refine (table_all_mutate _ _ _ _ _ _ H _); [clear H|intros ?; apply good_constantGas]
  | H : mutate _ (set_dynamicGas _) _ = Ret ?jt |- table_all _ ?jt =>
      refine (table_all_mutate _ _ _ _ _ _ H _); [clear H|intros ?; apply good_dynamicGas; gas_need]
  | |- table_all (good ?d) (assign _ _ _) =>
      apply good_keep; [|solve_op_stack|by vm_compute]
  end.
Ltac stk_table := repeat stk_table_step.

Section Forks.
Context {L : Libs} {RP : AspectReports}.

Lemma frontier_stk jt : newFrontierInstructionSet = Ret jt -> table_all (good defs0) jt.
Proof.
  unfold newFrontierInstructionSet. intros H. refine (table_all_validate _ _ _ _ H). clear H.
  intros i o Hi. unfold fillUndefined in Hi. apply list_lookup_fmap_Some in Hi as (x & Ho & Hx).
  assert (Hg : table_all (good defs0) (fromEntries frontierEntries)).
  { apply table_all_entries, good_entries; [apply frontierEntries_stk|apply frontierEntries_need]. }
  destruct x as [x|]; injection Ho as ->; [by apply Hg|].
  split; [apply undefinedOp_stk|]. cbn [op_minStack undefinedOp].
  assert (Hb : forallb (fun i => match fromEntries frontierEntries !! i with
                | Some None => need defs0 i <=? 0 | _ => true end) (seq 0 256) = true)
    by (vm_compute; reflexivity).
  rewrite forallb_forall in Hb.
  assert (Hin : In i (seq 0 256)).
  { apply List.in_seq. apply lookup_lt_Some in Hx.
    change (length (fromEntries frontierEntries)) with 256%nat in Hx. lia. }
  specialize (Hb i Hin).
  pose (f := fun x : option (option operation) =>
    match x with Some None => need defs0 i <=? 0 | _ => true end).
  by apply Z.leb_le, (eq_trans (f_equal f (eq_sym Hx)) Hb).
Qed.

Lemma enable1884_stk jt jt' :
  table_all (good defs3) jt -> enable1884 jt = Ret jt' -> table_all (good defs3) jt'.
Proof. unfold enable1884. intros. stk_table. done. Qed.
Lemma enable1344_stk jt jt' :
  table_all (good defs3) jt -> enable1344 jt = Ret jt' -> table_all (good defs3) jt'.
Proof. unfold enable1344. intros. stk_table. done. Qed.
Lemma enable2200_stk jt jt' :
  table_all (good defs3) jt -> enable2200 jt = Ret jt' -> table_all (good defs3) jt'.
Proof. unfold enable2200. intros. stk_table. done. Qed.
Lemma enable2929_stk jt jt' :
  table_all (good defs3) jt -> enable2929 jt = Ret jt' -> table_all (good defs3) jt'.
Proof. unfold enable2929. intros. stk_table. done. Qed.
Lemma enable3529_stk jt jt' :
  table_all (good defs3) jt -> enable3529 jt = Ret jt' -> table_all (good defs3) jt'.
Proof. unfold enable3529. intros. stk_table. done. Qed.
Lemma enable3198_stk jt jt' :
  table_all (good defs3) jt -> enable3198 jt = Ret jt' -> table_all (good defs3) jt'.
Proof. unfold enable3198. intros. stk_table. done. Qed.
Lemma enable1153_stk jt jt' :
  table_all (good defs3) jt -> enable1153 jt = Ret jt' -> table_all (good defs3) jt'.
Proof. unfold enable1153. intros. stk_table. done. Qed.
Lemma enable3855_stk jt jt' :
  table_all (good defs3) jt -> enable3855 jt = Ret jt' -> table_all (good defs3) jt'.
Proof. unfold enable3855. intros. stk_table. done. Qed.
Lemma enable3860_stk jt jt' :
  table_all (good defs3) jt -> enable3860 jt = Ret jt' -> table_all (good defs3) jt'.
Proof. unfold enable3860. intros. stk_table. done. Qed.
Lemma enable5656_stk jt jt' :
  table_all (good defs3) jt -> enable5656 jt = Ret jt' -> table_all (good defs3) jt'.
Proof. unfold enable5656. intros. stk_table. done. Qed.
Ltac activator_stk :=
  match goal with
  | H : enable1884 _ = Ret ?jt |- table_all _ ?jt => refine (enable1884_stk _ _ _ H)
  | H : enable1344 _ = Ret ?jt |- table_all _ ?jt => refine (enable1344_stk _ _ _ H)
  | H : enable2200 _ = Ret ?jt |- table_all _ ?jt => refine (enable2200_stk _ _ _ H)
  | H : enable2929 _ = Ret ?jt |- table_all _ ?jt => refine (enable2929_stk _ _ _ H)
  | H : enable3529 _ = Ret ?jt |- table_all _ ?jt => refine (enable3529_stk _ _ _ H)
  | H : enable3198 _ = Ret ?jt |- table_all _ ?jt => refine (enable3198_stk _ _ _ H)
  | H : enable1153 _ = Ret ?jt |- table_all _ ?jt => refine (enable1153_stk _ _ _ H)
  | H : enable3855 _ = Ret ?jt |- table_all _ ?jt => refine (enable3855_stk _ _ _ H)
  | H : enable3860 _ = Ret ?jt |- table_all _ ?jt => refine (enable3860_stk _ _ _ H)
  | H : enable5656 _ = Ret ?jt |- table_all _ ?jt => refine (enable5656_stk _ _ _ H)
  end.

Lemma EnableEIP_stk n jt err jt' :
  table_all (good defs3) jt -> EnableEIP n jt = Ret (err, jt') -> table_all (good defs3) jt'.
Proof.
  intros Hjt. unfold EnableEIP, activators. cbn [activator].
  repeat match goal with |- context [?a =? ?b] => destruct (a =? b) end;
    intros H; inv_run; try activator_stk; done.
Qed.

Lemma homestead_stk jt : newHomesteadInstructionSet = Ret jt -> table_all (good defs1) jt.
Proof.
  unfold newHomesteadInstructionSet. intros H. apply rbind_Ret in H as (t & Ht & H).
  pose proof (frontier_stk _ Ht) as Hf. refine (table_all_validate _ _ _ _ H). clear Ht H.
  apply good_assign; [exact Hf|solve_op_stack|done].
Qed.
Lemma tangerine_stk jt : newTangerineWhistleInstructionSet = Ret jt -> table_all (good defs1) jt.
Proof.
  unfold newTangerineWhistleInstructionSet. intros H. apply rbind_Ret in H as (t & Ht & H).
  pose proof (homestead_stk _ Ht). clear Ht. stk_table. done.
Qed.
Lemma spurious_stk jt : newSpuriousDragonInstructionSet = Ret jt -> table_all (good defs1) jt.
Proof.
  unfold newSpuriousDragonInstructionSet. intros H. apply rbind_Ret in H as (t & Ht & H).
  pose proof (tangerine_stk _ Ht). clear Ht. stk_table. done.
Qed.
Lemma byzantium_stk jt : newByzantiumInstructionSet = Ret jt -> table_all (good defs2) jt.
Proof.
  unfold newByzantiumInstructionSet. intros H. apply rbind_Ret in H as (t & Ht & H).
  pose proof (spurious_stk _ Ht). clear Ht. cbv zeta in H.
  refine (table_all_validate _ _ _ _ H). clear H.
  do 3 (apply good_keep; [|solve_op_stack|by vm_compute]).
  apply good_assign; [done|solve_op_stack|done].
Qed.
Lemma constantinople_stk jt :
  newConstantinopleInstructionSet = Ret jt -> table_all (good defs3) jt.
Proof.
  unfold newConstantinopleInstructionSet. intros H. apply rbind_Ret in H as (t & Ht & H).
  pose proof (byzantium_stk _ Ht). clear Ht. cbv zeta in H.
  refine (table_all_validate _ _ _ _ H). clear H.
  do 2 (apply good_assign; [|solve_op_stack|done]). stk_table. done.
Qed.
Ltac fork_stk base :=
  let t := fresh "t" in let Ht := fresh "Ht" in
  intros H; apply rbind_Ret in H as (t & Ht & H); pose proof (base _ Ht); clear Ht;
  repeat first [stk_table_step|activator_stk]; done.
Lemma istanbul_stk jt : newIstanbulInstructionSet = Ret jt -> table_all (good defs3) jt.
Proof. unfold newIstanbulInstructionSet. fork_stk constantinople_stk. Qed.
Lemma berlin_stk jt : newBerlinInstructionSet = Ret jt -> table_all (good defs3) jt.
Proof. unfold newBerlinInstructionSet. fork_stk istanbul_stk. Qed.
Lemma london_stk jt : newLondonInstructionSet = Ret jt -> table_all (good defs3) jt.
Proof. unfold newLondonInstructionSet. fork_stk berlin_stk. Qed.
Lemma merge_stk jt : newMergeInstructionSet = Ret jt -> table_all (good defs3) jt.
Proof. unfold newMergeInstructionSet. fork_stk london_stk. Qed.
Lemma shanghai_stk jt : newShanghaiInstructionSet = Ret jt -> table_all (good defs3) jt.
Proof. unfold newShanghaiInstructionSet. fork_stk merge_stk. Qed.
Lemma cancun_stk jt : newCancunInstructionSet = Ret jt -> table_all (good defs3) jt.
Proof. unfold newCancunInstructionSet. fork_stk shanghai_stk. Qed.
End Forks.

(** * Interpreters *)
Section Interpreters.
Context {L : Libs} {RP : AspectReports}.

Definition stack_table (jt : JumpTable) : Prop := table_all (fun _ => op_stack) jt.
Lemma good_table defs jt : table_all (good defs) jt -> stack_table jt.
Proof. apply table_all_impl. by intros i o []. Qed.

(** The forks from Constantinople on: every opcode an EIP re-prices exists. *)
Definition fromConstantinople (r : params.Rules) : bool :=
  params.IsCancun r || params.IsShanghai r || params.IsMerge r || params.IsLondon r
  || params.IsBerlin r || params.IsIstanbul r || params.IsConstantinople r.
Definition eips_supported (r : params.Rules) (eips : list Z) : Prop :=
  eips = [] \/ fromConstantinople r = true.

Lemma selectTable_late r jt :
  fromConstantinople r = true -> selectTable r = Ret jt -> table_all (good defs3) jt.
Proof.
  unfold fromConstantinople, selectTable. intros H.
  destruct (params.IsCancun r); [apply cancun_stk|].
  destruct (params.IsShanghai r); [apply shanghai_stk|].
  destruct (params.IsMerge r); [apply merge_stk|].
  destruct (params.IsLondon r); [apply london_stk|].
  destruct (params.IsBerlin r); [apply berlin_stk|].
  destruct (params.IsIstanbul r); [apply istanbul_stk|].
  destruct (params.IsConstantinople r); [apply constantinople_stk|done].
Qed.

Lemma selectTable_stk r jt : selectTable r = Ret jt -> stack_table jt.
Proof.
  destruct (fromConstantinople r) eqn:E; intros H;
    [by eapply good_table, selectTable_late|].
  unfold fromConstantinople in E. rewrite !orb_false_iff in E.
  destruct E as [[[[[[E1 E2] E3] E4] E5] E6] E7]. unfold selectTable in H.
  rewrite E1, E2, E3, E4, E5, E6, E7 in H.
  destruct (params.IsByzantium r); [by eapply good_table, byzantium_stk|].
  destruct (params.IsEIP158 r); [by eapply good_table, spurious_stk|].
  destruct (params.IsEIP150 r); [by eapply good_table, tangerine_stk|].
  destruct (params.IsHomestead r); [by eapply good_table, homestead_stk|].
  by eapply good_table, frontier_stk.
Qed.

Lemma enableExtra_stk eips jt jt' active :
  table_all (good defs3) jt -> enableExtra eips jt = Ret (jt', active) ->
  table_all (good defs3) jt'.
Proof.
  revert jt jt' active. induction eips as [|e eips IH]; intros jt jt' active Hjt H; cbn in H;
    [by inv_run|]. inv_run. eauto using EnableEIP_stk.
Qed.

Lemma NewEVMInterpreter_stk r eips jt active :
  NewEVMInterpreter r eips = Ret (jt, active) -> eips_supported r eips -> stack_table jt.
Proof.
  unfold NewEVMInterpreter. intros H Hs. apply rbind_Ret in H as (t & Ht & H).
  destruct Hs as [->|Hs].
  - cbn in H. inv_run. by eapply selectTable_stk.
  - pose proof (selectTable_late _ _ Hs Ht) as Hg. cbv zeta in H.
    assert (Hc : table_all (good defs3) (if 0 <? len eips then copyJumpTable t else t)).
    { destruct (0 <? len eips); [|done]. unfold copyJumpTable.
      intros i o Hi. apply list_lookup_fmap_Some in Hi as ([x|] & Ho & Hx); [|done].
      injection Ho as ->. destruct (Hg i x Hx) as [[H1 H2 H3] Hn]. by split; [constructor|]. }
    by eapply good_table, enableExtra_stk.
Qed.
End Interpreters.

(** * The call operations *)
Create HintDb calm.

Section CallOperations.
Context {L : Libs} {RP : AspectReports}.

Definition calmM {A} (m : ST Machine A) : Prop := forall x, calm (m x).

Lemma calmM_bind {A B} (m : ST Machine A) (k : A -> ST Machine B) :
  calmM m -> (forall a, calmM (k a)) -> calmM (bind m k).
Proof.
  intros Hm Hk x. unfold bind. specialize (Hm x).
  destruct (m x) as [[a y]| |]; [apply Hk|unfold calm in *; congruence|done].
Qed.
Lemma calmM_ret {A} (a : A) : calmM (ret a).
Proof. done. Qed.
Lemma calmM_gets {A} (f : Machine -> A) : calmM (gets f).
Proof. done. Qed.
Lemma calmM_modify f : calmM (modify f).
Proof. done. Qed.
Lemma calmM_liftR {A} (r : res A) : calm r -> calmM (liftR r).
Proof. intros H x. destruct r; cbn; unfold calm in *; congruence. Qed.
Lemma calmM_dbQuery {A} (f : StateDB.DB -> A) : calmM (dbQuery f).
Proof. done. Qed.
Lemma calmM_dbUpdate f : calmM (dbUpdate f).
Proof. done. Qed.
Lemma calmM_snapshot : calmM snapshot_.
Proof. intros m. unfold snapshot_. by destruct (StateDB.Snapshot (db m)). Qed.
Lemma calmM_saveCall f t d v g : calmM (saveCall_ f t d v g).
Proof. intros m. apply quiet_calm, quiet_rbind; [apply quiet_mustFromBig|done]. Qed.
Lemma calmM_exitCall g r e : calmM (exitCall_ g r e).
Proof. done. Qed.
Lemma calmM_transfer env f t v : calmM (transferWithRecord_ env f t v).
Proof. intros m. apply quiet_calm, quiet_rbind; [apply quiet_TransferWithRecord|by intros []]. Qed.
Lemma calmM_newContract c o v g : calmM (newContract_ c o v g).
Proof. intros m. unfold newContract_. by destruct (NewContract c o v g (jdests m)). Qed.
Lemma calmM_precompiled p i g : calmM (runPrecompiled_ p i g).
Proof.
  intros m. unfold runPrecompiled_, zoom.
  pose proof (quiet_RunPrecompiledContract p i g (actx m)) as [H _].
  destruct (RunPrecompiledContract p i g (actx m)) as [[a t]| |]; unfold calm; congruence.
Qed.
Lemma calmM_emit env e : calmM (emit_ env e).
Proof. done. Qed.
Lemma calmM_pre env ci : calmM (preContractCall_ env ci).
Proof. intros m. unfold preContractCall_. by destruct (aspect.PreContractCall _ _ _) as [[]]. Qed.
Lemma calmM_post env ci r e : calmM (postContractCall_ env ci r e).
Proof. intros m. unfold postContractCall_. by destruct (aspect.PostContractCall _ _ _ _ _) as [[]]. Qed.
End CallOperations.
#[export] Hint Resolve calmM_ret calmM_gets calmM_modify calmM_dbQuery calmM_dbUpdate calmM_snapshot
  calmM_saveCall calmM_exitCall calmM_transfer calmM_newContract calmM_precompiled calmM_emit
  calmM_pre calmM_post : calm.

Ltac calmM_step :=
  match goal with
  | |- calmM (bind _ _) => apply calmM_bind; [|intros ?]
  | |- calmM (liftR _) => apply calmM_liftR; first [done|apply quiet_calm; eauto with quiet]
  | |- calmM (settle _ _) => unfold settle
  | |- calmM (enterEvent _ _ _ _ _ _ _ _ _) => unfold enterEvent
  | |- calmM (exitEvent _ _ _ _ _) => unfold exitEvent
  | |- calmM (if ?c then _ else _) => destruct c
  | |- calmM (match ?x with _ => _ end) => destruct x
  | |- calmM _ => solve [eauto with calm]
  end.
Ltac solve_calmM := repeat (calmM_step; cbv beta zeta).

Section Calls.
Context {L : Libs} {RP : AspectReports} (env : Env) (run : Runner).
Hypothesis run_calm : forall c input ro, calmM (run c input ro).

Lemma evmCalls_calm : calls_calm (evmCalls env run).
Proof.
  constructor; cbn [evmCalls do_Call do_CallCode do_DelegateCall do_StaticCall do_Create do_Create2];
    intros; match goal with |- calm (?t _) => enough (H : calmM t) by apply H end;
    unfold Call, callBody, callContract, runContract, CallCode, DelegateCall, StaticCall, runCode,
      Create, Create2, create, createBody, createContract, storeCode; cbv zeta;
    repeat first [apply run_calm|calmM_step; cbv beta zeta].
Qed.
End Calls.

(** * The interpreter loop *)
Section Loop.
Context {L : Libs} {RP : AspectReports} (env : Env).

Lemma requestedMemory_stk o i :
  op_stack o -> op_minStack o <= i -> stk_to i (requestedMemory o) i.
Proof.
  intros [_ _ Hm] Hi s Hs. unfold requestedMemory.
  destruct (memorySize o) as [f|]; [|exact Hs]. unfold bind, gets, liftR, ret.
  specialize (Hm f eq_refl (stack s) ltac:(lia)).
  destruct (f (stack s)) as [[n ov]| |]; cbn; [|unfold calm in Hm; congruence|done].
  destruct ov; [done|]. by destruct (math.SafeMul (toWordSize n) 32) as [sz []].
Qed.

Lemma executeOp_stk evm o info i :
  op_stack o -> calls_calm evm -> op_minStack o <= i <= op_maxStack o ->
  stk i (executeOp env evm o info) (fun it h => it = Next -> h <= params.StackLimit).
Proof.
  intros [He _ _] Hevm Hi s Hs. unfold executeOp, bind.
  specialize (He env evm i Hevm ltac:(lia) s Hs).
  destruct (execute o env evm s) as [[[r [e|]] s']| |]; cbn; [done| |done..].
  intros _. specialize (He eq_refl). cbn in He. unfold stack in *. cbn. lia.
Qed.

(** One iteration, from any height: no index panic, and a frame that goes on
    is within the limit. *)
Lemma iteration_stk table evm i :
  stack_table table -> calls_calm evm ->
  stk i (iteration env table evm) (fun it h => it = Next -> h <= params.StackLimit).
Proof.
  intros Ht Hevm. unfold iteration.
  eapply stk_bind; [stk_prim|intros pcCopy]. eapply stk_bind; [stk_prim|intros c].
  eapply stk_bind; [stk_prim|intros op].
  destruct (table !! Z.to_nat op) as [[o|]|] eqn:Eo; [|by apply stk_panic..].
  pose proof (Ht _ _ Eo) as Ho. cbv zeta. intros s Hs. unfold bind at 1, gets. rewrite Hs.
  destruct (Z.ltb_spec i (op_minStack o)); [done|].
  destruct (Z.ltb_spec (op_maxStack o) i); [done|].
  revert s Hs.
  match goal with |- forall s, _ -> match ?m s with _ => _ end =>
    change (stk i m (fun it h => it = Next -> h <= params.StackLimit)) end.
  eapply stk_bind; [stk_prim|intros ok]. destruct ok; [|by apply stk_ret]. cbn [negb].
  destruct (dynamicGas o) as [g|] eqn:Eg.
  - eapply stk_bind; [by apply requestedMemory_stk|intros [sz|]]; [|by apply stk_ret].
    eapply stk_bind; [by apply (os_gas _ Ho _ Eg)|intros [d err]].
    eapply stk_bind; [instantiate (1 := i); destruct (is_nil err); stk_prim|intros ok].
    destruct ok; [|by apply stk_ret]. cbn [negb].
    eapply stk_bind; [by apply stk_keep, keeps_modify|intros _].
    eapply stk_bind; [instantiate (1 := i); destruct (0 <? sz); stk_prim|intros _].
    by apply executeOp_stk.
  - eapply stk_bind; [by apply stk_keep, keeps_modify|intros _]. by apply executeOp_stk.
Qed.

Lemma loop_calm table evm fuel s :
  stack_table table -> calls_calm evm -> calm (loop env table evm fuel s).
Proof.
  intros Ht Hevm. revert s. induction fuel as [|n IH]; intros s; [done|]. cbn. unfold bind.
  pose proof (iteration_stk table evm _ Ht Hevm s eq_refl) as H.
  destruct (iteration env table evm s) as [[[|r e info] s']| |]; [apply IH|done| |done].
  unfold calm. congruence.
Qed.

Lemma Run_calm table fuel c input ro :
  stack_table table -> calmM (Run env table fuel c input ro).
Proof.
  intros Ht. revert c input ro. induction fuel as [|n IH]; intros c input ro; [done|].
  cbn [Run]. pose proof (evmCalls_calm env _ IH) as Hevm. unfold runWith.
  assert (Hf : calmM (runFrame env (loop env table (evmCalls env (Run env table n)) n) c input)).
  { intros m. unfold runFrame. apply calm_rbind; [by apply loop_calm|].
    by intros [[[r err] info] s]. }
  solve_calmM.
Qed.

(** The frames a run of the main loop goes through. *)
Definition frame_step (table : JumpTable) (evm : EVMCalls) (s s' : St) : Prop :=
  iteration env table evm s = Ret (Next, s').

Lemma frame_steps_bounded table evm s s' :
  stack_table table -> calls_calm evm -> rtc (frame_step table evm) s s' ->
  slen (stack s) <= params.StackLimit -> slen (stack s') <= params.StackLimit.
Proof.
  intros Ht Hevm. induction 1 as [s|s s1 s2 H1 _ IH]; [done|]. intros _. apply IH.
  pose proof (iteration_stk table evm _ Ht Hevm s eq_refl) as H. rewrite H1 in H. by apply H.
Qed.
End Loop.

Section Claims.
Context {L : Libs} {RP : AspectReports}.

(** C12: the interpreter never indexes the operand stack out of range. For
    every fork, with any extra EIPs from Constantinople on, any code, input,
    state and nesting of calls: a run does not end in a stack index panic. *)
Theorem stack_never_out_of_range (env : Env) rules eips table active fuel c input ro m :
  NewEVMInterpreter rules eips = Ret (table, active) -> eips_supported rules eips ->
  Run env table fuel c input ro m <> Panicked StackIndex.
Proof. intros H Hs. by apply Run_calm, (NewEVMInterpreter_stk _ _ _ _ H). Qed.

(** C13: the operand stack never exceeds its limit. For every fork, with any extra
    EIPs from Constantinople on, every frame a run of the main loop reaches, with
    the interpreter's own call operations, holds at most [StackLimit] items. *)
Theorem stack_height_bounded (env : Env) rules eips table active fuel c input m s :
  NewEVMInterpreter rules eips = Ret (table, active) -> eips_supported rules eips ->
  0 <= params.StackLimit ->
  rtc (frame_step env table (evmCalls env (Run env table fuel)))
      (mkSt 0 m (mkScope NewMemory newstack (set_Input input c))) s ->
  slen (stack s) <= params.StackLimit.
Proof.
  intros H Hs Hl Hr. pose proof (NewEVMInterpreter_stk _ _ _ _ H Hs) as Ht.
  eapply frame_steps_bounded; [exact Ht| |exact Hr|exact Hl].
  apply evmCalls_calm. intros. by apply Run_calm.
Qed.
End Claims.

(** * Where the support condition is needed

    EIP-2929 gives EXTCODEHASH a gas function whether or not the fork defines
    that opcode. *)
Section Unsupported.
Context {L : Libs} {RP : AspectReports} {PS : params.Spec}.

(** An undefined entry for EXTCODEHASH, whatever the activators do to its
    costs: it asks for no stack item. [priced] says that EIP-2929 gave it the
    gas function that reads one. *)
Definition orphan (priced : bool) (i : nat) (o : operation) : Prop :=
  i = Z.to_nat EXTCODEHASH ->
  op_minStack o = 0 /\ op_maxStack o = maxStack 0 0 /\ memorySize o = None /\
  constantGas o <= params.ExtcodeHashGasEIP1884 /\
  (priced = true -> dynamicGas o = Some gasEip2929AccountCheck).

Lemma orphan_warm b o : orphan b (Z.to_nat EXTCODEHASH) o ->
  orphan b (Z.to_nat EXTCODEHASH) (set_constantGas params.WarmStorageReadCostEIP2929 o).
Proof.
  intros H Hi. destruct (H Hi) as (H1 & H2 & H3 & H4 & H5). split_and!; [done..| |done].
  cbn [constantGas set_constantGas].
  rewrite params.WarmStorageReadCostEIP2929_val, params.ExtcodeHashGasEIP1884_val. lia.
Qed.
Lemma orphan_1884 b o : orphan b (Z.to_nat EXTCODEHASH) o ->
  orphan b (Z.to_nat EXTCODEHASH) (set_constantGas params.ExtcodeHashGasEIP1884 o).
Proof.
  intros H Hi. destruct (H Hi) as (H1 & H2 & H3 & H4 & H5). by split_and!.
Qed.
Lemma orphan_priced b jt jt' :
  table_all (orphan b) jt -> mutate EXTCODEHASH (set_dynamicGas gasEip2929AccountCheck) jt = Ret jt' ->
  table_all (orphan true) jt'.
Proof.
  unfold mutate. intros Hjt Hm. destruct (jt !! Z.to_nat EXTCODEHASH) as [[o|]|] eqn:E; [|done..].
  injection Hm as <-. intros i x Hx Hi. subst i.
  apply list_lookup_insert_Some in Hx as [(_ & Hox & _)|(Hne & _)]; [|done].
  injection Hox as <-. destruct (Hjt _ _ E eq_refl) as (H1 & H2 & H3 & H4 & _). by split_and!.
Qed.

Ltac orphan_step :=
  match goal with
  | H : rbind _ _ = Ret _ |- _ => apply rbind_Ret in H as (? & ? & ?)
  | H : Ret _ = Ret _ |- _ => injection H as H; subst
  | H : validate _ = Ret ?jt |- table_all _ ?jt =>
      refine (table_all_validate _ _ _ _ H); clear H
  | H : mutate EXTCODEHASH (set_dynamicGas _) _ = Ret ?jt |- table_all _ ?jt =>
      refine (orphan_priced _ _ _ _ H); clear H
  | H : mutate _ _ _ = Ret ?jt |- table_all _ ?jt =>
      refine (table_all_mutate _ _ _ _ _ _ H _);
      [clear H|intros ?; first [apply orphan_warm|apply orphan_1884|intros _ ?; discriminate]]
  | |- table_all _ (assign _ _ _) => apply table_all_assign; [|intros ?; discriminate]
  end.
Ltac orphan_table := repeat orphan_step; try done.

Lemma enable2929_orphan b jt jt' :
  table_all (orphan b) jt -> enable2929 jt = Ret jt' -> table_all (orphan true) jt'.
Proof. unfold enable2929. intros. orphan_table. Qed.

Lemma EnableEIP_orphan b n jt err jt' :
  table_all (orphan b) jt -> EnableEIP n jt = Ret (err, jt') ->
  table_all (orphan (b || (n =? 2929))) jt'.
Proof.
  intros Hjt. unfold EnableEIP, activators. cbn [activator].
  repeat match goal with |- context [if ?a =? n then _ else _] =>
      destruct (Z.eqb_spec a n) as [<-|?] end; rewrite ?(proj2 (Z.eqb_neq n 2929)) by congruence;
    rewrite ?orb_true_r, ?orb_false_r; intros H; inv_run; try done;
    try (eapply enable2929_orphan; eassumption);
    unfold enable3855, enable3860, enable3529, enable3198, enable2200, enable1884, enable1344,
      enable1153, enable5656 in *; cbn [Z.eqb Pos.eqb]; rewrite ?orb_false_r; orphan_table.
Qed.

Lemma enableExtra_orphan eips : forall b jt jt' active,
  table_all (orphan b) jt -> enableExtra eips jt = Ret (jt', active) ->
  b = true \/ 2929 ∈ eips -> table_all (orphan true) jt'.
Proof.
  induction eips as [|e eips IH]; intros b jt jt' active Hjt H Hb; cbn in H.
  - inv_run. destruct Hb as [->|Hb]; [done|by apply elem_of_nil in Hb].
  - inv_run. eapply (IH (b || (e =? 2929))); [eapply EnableEIP_orphan; eassumption|eassumption|].
    destruct Hb as [->|Hb]; [by left|]. apply elem_of_cons in Hb as [<-|Hb]; [|by right].
    left. by rewrite Z.eqb_refl, orb_true_r.
Qed.

Lemma frontier_orphan jt : newFrontierInstructionSet = Ret jt -> table_all (orphan false) jt.
Proof.
  unfold newFrontierInstructionSet. intros H. refine (table_all_validate _ _ _ _ H). clear H.
  apply table_all_fill.
  - apply table_all_entries. apply List.Forall_forall. intros e He Hi. exfalso.
    assert (Hb : forallb (fun e => negb (Z.to_nat e.1 =? Z.to_nat EXTCODEHASH)%nat)
                   frontierEntries = true) by (vm_compute; reflexivity).
    rewrite forallb_forall in Hb. specialize (Hb e He). by rewrite Hi, Nat.eqb_refl in Hb.
  - intros i _. split_and!; try done. cbn. rewrite params.ExtcodeHashGasEIP1884_val. lia.
Qed.

Lemma homestead_orphan jt : newHomesteadInstructionSet = Ret jt -> table_all (orphan false) jt.
Proof.
  unfold newHomesteadInstructionSet. intros H. apply rbind_Ret in H as (t & Ht & H).
  pose proof (frontier_orphan _ Ht). clear Ht. orphan_table.
Qed.
Lemma tangerine_orphan jt :
  newTangerineWhistleInstructionSet = Ret jt -> table_all (orphan false) jt.
Proof.
  unfold newTangerineWhistleInstructionSet. intros H. apply rbind_Ret in H as (t & Ht & H).
  pose proof (homestead_orphan _ Ht). clear Ht. orphan_table.
Qed.
Lemma spurious_orphan jt : newSpuriousDragonInstructionSet = Ret jt -> table_all (orphan false) jt.
Proof.
  unfold newSpuriousDragonInstructionSet. intros H. apply rbind_Ret in H as (t & Ht & H).
  pose proof (tangerine_orphan _ Ht). clear Ht. orphan_table.
Qed.
Lemma byzantium_orphan jt : newByzantiumInstructionSet = Ret jt -> table_all (orphan false) jt.
Proof.
  unfold newByzantiumInstructionSet. intros H. apply rbind_Ret in H as (t & Ht & H).
  pose proof (spurious_orphan _ Ht). clear Ht. cbv zeta in H. orphan_table.
Qed.

Lemma selectTable_orphan r jt :
  fromConstantinople r = false -> selectTable r = Ret jt -> table_all (orphan false) jt.
Proof.
  unfold fromConstantinople, selectTable. intros E. rewrite !orb_false_iff in E.
  destruct E as [[[[[[E1 E2] E3] E4] E5] E6] E7]. rewrite E1, E2, E3, E4, E5, E6, E7.
  destruct (params.IsByzantium r); [apply byzantium_orphan|].
  destruct (params.IsEIP158 r); [apply spurious_orphan|].
  destruct (params.IsEIP150 r); [apply tangerine_orphan|].
  destruct (params.IsHomestead r); [apply homestead_orphan|apply frontier_orphan].
Qed.

(** The entry of EXTCODEHASH in such a table. *)
Lemma unsupported_entry r eips jt active :
  fromConstantinople r = false -> 2929 ∈ eips -> NewEVMInterpreter r eips = Ret (jt, active) ->
  exists o, jt !! Z.to_nat EXTCODEHASH = Some (Some o) /\ orphan true (Z.to_nat EXTCODEHASH) o.
Proof.
  intros Hr He H. pose proof (NewEVMInterpreter_complete _ _ _ _ H) as Hc.
  unfold NewEVMInterpreter in H. apply rbind_Ret in H as (t & Ht & H).
  rewrite copyJumpTable_id in H.
  assert (Ha : table_all (orphan true) jt).
  { eapply enableExtra_orphan; [by eapply selectTable_orphan| |by right].
    by destruct (0 <? len eips). }
  destruct (cp_entry _ Hc (Z.to_nat EXTCODEHASH)) as (o & Ho & _); [vm_compute; lia|].
  exists o. split; [done|]. by apply Ha.
Qed.

(** The first byte of such code panics. *)
Lemma orphan_panics env table o evm n m c rest input :
  table !! Z.to_nat EXTCODEHASH = Some (Some o) -> orphan true (Z.to_nat EXTCODEHASH) o ->
  Code c = EXTCODEHASH :: rest -> params.ExtcodeHashGasEIP1884 <= Gas c ->
  loop env table evm (S n) (mkSt 0 m (mkScope NewMemory newstack (set_Input input c)))
    = Panicked StackIndex.
Proof.
  intros Ho Hu Hc Hg. destruct (Hu eq_refl) as (H1 & H2 & H3 & H4 & H5).
  assert (Hop : GetOp (set_Input input c) 0 = Ret EXTCODEHASH).
  { unfold GetOp, index, len. cbn [Code set_Input]. rewrite Hc. cbn [length].
    rewrite !(proj2 (Z.ltb_lt _ _)) by lia. done. }
  set (frame := mkSt 0 m _).
  assert (Hgas : (Gas (set_Input input c) <? constantGas o) = false).
  { apply Z.ltb_ge. cbn [Gas set_Input]. lia. }
  assert (Hlim : (maxStack 0 0 <? 0) = false).
  { apply Z.ltb_ge. unfold maxStack. rewrite params.StackLimit_val. lia. }
  cbn [loop]. unfold iteration, bind at 1 2 3 4, gets at 1 2, liftR at 1.
  change (GetOp (contract frame) (pc frame)) with (GetOp (set_Input input c) 0).
  rewrite Hop. cbn [rbind]. rewrite Ho, H1, H2. unfold bind at 1, gets at 1.
  change (slen (stack frame)) with 0. cbn [Z.ltb Z.compare]. rewrite Hlim.
  unfold bind at 1, useGas_ at 1, zoom at 1, UseGas at 1.
  change (contract frame) with (set_Input input c). rewrite Hgas. cbn [negb].
  rewrite (H5 eq_refl). unfold requestedMemory. rewrite H3. reflexivity.
Qed.
(** C40: extra EIPs that include 2929 break the stack bounds of every fork
    before Constantinople. The interpreter is built without an error and lists
    the EIP as active, but the undefined opcode EXTCODEHASH, which declares no
    stack items, has a gas function that reads one: whatever the environment,
    input, state and other EIPs, a run of code that starts with this byte, with
    gas for its constant cost, panics with a stack index out of range. *)
Theorem eip2929_before_constantinople_panics (env : Env) rules eips fuel c rest input ro m :
  fromConstantinople rules = false -> 2929 ∈ eips ->
  Code c = EXTCODEHASH :: rest -> params.ExtcodeHashGasEIP1884 <= Gas c ->
  exists table, NewEVMInterpreter rules eips = Ret (table, List.filter ValidEip eips) /\
    Run env table (S (S fuel)) c input ro m = Panicked StackIndex.
Proof.
  intros Hr He Hc Hg. destruct (NewEVMInterpreter_yields rules eips) as (table & Ht & _).
  exists table. split; [done|].
  destruct (unsupported_entry _ _ _ _ Hr He Ht) as (o & Ho & Hu).
  cbn [Run]. unfold runWith, bind at 1 2 3 4 5, gets, modify at 1.
  assert (Hl : (len (Code c) =? 0) = false) by (apply Z.eqb_neq; rewrite Hc; unfold len; cbn; lia).
  rewrite Hl. match goal with |- context [if ?enter then modify (set_readOnly true) else _] =>
    destruct enter end; unfold runFrame, modify, ret;
    by erewrite orphan_panics by eassumption.
Qed.
End Unsupported.

(** * Witnesses *)
From S2P Require Import Instances Core Sample.

Lemma stack_never_out_of_range_witness :
  NewEVMInterpreter cancunRules [] = Ret (sampleTable, []) /\
  Run sampleEnv sampleTable 50 (sampleContract [POP] 100) [] false (machineWith [])
    <> Panicked StackIndex.
Proof.
  split; [exact sampleTable_ok|].
  exact (stack_never_out_of_range sampleEnv cancunRules [] sampleTable [] 50
    (sampleContract [POP] 100) [] false (machineWith []) sampleTable_ok (or_introl eq_refl)).
Defined.

(** The frame after PUSH1 2 of [addCode]. *)
Definition firstFrame : St :=
  mkSt 0 (machineWith addCode) (mkScope NewMemory newstack (set_Input [] (sampleContract addCode 99))).
Definition secondFrame : St :=
  match iteration sampleEnv sampleTable (evmCalls sampleEnv (Run sampleEnv sampleTable 0)) firstFrame with
  | Ret (_, s) => s
  | _ => firstFrame
  end.

Lemma stack_height_bounded_witness :
  slen (stack secondFrame) = 1 /\ slen (stack secondFrame) <= params.StackLimit.
Proof.
  split; [reflexivity|].
  refine (stack_height_bounded sampleEnv cancunRules [] sampleTable [] 0
    (sampleContract addCode 99) [] (machineWith addCode) secondFrame sampleTable_ok
    (or_introl eq_refl) _ _); [done|].
  apply rtc_once. unfold frame_step, secondFrame. fold firstFrame.
  assert (H : match iteration sampleEnv sampleTable
                (evmCalls sampleEnv (Run sampleEnv sampleTable 0)) firstFrame with
              | Ret (Next, _) => true | _ => false end = true) by (vm_compute; reflexivity).
  destruct (iteration _ _ _ _) as [[[|] s]| |]; [reflexivity|discriminate H..].
Defined.

Lemma eip2929_before_constantinople_panics_witness :
  exists table, NewEVMInterpreter frontierRules [2929] = Ret (table, [2929]) /\
    Run frontierEnv table 10 (sampleContract [EXTCODEHASH] 1000) [] false (machineWith [])
      = Panicked StackIndex.
Proof.
  refine (eip2929_before_constantinople_panics frontierEnv frontierRules [2929] 8
    (sampleContract [EXTCODEHASH] 1000) [] [] false (machineWith []) eq_refl _ eq_refl _).
  - apply list_elem_of_here.
  - apply Z.leb_le. reflexivity.
Defined.
