(* ===== verification/GasSpec.v ===== *)
(** The price list: memory expansion costs, the gas forwarded to a call, and
    the reference formulas they implement. *)
From S2P Require Import Prelude Opcodes Errors Externals Stack Memory Analysis Contract Tracer.
From S2P Require Import Machine Gas Instructions JumpTable Logic.

(** * Memory *)

(** The total price of [w] words of memory in the protocol. *)
Definition mem_price (w : Z) : Z := 3 * w + w * w / 512.

Lemma mem_price_mono a b : 0 <= a <= b -> mem_price a <= mem_price b.
Proof.
  intros H. unfold mem_price. assert (a * a <= b * b) by nia.
  pose proof (Z.div_le_mono (a * a) (b * b) 512). lia.
Qed.

Lemma mem_price_nonneg w : 0 <= w -> 0 <= mem_price w.
Proof. intros. apply (mem_price_mono 0 w). lia. Qed.

(** The largest memory the gas function accepts has fewer than 2^32 words. *)
Lemma mem_price_bound w : 0 <= w < 2 ^ 32 -> mem_price w < 2 ^ 56.
Proof.
  intros H. pose proof (mem_price_mono w (2 ^ 32 - 1) ltac:(lia)) as Hm.
  change (mem_price (2 ^ 32 - 1)) with 36028809887088637 in Hm. lia.
Qed.

(** The invariant of a frame's memory: whole words, all of them paid for. *)
Record mem_priced (m : Memory) : Prop := {
  mp_wf : mem_wf m;
  mp_words : Len m = 32 * (Len m / 32);
  mp_small : Len m / 32 < 2 ^ 32;
  mp_paid : lastGasCost m = mem_price (Len m / 32);
}.

Lemma NewMemory_priced : mem_priced NewMemory.
Proof. by split. Qed.

Section MemoryGas.
Context {L : Libs} `{!params.Spec}.

Lemma memoryGasCost_spec m size :
  mem_priced m -> is_u64 size ->
  let w := (size + 31) / 32 in
  memoryGasCost m size =
    if 0x1FFFFFFFE0 <? size then ((0, Some ErrGasUintOverflow), m)
    else if Len m / 32 <? w then
      ((mem_price w - mem_price (Len m / 32), None), mkMemory (store m) (cap m) (mem_price w))
    else ((0, None), m).
Proof.
  intros [Hwf Hw Hs Hp] Hz w. pose proof (len_nonneg (store m)) as H0. unfold is_u64 in Hz.
  assert (Hww : 32 * w <= size + 31 < 32 * w + 32)
    by (unfold w; pose proof (Z.div_mod (size + 31) 32);
        pose proof (Z.mod_pos_bound (size + 31) 32); lia).
  unfold Len in *. unfold memoryGasCost, Len.
  assert (H1 : 0 <= len (store m) / 32) by (apply Z.div_pos; lia).
  destruct (Z.eqb_spec size 0) as [->|Hne]; [zbool; by zbool|].
  destruct (Z.ltb_spec 0x1FFFFFFFE0 size) as [?|Hle]; [done|].
  rewrite toWordSize_ceil by done. fold w.
  assert (Hw32 : 0 <= w < 2 ^ 32) by lia.
  rewrite (u64_small (w * 32)), (u64_small (len (store m))) by (unfold is_u64; lia).
  destruct (Z.ltb_spec (len (store m) / 32) w) as [Hlt|Hge]; zbool; [|done].
  rewrite params.MemoryGas_val, params.QuadCoeffDiv_val, Hp.
  rewrite (u64_small (w * w)), (u64_small (w * 3)) by (unfold is_u64; nia).
  pose proof (mem_price_bound w Hw32). pose proof (mem_price_nonneg w ltac:(lia)).
  replace (w * 3 + w * w / 512) with (mem_price w) by (unfold mem_price; lia).
  rewrite (u64_small (mem_price w)) by (unfold is_u64; lia).
  pose proof (mem_price_mono (len (store m) / 32) w ltac:(lia)).
  pose proof (mem_price_nonneg (len (store m) / 32) ltac:(lia)).
  by rewrite u64_small by (unfold is_u64; lia).
Qed.

Context `{!runtime.Spec}.

(** Pricing a request the gas function accepts, then resizing to it. *)
Lemma price_then_resize (m : Memory) size :
  mem_priced m -> is_u64 size -> size <= 0x1FFFFFFFE0 ->
  exists fee m1 m2,
    memoryGasCost m size = ((fee, None), m1) /\
    Resize m1 (32 * toWordSize size) = Ret m2 /\ mem_priced m2 /\
    Len m2 = Z.max (Len m) (32 * toWordSize size) /\ size <= Len m2 /\
    0 <= fee < 2 ^ 56 /\ fee = mem_price (Len m2 / 32) - mem_price (Len m / 32).
Proof.
  intros Hm Hz Hsz. rewrite memoryGasCost_spec, toWordSize_ceil by done.
  set (w := (size + 31) / 32). destruct Hm as [Hwf Hw Hs Hp].
  unfold is_u64 in Hz. pose proof (len_nonneg (store m)) as Hn.
  assert (Hww : 32 * w <= size + 31 < 32 * w + 32)
    by (unfold w; pose proof (Z.div_mod (size + 31) 32);
        pose proof (Z.mod_pos_bound (size + 31) 32); lia).
  assert (H1 : 0 <= Len m / 32) by (apply Z.div_pos; [apply Hn|lia]).
  zbool.
  destruct (Z.ltb_spec (Len m / 32) w) as [Hlt|Hge].
  - set (m1 := mkMemory _ _ _).
    destruct (Resize_spec m1 (32 * w)) as (m2 & Hr & Hwf2 & Hg2 & _ & Hl2);
      [done|pose proof runtime.maxAlloc_range; lia|].
    change (Len m1) with (Len m) in Hl2. rewrite Z.max_r in Hl2 by lia.
    assert (Hd : Len m2 / 32 = w) by (rewrite Hl2, Z.mul_comm; apply Z.div_mul; lia).
    eexists _, m1, m2. split; [done|]. rewrite Hd.
    pose proof (mem_price_mono (Len m / 32) w ltac:(lia)).
    pose proof (mem_price_nonneg (Len m / 32) ltac:(lia)).
    pose proof (mem_price_bound w ltac:(lia)).
    split_and!; try done; try lia. split; rewrite ?Hd; try lia; done.
  - destruct (Resize_spec m (32 * w)) as (m2 & Hr & Hwf2 & Hg2 & Hst & Hl2);
      [done|pose proof runtime.maxAlloc_range; lia|].
    rewrite Z.max_l in Hl2 by lia.
    exists 0, m, m2. split; [done|]. rewrite Hl2.
    split_and!; try done; try lia. split; rewrite ?Hl2; try lia; done.
Qed.

(** C17: memory is paid for exactly once, at the quadratic price, with no
    64-bit overflow. Pricing a request and resizing the memory to it keeps
    the invariant that [lastGasCost] is the price of the current size; the
    fee is the difference of the two prices, so any sequence of expansions
    costs exactly the price of the final size; the resized memory covers the
    request, and a request above 0x1FFFFFFFE0 bytes is refused unchanged. *)
Theorem memory_gas_exact (m : Memory) size :
  mem_priced m -> is_u64 size ->
  (size <= 0x1FFFFFFFE0 ->
   exists fee m1 m2,
     memoryGasCost m size = ((fee, None), m1) /\
     Resize m1 (32 * toWordSize size) = Ret m2 /\ mem_priced m2 /\
     Len m2 = Z.max (Len m) (32 * toWordSize size) /\ size <= Len m2 /\
     0 <= fee < 2 ^ 56 /\ fee = mem_price (Len m2 / 32) - mem_price (Len m / 32)) /\
  (0x1FFFFFFFE0 < size -> memoryGasCost m size = ((0, Some ErrGasUintOverflow), m)).
Proof.
  intros Hm Hz. split; [by apply price_then_resize|].
  intros Hsz. rewrite memoryGasCost_spec by done. by zbool.
Qed.
End MemoryGas.

(** * Gas forwarded to a call *)
Section CallGas.
Context {L : Libs} `{!uint256.Spec}.

(** What EIP-150 lets a call take of [g]: all but one 64th. *)
Definition all_but_64th (g : Z) : Z := g - g / 64.

Lemma all_but_64th_range g : 0 <= g -> 0 <= all_but_64th g <= g.
Proof.
  intros. unfold all_but_64th.
  pose proof (Z.div_pos g 64). pose proof (Z.div_le_upper_bound g 64 g). lia.
Qed.

(** C18: a call is given the gas it asks for, capped under EIP-150 at all but
    one 64th of what is left after the call's own cost, if that cost is at most
    the available gas (the subtraction wraps around otherwise); the cap makes
    the computation total, while before EIP-150 a request above 64 bits is an
    error. *)
Theorem callGas_spec (isEip150 : bool) availableGas base callCost :
  0 <= base <= availableGas -> is_u64 availableGas ->
  callGas isEip150 availableGas base callCost =
    if isEip150 then
      (Z.min (uint256.toZ callCost) (all_but_64th (availableGas - base)), None)
    else if uint256.toZ callCost <? 2 ^ 64 then (uint256.toZ callCost, None)
    else (0, Some ErrGasUintOverflow).
Proof.
  intros Hb Ha. unfold is_u64 in Ha. unfold callGas.
  rewrite uint256.IsUint64_spec, uint256.Uint64_spec.
  pose proof (uint256.toZ_range callCost) as Hc.
  pose proof (all_but_64th_range (availableGas - base) ltac:(lia)) as H64.
  rewrite (u64_small (availableGas - base)) by (unfold is_u64; lia).
  fold (all_but_64th (availableGas - base)).
  rewrite (u64_small (all_but_64th _)) by (unfold is_u64; lia).
  destruct (Z.ltb_spec (uint256.toZ callCost) (2 ^ 64)) as [Hl|Hl]; cbn [negb orb].
  - rewrite Z.mod_small by lia. destruct isEip150; [|done].
    destruct (Z.ltb_spec (all_but_64th (availableGas - base)) (uint256.toZ callCost));
      f_equal; lia.
  - destruct isEip150; [|done]. f_equal. lia.
Qed.
End CallGas.

(** * Witnesses *)
From S2P Require Import Instances.

Lemma memory_gas_exact_witness :
  mem_priced NewMemory /\
  exists fee m1 m2, memoryGasCost NewMemory 100 = ((fee, None), m1) /\
    Resize m1 (32 * toWordSize 100) = Ret m2 /\ Len m2 = 128 /\ fee = 12.
Proof.
  split; [exact NewMemory_priced|].
  destruct (memory_gas_exact NewMemory 100 NewMemory_priced) as [H _]; [split; lia|].
  destruct H as (fee & m1 & m2 & H1 & H2 & _ & Hl & _ & _ & Hf); [lia|].
  exists fee, m1, m2. split; [exact H1|]. split; [exact H2|]. rewrite Hl in Hf. split; [exact Hl|exact Hf].
Defined.

Lemma callGas_spec_witness :
  callGas true 6500 100 (uint256.NewInt 10000) = (6300, None).
Proof.
  refine (eq_trans (callGas_spec (L := libs) true 6500 100 (uint256.NewInt 10000) _ _) _);
    [lia|split; lia|reflexivity].
Defined.
