(* ===== verification/CallGas.v ===== *)
(** The call operations neither create gas nor run forever: given a runner that
    returns with no more gas than it got, so do [Call], [CallCode],
    [DelegateCall], [StaticCall], [Create] and [Create2], through precompiled
    contracts, join points and settlement. *)
From S2P Require Import Prelude Opcodes Errors Externals Stack Memory Analysis Contract Tracer.
From S2P Require Import Machine Gas Instructions JumpTable Precompiles Evm Logic Quiet GasSpec.

(** * Total computations

    [wp m s Q]: [m] does not run out of fuel from [s], and what it returns
    satisfies [Q]. *)
Definition wp {S A} (m : ST S A) (s : S) (Q : A -> S -> Prop) : Prop :=
  match m s with
  | Ret (a, s') => Q a s'
  | Panicked _ => True
  | OutOfFuel => False
  end.

Section Wp.
Context {S A B : Type}.

Lemma wp_bind (m : ST S A) (k : A -> ST S B) s Q :
  wp m s (fun a s' => wp (k a) s' Q) -> wp (bind m k) s Q.
Proof. unfold wp, bind. by destruct (m s) as [[a s']| |]. Qed.
Lemma wp_mono (m : ST S A) s (Q Q' : A -> S -> Prop) :
  wp m s Q -> (forall a s', Q a s' -> Q' a s') -> wp m s Q'.
Proof. unfold wp. intros H HQ. destruct (m s) as [[a s']| |]; eauto. Qed.
(** A run that is known to return may be inspected. *)
Lemma wp_run (m : ST S A) s (P Q : A -> S -> Prop) :
  wp m s P -> (forall a s', m s = Ret (a, s') -> P a s' -> Q a s') -> wp m s Q.
Proof. unfold wp. intros H HQ. destruct (m s) as [[a s']| |]; eauto. Qed.
Lemma wp_liftR (r : res A) (s : S) (Q : A -> S -> Prop) :
  r <> OutOfFuel -> (forall a, r = Ret a -> Q a s) -> wp (liftR r) s Q.
Proof. unfold wp, liftR. intros Hr HQ. destruct r; cbn; [by apply HQ|done|congruence]. Qed.
Lemma wp_zoom {T} (get : S -> T) put (m : ST T A) s Q :
  wp m (get s) (fun a t => Q a (put t s)) -> wp (zoom get put m) s Q.
Proof. unfold wp, zoom. by destruct (m (get s)) as [[a t]| |]. Qed.
End Wp.

(** * The call operations

    Of a computation on the machine only the result matters here. *)
Section Total.
Context {L : Libs} {RP : AspectReports}.

Definition total {A} (m : ST Machine A) (Q : A -> Prop) : Prop := forall x, wp m x (fun a _ => Q a).

Lemma total_bind {A B} (m : ST Machine A) (k : A -> ST Machine B) P Q :
  total m P -> (forall a, P a -> total (k a) Q) -> total (bind m k) Q.
Proof. intros Hm Hk x. apply wp_bind. eapply wp_mono; [apply Hm|]. intros a y Ha. by apply Hk. Qed.
Lemma total_ret {A} (a : A) (Q : A -> Prop) : Q a -> total (ret a) Q.
Proof. by intros H x. Qed.
Lemma total_any {A} (m : ST Machine A) : (forall x, m x <> OutOfFuel) -> total m (fun _ => True).
Proof. intros H x. unfold wp. specialize (H x). by destruct (m x) as [[]| |]. Qed.

Lemma total_gets {A} (f : Machine -> A) : total (gets f) (fun _ => True).
Proof. by apply total_any. Qed.
Lemma total_modify f : total (modify f) (fun _ => True).
Proof. by apply total_any. Qed.
Lemma total_snapshot : total snapshot_ (fun _ => True).
Proof. apply total_any. intros m. unfold snapshot_. by destruct (StateDB.Snapshot (db m)). Qed.
Lemma total_liftR {A} (r : res A) : quiet r -> total (liftR r) (fun _ => True).
Proof. intros [_ H]. apply total_any. intros m. destruct r; cbn; congruence. Qed.
Lemma total_saveCall f t d v g : total (saveCall_ f t d v g) (fun _ => True).
Proof.
  apply total_any. intros m. apply quiet_rbind; [apply quiet_mustFromBig|done].
Qed.
Lemma total_transfer env f t v : total (transferWithRecord_ env f t v) (fun _ => True).
Proof.
  apply total_any. intros m. apply quiet_rbind; [apply quiet_TransferWithRecord|by intros []].
Qed.
Lemma total_newContract c o v g :
  total (newContract_ c o v g) (fun c => Gas c = g).
Proof.
  intros m. unfold wp, newContract_, NewContract. by destruct c.
Qed.
Lemma total_AsDelegate c : total (liftR (AsDelegate c)) (fun c' => Gas c' = Gas c).
Proof. intros m. unfold wp, liftR, AsDelegate. by destruct (caller c). Qed.
End Total.

Section CallGas.
Context {L : Libs} {RP : AspectReports} {PS : params.Spec} {CS : StateDB.CodeSpec} {AS : aspect.GasSpec}.
Variable env : Env.

(** What a call given [g] returns: at most that. *)
Definition keeps_gas (g : Z) (out : bytes * Z * option Err) : Prop := 0 <= out.1.2 <= g.
Definition keeps_gas_create (g : Z) (out : bytes * Address * Z * option Err) : Prop :=
  0 <= out.1.2 <= g.

(** A runner that returns, with no more gas, on contracts with gas below [B]. *)
Definition runner_ok (B : Z) (run : Runner) : Prop := forall c input ro,
  0 <= Gas c < B -> len (Code c) < 2 ^ 63 ->
  total (run c input ro) (fun out => 0 <= Gas out.2 <= Gas c).

(** The same of the six call operations, as the interpreter sees them. *)
Record calls_ok (B : Z) (evm : EVMCalls) : Prop := {
  co_Call : forall r a i g v, 0 <= g < B -> total (do_Call evm r a i g v) (keeps_gas g);
  co_CallCode : forall r a i g v, 0 <= g < B -> total (do_CallCode evm r a i g v) (keeps_gas g);
  co_DelegateCall : forall r a i g, 0 <= g < B ->
    total (do_DelegateCall evm r a i g) (keeps_gas g);
  co_StaticCall : forall r a i g, 0 <= g < B -> total (do_StaticCall evm r a i g) (keeps_gas g);
  co_Create : forall r i g v, 0 <= g < B -> len i < 2 ^ 63 ->
    total (do_Create evm r i g v) (keeps_gas_create g);
  co_Create2 : forall r i g v s, 0 <= g < B -> len i < 2 ^ 63 ->
    total (do_Create2 evm r i g v s) (keeps_gas_create g);
}.

Lemma total_code a : total (dbQuery (fun d => StateDB.GetCode d a)) (fun c => len c < 2 ^ 63).
Proof. intros m. apply StateDB.GetCode_len. Qed.

Lemma RequiredGas_nonneg p input g : RequiredGas p input = Ret g -> 0 <= g.
Proof.
  pose proof u64_range as Hu. unfold is_u64 in Hu.
  destruct p; cbn [RequiredGas]; autounfold with precompiles; unfold perWordGas, blake2F_RequiredGas, multiExpGas;
    intros H; repeat match type of H with
    | rbind _ _ = Ret _ => apply rbind_Ret in H as (? & ? & H)
    | (if ?c then _ else _) = Ret _ => destruct c
    | bigModExp_RequiredGas _ _ = Ret _ => unfold bigModExp_RequiredGas in H
    end; injection H as <-;
    rewrite ?params.EcrecoverGas_val, ?params.Bn256AddGasIstanbul_val,
      ?params.Bn256AddGasByzantium_val, ?params.Bn256ScalarMulGasIstanbul_val,
      ?params.Bn256ScalarMulGasByzantium_val;
    try (apply Hu); try lia; try (apply Z.div_pos; [apply Hu|lia]);
    try apply params.Bls12381G1AddGas_u64; try apply params.Bls12381G1MulGas_u64;
    try apply params.Bls12381G2AddGas_u64; try apply params.Bls12381G2MulGas_u64;
    try apply params.Bls12381MapG1Gas_u64; try apply params.Bls12381MapG2Gas_u64.
  1,2: done.
  destruct (negb _); [lia|]. apply Z.mod_pos_bound. lia.
Qed.

Lemma total_precompiled p input g :
  0 <= g < 2 ^ 64 -> total (runPrecompiled_ p input g) (keeps_gas g).
Proof.
  intros Hg m. apply wp_zoom. unfold wp, RunPrecompiledContract, bind, liftR, ret.
  destruct (quiet_RequiredGas p input) as [_ Hq].
  destruct (RequiredGas p input) as [c| |] eqn:E; cbn [rbind]; [|done|congruence].
  apply RequiredGas_nonneg in E. destruct (Z.ltb_spec g c); [split; cbn; lia|].
  destruct (quiet_Precompile_Run p input (actx m)) as [_ Hr].
  destruct (Precompile_Run p input (actx m)) as [[[o e] x]| |]; [|done|congruence].
  split; cbn; rewrite u64_small by (unfold is_u64; lia); lia.
Qed.

Lemma total_settle id out g : keeps_gas g out -> total (settle id out) (keeps_gas g).
Proof.
  destruct out as [[r g'] e]. unfold keeps_gas. cbn. intros Hg. unfold settle.
  destruct (is_nil e); [by apply total_ret|].
  eapply total_bind; [apply total_modify|intros _ _]. apply total_ret. cbn.
  destruct (err_is e ErrExecutionReverted); lia.
Qed.

Variable B : Z.
Hypothesis HB : B <= 2 ^ 64.
Variable run : Runner.
Hypothesis Hrun : runner_ok B run.

Lemma UseGas_le c g : 0 <= Gas c < B -> 0 <= g -> 0 <= Gas (UseGas c g).2 <= Gas c.
Proof.
  intros Hc Hg. unfold UseGas. destruct (Z.ltb_spec (Gas c) g); cbn; [lia|].
  rewrite u64_small by (unfold is_u64; lia). lia.
Qed.

Ltac skip := eapply total_bind; [first [apply total_gets|apply total_modify|apply total_snapshot
  |apply total_saveCall|apply total_transfer]|intros ? _].

Lemma total_runCode c addr input ro :
  0 <= Gas c < B -> total (runCode run c addr input ro) (keeps_gas (Gas c)).
Proof.
  intros Hc. unfold runCode. skip. eapply total_bind; [apply total_code|intros code Hl].
  eapply total_bind; [by apply Hrun|intros [[r e] c'] Hg]. by apply total_ret.
Qed.

(** The gas a contract call ends with, however it ends. *)
Definition exit_gas (x : CallExit) : Z :=
  match x with ReturnNow _ g _ => g | FallThrough _ g _ => g end.

Lemma total_runContract caller addr code input g v i :
  0 <= g < B -> len code < 2 ^ 63 ->
  total (runContract env run caller addr code input g v i) (fun x => 0 <= exit_gas x <= g).
Proof.
  intros Hg Hl. unfold runContract. eapply total_bind; [apply total_newContract|intros c Hc].
  cbn in Hc. skip. cbv zeta. eapply total_bind; [apply Hrun; cbn; [lia|done]|intros [[r e] c'] Hc']. cbn in Hc'.
  skip. match goal with |- total (if ?b then _ else _) _ => destruct b end;
    [|apply total_ret; cbn; lia]. intros m. apply wp_bind. unfold wp, postContractCall_.
  match goal with |- context [aspect.PostContractCall ?ci ?x ?y ?a ?b] =>
    pose proof (aspect.PostContractCall_gas ci x y a b ltac:(cbn; lia)) as Hp;
    destruct (aspect.PostContractCall ci x y a b) as [[p c2] d] end.
  cbn in Hp. destruct (aspect.JPErr p) as [x|]; [case_bool_decide|]; cbn; lia.
Qed.

Lemma total_callContract caller addr input g v i :
  0 <= g < B ->
  total (callContract env run caller addr input g v i) (fun x => 0 <= exit_gas x <= g).
Proof.
  intros Hg. unfold callContract. eapply total_bind; [apply total_code|intros code Hl].
  destruct (len code =? 0); [apply total_ret; cbn; lia|]. skip.
  match goal with |- total (if ?b then _ else _) _ => destruct b end;
    [|by apply total_runContract]. intros m. apply wp_bind. unfold wp at 1, preContractCall_.
  match goal with |- context [aspect.PreContractCall ?ci ?a ?b] =>
    pose proof (aspect.PreContractCall_gas ci a b ltac:(cbn; lia)) as Hp;
    destruct (aspect.PreContractCall ci a b) as [[p c2] d] end.
  cbn in Hp. destruct (aspect.JPErr p) as [x|]; [cbn; lia|].
  eapply wp_mono; [apply total_runContract; [lia|done]|]. cbn. intros x _. lia.
Qed.

Lemma total_callBody caller addr input g v :
  0 <= g < B -> total (callBody env run caller addr input g v) (keeps_gas g).
Proof.
  intros Hg. unfold callBody. cbv zeta. do 3 skip.
  destruct (params.CallCreateDepth <? _); [apply total_ret; unfold keeps_gas; cbn; lia|].
  destruct (negb _ && negb _); [apply total_ret; unfold keeps_gas; cbn; lia|]. do 2 skip.
  match goal with |- total (if ?b then _ else _) _ => destruct b end.
  { unfold enterEvent, exitEvent. do 2 skip. apply total_ret; unfold keeps_gas; cbn; lia. }
  eapply total_bind; [match goal with |- total (if ?b then _ else _) _ => destruct b end;
    [apply total_modify|by apply total_ret]|intros _ _].
  unfold enterEvent, exitEvent. do 2 skip.
  eapply (total_bind _ _ (fun x => 0 <= exit_gas x <= g)).
  - destruct (option_map _ _) as [p|]; [|by apply total_callContract].
    eapply total_bind; [apply total_precompiled; lia|intros [[r g'] e] Hx]. by apply total_ret.
  - intros [r g' e|r g' e] Hx; cbn in Hx; [skip; by apply total_ret|].
    eapply total_bind; [apply (total_settle _ _ g); exact Hx|intros [[r2 g2] e2] H2].
    skip. by apply total_ret.
Qed.

Lemma total_Call caller addr input g v :
  0 <= g < B -> total (Call env run caller addr input g v) (keeps_gas g).
Proof.
  intros Hg. unfold Call. skip.
  eapply total_bind; [by apply total_callBody|intros [[r g'] e] Hx]. skip. by apply total_ret.
Qed.

(** Code run in the caller's or a read-only context, between the depth check
    and the settlement. *)
Ltac depth_check :=
  match goal with |- total (if ?b then _ else _) _ =>
    destruct b; [apply total_ret; unfold keeps_gas, keeps_gas_create; cbn; lia|] end.
Ltac settle_end g :=
  eapply (total_bind _ _ (keeps_gas g)); [|
    let out := fresh "out" in intros out ?;
    eapply total_bind; [by apply total_settle|intros [[? ?] ?] ?]; skip; by apply total_ret].

Lemma total_CallCode caller addr input g v :
  0 <= g < B -> total (CallCode env run caller addr input g v) (keeps_gas g).
Proof.
  intros Hg. unfold CallCode. cbv zeta. do 2 skip. do 2 depth_check. do 2 skip. settle_end g.
  destruct (precompile _ _) as [p|]; [apply total_precompiled; lia|].
  eapply total_bind; [apply total_newContract|intros c <-]. by apply total_runCode.
Qed.

Lemma total_DelegateCall caller addr input g :
  0 <= g < B -> total (DelegateCall env run caller addr input g) (keeps_gas g).
Proof.
  intros Hg. unfold DelegateCall. cbv zeta. skip. depth_check. skip.
  eapply (total_bind _ _ (fun _ => True)).
  { destruct (hasTracer env); [|by apply total_ret].
    destruct caller; [by apply total_liftR|apply total_modify]. }
  intros _ _. settle_end g. destruct (precompile _ _) as [p|]; [apply total_precompiled; lia|].
  eapply total_bind; [apply total_newContract|intros c <-].
  eapply total_bind; [apply total_AsDelegate|intros c' Hc']. cbn in Hc'. rewrite <- Hc'.
  apply total_runCode. by rewrite Hc'.
Qed.

Lemma total_StaticCall caller addr input g :
  0 <= g < B -> total (StaticCall env run caller addr input g) (keeps_gas g).
Proof.
  intros Hg. unfold StaticCall. cbv zeta. skip. depth_check. do 3 skip. settle_end g.
  destruct (precompile _ _) as [p|]; [apply total_precompiled; lia|].
  eapply total_bind; [apply total_newContract|intros c <-]. by apply total_runCode.
Qed.

Lemma total_storeCode a r e c :
  0 <= Gas c < B ->
  total (storeCode env a r e c) (fun out => 0 <= Gas out.2 <= Gas c).
Proof.
  intros Hc. unfold storeCode. cbv zeta.
  match goal with |- total (if ?b then _ else _) _ => destruct b end;
    [|apply total_ret; cbn; lia].
  set (cost := u64 (len r * params.CreateDataGas)).
  pose proof (UseGas_le c cost Hc (proj1 (u64_range _))) as Hu.
  destruct (UseGas c cost) as [ok c']. cbn in Hu.
  destruct ok; [skip|]; by apply total_ret.
Qed.

Lemma total_createContract caller ch g v a typ :
  0 <= g < B -> len (ch_code ch) < 2 ^ 63 ->
  total (createContract env run caller ch g v a typ) (keeps_gas_create g).
Proof.
  intros Hg Hl. unfold createContract, enterEvent, exitEvent. cbv zeta. do 2 skip.
  eapply (total_bind _ _ (fun _ => True)).
  { destruct (params.IsEIP158 _); [apply total_modify|by apply total_ret]. }
  intros _ _. skip. eapply total_bind; [apply total_newContract|intros c Hc]. cbn in Hc.
  do 2 skip. eapply total_bind; [apply Hrun; cbn; [lia|done]|intros [[r e] c1] H1]. cbn in H1.
  eapply total_bind; [apply total_storeCode; lia|intros [e2 c2] H2]. cbn in H2.
  eapply (total_bind _ _ (fun c => 0 <= Gas c <= g)).
  { match goal with |- total (if ?b then _ else _) _ => destruct b end;
      [skip|]; apply total_ret; [|lia].
    destruct (negb _); [|lia]. pose proof (UseGas_le c2 (Gas c2) ltac:(lia) ltac:(lia)). lia. }
  intros c3 H3. do 2 skip. by apply total_ret.
Qed.

Lemma total_create caller ch g v a typ :
  0 <= g < B -> len (ch_code ch) < 2 ^ 63 ->
  total (create env run caller ch g v a typ) (keeps_gas_create g).
Proof.
  intros Hg Hl. unfold create. skip.
  eapply (total_bind _ _ (keeps_gas_create g));
    [|intros [[[r ad] g'] e] Hx; skip; by apply total_ret].
  unfold createBody. cbv zeta. do 2 skip. do 2 depth_check. skip. depth_check. skip.
  eapply (total_bind _ _ (fun _ => True)).
  { destruct (params.IsBerlin _); [apply total_modify|by apply total_ret]. }
  intros _ _. do 2 skip. depth_check. by apply total_createContract.
Qed.

Lemma evmCalls_ok : calls_ok B (evmCalls env run).
Proof.
  constructor; cbn [evmCalls do_Call do_CallCode do_DelegateCall do_StaticCall do_Create do_Create2];
    intros; eauto using total_Call, total_CallCode, total_DelegateCall, total_StaticCall.
  - unfold Create. cbv zeta. skip. by apply total_create.
  - unfold Create2. cbv zeta. apply total_create; [done|].
    unfold ch_Hash. cbn. by destruct (bytes_eqb _ _).
Qed.
End CallGas.
