(* ===== verification/OpGas.v ===== *)
(** The gas behaviour of single operations: opcodes that leave the gas of the
    frame alone, opcodes that end it, what every gas function charges, and how
    it treats memory. *)
From S2P Require Import Prelude Opcodes Errors Externals Stack Memory Analysis Contract Tracer.
From S2P Require Import Machine Gas Instructions JumpTable Precompiles Evm Logic Quiet GasSpec.
From S2P Require Import CallGas.

(** * Operations that leave the gas alone *)
Section Tame.
Context {L : Libs} {RP : AspectReports}.

(** Gas and code unchanged, and a paid-for memory stays paid for. *)
Record tamed (s s' : St) : Prop := {
  td_gas : Gas (contract s') = Gas (contract s);
  td_code : Code (contract s') = Code (contract s);
  td_memory : mem_priced (memory s) -> mem_priced (memory s');
}.
#[global] Instance tamed_preorder : PreOrder tamed.
Proof.
  split; [by intros s; constructor|]. intros s1 s2 s3 [] []. constructor; [congruence..|eauto].
Qed.

(** The length of a Go slice is an [int]. *)
Definition fit (s : St) : Prop := len (Code (contract s)) < 2 ^ 63.
Lemma tamed_fit s s' : tamed s s' -> fit s -> fit s'.
Proof. intros [_ H _]. unfold fit. by rewrite H. Qed.

Definition tame {A} (m : ST St A) : Prop := forall s, fit s -> wp m s (fun _ s' => tamed s s').
(** Every return is an error: the frame ends, with the gas it had. *)
Definition halts (m : ST St (bytes * option Err)) : Prop :=
  forall s, fit s -> wp m s (fun r s' => r.2 <> None /\ tamed s s').

Lemma tame_bind {A B} (m : ST St A) (k : A -> ST St B) :
  tame m -> (forall a, tame (k a)) -> tame (bind m k).
Proof.
  intros Hm Hk s Hs. apply wp_bind. eapply wp_mono; [by apply Hm|]. intros a s1 H1.
  eapply wp_mono; [apply Hk; exact (tamed_fit _ _ H1 Hs)|]. intros b s2 H2. cbn in *. by transitivity s1.
Qed.
Lemma halts_bind {A} (m : ST St A) (k : A -> ST St (bytes * option Err)) :
  tame m -> (forall a, halts (k a)) -> halts (bind m k).
Proof.
  intros Hm Hk s Hs. apply wp_bind. eapply wp_mono; [by apply Hm|]. intros a s1 H1.
  eapply wp_mono; [apply Hk; exact (tamed_fit _ _ H1 Hs)|]. cbn. intros r s2 [Hr H2].
  split; [done|]. by transitivity s1.
Qed.
Lemma halts_ret x e : halts (ret (x, Some e)).
Proof. intros s _. by split. Qed.

Lemma tame_ret {A} (a : A) : tame (ret a).
Proof. intros s _. cbn. reflexivity. Qed.
Lemma tame_gets {A} (f : St -> A) : tame (gets f).
Proof. intros s _. cbn. reflexivity. Qed.
Lemma tame_liftR {A} (r : res A) : r <> OutOfFuel -> tame (liftR r).
Proof. intros H s _. apply wp_liftR; [done|]. intros. reflexivity. Qed.
Lemma tame_modify f :
  (forall s, contract (f s) = contract s /\ memory (f s) = memory s) -> tame (modify f).
Proof. intros Hf s _. destruct (Hf s) as [H1 H2]. constructor; cbn; rewrite ?H1, ?H2; done. Qed.
Lemma tame_zoom {T A} (get : St -> T) put (m : ST T A) :
  (forall s t, contract (put t s) = contract s /\ memory (put t s) = memory s) ->
  (forall t, m t <> OutOfFuel) -> tame (zoom get put m).
Proof.
  intros Hp Hm s _. apply wp_zoom. unfold wp. specialize (Hm (get s)).
  destruct (m (get s)) as [[a t]| |]; [|done..].
  destruct (Hp s t) as [H1 H2]. constructor; rewrite ?H1, ?H2; done.
Qed.

(** Stack. *)
Lemma at_index_fuel st i : at_index st i <> OutOfFuel.
Proof. unfold at_index. destruct (_ && _); [destruct (_ !! _)|]; done. Qed.
Lemma set_index_fuel st i x : Stack.set_index st i x <> OutOfFuel.
Proof. unfold Stack.set_index. by destruct (_ && _). Qed.
Lemma rbind_fuel {A B} (r : res A) (k : A -> res B) :
  r <> OutOfFuel -> (forall a, k a <> OutOfFuel) -> rbind r k <> OutOfFuel.
Proof. intros Hr Hk. destruct r; cbn; [apply Hk|done|done]. Qed.

Lemma tame_pop : tame pop_.
Proof. apply tame_zoom; [done|]. intros st. apply rbind_fuel; [apply at_index_fuel|done]. Qed.
Lemma tame_peek : tame peek_.
Proof. apply tame_bind; [apply tame_gets|intros st]. apply tame_liftR, at_index_fuel. Qed.
Lemma tame_back n : tame (back_ n).
Proof. apply tame_bind; [apply tame_gets|intros st]. apply tame_liftR, at_index_fuel. Qed.
Lemma tame_second : tame second_.
Proof. apply tame_bind; [apply tame_gets|intros st]. apply tame_liftR, at_index_fuel. Qed.
Lemma tame_poke x : tame (poke_ x).
Proof. apply tame_zoom; [done|]. intros st. apply rbind_fuel; [apply set_index_fuel|done]. Qed.
Lemma tame_push x : tame (push_ x).
Proof. by apply tame_modify. Qed.
Lemma tame_dup n :
  tame (zoom stack set_stack (fun st => let? st' := dup st n in Ret (tt, st'))).
Proof.
  apply tame_zoom; [done|]. intros st. unfold dup.
  repeat (apply rbind_fuel; [|intros ?]); (apply at_index_fuel || done).
Qed.
Lemma tame_swap n :
  tame (zoom stack set_stack (fun st => let? st' := swap st n in Ret (tt, st'))).
Proof.
  apply tame_zoom; [done|]. intros st. unfold swap.
  repeat (apply rbind_fuel; [|intros ?]); (apply at_index_fuel || apply set_index_fuel || done).
Qed.

(** Memory. *)
Definition mem_keeps (f : Memory -> res Memory) : Prop :=
  forall m m', f m = Ret m' -> exists s, m' = with_store s m /\ len s = Len m.

Lemma with_store_priced m s : len s = Len m -> mem_priced m -> mem_priced (with_store s m).
Proof.
  intros Hs [H1 H2 H3 H4]. assert (Hl : Len (with_store s m) = Len m) by exact Hs.
  split; rewrite ?Hl; try done. by apply with_store_wf.
Qed.
Lemma len_copy dst off src : 0 <= off <= len dst -> len (copy_at dst off src) = len dst.
Proof.
  intros H. unfold copy_at, len in *. rewrite !length_app, !length_take, length_drop. lia.
Qed.
Lemma slice_cap_bounds c l lo hi d : slice_cap c l lo hi = Ret d -> 0 <= lo <= hi.
Proof. unfold slice_cap. destruct (_ && _) eqn:E; [|done]. intros _. zprop. lia. Qed.

Lemma Set_keeps o n v : mem_keeps (fun m => Set_ m o n v).
Proof.
  intros m m'. unfold Set_. destruct (0 <? n).
  - destruct (Z.ltb_spec (len (store m)) (u64 (o + n))) as [?|Hle]; [done|].
    destruct (slice_cap _ _ _ _) as [d| |] eqn:E; cbn; [|done..]. intros [= <-].
    apply slice_cap_bounds in E. eexists; split; [done|]. apply len_copy. lia.
  - intros [= <-]. exists (store m). by destruct m.
Qed.
Lemma Set32_keeps o v : mem_keeps (fun m => Set32 m o v).
Proof.
  intros m m'. unfold Set32.
  destruct (len (store m) <? u64 (o + 32)); [done|].
  destruct (slice_cap _ _ _ _) as [d| |] eqn:E; cbn; [|done..]. intros [= <-].
  apply slice_cap_bounds in E. eexists; split; [done|]. apply len_copy. lia.
Qed.
Lemma Copy_keeps d s n : mem_keeps (fun m => Copy m d s n).
Proof.
  intros m m'. unfold Copy. destruct (n =? 0).
  - intros [= <-]. exists (store m). by destruct m.
  - destruct (slice_cap _ _ d _) as [x| |] eqn:E; cbn; [|done..].
    destruct (slice_cap _ _ s _) as [y| |]; cbn; [|done..]. intros [= <-].
    apply slice_cap_bounds in E. eexists; split; [done|]. apply len_copy. lia.
Qed.
Lemma store8_keeps o v :
  mem_keeps (fun m => let? s := index_set (store m) o v in Ret (with_store s m)).
Proof.
  intros m m'. unfold index_set. destruct (_ && _); cbn; [|done]. intros [= <-].
  eexists; split; [done|]. unfold Len, len. by rewrite length_insert.
Qed.

Lemma tame_onMemory f : (forall m, quiet (f m)) -> mem_keeps f -> tame (onMemory f).
Proof.
  intros Hq Hk s _. apply wp_zoom. unfold wp. destruct (Hq (memory s)) as [_ H].
  destruct (f (memory s)) as [m'| |] eqn:E; cbn; [|done|congruence].
  destruct (Hk _ _ E) as (x & -> & Hx). constructor; [done..|]. by apply with_store_priced.
Qed.
Lemma tame_readMemory {A} (f : Memory -> res A) : (forall m, quiet (f m)) -> tame (readMemory f).
Proof. intros Hq. apply tame_bind; [apply tame_gets|intros m]. apply tame_liftR, Hq. Qed.
End Tame.

(** * Automation *)
Create HintDb tame.

Section Primitives.
Context {L : Libs} {RP : AspectReports}.

Lemma tame_query {A} (f : StateDB.DB -> A) : tame (query f).
Proof. apply tame_gets. Qed.
Lemma tame_update f : tame (update f).
Proof. by apply tame_modify. Qed.
Lemma tame_address : tame address_.
Proof. apply tame_gets. Qed.
Lemma tame_selfRef : tame selfRef_.
Proof. apply tame_gets. Qed.
Lemma tame_setReturnData d : tame (setReturnData d).
Proof. by apply tame_modify. Qed.
Lemma tame_setCallGasTemp g : tame (setCallGasTemp g).
Proof. by apply tame_modify. Qed.
Lemma tame_keccak d : tame (keccak_ d).
Proof. apply tame_bind; [by apply tame_modify|intros; apply tame_gets]. Qed.
Lemma tame_fromBig b : tame (fromBig_ b).
Proof. destruct b; [apply tame_ret|by apply tame_liftR]. Qed.
Lemma tame_set_pc p : tame (modify (set_pc p)).
Proof. by apply tame_modify. Qed.
Lemma tame_onMachine {A} (m : ST Machine A) : (forall x, m x <> OutOfFuel) -> tame (onMachine m).
Proof. by apply tame_zoom. Qed.
Lemma tame_aborted : tame aborted_.
Proof. by apply tame_onMachine. Qed.
Lemma tame_emit env e : tame (onMachine (modify (emit env e))).
Proof. by apply tame_onMachine. Qed.

(** The analysis a jump may trigger changes neither gas nor code. *)
Lemma isCode_keeps c h d r c' h' :
  isCode c h d = Ret (r, c', h') -> Gas c' = Gas c /\ Code c' = Code c.
Proof.
  unfold isCode. intros H.
  repeat match type of H with
  | match ?x with _ => _ end = _ => destruct x
  | rbind _ _ = _ => apply rbind_Ret in H as (? & ? & H)
  | context [let '(_, _) := ?x in _] => destruct x
  end; by injection H as _ <- _.
Qed.
Lemma tame_validJumpdest p : tame (validJumpdest_ p).
Proof.
  intros s Hs. unfold wp, validJumpdest_.
  destruct (validJumpdest_quiet (contract s) (jdests (mach s)) p Hs) as [_ Hq].
  destruct (validJumpdest _ _ _) as [[[ok c] h]| |] eqn:E; cbn; [|done|congruence].
  assert (Hc : Gas c = Gas (contract s) /\ Code c = Code (contract s)).
  { unfold validJumpdest in E. destruct (uint256.Uint64WithOverflow p) as [u o].
    destruct (o || _); [by injection E as _ <- _|].
    apply rbind_Ret in E as (op & _ & E). destruct (negb _); [by injection E as _ <- _|].
    by eapply isCode_keeps. }
  by destruct Hc; constructor.
Qed.
Lemma tame_journal f : (forall t, quiet (f t)) ->
  tame (onMachine (zoom (A := option Err) tracer set_tracer f)).
Proof.
  intros Hf. apply tame_onMachine. intros m. unfold zoom. destruct (Hf (tracer m)) as [_ H].
  by destruct (f (tracer m)) as [[]| |].
Qed.
Lemma tame_saveStateChange a s o t v : tame (saveStateChange_ a s o t v).
Proof. apply tame_bind; [apply tame_journal; eauto with quiet|intros; apply tame_ret]. Qed.
Lemma tame_saveStateKey a p s o t pt i : tame (saveStateKey_ a p s o t pt i).
Proof. apply tame_bind; [apply tame_journal; eauto with quiet|intros; apply tame_ret]. Qed.
Lemma tame_done : tame done_.
Proof. apply tame_ret. Qed.
Lemma tame_fail e : tame (fail_ e).
Proof. apply tame_ret. Qed.
Lemma halts_fail e : halts (fail_ e).
Proof. apply halts_ret. Qed.
Lemma tame_popTopics n : tame (popTopics n).
Proof.
  induction n as [|n IH]; cbn [popTopics]; [apply tame_ret|].
  apply tame_bind; [apply tame_pop|intros]. apply tame_bind; [done|intros; apply tame_ret].
Qed.
Lemma loadDataFromMem_ok p m : quiet (loadDataFromMem p m).
Proof. unfold loadDataFromMem. solve_quiet. Qed.
End Primitives.
#[export] Hint Resolve tame_ret tame_gets tame_pop tame_peek tame_back tame_second tame_poke
  tame_push tame_dup tame_swap tame_query tame_update tame_address tame_selfRef tame_setReturnData
  tame_setCallGasTemp tame_keccak tame_fromBig tame_set_pc tame_aborted tame_emit
  tame_validJumpdest tame_saveStateChange tame_saveStateKey tame_done tame_fail halts_fail
  halts_ret tame_popTopics : tame.
#[export] Hint Resolve loadDataFromMem_ok : quiet.

Ltac tame_step :=
  lazymatch goal with
  | |- tame (bind _ _) => apply tame_bind; [|intros ?]
  | |- halts (bind _ _) => apply halts_bind; [|intros ?]
  | |- tame (writeProtected _) => unfold writeProtected
  | |- halts (writeProtected _) => unfold writeProtected
  | |- tame (withMemData _ _) => unfold withMemData
  | |- tame (liftR _) =>
      apply tame_liftR;
      first [done|match goal with |- ?r <> _ => cut (quiet r); [by intros []|] end;
                  solve [eauto with quiet|solve_quiet]]
  | |- tame (onMemory _) =>
      apply tame_onMemory; [intros; solve [eauto with quiet|solve_quiet]|
        first [apply Set_keeps|apply Set32_keeps|apply Copy_keeps|apply store8_keeps]]
  | |- tame (readMemory _) => apply tame_readMemory; intros; eauto with quiet
  | |- tame (if ?c then _ else _) => destruct c
  | |- halts (if ?c then _ else _) => destruct c
  | |- tame (match ?x with _ => _ end) => destruct x
  | |- halts (match ?x with _ => _ end) => destruct x
  | |- tame _ => solve [eauto with tame]
  | |- halts _ => solve [eauto with tame]
  end.
Ltac solve_tame := repeat (tame_step; cbv beta zeta).

(** * Gas functions *)
Section GasFunctions.
Context {L : Libs} {RP : AspectReports} {US : uint256.Spec} {MS : math.Spec} {PS : params.Spec}.

Lemma gas_try_inv {S} (m : ST S (Z * option Err)) k s d s' :
  gas_try m k s = Ret ((d, None), s') ->
  exists g s1, m s = Ret ((g, None), s1) /\ k g s1 = Ret ((d, None), s').
Proof.
  unfold gas_try. intros H. apply bind_Ret in H as ([g [e|]] & s1 & H1 & H2); [done|eauto].
Qed.
Lemma gas_ovf_inv {S} r k (s : S) d s' :
  gas_ovf r k s = Ret ((d, None), s') ->
  exists v, r = (v, false) /\ k v s = Ret ((d, None), s').
Proof. unfold gas_ovf. destruct r as [v []]; [done|]. intros H. by exists v. Qed.

Lemma SafeAdd_inv x y v :
  math.SafeAdd x y = (v, false) -> is_u64 x -> is_u64 y -> v = x + y /\ is_u64 v.
Proof.
  intros H Hx Hy. rewrite math.SafeAdd_spec in H by done. injection H as <- H. zprop.
  unfold is_u64 in *. rewrite Z.mod_small by lia. lia.
Qed.
Lemma SafeMul_inv x y v :
  math.SafeMul x y = (v, false) -> is_u64 x -> is_u64 y -> v = x * y /\ is_u64 v.
Proof.
  intros H Hx Hy. rewrite math.SafeMul_spec in H by done. injection H as <- H. zprop.
  unfold is_u64 in *. rewrite Z.mod_small by nia. nia.
Qed.
Lemma Uint64_inv x v : uint256.Uint64WithOverflow x = (v, false) -> is_u64 v.
Proof. rewrite uint256.Uint64WithOverflow_spec. intros [= <- _]. apply u64_range. Qed.
Lemma toWordSize_u64 n : is_u64 n -> is_u64 (toWordSize n).
Proof.
  intros Hn. rewrite toWordSize_ceil by done. unfold is_u64 in *.
  split; [apply Z.div_pos; lia|]. apply Z.div_lt_upper_bound; lia.
Qed.
Lemma memoryGasCost_u64 m n g e m' : memoryGasCost m n = ((g, e), m') -> is_u64 g.
Proof.
  unfold memoryGasCost. intros H.
  repeat match type of H with (if ?c then _ else _) = _ => destruct c end;
    injection H as <- _ _; try done. apply u64_range.
Qed.

(** A gas function that prices memory once, or does not touch it. *)
Definition prices (g : gasFunc) : Prop := forall env n s d s',
  g env n s = Ret ((d, None), s') ->
  exists fee, memoryGasCost (memory s) n = ((fee, None), memory s').
Definition keeps (g : gasFunc) : Prop := forall env n s d s',
  g env n s = Ret ((d, None), s') -> memory s' = memory s.
(** It returns, and leaves no more gas than there was, errors included. *)
Definition gas_total (g : gasFunc) : Prop := forall env n s,
  is_u64 (Gas (contract s)) ->
  wp (g env n) s (fun _ s' => 0 <= Gas (contract s') <= Gas (contract s) /\
    Code (contract s') = Code (contract s)).

(** The cost is not negative. *)
Definition nonneg (g : gasFunc) : Prop := forall env n s d s',
  g env n s = Ret ((d, None), s') -> 0 <= d.

(** What a gas function returns: at least [lo], contract and stack untouched. *)
Definition charges (lo : Z) (g : gasFunc) : Prop := forall env n s d s',
  g env n s = Ret ((d, None), s') -> lo <= d /\ is_u64 d /\ contract s' = contract s /\
    stack s' = stack s.
End GasFunctions.

(** The protocol constants, as rewrite rules. *)
Create Rewrite HintDb params.
#[export] Hint Rewrite @params.BalanceGasEIP150_val @params.BalanceGasEIP1884_val @params.BalanceGasFrontier_val
  @params.CallCreateDepth_val @params.CallGasEIP150_val @params.CallGasFrontier_val
  @params.CallNewAccountGas_val @params.CallStipend_val @params.CallValueTransferGas_val
  @params.ColdAccountAccessCostEIP2929_val @params.ColdSloadCostEIP2929_val
  @params.CopyGas_val @params.Create2Gas_val @params.CreateBySelfdestructGas_val
  @params.CreateDataGas_val @params.CreateGas_val @params.ExpByteEIP158_val
  @params.ExpByteFrontier_val @params.ExpGas_val @params.ExtcodeCopyBaseEIP150_val
  @params.ExtcodeCopyBaseFrontier_val @params.ExtcodeHashGasConstantinople_val
  @params.ExtcodeHashGasEIP1884_val @params.ExtcodeSizeGasEIP150_val
  @params.ExtcodeSizeGasFrontier_val @params.InitCodeWordGas_val @params.JumpdestGas_val
  @params.Keccak256Gas_val @params.Keccak256WordGas_val @params.LogDataGas_val
  @params.LogGas_val @params.LogTopicGas_val @params.MaxCodeSize_val
  @params.MaxInitCodeSize_val @params.MemoryGas_val @params.NetSstoreCleanGas_val
  @params.NetSstoreClearRefund_val @params.NetSstoreDirtyGas_val
  @params.NetSstoreInitGas_val @params.NetSstoreNoopGas_val
  @params.NetSstoreResetClearRefund_val @params.NetSstoreResetRefund_val
  @params.QuadCoeffDiv_val @params.SelfdestructGasEIP150_val
  @params.SelfdestructRefundGas_val @params.SloadGasEIP150_val @params.SloadGasEIP1884_val
  @params.SloadGasEIP2200_val @params.SloadGasFrontier_val @params.SstoreClearGas_val
  @params.SstoreClearsScheduleRefundEIP2200_val
  @params.SstoreClearsScheduleRefundEIP3529_val @params.SstoreRefundGas_val
  @params.SstoreResetGas_val @params.SstoreResetGasEIP2200_val
  @params.SstoreSentryGasEIP2200_val @params.SstoreSetGas_val
  @params.SstoreSetGasEIP2200_val @params.StackLimit_val
  @params.WarmStorageReadCostEIP2929_val @params.EcrecoverGas_val @params.Sha256BaseGas_val
  @params.Sha256PerWordGas_val @params.Ripemd160BaseGas_val @params.Ripemd160PerWordGas_val
  @params.IdentityBaseGas_val @params.IdentityPerWordGas_val
  @params.Bn256AddGasByzantium_val @params.Bn256AddGasIstanbul_val
  @params.Bn256ScalarMulGasByzantium_val @params.Bn256ScalarMulGasIstanbul_val
  @params.Bn256PairingBaseGasByzantium_val @params.Bn256PairingBaseGasIstanbul_val
  @params.Bn256PairingPerPointGasByzantium_val @params.Bn256PairingPerPointGasIstanbul_val using typeclasses eauto : params.

Section Reads.
Context {L : Libs} {RP : AspectReports}.

(** Reading leaves the frame as it is. *)
Lemma back_read n s x s' : back_ n s = Ret (x, s') -> s' = s /\ Back (stack s) n = Ret x.
Proof. unfold back_. intros H. inv_run. done. Qed.
Lemma peek_read s x s' : peek_ s = Ret (x, s') -> s' = s.
Proof. unfold peek_. intros H. by inv_run. Qed.
Lemma second_read s x s' : second_ s = Ret (x, s') -> s' = s.
Proof. unfold second_. intros H. by inv_run. Qed.
Lemma query_read {A} (f : StateDB.DB -> A) s x s' : query f s = Ret (x, s') -> s' = s.
Proof. unfold query. intros H. by inv_run. Qed.
Lemma address_read s x s' : address_ s = Ret (x, s') -> s' = s.
Proof. unfold address_. intros H. by inv_run. Qed.
Lemma update_write f s x s' :
  update f s = Ret (x, s') -> s' = set_mach (set_db (f (db (mach s))) (mach s)) s.
Proof. unfold update. intros H. by inv_run. Qed.
Lemma memGas_inv n s g s' :
  memGas n s = Ret ((g, None), s') ->
  is_u64 g /\ exists m', memoryGasCost (memory s) n = ((g, None), m') /\ s' = set_memory m' s.
Proof.
  unfold memGas. intros H. apply zoom_Ret in H as (a & t & H & E). injection H as H.
  injection E as <- ->. split; [by eapply memoryGasCost_u64|]. by exists t.
Qed.
End Reads.

(** Take a successful gas computation apart. *)
Ltac gas_inv_step :=
  match goal with
  | H : gas_try _ _ _ = Ret _ |- _ => apply gas_try_inv in H as (? & ? & ? & H)
  | H : gas_ovf _ _ _ = Ret _ |- _ => apply gas_ovf_inv in H as (? & ? & H)
  | H : memGas _ _ = Ret _ |- _ => apply memGas_inv in H as (? & ? & ? & ?)
  | H : back_ _ _ = Ret _ |- _ => apply back_read in H as [? ?]
  | H : peek_ _ = Ret _ |- _ => apply peek_read in H
  | H : second_ _ = Ret _ |- _ => apply second_read in H
  | H : query _ _ = Ret _ |- _ => apply query_read in H
  | H : address_ _ = Ret _ |- _ => apply address_read in H
  | H : update _ _ = Ret _ |- _ => apply update_write in H
  | H : bind _ _ _ = Ret _ |- _ => apply bind_Ret in H as (? & ? & ? & H)
  | H : ret _ _ = Ret _ |- _ => injection H as ? ?
  | H : liftR (Panicked _) _ = Ret _ |- _ => discriminate H
  | H : gets _ _ = Ret _ |- _ => injection H as ? ?
  | H : (ret ?a) ?s = Ret _ |- _ => injection H as ? ?
  | H : context [let '(_, _) := ?x in _] |- _ => destruct x eqn:?
  | H : (if ?c then _ else _) _ = Ret _ |- _ => destruct c eqn:?
  | x : (_ * _)%type |- _ => destruct x
  end; subst; cbv beta zeta in *.
Ltac gas_inv := repeat gas_inv_step.
Ltac solve_u64 :=
  first [assumption | apply u64_range | by eapply Uint64_inv
        | apply toWordSize_u64; by eapply Uint64_inv
        | autorewrite with params; unfold is_u64; lia].
Ltac gas_arith :=
  repeat match goal with
  | H : math.SafeAdd ?x ?y = (_, false) |- _ =>
      let Hx := fresh "Hx" in let Hy := fresh "Hy" in
      assert (Hx : is_u64 x) by solve_u64; assert (Hy : is_u64 y) by solve_u64;
      apply SafeAdd_inv in H as [? ?]; [|exact Hx|exact Hy]
  | H : math.SafeMul _ _ = (_, false) |- _ =>
      apply SafeMul_inv in H as [? ?]; [|solve_u64|solve_u64]
  end; subst.

Ltac charge :=
  intros ? ? ? ? ? ?; gas_inv; gas_arith; split_and!; try done; try solve_u64;
  autorewrite with params in *; unfold is_u64 in *; first [lia|by vm_compute].

Section GasCharges.
Context {L : Libs} {RP : AspectReports} {US : uint256.Spec} {MS : math.Spec} {PS : params.Spec}.

Lemma memoryCopierGas_charges p : charges 0 (memoryCopierGas p).
Proof. unfold memoryCopierGas. charge. Qed.
Lemma makeGasLog_charges n : charges 1 (makeGasLog n).
Proof. unfold makeGasLog. charge. Qed.
Lemma makeGasJournal_charges n : charges 1 (makeGasJournal n).
Proof. unfold makeGasJournal. charge. Qed.
Lemma gasKeccak256_charges : charges 0 gasKeccak256.
Proof. unfold gasKeccak256. charge. Qed.
Lemma pureMemoryGascost_charges : charges 0 pureMemoryGascost.
Proof. unfold pureMemoryGascost. charge. Qed.
Lemma gasCreate2_charges : charges 0 gasCreate2.
Proof. unfold gasCreate2. charge. Qed.
Lemma gasCreateEip3860_charges : charges 0 gasCreateEip3860.
Proof. unfold gasCreateEip3860. charge. Qed.
Lemma gasCreate2Eip3860_charges : charges 0 gasCreate2Eip3860.
Proof. unfold gasCreate2Eip3860. charge. Qed.
Lemma gasExpFrontier_charges : charges 1 gasExpFrontier.
Proof. unfold gasExpFrontier. charge. Qed.
Lemma gasExpEIP158_charges : charges 1 gasExpEIP158.
Proof. unfold gasExpEIP158. charge. Qed.
Lemma gasSStore_charges : charges 1 gasSStore.
Proof. unfold gasSStore. charge. Qed.
Lemma gasSStoreEIP2200_charges : charges 1 gasSStoreEIP2200.
Proof. unfold gasSStoreEIP2200. charge. Qed.
Lemma makeGasSStoreFunc_charges r : charges 1 (makeGasSStoreFunc r).
Proof. unfold makeGasSStoreFunc. charge. Qed.
Lemma gasSLoadEIP2929_charges : charges 1 gasSLoadEIP2929.
Proof. unfold gasSLoadEIP2929. charge. Qed.
Lemma gasExtCodeCopyEIP2929_charges : charges 0 gasExtCodeCopyEIP2929.
Proof. unfold gasExtCodeCopyEIP2929, gasExtCodeCopy, memoryCopierGas. charge. Qed.
Lemma gasEip2929AccountCheck_charges : charges 0 gasEip2929AccountCheck.
Proof. unfold gasEip2929AccountCheck. charge. Qed.

Lemma charges0_nonneg g : charges 0 g -> nonneg g.
Proof. intros Hg env n s d s' H. apply Hg in H. lia. Qed.
Lemma charges1_nonneg g : charges 1 g -> nonneg g.
Proof. intros Hg env n s d s' H. apply Hg in H. lia. Qed.
Lemma gasSelfdestruct_nonneg : nonneg gasSelfdestruct.
Proof.
  unfold gasSelfdestruct. intros ? ? ? ? ? ?. gas_inv; autorewrite with params;
    repeat match goal with |- context [if ?b then _ else _] => destruct b end;
    first [apply u64_range|lia].
Qed.
Lemma makeSelfdestructGasFn_nonneg r : nonneg (makeSelfdestructGasFn r).
Proof.
  unfold makeSelfdestructGasFn. intros ? ? ? ? ? ?. gas_inv; autorewrite with params;
    repeat match goal with |- context [if ?b then _ else _] => destruct b end;
    first [apply u64_range|lia].
Qed.

(** The call family, whatever the fork. *)
Lemma setCallGas_u64 env gas s t s' : setCallGas env gas s = Ret ((t, None), s') -> is_u64 t.
Proof.
  unfold setCallGas. intros H. gas_inv.
  match goal with H : callGas _ _ _ _ = _ |- _ => unfold callGas in H;
    repeat match type of H with context [if ?b then _ else _] => destruct b end;
    first [discriminate H|injection H; intros; subst;
      first [apply u64_range|rewrite uint256.Uint64_spec; apply Z.mod_pos_bound; lia|done]] end.
Qed.
End GasCharges.

(** * Memory pricing and totality of the gas functions *)
Ltac priced := intros ? ? ? ? ? ?; gas_inv; cbn in *; eauto.

Section GasMemory.
Context {L : Libs} {RP : AspectReports}.

Lemma memoryCopierGas_prices p : prices (memoryCopierGas p).
Proof. unfold memoryCopierGas. priced. Qed.
Lemma makeGasLog_prices n : prices (makeGasLog n).
Proof. unfold makeGasLog. priced. Qed.
Lemma gasKeccak256_prices : prices gasKeccak256.
Proof. unfold gasKeccak256. priced. Qed.
Lemma pureMemoryGascost_prices : prices pureMemoryGascost.
Proof. unfold pureMemoryGascost. priced. Qed.
Lemma gasCreate2_prices : prices gasCreate2.
Proof. unfold gasCreate2. priced. Qed.
Lemma gasCreateEip3860_prices : prices gasCreateEip3860.
Proof. unfold gasCreateEip3860. priced. Qed.
Lemma gasCreate2Eip3860_prices : prices gasCreate2Eip3860.
Proof. unfold gasCreate2Eip3860. priced. Qed.
Lemma gasExtCodeCopyEIP2929_prices : prices gasExtCodeCopyEIP2929.
Proof. unfold gasExtCodeCopyEIP2929, gasExtCodeCopy, memoryCopierGas. priced. Qed.
Lemma makeGasJournal_keeps n : keeps (makeGasJournal n).
Proof. unfold makeGasJournal. priced. Qed.
Lemma gasExpFrontier_keeps : keeps gasExpFrontier.
Proof. unfold gasExpFrontier. priced. Qed.
Lemma gasExpEIP158_keeps : keeps gasExpEIP158.
Proof. unfold gasExpEIP158. priced. Qed.
Lemma gasSStore_keeps : keeps gasSStore.
Proof. unfold gasSStore. priced. Qed.
Lemma gasSStoreEIP2200_keeps : keeps gasSStoreEIP2200.
Proof. unfold gasSStoreEIP2200. priced. Qed.
Lemma makeGasSStoreFunc_keeps r : keeps (makeGasSStoreFunc r).
Proof. unfold makeGasSStoreFunc. priced. Qed.
Lemma gasSLoadEIP2929_keeps : keeps gasSLoadEIP2929.
Proof. unfold gasSLoadEIP2929. priced. Qed.
Lemma gasEip2929AccountCheck_keeps : keeps gasEip2929AccountCheck.
Proof. unfold gasEip2929AccountCheck. priced. Qed.

(** A computation that returns and does not touch the contract. *)
Definition hands_off {A} (m : ST St A) : Prop :=
  forall s, wp m s (fun _ s' => contract s' = contract s).
Lemma hands_off_bind {A B} (m : ST St A) (k : A -> ST St B) :
  hands_off m -> (forall a, hands_off (k a)) -> hands_off (bind m k).
Proof.
  intros Hm Hk s. apply wp_bind. eapply wp_mono; [apply Hm|]. intros a s1 H1.
  eapply wp_mono; [apply Hk|]. cbn. intros b s2 H2. congruence.
Qed.
Lemma hands_off_read {A} (f : Stack -> res A) :
  (forall st, f st <> OutOfFuel) -> hands_off (let* st := gets stack in liftR (f st)).
Proof. intros Hf s. apply wp_bind. cbn. by apply wp_liftR. Qed.
Lemma hands_off_back n : hands_off (back_ n).
Proof. apply hands_off_read. intros. apply at_index_fuel. Qed.
Lemma hands_off_peek : hands_off peek_.
Proof. apply hands_off_read. intros. apply at_index_fuel. Qed.
Lemma hands_off_second : hands_off second_.
Proof. apply hands_off_read. intros. apply at_index_fuel. Qed.
Lemma hands_off_gas_try m k :
  hands_off m -> (forall g, hands_off (k g)) -> hands_off (gas_try m k).
Proof. intros Hm Hk. apply hands_off_bind; [done|]. intros [g [e|]]; [done|apply Hk]. Qed.
Lemma hands_off_gas_ovf r k : (forall g, hands_off (k g)) -> hands_off (gas_ovf r k).
Proof. intros Hk. unfold gas_ovf. destruct r as [v []]; [done|apply Hk]. Qed.
Lemma hands_off_memGas n : hands_off (memGas n).
Proof. intros s. apply wp_zoom. unfold wp. by destruct (memoryGasCost (memory s) n). Qed.
Lemma hands_off_total g : (forall env n, hands_off (g env n)) -> gas_total g.
Proof.
  intros Hg env n s Hs. eapply wp_mono; [apply Hg|]. cbn. intros _ s' ->.
  unfold is_u64 in Hs. split; [lia|done].
Qed.
End GasMemory.

Ltac hands_off_step :=
  lazymatch goal with
  | |- hands_off (bind _ _) => apply hands_off_bind; [|intros ?]
  | |- hands_off (gas_try _ _) => apply hands_off_gas_try; [|intros ?]
  | |- hands_off (gas_ovf _ _) => apply hands_off_gas_ovf; intros ?
  | |- hands_off (back_ _) => apply hands_off_back
  | |- hands_off (memGas _) => apply hands_off_memGas
  | |- hands_off peek_ => apply hands_off_peek
  | |- hands_off second_ => apply hands_off_second
  | |- hands_off (if ?c then _ else _) => destruct c
  | |- hands_off (match ?x with _ => _ end) => destruct x
  | |- hands_off _ => done
  end.
Ltac solve_hands_off := intros ? ?; repeat (hands_off_step; cbv beta zeta).
Ltac solve_total := apply hands_off_total; solve_hands_off.

Section GasTotal.
Context {L : Libs} {RP : AspectReports}.

Lemma memoryCopierGas_total p : gas_total (memoryCopierGas p).
Proof. unfold memoryCopierGas. solve_total. Qed.
Lemma makeGasLog_total n : gas_total (makeGasLog n).
Proof. unfold makeGasLog. solve_total. Qed.
Lemma makeGasJournal_total n : gas_total (makeGasJournal n).
Proof. unfold makeGasJournal. solve_total. Qed.
Lemma gasKeccak256_total : gas_total gasKeccak256.
Proof. unfold gasKeccak256. solve_total. Qed.
Lemma pureMemoryGascost_total : gas_total pureMemoryGascost.
Proof. unfold pureMemoryGascost. solve_total. Qed.
Lemma gasCreate2_total : gas_total gasCreate2.
Proof. unfold gasCreate2. solve_total. Qed.
Lemma gasCreateEip3860_total : gas_total gasCreateEip3860.
Proof. unfold gasCreateEip3860. solve_total. Qed.
Lemma gasCreate2Eip3860_total : gas_total gasCreate2Eip3860.
Proof. unfold gasCreate2Eip3860. solve_total. Qed.
Lemma gasExpFrontier_total : gas_total gasExpFrontier.
Proof. unfold gasExpFrontier. solve_total. Qed.
Lemma gasExpEIP158_total : gas_total gasExpEIP158.
Proof. unfold gasExpEIP158. solve_total. Qed.
Lemma gasCall_hands_off env n : hands_off (gasCall env n).
Proof. revert env n. unfold gasCall, setCallGas. solve_hands_off. Qed.
Lemma gasCallCode_hands_off env n : hands_off (gasCallCode env n).
Proof. revert env n. unfold gasCallCode, setCallGas. solve_hands_off. Qed.
Lemma gasDelegateCall_hands_off env n : hands_off (gasDelegateCall env n).
Proof. revert env n. unfold gasDelegateCall, setCallGas. solve_hands_off. Qed.
Lemma gasStaticCall_hands_off env n : hands_off (gasStaticCall env n).
Proof. revert env n. unfold gasStaticCall, setCallGas. solve_hands_off. Qed.
Lemma gasCall_total : gas_total gasCall.
Proof. apply hands_off_total, gasCall_hands_off. Qed.
Lemma gasCallCode_total : gas_total gasCallCode.
Proof. apply hands_off_total, gasCallCode_hands_off. Qed.
Lemma gasDelegateCall_total : gas_total gasDelegateCall.
Proof. apply hands_off_total, gasDelegateCall_hands_off. Qed.
Lemma gasStaticCall_total : gas_total gasStaticCall.
Proof. apply hands_off_total, gasStaticCall_hands_off. Qed.
Lemma gasSelfdestruct_total : gas_total gasSelfdestruct.
Proof. unfold gasSelfdestruct. solve_total. Qed.
Lemma gasSStore_total : gas_total gasSStore.
Proof. unfold gasSStore. solve_total. Qed.
Lemma gasSStoreEIP2200_total : gas_total gasSStoreEIP2200.
Proof. unfold gasSStoreEIP2200. solve_total. Qed.
Lemma makeGasSStoreFunc_total r : gas_total (makeGasSStoreFunc r).
Proof. unfold makeGasSStoreFunc. solve_total. Qed.
Lemma gasSLoadEIP2929_total : gas_total gasSLoadEIP2929.
Proof. unfold gasSLoadEIP2929. solve_total. Qed.
Lemma gasExtCodeCopyEIP2929_total : gas_total gasExtCodeCopyEIP2929.
Proof. unfold gasExtCodeCopyEIP2929, gasExtCodeCopy, memoryCopierGas. solve_total. Qed.
Lemma gasEip2929AccountCheck_total : gas_total gasEip2929AccountCheck.
Proof. unfold gasEip2929AccountCheck. solve_total. Qed.
Lemma makeSelfdestructGasFn_total r : gas_total (makeSelfdestructGasFn r).
Proof. unfold makeSelfdestructGasFn. solve_total. Qed.
End GasTotal.
