(* ===== verification/CallCost.v ===== *)
(** The gas of the call family (gasCall, gasCallCode, gasDelegateCall,
    gasStaticCall and their EIP-2929 variants): what is charged always covers
    what is forwarded, with no 64-bit wrap-around. *)
From S2P Require Import Prelude Opcodes Errors Externals Stack Memory Analysis Contract Tracer.
From S2P Require Import Machine Gas Instructions JumpTable Precompiles Evm Logic Quiet GasSpec.
From S2P Require Import CallGas OpGas.

(** * Steps of a frame *)
Section Steps.
Context {L : Libs} {RP : AspectReports}.

Lemma wp_pop s (Q : uint256.Int -> St -> Prop) :
  (forall x l, data (stack s) = x :: l -> Q x (set_stack (mkStack l) s)) -> wp pop_ s Q.
Proof.
  intros HQ. apply wp_zoom. unfold wp. destruct (stack s) as [[|x l]] eqn:E; [done|].
  rewrite pop_cons. by apply HQ.
Qed.
Lemma wp_gets {A} (f : St -> A) s (Q : A -> St -> Prop) : Q (f s) s -> wp (gets f) s Q.
Proof. done. Qed.
Lemma wp_modify f s (Q : unit -> St -> Prop) : Q tt (f s) -> wp (modify f) s Q.
Proof. done. Qed.
Lemma wp_readMemory {A} (f : Memory -> res A) s (Q : A -> St -> Prop) :
  quiet (f (memory s)) -> (forall a, f (memory s) = Ret a -> Q a s) -> wp (readMemory f) s Q.
Proof. intros [_ Hq] HQ. apply wp_bind, wp_gets. by apply wp_liftR. Qed.
Lemma wp_onMemory f s (Q : unit -> St -> Prop) :
  quiet (f (memory s)) -> (forall m, f (memory s) = Ret m -> Q tt (set_memory m s)) ->
  wp (onMemory f) s Q.
Proof.
  intros [_ Hq] HQ. apply wp_zoom. unfold wp.
  destruct (f (memory s)) as [m| |]; cbn; [by apply HQ|done|congruence].
Qed.
Lemma wp_useGas g s (Q : bool -> St -> Prop) :
  (let '(ok, c) := UseGas (contract s) g in Q ok (set_contract c s)) -> wp (useGas_ g) s Q.
Proof. intros HQ. apply wp_zoom. unfold wp. by destruct (UseGas (contract s) g). Qed.
Lemma wp_onMachine {A} (m : ST Machine A) (P : A -> Prop) s (Q : A -> St -> Prop) :
  total m P -> (forall a x, P a -> Q a (set_mach x s)) -> wp (onMachine m) s Q.
Proof. intros Hm HQ. apply wp_zoom. eapply wp_mono; [apply Hm|]. cbn. eauto. Qed.
Lemma wp_ret {A} (a : A) s (Q : A -> St -> Prop) : Q a s -> wp (ret a) s Q.
Proof. done. Qed.
End Steps.

Section CallCost.
Context {L : Libs} {RP : AspectReports} {US : uint256.Spec} {MS : math.Spec} {PS : params.Spec}.

(** The gas a call hands on, as its gas function left it for the opcode:
    [callGasTemp], and the stipend when the third stack item is a value. *)
Definition fwd_temp (s : St) : Z := callGasTemp (mach s).
Definition stipend (s : St) : Z :=
  match Back (stack s) 2 with
  | Ret v => if uint256.IsZero v then 0 else params.CallStipend
  | _ => 0
  end.
Definition fwd_value (s : St) : Z := callGasTemp (mach s) + stipend s.

Lemma Sign_zero v : (uint256.Sign v =? 0) = uint256.IsZero v.
Proof.
  rewrite uint256.Sign_spec, uint256.IsZero_spec. unfold uint256.signed.
  pose proof (uint256.toZ_range v).
  destruct (Z.ltb_spec (uint256.toZ v) (2 ^ 255)); destruct (Z.eqb_spec (uint256.toZ v) 0); lia.
Qed.

(** A priced memory never asks for more than 2^56 gas. *)
Lemma memoryGasCost_bound m n g m' :
  mem_priced m -> is_u64 n -> memoryGasCost m n = ((g, None), m') -> 0 <= g < 2 ^ 56.
Proof.
  intros Hm Hn. rewrite memoryGasCost_spec by done.
  destruct (Z.ltb_spec 0x1FFFFFFFE0 n); [done|].
  pose proof (mp_small _ Hm). pose proof (len_nonneg (store m)).
  assert (0 <= Len m / 32) by (apply Z.div_pos; [done|lia]).
  assert (0 <= (n + 31) / 32 < 2 ^ 32).
  { unfold is_u64 in *. split; [apply Z.div_pos; lia|]. apply Z.div_lt_upper_bound; lia. }
  destruct (Z.ltb_spec (Len m / 32) ((n + 31) / 32)); intros [= <- _]; [|lia].
  pose proof (mem_price_mono (Len m / 32) ((n + 31) / 32)).
  pose proof (mem_price_bound ((n + 31) / 32)). pose proof (mem_price_nonneg (Len m / 32)). lia.
Qed.

(** What [callGas] forwards after EIP-150, whether or not the base cost is
    affordable. *)
Lemma callGas_forward avail base req t e :
  callGas true avail base req = (t, e) -> is_u64 avail -> 0 <= base < 2 ^ 57 ->
  e = None /\ 0 <= t /\ (base <= avail -> t <= avail - base) /\
  (avail < base -> base + t < 2 ^ 64 - 2 ^ 57).
Proof.
  intros H Ha Hb. unfold callGas in H. set (a := u64 (avail - base)) in H.
  pose proof (u64_range (avail - base)) as Hu. fold a in Hu. unfold is_u64 in *.
  pose proof (all_but_64th_range a ltac:(lia)) as H64. unfold all_but_64th in H64.
  rewrite (u64_small (a - a / 64)) in H by (unfold is_u64; lia).
  assert (Hd : 64 * (a / 64) <= a < 64 * (a / 64) + 64)
    by (pose proof (Z.div_mod a 64); pose proof (Z.mod_pos_bound a 64); lia).
  assert (He : e = None /\ 0 <= t <= a - a / 64).
  { destruct (uint256.IsUint64 req) eqn:Eu; cbn [negb orb] in H; [|injection H as <- <-; split; [done|lia]].
    rewrite uint256.IsUint64_spec in Eu. rewrite uint256.Uint64_spec in H.
    pose proof (uint256.toZ_range req). zprop. rewrite Z.mod_small in H by lia.
    destruct (Z.ltb_spec (a - a / 64) (uint256.toZ req)); injection H as <- <-; (split; [done|lia]). }
  destruct He as [-> Ht]. split_and!; [done|lia|..]; intros Hle.
  - assert (Ea : a = avail - base) by (apply u64_small; unfold is_u64; lia). lia.
  - assert (Ea : a = avail - base + 2 ^ 64).
    { unfold a, u64. rewrite <- (Z.mod_small (avail - base + 2 ^ 64) (2 ^ 64)) at 1 by lia.
      by rewrite <- (Z_mod_plus_full (avail - base) 1). }
    lia.
Qed.

(** A gas function of the call family: it charges [base] for the call itself
    and what it sets aside in [callGasTemp], leaving [K] of the 64-bit range
    when the frame cannot pay. *)
Definition forwards (K : Z) (fwd : St -> Z) (g : gasFunc) : Prop := forall env n s d s',
  params.IsEIP150 (chainRules env) = true ->
  mem_priced (memory s) -> is_u64 n -> is_u64 (Gas (contract s)) ->
  g env n s = Ret ((d, None), s') ->
  contract s' = contract s /\ stack s' = stack s /\ 0 <= fwd s' <= d /\
  (d <= Gas (contract s) \/ 0 <= d < 2 ^ 64 - K) /\
  exists fee, memoryGasCost (memory s) n = ((fee, None), memory s').

Lemma setCallGas_inv env gas s t s' :
  params.IsEIP150 (chainRules env) = true ->
  is_u64 (Gas (contract s)) -> 0 <= gas < 2 ^ 57 ->
  setCallGas env gas s = Ret ((t, None), s') ->
  s' = set_mach (set_callGasTemp t (mach s)) s /\ 0 <= t /\
  (gas + t <= Gas (contract s) \/ gas + t < 2 ^ 64 - 2 ^ 57).
Proof.
  intros He Hg Hb H. unfold setCallGas in H. gas_inv. rewrite He in *. subst.
  match goal with H : callGas _ _ _ _ = _ |- _ =>
    apply callGas_forward in H as (_ & Ht & H1 & H3); [|done..] end.
  match goal with H : setCallGasTemp _ _ = _ |- _ => injection H as _ <- end.
  split_and!; [done|done|].
  match goal with |- context [Gas (contract ?x)] =>
    destruct (Z.le_gt_cases gas (Gas (contract x))); lia end.
Qed.

(** The common end of the four: from a frame whose memory is already priced,
    set the gas aside and add it to the cost. *)
Lemma call_tail env base (fwd : St -> Z) s d s' :
  params.IsEIP150 (chainRules env) = true -> is_u64 (Gas (contract s)) -> 0 <= base < 2 ^ 57 ->
  (forall t, 0 <= t -> 0 <= fwd (set_mach (set_callGasTemp t (mach s)) s) <= base + t) ->
  (let! temp := setCallGas env base in
   ovf! gas := math.SafeAdd base temp in
   ret (gas, None)) s = Ret ((d, None), s') ->
  scope s' = scope s /\ 0 <= fwd s' <= d /\
  (d <= Gas (contract s) \/ 0 <= d < 2 ^ 64 - 2 ^ 57).
Proof.
  intros He Hg Hb Hf H. apply gas_try_inv in H as (t & s1 & H1 & H).
  apply setCallGas_inv in H1 as (-> & Ht & Hd); [|done..]. specialize (Hf t Ht).
  apply gas_ovf_inv in H as (v & H1 & [= <- <-]). unfold is_u64 in Hg.
  apply SafeAdd_inv in H1 as [-> _]; [|unfold is_u64; lia..].
  split; [done|]. split; [done|lia].
Qed.

(** The price of value transfer and account creation, before memory. *)
Definition transferCost (transfersValue new : bool) : Z :=
  let gas := if new then params.CallNewAccountGas else 0 in
  if transfersValue then u64 (gas + params.CallValueTransferGas) else gas.
Lemma transferCost_range (b new : bool) :
  (if b then 9000 else 0) <= transferCost b new < 2 ^ 56.
Proof.
  unfold transferCost. rewrite params.CallNewAccountGas_val, params.CallValueTransferGas_val.
  destruct b, new; rewrite ?u64_small by (unfold is_u64; lia); lia.
Qed.
Lemma stipend_range s : 0 <= stipend s <= 2300.
Proof.
  unfold stipend. rewrite params.CallStipend_val. destruct (Back _ _); [|lia..].
  destruct (uint256.IsZero _); lia.
Qed.

Ltac priced_frame :=
  match goal with H : memGas _ _ = Ret ((?g, None), _) |- _ =>
    apply memGas_inv in H as (? & ? & H & ->);
    let Hb := fresh "Hb" in
    assert (Hb : 0 <= g < 2 ^ 56) by (eapply memoryGasCost_bound; [| |exact H]; done) end.

Lemma gasDelegateCall_forwards : forwards (2 ^ 57) fwd_temp gasDelegateCall.
Proof.
  intros env n s d s' He Hm Hn Hg H. apply gas_try_inv in H as (g & s1 & H1 & H). priced_frame.
  apply (call_tail _ _ fwd_temp) in H as (Hs & Hf & Hd); [|done|done|lia|intros t Ht; cbn; lia].
  unfold contract, stack, memory in *. rewrite Hs. split_and!; try done; try lia. by eauto.
Qed.
Lemma gasStaticCall_forwards : forwards (2 ^ 57) fwd_temp gasStaticCall.
Proof. exact gasDelegateCall_forwards. Qed.

Lemma gasCallCode_forwards : forwards (2 ^ 57) fwd_value gasCallCode.
Proof.
  intros env n s d s' He Hm Hn Hg H. apply gas_try_inv in H as (g & s1 & H1 & H). priced_frame.
  apply bind_Ret in H as (v & s1 & Hv & H). apply back_read in Hv as [-> Hv].
  rewrite Sign_zero in H. cbv zeta in H. change (stack (set_memory x s)) with (stack s) in Hv.
  apply gas_ovf_inv in H as (b & Hs & H). rewrite params.CallValueTransferGas_val in Hs.
  apply SafeAdd_inv in Hs as [-> _]; [|destruct (uint256.IsZero v); cbn; unfold is_u64; lia|done].
  apply (call_tail _ _ fwd_value) in H as (Hs & Hf & Hd); [|done|done|destruct (uint256.IsZero v); cbn; lia|].
  - unfold contract, stack, memory in *. rewrite Hs. split_and!; try done; try lia. by eauto.
  - intros t Ht. unfold fwd_value, stipend. cbn -[params.CallStipend Back].
    unfold stack in Hv. rewrite Hv, params.CallStipend_val. destruct (uint256.IsZero v); cbn; lia.
Qed.

Lemma gasCall_forwards : forwards (2 ^ 57) fwd_value gasCall.
Proof.
  intros env n s d s' He Hm Hn Hg H. unfold gasCall in H.
  apply bind_Ret in H as (v & s1 & Hv & H). apply back_read in Hv as [-> Hv].
  apply bind_Ret in H as (a & s1 & Ha & H). apply back_read in Ha as [-> Ha].
  apply bind_Ret in H as (em & s1 & Hq & H); apply query_read in Hq as ->.
  apply bind_Ret in H as (ex & s1 & Hq & H); apply query_read in Hq as ->.
  cbv zeta in H. set (new := if params.IsEIP158 (chainRules env)
    then negb (uint256.IsZero v) && em else negb ex).
  set (g0 := if negb (uint256.IsZero v) then _ else _) in H.
  assert (Eg : g0 = transferCost (negb (uint256.IsZero v)) new).
  { unfold g0, transferCost, new.
    by destruct (params.IsEIP158 _), (uint256.IsZero v), em, ex. }
  pose proof (transferCost_range (negb (uint256.IsZero v)) new) as Ht. rewrite <- Eg in Ht.
  clearbody g0. apply gas_try_inv in H as (g & s1 & H1 & H). priced_frame.
  apply gas_ovf_inv in H as (b & Hs & H).
  apply SafeAdd_inv in Hs as [-> _]; [|destruct (uint256.IsZero v); unfold is_u64; cbn in Ht; lia|done].
  apply (call_tail _ _ fwd_value) in H as (Hs & Hf & Hd);
    [|done|done|destruct (uint256.IsZero v); cbn in Ht; lia|].
  - unfold contract, stack, memory in *. rewrite Hs. split_and!; try done; try lia. by eauto.
  - intros t Ht0. unfold fwd_value, stipend. cbn -[params.CallStipend Back].
    unfold stack in Hv. rewrite Hv, params.CallStipend_val.
    destruct (uint256.IsZero v); cbn in *; lia.
Qed.

(** The EIP-2929 variants charge a cold account first, give the charge back,
    and add it to the total, which does not wrap around. *)
Lemma coldCost_val : coldCost = 2500.
Proof.
  unfold coldCost. rewrite params.ColdAccountAccessCostEIP2929_val,
    params.WarmStorageReadCostEIP2929_val. done.
Qed.

Lemma useGas_inv g s ok s' :
  useGas_ g s = Ret (ok, s') ->
  exists c', UseGas (contract s) g = (ok, c') /\ s' = set_contract c' s.
Proof.
  unfold useGas_. intros H. apply zoom_Ret in H as (b & c' & HU & E).
  injection HU as HU. injection E as <- ->. by exists c'.
Qed.

(** Gas that is only lent: taken before and returned after. *)
Lemma lend_gas c c' g :
  UseGas c g = (true, c') -> is_u64 (Gas c) -> 0 <= g ->
  g <= Gas c /\ Gas c' = Gas c - g /\ set_Gas (u64 (Gas c' + g)) c' = c.
Proof.
  unfold UseGas, is_u64. intros H Hc Hg. destruct (Z.ltb_spec (Gas c) g); [done|].
  injection H as <-. rewrite u64_small by (unfold is_u64; lia). split; [done|]. split; [done|].
  destruct c; cbn in *. by rewrite u64_small by (unfold is_u64; lia); rewrite Z.sub_add.
Qed.

Ltac call_nonneg :=
  intros ? ? ? ? ? ?; gas_inv;
  repeat match goal with H : setCallGas _ _ _ = Ret _ |- _ => apply setCallGas_u64 in H end;
  autorewrite with params in *;
  repeat match goal with H : context [if ?b then _ else _] |- _ => destruct b end;
  gas_arith; unfold is_u64 in *; lia.
Lemma gasCall_nonneg : nonneg gasCall.
Proof. unfold gasCall. call_nonneg. Qed.
Lemma gasCallCode_nonneg : nonneg gasCallCode.
Proof. unfold gasCallCode. call_nonneg. Qed.
Lemma gasDelegateCall_nonneg : nonneg gasDelegateCall.
Proof. unfold gasDelegateCall. call_nonneg. Qed.
Lemma gasStaticCall_nonneg : nonneg gasStaticCall.
Proof. unfold gasStaticCall. call_nonneg. Qed.
Lemma makeCallVariant_nonneg g : nonneg g -> nonneg (makeCallVariantGasCallEIP2929 g).
Proof.
  intros Hg env n s d s' H. unfold makeCallVariantGasCallEIP2929 in H.
  apply bind_Ret in H as (a & s1 & _ & H). apply bind_Ret in H as (w & s2 & _ & H).
  apply bind_Ret in H as (ok & s3 & _ & H). destruct (negb ok); [done|].
  apply bind_Ret in H as ([g1 e1] & s4 & Hi & H). destruct (w || negb (is_nil e1)).
  - injection H as -> -> ->. by eapply Hg.
  - apply bind_Ret in H as ([] & s5 & _ & H). injection H as <- _. apply u64_range.
Qed.

Lemma makeCallVariant_total g :
  (forall env n, hands_off (g env n)) -> gas_total (makeCallVariantGasCallEIP2929 g).
Proof.
  intros Hg env n s Hs. unfold makeCallVariantGasCallEIP2929.
  apply wp_bind. eapply wp_mono; [apply hands_off_back|]. cbn beta. intros a s1 H1.
  rewrite <- H1 in *. apply wp_bind, wp_gets, wp_bind.
  destruct (StateDB.AddressInAccessList _ _); cbn [negb orb].
  - apply wp_ret. cbn [negb]. apply wp_bind. eapply wp_mono; [apply Hg|]. cbn beta.
    intros [g1 e1] s2 H2. apply wp_ret. rewrite H2. unfold is_u64 in Hs. split; [lia|done].
  - apply wp_bind, wp_modify, wp_useGas. change (contract (set_mach _ s1)) with (contract s1).
    rewrite coldCost_val. destruct (UseGas (contract s1) 2500) as [ok c] eqn:HU.
    assert (Hc : 0 <= Gas c <= Gas (contract s1) /\ Code c = Code (contract s1)).
    { unfold UseGas, is_u64 in *. destruct (Z.ltb_spec (Gas (contract s1)) 2500);
        injection HU as _ <-; cbn; [split; [lia|done]|].
      rewrite u64_small by (unfold is_u64; lia). split; [lia|done]. }
    destruct ok; cbn [negb]; [|by apply wp_ret]. apply wp_bind. eapply wp_mono; [apply Hg|].
    cbn beta. intros [g1 [e1|]] s2 H2; cbn [is_nil negb]; [apply wp_ret; by rewrite H2|].
    apply wp_bind, wp_modify, wp_ret. change (contract (set_contract ?x s2)) with x.
    apply (lend_gas (contract s1)) in HU as (_ & H3 & H4); [|done|lia].
    rewrite H2. change (contract (set_contract c _)) with c. rewrite H4. unfold is_u64 in Hs.
    split; [lia|done].
Qed.

Lemma makeCallVariant_forwards fwd g :
  (forall s s', mach s = mach s' -> stack s = stack s' -> fwd s = fwd s') ->
  forwards (2 ^ 57) fwd g -> forwards (2 ^ 56) fwd (makeCallVariantGasCallEIP2929 g).
Proof.
  intros Hext Hfw env n s d s' He Hm Hn Hg H. unfold makeCallVariantGasCallEIP2929 in H.
  apply bind_Ret in H as (a & s1 & Ha & H). apply back_read in Ha as [-> Ha].
  apply bind_Ret in H as (w & s1 & Hq & H). apply query_read in Hq as ->.
  apply bind_Ret in H as (ok & s1 & H1 & H). destruct w; cbn [negb orb] in H1, H.
  - injection H1 as <- <-. cbn [negb] in H. apply bind_Ret in H as ([g1 e1] & s2 & H2 & H).
    injection H as -> -> ->.
    eapply Hfw in H2 as (C1 & C2 & C3 & C4 & C5); [|done..]. split_and!; [done|done|lia..|done].
  - apply bind_Ret in H1 as ([] & s2 & Hu & H1). apply update_write in Hu as ->.
    apply useGas_inv in H1 as (c' & HU & ->).
    destruct ok; cbn [negb] in H; [|done]. rewrite coldCost_val in *.
    apply (lend_gas (contract s)) in HU as (H1 & H2 & H3); [|done|lia].
    apply bind_Ret in H as ([g1 e1] & s2 & Hi & H).
    destruct e1 as [e1|]; cbn [is_nil negb] in H; [done|].
    eapply Hfw in Hi as (C1 & C2 & C3 & C4 & C5); [|done|done|done|].
    2:{ cbn. unfold is_u64 in *. cbn in Hg. rewrite H2. lia. }
    apply bind_Ret in H as ([] & s3 & Ha' & H). injection Ha' as <-. injection H as <- <-.
    unfold is_u64 in Hg. change (Gas (contract _)) with (Gas c') in C4 at 1.
    assert (Eg : u64 (g1 + 2500) = g1 + 2500) by (apply u64_small; unfold is_u64; lia).
    rewrite Eg. change (contract (set_contract ?c s2)) with c. rewrite C1.
    split_and!; [exact H3|exact C2|..|exact C5].
    + rewrite <- (Hext s2) by done. lia.
    + rewrite <- (Hext s2) by done. lia.
    + lia.
Qed.
End CallCost.
