(* ===== verification/ExecGas.v ===== *)
(** Executing an opcode never leaves the frame with more gas than it had and
    than was forwarded to a call: the plain opcodes leave the gas alone, the
    call family gives back at most what it handed on, and contract creation
    at most what it took. *)
From S2P Require Import Prelude Opcodes Errors Externals Stack Memory Analysis Contract Tracer.
From S2P Require Import Machine Gas Instructions JumpTable Precompiles Evm Logic Quiet GasSpec.
From S2P Require Import CallGas OpGas CallCost.

Section ExecGas.
Context {L : Libs} {RP : AspectReports} {US : uint256.Spec} {PS : params.Spec} {RS : runtime.Spec}.

(** The frame after an opcode that may return up to [g] gas. *)
Record after (g : Z) (s s' : St) : Prop := {
  af_gas : 0 <= Gas (contract s') <= Gas (contract s) + g;
  af_code : Code (contract s') = Code (contract s);
  af_memory : mem_priced (memory s) -> mem_priced (memory s');
}.

Definition exec_ok (fwd : St -> Z) (e : executionFunc) : Prop := forall env evm B s,
  params.IsEIP150 (chainRules env) = true -> calls_ok B evm -> B <= 2 ^ 64 ->
  fit s -> 0 <= Gas (contract s) -> 0 <= fwd s -> Gas (contract s) + fwd s < B ->
  wp (e env evm) s (fun _ s' => after (fwd s) s s').

Lemma after_same g s s' :
  contract s' = contract s -> memory s' = memory s -> 0 <= Gas (contract s) -> 0 <= g ->
  after g s s'.
Proof. intros Hc Hm H0 Hg. split; rewrite ?Hc, ?Hm; [lia|done|done]. Qed.

Lemma exec_ok_tame fwd e : (forall env evm, tame (e env evm)) -> exec_ok fwd e.
Proof.
  intros He env evm B s _ _ _ Hs Hg Hf _. eapply wp_mono; [by apply He|].
  cbn. intros r s' [H1 H2 H3]. split; [lia|done|done].
Qed.

(** * The end of a call *)
Lemma finishCall_after o n out s0 s g :
  contract s = contract s0 -> memory s = memory s0 -> keeps_gas g out ->
  0 <= Gas (contract s0) -> Gas (contract s0) + g < 2 ^ 64 ->
  wp (finishCall o n out) s (fun _ s' => after g s0 s').
Proof.
  intros Hc Hm Hk H0 Hg. destruct out as [[r g'] e]. unfold keeps_gas in Hk. cbn in Hk.
  unfold finishCall. apply wp_bind, wp_modify, wp_bind.
  eapply (wp_mono _ _ (fun _ s1 => contract s1 = contract s0 /\
    (mem_priced (memory s0) -> mem_priced (memory s1)))).
  - destruct (is_nil e || err_is e ErrExecutionReverted); [|apply wp_ret; split; [exact Hc|by rewrite <- Hm]].
    apply wp_onMemory; [apply quiet_Set|]. intros m E. split; [exact Hc|].
    apply Set_keeps in E as (x & -> & Hx). intros Hp. apply with_store_priced; [exact Hx|].
    change (mem_priced (memory s)). by rewrite Hm.
  - intros [] s1 [H1 H2]. apply wp_bind, wp_modify, wp_bind, wp_modify, wp_ret. split.
    + change (0 <= u64 (Gas (contract s1) + g') <= Gas (contract s0) + g). rewrite H1.
      rewrite u64_small by (unfold is_u64; lia). lia.
    + change (Code (contract s1) = Code (contract s0)). by rewrite H1.
    + exact H2.
Qed.

(** The remaining operands of a call, and its arguments. *)
Tactic Notation "call_operands" integer(n) :=
  do n (apply wp_bind, wp_pop; intros ? ? _); apply wp_bind, wp_readMemory;
  [apply quiet_GetPtr|intros ? _].

Lemma opDelegateCall_ok : exec_ok fwd_temp opDelegateCall.
Proof.
  intros env evm B s He Hc HB Hs Hg Hf Hlt. unfold opDelegateCall.
  apply wp_bind, wp_pop. intros x0 l0 Hst. apply wp_bind, wp_gets.
  call_operands 5. apply wp_bind, wp_gets, wp_bind.
  eapply wp_onMachine; [apply (co_DelegateCall _ _ Hc); unfold fwd_temp in *; cbn; lia|].
  intros out mx Hk. unfold fwd_temp in *. eapply finishCall_after; try done. lia.
Qed.
Lemma opStaticCall_ok : exec_ok fwd_temp opStaticCall.
Proof.
  intros env evm B s He Hc HB Hs Hg Hf Hlt. unfold opStaticCall.
  apply wp_bind, wp_pop. intros x0 l0 Hst. apply wp_bind, wp_gets.
  call_operands 5. apply wp_bind, wp_gets, wp_bind.
  eapply wp_onMachine; [apply (co_StaticCall _ _ Hc); unfold fwd_temp in *; cbn; lia|].
  intros out mx Hk. unfold fwd_temp in *. eapply finishCall_after; try done. lia.
Qed.

(** The stipend joins the gas of a call that carries value. *)
Lemma stipend_third s x y v l :
  data (stack s) = x :: y :: v :: l ->
  stipend s = if uint256.IsZero v then 0 else params.CallStipend.
Proof. intros H. unfold stipend. rewrite (Back_lookup _ 2 v); [done|lia|by rewrite H]. Qed.
Lemma with_stipend s x y v l :
  data (stack s) = x :: y :: v :: l -> 0 <= fwd_value s < 2 ^ 64 ->
  (if negb (uint256.IsZero v) then u64 (fwd_temp s + params.CallStipend) else fwd_temp s)
    = fwd_value s.
Proof.
  intros H. unfold fwd_value, fwd_temp. erewrite stipend_third by done.
  destruct (uint256.IsZero v); cbn [negb]; intros Hr; [lia|by apply u64_small].
Qed.

Lemma opCallCode_ok : exec_ok fwd_value opCallCode.
Proof.
  intros env evm B s He Hc HB Hs Hg Hf Hlt. unfold opCallCode.
  apply wp_bind, wp_pop. intros x0 l0 H0. apply wp_bind, wp_gets.
  apply wp_bind, wp_pop. intros x1 l1 H1. apply wp_bind, wp_pop. intros v l2 H2.
  change (l0 = x1 :: l1) in H1. change (l1 = v :: l2) in H2. subst.
  call_operands 4. cbv zeta. apply wp_bind, wp_gets, wp_bind.
  change (callGasTemp (mach (set_stack _ s))) with (fwd_temp s).
  rewrite (with_stipend s _ _ _ _ H0) by lia.
  eapply wp_onMachine; [apply (co_CallCode _ _ Hc); lia|].
  intros out mx Hk. eapply finishCall_after; try done. lia.
Qed.
Lemma opCall_ok : exec_ok fwd_value opCall.
Proof.
  intros env evm B s He Hc HB Hs Hg Hf Hlt. unfold opCall.
  apply wp_bind, wp_pop. intros x0 l0 H0. apply wp_bind, wp_gets.
  apply wp_bind, wp_pop. intros x1 l1 H1. apply wp_bind, wp_pop. intros v l2 H2.
  change (l0 = x1 :: l1) in H1. change (l1 = v :: l2) in H2. subst.
  call_operands 4. apply wp_bind, wp_gets. destruct (_ && _); [apply wp_ret; by apply after_same|].
  cbv zeta. apply wp_bind, wp_gets, wp_bind.
  change (callGasTemp (mach (set_stack _ s))) with (fwd_temp s).
  rewrite (with_stipend s _ _ _ _ H0) by lia.
  eapply wp_onMachine; [apply (co_Call _ _ Hc); lia|].
  intros out mx Hk. eapply finishCall_after; try done. lia.
Qed.

(** * Contract creation *)
Lemma GetCopy_len m o n d : GetCopy m o n = Ret d -> len d < 2 ^ 63.
Proof.
  unfold GetCopy. destruct (n =? 0); [by intros [= <-]|]. destruct (_ <? _); [|by intros [= <-]].
  unfold make_bytes. destruct ((n <? 0) || _) eqn:E; [done|]. cbn [rbind]. zprop.
  destruct (slice_cap _ _ _ _) as [x| |]; [|done..]. intros [= <-].
  pose proof runtime.maxAlloc_range. rewrite len_copy; rewrite len_zeros by lia; lia.
Qed.

(** What creation hands on, takes and gives back. *)
Lemma create_after s0 s c g r :
  is_u64 (Gas (contract s0)) -> UseGas (contract s0) g = (true, c) -> 0 <= r <= g ->
  contract s = set_Gas (u64 (Gas c + r)) c -> memory s = memory s0 -> after 0 s0 s.
Proof.
  intros H0 HU Hr Hc Hm. destruct (lend_gas _ _ _ HU H0 ltac:(lia)) as (H1 & H2 & H3).
  unfold is_u64 in *. split.
  - rewrite Hc. cbn. rewrite u64_small by (unfold is_u64; lia). lia.
  - rewrite Hc. by rewrite <- H3.
  - by rewrite Hm.
Qed.

Lemma affordable_64th g : is_u64 g -> u64 (g - g / 64) = all_but_64th g.
Proof.
  intros Hg. apply u64_small. unfold is_u64 in *. pose proof (all_but_64th_range g).
  unfold all_but_64th in *. lia.
Qed.
Lemma UseGas_affordable c g : g <= Gas c -> exists c', UseGas c g = (true, c').
Proof. intros H. unfold UseGas. destruct (Z.ltb_spec (Gas c) g); [lia|eauto]. Qed.

(** After the operands: take the gas, create, push, return the gas. *)
Ltac create_body call :=
  match goal with |- wp _ ?s1 _ => match goal with H : fit ?s |- _ =>
    change (contract s1) with (contract s) end end;
  apply wp_bind, wp_useGas;
  match goal with H : fit ?s |- _ =>
    change (contract (set_stack _ _)) with (contract s);
    let c := fresh "c" in let HU := fresh "HU" in
    destruct (UseGas_affordable (contract s) (all_but_64th (Gas (contract s)))) as [c HU];
    [lia|rewrite HU; apply wp_bind, wp_gets, wp_bind] end;
  eapply wp_onMachine; [apply call; [lia|done]|];
  let Hk := fresh "Hk" in intros [[[? ?] ?] ?] ? Hk;
  apply wp_bind, wp_modify, wp_bind, wp_modify;
  match goal with |- wp (if ?b then _ else _) _ _ => destruct b end;
  apply wp_bind, wp_modify, wp_ret; by eapply create_after.

Lemma opCreate_ok : exec_ok (fun _ => 0) opCreate.
Proof.
  intros env evm B s He Hc HB Hs Hg _ Hlt. unfold opCreate, writeProtected.
  apply wp_bind, wp_gets. destruct (readOnly (mach s)); [apply wp_ret; by apply after_same|].
  do 3 (apply wp_bind, wp_pop; intros ? ? _). apply wp_bind, wp_readMemory; [apply quiet_GetCopy|].
  intros input Hi. apply GetCopy_len in Hi. apply wp_bind, wp_gets. cbv zeta.
  change (contract (set_stack _ _)) with (contract s).
  assert (Hu : is_u64 (Gas (contract s))) by (unfold is_u64; lia).
  rewrite He, affordable_64th by done. pose proof (all_but_64th_range _ Hg) as H64.
  create_body (co_Create _ _ Hc).
Qed.
Lemma opCreate2_ok : exec_ok (fun _ => 0) opCreate2.
Proof.
  intros env evm B s He Hc HB Hs Hg _ Hlt. unfold opCreate2, writeProtected.
  apply wp_bind, wp_gets. destruct (readOnly (mach s)); [apply wp_ret; by apply after_same|].
  do 4 (apply wp_bind, wp_pop; intros ? ? _). apply wp_bind, wp_readMemory; [apply quiet_GetCopy|].
  intros input Hi. apply GetCopy_len in Hi. apply wp_bind, wp_gets. cbv zeta.
  change (contract (set_stack _ _)) with (contract s).
  assert (Hu : is_u64 (Gas (contract s))) by (unfold is_u64; lia).
  rewrite affordable_64th by done. pose proof (all_but_64th_range _ Hg) as H64.
  create_body (co_Create2 _ _ Hc).
Qed.
End ExecGas.
