(* ===== verification/Budget.v ===== *)
(** The gas budget of the instruction sets: every operation of every
    interpreter's table either ends the frame or charges at least one unit more
    than it hands on, and prices the memory it asks for. *)
From S2P Require Import Prelude Opcodes Errors Externals Stack Memory Analysis Contract Tracer.
From S2P Require Import Machine Gas Instructions JumpTable Precompiles Evm Logic Tables Quiet.
From S2P Require Import GasSpec CallGas OpGas CallCost ExecGas.

(** * The gas contract of an operation *)
Section Contract.
Context {L : Libs} {RP : AspectReports}.

(** A memory-size function returns a 64-bit size. *)
Definition size_ok (f : memorySizeFunc) : Prop := forall st,
  match f st with Ret (n, _) => is_u64 n | Panicked _ => True | OutOfFuel => False end.

(** The gas the operation at an index hands to a call. *)
Definition fwd_at (i : nat) : St -> Z :=
  if bool_decide (i ∈ [Z.to_nat CALL; Z.to_nat CALLCODE]) then fwd_value
  else if bool_decide (i ∈ [Z.to_nat DELEGATECALL; Z.to_nat STATICCALL]) then fwd_temp
  else fun _ => 0.

(** A gas function covers what it forwards and [lo] more, and prices the
    memory (the request is 0 when the operation has no memory function). *)
Definition dyn_ok (fwd : St -> Z) (lo : Z) (mem : option memorySizeFunc) (g : gasFunc) : Prop :=
  forall env n s d s',
  params.IsEIP150 (chainRules env) = true -> mem_priced (memory s) -> is_u64 n ->
  is_u64 (Gas (contract s)) -> (mem = None -> n = 0) -> g env n s = Ret ((d, None), s') ->
  contract s' = contract s /\ stack s' = stack s /\ 0 <= fwd s' /\ fwd s' + lo <= d /\
  exists fee, memoryGasCost (memory s) n = ((fee, None), memory s').

(** The entries whose operations use no memory, and those that create. *)
Definition nomem (i : nat) : bool :=
  bool_decide (i ∈ [Z.to_nat EXP; Z.to_nat SSTORE; Z.to_nat SLOAD; Z.to_nat EXTCODESIZE;
                    Z.to_nat EXTCODEHASH; Z.to_nat BALANCE]).
Definition creates (i : nat) : bool := bool_decide (i ∈ [Z.to_nat CREATE; Z.to_nat CREATE2]).

Record live (i : nat) (o : operation) : Prop := {
  lv_exec : exec_ok (fwd_at i) (execute o);
  lv_cost : exists lo, 0 <= lo /\ 1 <= constantGas o + lo /\
    match dynamicGas o with
    | None => lo = 0 /\ forall s, fwd_at i s = 0
    | Some g => dyn_ok (fwd_at i) lo (memorySize o) g
    end;
  lv_nomem : nomem i = true -> memorySize o = None;
  lv_creates : creates i = true -> 1 <= constantGas o;
}.

Record op_gas (i : nat) (o : operation) : Prop := {
  og_constant : 0 <= constantGas o;
  og_dynamic : forall g, dynamicGas o = Some g -> gas_total g /\ nonneg g;
  og_size : forall f, memorySize o = Some f -> size_ok f;
  og_live : (forall env evm, halts (execute o env evm)) \/
    (i <> Z.to_nat SELFDESTRUCT /\ live i o);
}.
End Contract.

(** * Memory sizes *)
Section Sizes.
Context {L : Libs} {RP : AspectReports}.

Lemma calcMemSize64WithUint_u64 off n : is_u64 (calcMemSize64WithUint off n).1.
Proof.
  unfold calcMemSize64WithUint. destruct (n =? 0); [done|].
  destruct (uint256.Uint64WithOverflow off) as [v []]; [done|apply u64_range].
Qed.
Lemma calcMemSize64_u64 off l : is_u64 (calcMemSize64 off l).1.
Proof.
  unfold calcMemSize64. destruct (negb _); [done|apply calcMemSize64WithUint_u64].
Qed.

(** Sizes computed from stack items. *)
Definition sized (r : res (Z * bool)) : Prop :=
  match r with Ret (n, _) => is_u64 n | Panicked _ => True | OutOfFuel => False end.
Lemma sized_Back st n k : (forall x, sized (k x)) -> sized (let? x := Back st n in k x).
Proof.
  intros Hk. pose proof (at_index_fuel st (slen st - n - 1)) as Hf. unfold Back.
  destruct (at_index _ _); [apply Hk|done|done].
Qed.
Lemma sized_calc off l : sized (Ret (calcMemSize64 off l)).
Proof.
  pose proof (calcMemSize64_u64 off l) as H. unfold sized. by destruct (calcMemSize64 off l).
Qed.
Lemma sized_calcWithUint off n : sized (Ret (calcMemSize64WithUint off n)).
Proof.
  pose proof (calcMemSize64WithUint_u64 off n) as H. unfold sized.
  by destruct (calcMemSize64WithUint off n).
Qed.
Lemma maxRegion_sized st a b c d : sized (maxRegion st a b c d).
Proof.
  unfold maxRegion. do 2 (apply sized_Back; intros ?).
  match goal with |- context [calcMemSize64 ?x ?y] =>
    pose proof (calcMemSize64_u64 x y); destruct (calcMemSize64 x y) as [u []] end; [done|].
  do 2 (apply sized_Back; intros ?).
  match goal with |- context [calcMemSize64 ?x ?y] =>
    pose proof (calcMemSize64_u64 x y); destruct (calcMemSize64 x y) as [w []] end; [done|].
  by destruct (w <? u).
Qed.
End Sizes.

Create HintDb gas.
(** The gas functions that are an instance of another one. *)
#[export] Hint Constants Opaque : gas.
#[export] Hint Transparent gasCallDataCopy gasCodeCopy gasMcopy gasExtCodeCopy gasReturnDataCopy
  gasReturn gasRevert gasMLoad gasMStore8 gasMStore gasCreate gasSStoreEIP2929 gasSStoreEIP3529
  gasSelfdestructEIP2929 gasSelfdestructEIP3529 : gas.
#[export] Hint Resolve memoryCopierGas_total makeGasLog_total makeGasJournal_total
  gasKeccak256_total pureMemoryGascost_total gasCreate2_total gasCreateEip3860_total
  gasCreate2Eip3860_total gasExpFrontier_total gasExpEIP158_total gasCall_total gasCallCode_total
  gasDelegateCall_total gasStaticCall_total gasSelfdestruct_total gasSStore_total
  gasSStoreEIP2200_total makeGasSStoreFunc_total gasSLoadEIP2929_total
  gasExtCodeCopyEIP2929_total gasEip2929AccountCheck_total makeSelfdestructGasFn_total : gas.
#[export] Hint Extern 1 (size_ok _) =>
  (intros ?; first [apply maxRegion_sized
    |repeat (apply sized_Back; intros ?); first [apply sized_calc|apply sized_calcWithUint]]) : gas.
#[export] Hint Resolve memoryCopierGas_prices makeGasLog_prices gasKeccak256_prices
  pureMemoryGascost_prices gasCreate2_prices gasCreateEip3860_prices gasCreate2Eip3860_prices
  gasExtCodeCopyEIP2929_prices makeGasJournal_keeps gasExpFrontier_keeps gasExpEIP158_keeps
  gasSStore_keeps gasSStoreEIP2200_keeps makeGasSStoreFunc_keeps gasSLoadEIP2929_keeps
  gasEip2929AccountCheck_keeps : gas.
#[export] Hint Resolve memoryCopierGas_charges makeGasLog_charges makeGasJournal_charges
  gasKeccak256_charges pureMemoryGascost_charges gasCreate2_charges gasCreateEip3860_charges
  gasCreate2Eip3860_charges gasExpFrontier_charges gasExpEIP158_charges gasSStore_charges
  gasSStoreEIP2200_charges makeGasSStoreFunc_charges gasSLoadEIP2929_charges
  gasExtCodeCopyEIP2929_charges gasEip2929AccountCheck_charges charges0_nonneg charges1_nonneg
  gasSelfdestruct_nonneg makeSelfdestructGasFn_nonneg gasCall_nonneg gasCallCode_nonneg
  gasDelegateCall_nonneg gasStaticCall_nonneg makeCallVariant_nonneg : gas.

(** * Entries *)
Section Entries.
Context {L : Libs} {RP : AspectReports} {US : uint256.Spec} {MS : math.Spec} {PS : params.Spec} {RS : runtime.Spec}.

Definition special : list nat :=
  [Z.to_nat CALL; Z.to_nat CALLCODE; Z.to_nat DELEGATECALL; Z.to_nat STATICCALL;
   Z.to_nat CREATE; Z.to_nat CREATE2; Z.to_nat SELFDESTRUCT].
Lemma fwd_plain i : bool_decide (i ∈ special) = false -> fwd_at i = fun _ => 0.
Proof.
  intros H%bool_decide_eq_false. unfold fwd_at. rewrite !bool_decide_eq_false_2; [done|..]; unfold special in H; set_solver.
Qed.

Lemma dyn_ok_prices lo g mem : charges lo g -> prices g -> dyn_ok (fun _ => 0) lo mem g.
Proof.
  intros Hc Hp env n s d s' _ _ _ _ _ H. destruct (Hc _ _ _ _ _ H) as (H1 & _ & H3 & H4).
  split_and!; [done|done|lia|lia|by eapply Hp].
Qed.
Lemma memoryGasCost_zero m : memoryGasCost m 0 = ((0, None), m).
Proof. done. Qed.
Lemma dyn_ok_keeps lo g mem : mem = None -> charges lo g -> keeps g -> dyn_ok (fun _ => 0) lo mem g.
Proof.
  intros Hm Hc Hk env n s d s' _ _ _ _ Hn H. destruct (Hc _ _ _ _ _ H) as (H1 & _ & H3 & H4).
  rewrite (Hn Hm), (Hk _ _ _ _ _ H).
  split_and!; [done|done|lia|lia|exists 0; apply memoryGasCost_zero].
Qed.
Lemma dyn_ok_forwards K fwd g mem : forwards K fwd g -> dyn_ok fwd 0 mem g.
Proof.
  intros Hf env n s d s' H1 H2 H3 H4 _ H.
  destruct (Hf _ _ _ _ _ H1 H2 H3 H4 H) as (? & ? & ? & _ & ?). split_and!; [done|done|lia|lia|done].
Qed.

(** A plain operation: it leaves the gas alone and costs something. *)
Lemma op_gas_plain i o lo :
  bool_decide (i ∈ special) = false -> (forall env evm, tame (execute o env evm)) -> 0 <= constantGas o -> 0 <= lo ->
  1 <= constantGas o + lo ->
  match dynamicGas o with
  | None => lo = 0
  | Some g => gas_total g /\ charges lo g /\ (prices g \/ (memorySize o = None /\ keeps g))
  end ->
  (forall f, memorySize o = Some f -> size_ok f) -> (nomem i = true -> memorySize o = None) ->
  op_gas i o.
Proof.
  intros Hi He Hc Hlo H1 Hg Hs Hn. split; [done| |done|right; split; [|split]].
  - intros g E. rewrite E in Hg. split; [apply Hg|]. intros env n s d s' H. apply Hg in H. lia.
  - apply bool_decide_eq_false in Hi. unfold special in Hi. set_solver.
  - by apply exec_ok_tame.
  - exists lo. split_and!; [done|done|]. rewrite fwd_plain by done.
    destruct (dynamicGas o); [|done]. destruct Hg as (_ & Hc' & [Hp|[Hm Hk]]).
    + by apply dyn_ok_prices.
    + by apply dyn_ok_keeps.
  - done.
  - intros Hcr%bool_decide_eq_true. apply bool_decide_eq_false in Hi. unfold special in Hi.
    set_solver.
Qed.
Lemma op_gas_halt i o :
  (forall env evm, halts (execute o env evm)) -> 0 <= constantGas o ->
  (forall g, dynamicGas o = Some g -> gas_total g /\ nonneg g) ->
  (forall f, memorySize o = Some f -> size_ok f) -> op_gas i o.
Proof. intros. split; [done|done|done|by left]. Qed.
(** A call or a creation. *)
Lemma op_gas_special i o g f :
  i <> Z.to_nat SELFDESTRUCT -> exec_ok (fwd_at i) (execute o) -> 1 <= constantGas o ->
  dynamicGas o = Some g -> gas_total g -> nonneg g -> dyn_ok (fwd_at i) 0 (Some f) g ->
  memorySize o = Some f -> size_ok f -> nomem i = false -> op_gas i o.
Proof.
  intros Hi He Hc Eg Hg Hp Hd Ef Hf Hn.
  split; [lia|intros g'; by rewrite Eg; intros [= <-]|intros f'; by rewrite Ef; intros [= <-]|].
  right. split; [done|]. split; [done| |congruence|done].
  exists 0. rewrite Eg, Ef. split_and!; [lia|lia|done].
Qed.
End Entries.

(** Solve an entry of a table. *)
Ltac head_of_op t := match t with ?f _ => head_of_op f | _ => t end.
Ltac not_listed := vm_compute; reflexivity.
Ltac open_op :=
  intros ? ?; cbn [execute];
  match goal with |- _ ?t => let h := head_of_op t in unfold h end; cbv beta zeta; solve_tame.
Ltac price :=
  autorewrite with params;
  unfold GasQuickStep, GasFastestStep, GasFastStep, GasMidStep, GasSlowStep, GasExtStep; lia.
Ltac solve_op_gas lo :=
  apply (op_gas_plain _ _ lo);
  [not_listed|open_op|cbn [constantGas]; price|lia|cbn [constantGas]; price|
   cbn [dynamicGas memorySize];
   first [reflexivity|split_and!; [by eauto with gas|by eauto with gas|
     first [right; split; [done|by eauto with gas]|left; by eauto with gas]]]|
   cbn [memorySize]; intros ?; first [by discriminate 1|intros [= <-]; by eauto with gas]|
   cbn [memorySize]; intros ?; first [done|exfalso; by vm_compute]].

Ltac entry_gas :=
  first [solve_op_gas 0|solve_op_gas 1
        |apply op_gas_halt; [open_op|done|cbn [dynamicGas]; intros ? [= <-]; split; by eauto with gas
                            |cbn [memorySize]; intros ? [= <-]; by eauto with gas]].

Section Frontier.
Context {L : Libs} {RP : AspectReports} {US : uint256.Spec} {MS : math.Spec} {PS : params.Spec} {RS : runtime.Spec}.

Lemma frontierArithmetic_gas : Forall (fun e => op_gas (Z.to_nat e.1) e.2) frontierArithmetic.
Proof. unfold frontierArithmetic. each_entry entry_gas. Qed.
Lemma frontierComparison_gas : Forall (fun e => op_gas (Z.to_nat e.1) e.2) frontierComparison.
Proof. unfold frontierComparison. each_entry entry_gas. Qed.
Lemma frontierEnvironment_gas : Forall (fun e => op_gas (Z.to_nat e.1) e.2) frontierEnvironment.
Proof. unfold frontierEnvironment. each_entry entry_gas. Qed.
Lemma frontierBlock_gas : Forall (fun e => op_gas (Z.to_nat e.1) e.2) frontierBlock.
Proof. unfold frontierBlock. each_entry entry_gas. Qed.
Lemma frontierMemory_gas : Forall (fun e => op_gas (Z.to_nat e.1) e.2) frontierMemory.
Proof. unfold frontierMemory. each_entry entry_gas. Qed.
Lemma frontierPush_gas : Forall (fun e => op_gas (Z.to_nat e.1) e.2) frontierPush.
Proof. unfold frontierPush. each_entry entry_gas. Qed.
Lemma frontierPush2_gas : Forall (fun e => op_gas (Z.to_nat e.1) e.2) frontierPush2.
Proof. unfold frontierPush2. each_entry entry_gas. Qed.
Lemma frontierDup_gas : Forall (fun e => op_gas (Z.to_nat e.1) e.2) frontierDup.
Proof. unfold frontierDup. each_entry entry_gas. Qed.
Lemma frontierSwap_gas : Forall (fun e => op_gas (Z.to_nat e.1) e.2) frontierSwap.
Proof. unfold frontierSwap. each_entry entry_gas. Qed.
Lemma frontierLog_gas : Forall (fun e => op_gas (Z.to_nat e.1) e.2) frontierLog.
Proof. unfold frontierLog. each_entry entry_gas. Qed.
Lemma frontierJournal_gas : Forall (fun e => op_gas (Z.to_nat e.1) e.2) frontierJournal.
Proof. unfold frontierJournal. each_entry entry_gas. Qed.

Lemma fwd_at_call : fwd_at (Z.to_nat CALL) = fwd_value.
Proof. done. Qed.
Lemma fwd_at_callcode : fwd_at (Z.to_nat CALLCODE) = fwd_value.
Proof. done. Qed.
Lemma fwd_at_delegatecall : fwd_at (Z.to_nat DELEGATECALL) = fwd_temp.
Proof. done. Qed.
Lemma fwd_at_staticcall : fwd_at (Z.to_nat STATICCALL) = fwd_temp.
Proof. done. Qed.
Lemma fwd_at_create : fwd_at (Z.to_nat CREATE) = fun _ => 0.
Proof. done. Qed.
Lemma fwd_at_create2 : fwd_at (Z.to_nat CREATE2) = fun _ => 0.
Proof. done. Qed.
End Frontier.

#[export] Hint Rewrite @fwd_at_call @fwd_at_callcode @fwd_at_delegatecall @fwd_at_staticcall
  @fwd_at_create @fwd_at_create2 : fwd.
#[export] Hint Resolve opCall_ok opCallCode_ok opDelegateCall_ok opStaticCall_ok opCreate_ok
  opCreate2_ok gasCall_forwards gasCallCode_forwards gasDelegateCall_forwards
  gasStaticCall_forwards : gas.
#[export] Hint Resolve dyn_ok_forwards dyn_ok_prices : gas.
Ltac special_gas :=
  eapply op_gas_special;
  [by vm_compute|autorewrite with fwd; cbn [execute]; by eauto with gas|cbn [constantGas]; price
  |reflexivity|by eauto with gas|by eauto with gas|autorewrite with fwd; by eauto with gas|reflexivity
  |by eauto with gas|by vm_compute].

Section Forks.
Context {L : Libs} {RP : AspectReports} {US : uint256.Spec} {MS : math.Spec} {PS : params.Spec} {RS : runtime.Spec}.

Lemma frontierSystem_gas : Forall (fun e => op_gas (Z.to_nat e.1) e.2) frontierSystem.
Proof. unfold frontierSystem. each_entry (first [special_gas|entry_gas]). Qed.
Lemma forkEntries_gas : Forall (fun e => op_gas (Z.to_nat e.1) e.2) forkEntries.
Proof. unfold forkEntries. each_entry (first [special_gas|entry_gas]). Qed.

(** Changing the costs of an entry. *)
Lemma op_gas_change i c g o :
  0 <= c -> gas_total g -> nonneg g ->
  (i <> Z.to_nat SELFDESTRUCT -> live i o ->
    (creates i = true -> 1 <= c) /\
    exists lo, 0 <= lo /\ 1 <= c + lo /\ dyn_ok (fwd_at i) lo (memorySize o) g) ->
  op_gas i o -> op_gas i (set_dynamicGas g (set_constantGas c o)).
Proof.
  intros Hc Hg Hp Hd [H1 H2 H3 H4].
  split; [done|by intros g' [= <-]|exact H3|]. destruct H4 as [H4|[Hi Hl]]; [by left|].
  right. split; [done|]. destruct (Hd Hi Hl) as [Hcr Hx]. by split; try apply Hl.
Qed.
Lemma op_gas_dynamic i g o :
  gas_total g -> nonneg g ->
  (i <> Z.to_nat SELFDESTRUCT -> live i o ->
    exists lo, 0 <= lo /\ 1 <= constantGas o + lo /\ dyn_ok (fwd_at i) lo (memorySize o) g) ->
  op_gas i o -> op_gas i (set_dynamicGas g o).
Proof.
  intros Hg Hp Hd Ho. assert (E : set_dynamicGas g o = set_dynamicGas g (set_constantGas (constantGas o) o)) by done.
  rewrite E. apply op_gas_change; [apply Ho|done|done| |done]. intros Hi Hl.
  split; [apply (lv_creates _ _ Hl)|by apply Hd].
Qed.
Lemma op_gas_constant i c o : 1 <= c -> op_gas i o -> op_gas i (set_constantGas c o).
Proof.
  intros Hc [H1 H2 H3 H4]. split; [cbn; lia|exact H2|exact H3|].
  destruct H4 as [H4|[Hi Hl]]; [by left|]. right. split; [done|].
  destruct (lv_cost _ _ Hl) as (lo & L1 & L2 & L3).
  split; [apply Hl| |apply Hl|done]. exists lo. split_and!; [done|cbn; lia|exact L3].
Qed.

Lemma constantChanges_gas : Forall (fun e => forall o, op_gas (Z.to_nat e.1) o ->
  op_gas (Z.to_nat e.1) (set_constantGas e.2 o)) constantChanges.
Proof. unfold constantChanges. each_entry (intros ?; apply op_gas_constant; price). Qed.

(** The new cost of an entry without memory, of a call, of a creation. *)
Lemma plain_change i lo g o c :
  bool_decide (i ∈ special) = false -> nomem i = true -> charges lo g -> keeps g -> 0 <= lo ->
  1 <= c + lo -> live i o ->
  exists lo, 0 <= lo /\ 1 <= c + lo /\ dyn_ok (fwd_at i) lo (memorySize o) g.
Proof.
  intros Hi Hn Hg Hk H0 H1 Hl. exists lo. split_and!; [done|done|]. rewrite fwd_plain by done.
  by apply dyn_ok_keeps; [apply (lv_nomem _ _ Hl)|..].
Qed.
Lemma special_change i g o c :
  (forall mem, dyn_ok (fwd_at i) 0 mem g) -> 1 <= c ->
  exists lo, 0 <= lo /\ 1 <= c + lo /\ dyn_ok (fwd_at i) lo (memorySize o) g.
Proof. intros Hd Hc. exists 0. split_and!; [done|lia|apply Hd]. Qed.
Lemma charges_weaken lo lo' g : lo' <= lo -> charges lo g -> charges lo' g.
Proof. intros Hl Hg env n s d s' H. destruct (Hg _ _ _ _ _ H) as (? & ?). split; [lia|done]. Qed.

Lemma dynamicChanges_gas : Forall (fun e => forall o, op_gas (Z.to_nat e.1) o ->
  op_gas (Z.to_nat e.1) (set_dynamicGas e.2 o)) dynamicChanges.
Proof.
  unfold dynamicChanges.
  each_entry (intros o Ho; apply op_gas_dynamic; [by eauto with gas|by eauto with gas| |exact Ho];
    intros Hi Hl; pose proof (og_constant _ _ Ho);
    first [by destruct Hi
          |eapply (plain_change _ 1); [by vm_compute|by vm_compute|by eauto with gas|by eauto with gas|lia|lia|done]
          |eapply special_change; [intros mem; autorewrite with fwd; by eauto with gas
                                  |by apply (lv_creates _ _ Hl)]]).
Qed.
Lemma call2929_forwards fwd g mem :
  (forall s s', mach s = mach s' -> stack s = stack s' -> fwd s = fwd s') ->
  forwards (2 ^ 57) fwd g -> dyn_ok fwd 0 mem (makeCallVariantGasCallEIP2929 g).
Proof. intros Hext Hg. by eapply dyn_ok_forwards, makeCallVariant_forwards. Qed.
Lemma fwd_value_ext s s' : mach s = mach s' -> stack s = stack s' -> fwd_value s = fwd_value s'.
Proof. unfold fwd_value, stipend. by intros -> ->. Qed.
Lemma fwd_temp_ext s s' : mach s = mach s' -> stack s = stack s' -> fwd_temp s = fwd_temp s'.
Proof. unfold fwd_temp. by intros -> _. Qed.
End Forks.
#[export] Hint Resolve call2929_forwards fwd_value_ext fwd_temp_ext makeCallVariant_total
  gasCall_hands_off gasCallCode_hands_off gasDelegateCall_hands_off gasStaticCall_hands_off : gas.
#[export] Hint Transparent gasCallEIP2929 gasCallCodeEIP2929 gasDelegateCallEIP2929
  gasStaticCallEIP2929 : gas.

Section Closed.
Context {L : Libs} {RP : AspectReports} {US : uint256.Spec} {MS : math.Spec} {PS : params.Spec} {RS : runtime.Spec}.

Lemma bothChanges_gas : Forall (fun e => forall o, op_gas (Z.to_nat e.1) o ->
  op_gas (Z.to_nat e.1) (set_dynamicGas e.2.2 (set_constantGas e.2.1 o))) bothChanges.
Proof.
  unfold bothChanges. cbv zeta.
  each_entry (intros o; apply op_gas_change; [price|by eauto with gas|by eauto with gas|];
    intros Hi Hl; first [by destruct Hi|split; [by intros ?|]];
    first [eapply (plain_change _ 1); [by vm_compute|by vm_compute|by eauto with gas|by eauto with gas|lia|price|done]
          |eapply (plain_change _ 0); [by vm_compute|by vm_compute|by eauto with gas|by eauto with gas|lia|price|done]
          |eapply special_change; [intros mem; autorewrite with fwd; by eauto with gas|price]]).
Qed.

Lemma undefinedOp_gas i : op_gas i undefinedOp.
Proof. unfold undefinedOp. apply op_gas_halt; [open_op|done|done|done]. Qed.

Lemma op_gas_closed : closed op_gas.
Proof.
  split.
  - apply undefinedOp_gas.
  - unfold frontierEntries. rewrite !Forall_app.
    split_and!; [apply frontierArithmetic_gas|apply frontierComparison_gas
      |apply frontierEnvironment_gas|apply frontierBlock_gas|apply frontierMemory_gas
      |apply frontierPush_gas|apply frontierPush2_gas|apply frontierDup_gas|apply frontierSwap_gas
      |apply frontierLog_gas|apply frontierJournal_gas|apply frontierSystem_gas].
  - apply forkEntries_gas.
  - apply constantChanges_gas.
  - apply dynamicChanges_gas.
  - apply bothChanges_gas.
Qed.
Lemma NewEVMInterpreter_gas rules eips jt active :
  NewEVMInterpreter rules eips = Ret (jt, active) -> table_all op_gas jt.
Proof. apply NewEVMInterpreter_closed, op_gas_closed. Qed.
End Closed.
