(* ===== verification/Termination.v ===== *)
(** Termination and gas of the interpreter: a run with enough fuel for its gas
    returns, with no more gas than it got, and its memory is paid for at every
    step. *)
From S2P Require Import Prelude Opcodes Errors Externals Stack Memory Analysis Contract Tracer.
From S2P Require Import Machine Gas Instructions JumpTable Precompiles Evm Logic Tables Quiet.
From S2P Require Import GasSpec CallGas OpGas CallCost ExecGas Budget Fuel StackSafety Sample.

Section Termination.
Context {L : Libs} {RP : AspectReports} {US : uint256.Spec} {MS : math.Spec} {PS : params.Spec} {RS : runtime.Spec}.
Context {CS : StateDB.CodeSpec} {AS : aspect.GasSpec}.
Variable env : Env.
Hypothesis eip150 : params.IsEIP150 (chainRules env) = true.
Variable table : JumpTable.
Hypothesis Htable : table_all op_gas table.

(** The invariant of a frame between two iterations. *)
Record frame_ok (s : St) : Prop := {
  fo_fit : fit s;
  fo_memory : mem_priced (memory s);
  fo_gas : is_u64 (Gas (contract s));
}.

(** What an iteration does to a frame that has [G] gas. *)
Definition step_ok (G : Z) (it : Iter) (s' : St) : Prop :=
  match it with
  | Next => frame_ok s' /\ Gas (contract s') < G
  | Halted _ _ _ => 0 <= Gas (contract s') <= G
  end.

Section Calls.
Variable B : Z.
Variable evm : EVMCalls.
Hypothesis HB : B <= 2 ^ 64.
Hypothesis Hevm : calls_ok B evm.

(** Executing an operation that ends the frame. *)
Lemma executeOp_halts o info s G :
  (forall env evm, halts (execute o env evm)) -> fit s -> 0 <= Gas (contract s) <= G ->
  wp (executeOp env evm o info) s (step_ok G).
Proof.
  intros Hh Hs Hg. unfold executeOp. apply wp_bind. eapply wp_mono; [by apply Hh|]. cbn beta.
  intros [r [e|]] s' [Hr [H1 _ _]]; [|done]. apply wp_ret. cbn. by rewrite H1.
Qed.
(** Executing another one, after the frame paid for it. *)
Lemma executeOp_ok i o info s G :
  live i o -> frame_ok s -> G <= B -> 0 <= fwd_at i s -> Gas (contract s) + fwd_at i s < G ->
  wp (executeOp env evm o info) s (step_ok G).
Proof.
  intros Hl Hs HG H0 H1. pose proof (fo_gas _ Hs) as Hg. unfold is_u64 in Hg.
  unfold executeOp. apply wp_bind.
  eapply wp_mono; [eapply (lv_exec _ _ Hl); try done; try lia; apply Hs|]. cbn beta.
  intros [r [e|]] s' [A1 A2 A3].
  - apply wp_ret. cbn. lia.
  - apply wp_bind, wp_modify, wp_ret. split; [|change (Gas (contract s') < G); lia].
    split; [|exact (A3 (fo_memory _ Hs))|change (is_u64 (Gas (contract s'))); unfold is_u64; lia].
    unfold fit. change (len (Code (contract s')) < 2 ^ 63). rewrite A2. apply Hs.
Qed.

(** The memory an operation asks for is a whole number of words. *)
Lemma requestedMemory_ok i o s (Q : option Z -> St -> Prop) :
  op_gas i o -> Q None s ->
  (forall n, is_u64 n -> n = 32 * (n / 32) -> (memorySize o = None -> n = 0) -> Q (Some n) s) ->
  wp (requestedMemory o) s Q.
Proof.
  intros Ho HN HS. unfold requestedMemory. destruct (memorySize o) as [f|] eqn:E.
  2:{ apply wp_ret. by apply HS. }
  apply wp_bind, wp_gets, wp_bind. pose proof (og_size _ _ Ho f E (stack s)) as Hf.
  destruct (f (stack s)) as [[n ov]| |]; [|done..]. cbn [liftR rbind]. unfold wp at 1.
  cbn. destruct ov; [done|]. destruct (math.SafeMul (toWordSize n) 32) as [z []] eqn:Em; [done|].
  apply SafeMul_inv in Em as [-> Hz]; [|by apply toWordSize_u64|done].
  apply HS; [done|rewrite Z.div_mul by lia; lia|done].
Qed.

(** Memory that was priced and resized is paid for. *)
Lemma resize_ok m n fee m1 (Q : Memory -> Prop) :
  mem_priced m -> is_u64 n -> n = 32 * (n / 32) -> memoryGasCost m n = ((fee, None), m1) ->
  (forall m2, mem_priced m2 -> Q m2) ->
  if 0 <? n then match Resize m1 n with Ret m2 => Q m2 | _ => False end else Q m1.
Proof.
  intros Hm Hn Hw Hf HQ. destruct (Z.ltb_spec 0 n) as [Hp|Hz].
  - destruct (Z.le_gt_cases n 0x1FFFFFFFE0) as [Hle|Hgt].
    + destruct (price_then_resize m n Hm Hn Hle) as (f' & m1' & m2 & H1 & H2 & H3 & _).
      rewrite Hf in H1. injection H1 as <- <-.
      assert (Ew : 32 * toWordSize n = n).
      { rewrite toWordSize_ceil by done.
        rewrite <- (Z.div_unique (n + 31) 32 (n / 32) 31) by lia. lia. }
      rewrite Ew in H2. rewrite H2. by apply HQ.
    + rewrite memoryGasCost_spec in Hf by done. revert Hf. by zbool.
  - unfold is_u64 in Hn. assert (n = 0) as -> by lia. injection Hf as _ <-. by apply HQ.
Qed.

(** What is forwarded does not depend on the rest of the frame. *)
Lemma fwd_at_ext i s s' :
  callGasTemp (mach s) = callGasTemp (mach s') -> stack s = stack s' ->
  fwd_at i s = fwd_at i s'.
Proof.
  intros H1 H2. unfold fwd_at, fwd_value, fwd_temp, stipend.
  repeat destruct (bool_decide _); by rewrite ?H1, ?H2.
Qed.
Lemma emit_callGasTemp e m : callGasTemp (emit env e m) = callGasTemp m.
Proof. unfold emit. by destruct (hasTracer env). Qed.

(** After the charges: log, resize, execute. *)
Definition charged (o : operation) (info info' : StepInfo) (n : Z) : ST St Iter :=
  captureState env info ;;;
  (if 0 <? n then onMemory (fun m => Resize m n) else ret tt) ;;;
  executeOp env evm o info'.

Lemma charged_halts o info info' n s G :
  (forall env evm, halts (execute o env evm)) -> fit s -> 0 <= Gas (contract s) <= G ->
  wp (charged o info info' n) s (step_ok G).
Proof.
  intros Hh Hs Hg. apply wp_bind, wp_modify, wp_bind. destruct (0 <? n).
  - apply wp_onMemory; [apply quiet_Resize|]. intros m2 _. by apply executeOp_halts.
  - apply wp_ret. by apply executeOp_halts.
Qed.
Lemma charged_ok i o info info' n s G fee m0 :
  live i o -> fit s -> is_u64 (Gas (contract s)) -> mem_priced m0 -> is_u64 n ->
  n = 32 * (n / 32) -> memoryGasCost m0 n = ((fee, None), memory s) ->
  G <= B -> 0 <= fwd_at i s -> Gas (contract s) + fwd_at i s < G ->
  wp (charged o info info' n) s (step_ok G).
Proof.
  intros Hl Hs Hg Hm Hn Hw Hf HG Hf0 Hfwd. apply wp_bind, wp_modify, wp_bind.
  match goal with |- wp _ (set_mach ?x _) _ =>
    assert (Ht : callGasTemp x = callGasTemp (mach s)) by apply emit_callGasTemp;
    generalize dependent x; intros mx Ht end.
  pose proof (resize_ok _ _ _ _ mem_priced Hm Hn Hw Hf (fun _ H => H)) as Hr.
  assert (Hexec : forall m, mem_priced m ->
    wp (executeOp env evm o info') (set_memory m (set_mach mx s)) (step_ok G)).
  { intros m Hp. eapply executeOp_ok; try done;
      rewrite (fwd_at_ext i (set_memory m (set_mach mx s)) s) by done; done. }
  destruct (0 <? n).
  - apply wp_onMemory; [apply quiet_Resize|]. intros m2 E.
    change (Resize (memory s) n = Ret m2) in E. rewrite E in Hr. by apply Hexec.
  - apply wp_ret. specialize (Hexec _ Hr). by destruct s as [? ? []].
Qed.

(** Paying a cost. *)
Lemma wp_pay c s (Q : bool -> St -> Prop) :
  is_u64 (Gas (contract s)) -> fit s -> 0 <= c ->
  (forall s1, Gas (contract s1) = Gas (contract s) -> Q false s1) ->
  (forall s1, Gas (contract s1) = Gas (contract s) - c -> c <= Gas (contract s) ->
    fit s1 -> stack s1 = stack s -> memory s1 = memory s -> mach s1 = mach s -> Q true s1) ->
  wp (useGas_ c) s Q.
Proof.
  intros Hg Hs Hc HF HT. unfold is_u64 in Hg.
  apply wp_useGas. unfold UseGas. destruct (Z.ltb_spec (Gas (contract s)) c).
  - by apply HF.
  - apply HT; try done. change (u64 (Gas (contract s) - c) = Gas (contract s) - c).
    apply u64_small. unfold is_u64. lia.
Qed.

(** The part of an iteration behind the constant cost, for an operation with a
    dynamic one. *)
Lemma dynamic_ok i o g s s1 cost mk :
  op_gas i o -> dynamicGas o = Some g -> frame_ok s -> Gas (contract s) <= B ->
  Gas (contract s1) = Gas (contract s) - constantGas o -> constantGas o <= Gas (contract s) ->
  fit s1 -> memory s1 = memory s ->
  wp (let* sz := requestedMemory o in
      match sz with
      | None => ret (Halted [] ErrGasUintOverflow (mk cost false))
      | Some memorySize =>
          let* (dynamicCost, err) := g env memorySize in
          let cost := u64 (cost + dynamicCost) in
          let info := mk cost false in
          let* ok := (if is_nil err then useGas_ dynamicCost else ret false) in
          if negb ok then ret (Halted [] ErrOutOfGas info)
          else charged o info (mk cost true) memorySize
      end) s1 (step_ok (Gas (contract s))).
Proof.
  intros Ho Ed Hs HG E1 Hc F1 M1. pose proof (fo_gas _ Hs) as Hg. unfold is_u64 in Hg.
  pose proof (og_constant _ _ Ho) as Hc0. destruct (og_dynamic _ _ Ho g Ed) as [Ht Hp].
  assert (Hu : is_u64 (Gas (contract s1))) by (unfold is_u64; lia).
  apply wp_bind. eapply requestedMemory_ok; [done|apply wp_ret; cbn; lia|]. intros n Hn Hw Hz.
  apply wp_bind. eapply wp_run; [exact (Ht env n s1 Hu)|]. cbn beta.
  intros [d e] s2 Eg [Hgas Hcode]. cbv zeta. apply wp_bind.
  destruct e as [e|]; cbn [is_nil]; [apply wp_ret, wp_ret; cbn; lia|].
  pose proof (Hp _ _ _ _ _ Eg) as Hd0. apply wp_pay; [unfold is_u64; lia| |done|..].
  { unfold fit. by rewrite Hcode. }
  { intros s3 E3. apply wp_ret. cbn. lia. }
  intros s3 E3 H3 F3 S3 M3 X3. cbn [negb]. destruct (og_live _ _ Ho) as [Hh|[_ Hl]].
  { apply charged_halts; [done|done|lia]. }
  destruct (lv_cost _ _ Hl) as (lo & L0 & L1 & L2). rewrite Ed in L2.
  destruct (L2 env n s1 d s2) as (D1 & D2 & D3 & D4 & fee & D5); try done.
  { rewrite M1. apply Hs. }
  rewrite D1 in *. rewrite (fwd_at_ext _ s2 s3) in D3, D4 by congruence.
  eapply (charged_ok _ _ _ _ _ _ _ fee (memory s1)); try done; try lia.
  - unfold is_u64. lia.
  - rewrite M1. apply Hs.
  - by rewrite M3.
Qed.

Lemma iteration_ok s :
  frame_ok s -> Gas (contract s) <= B ->
  wp (iteration env table evm) s (step_ok (Gas (contract s))).
Proof.
  intros Hs HG. pose proof (fo_gas _ Hs) as Hg. unfold is_u64 in Hg.
  unfold iteration. apply wp_bind, wp_gets, wp_bind, wp_gets, wp_bind.
  apply wp_liftR; [by apply quiet_GetOp|]. intros op _.
  destruct (table !! Z.to_nat op) as [[o|]|] eqn:Eo; [|done..]. apply Htable in Eo as Ho.
  apply wp_bind, wp_gets. cbv zeta. destruct (_ <? _); [apply wp_ret; cbn; lia|].
  destruct (_ <? _); [apply wp_ret; cbn; lia|]. apply wp_bind.
  apply wp_pay; [done|apply Hs|apply Ho|intros s1 E1; apply wp_ret; cbn; lia|].
  intros s1 E1 Hc F1 S1 M1 X1. cbn [negb]. pose proof (og_constant _ _ Ho) as Hc0.
  destruct (dynamicGas o) as [g|] eqn:Ed.
  { by eapply (dynamic_ok _ _ _ _ _ _ (fun cost l => mkInfo op cost (pc s) (Gas (contract s)) l)). }
  apply wp_bind, wp_modify. destruct (og_live _ _ Ho) as [Hh|[_ Hl]].
  { apply executeOp_halts; [done|exact F1|]. change (contract (set_mach _ s1)) with (contract s1). lia. }
  destruct (lv_cost _ _ Hl) as (lo & L0 & L1 & L2). rewrite Ed in L2. destruct L2 as [-> L2].
  eapply executeOp_ok; try done; rewrite ?L2; [|lia|].
  - split; [exact F1|exact (eq_ind_r mem_priced (fo_memory _ Hs) M1)|].
    change (is_u64 (Gas (contract s1))). unfold is_u64. lia.
  - change (contract (set_mach _ s1)) with (contract s1). lia.
Qed.

Lemma loop_ok n : forall s,
  frame_ok s -> Gas (contract s) <= B -> Gas (contract s) < Z.of_nat n ->
  wp (loop env table evm n) s (fun _ s' => 0 <= Gas (contract s') <= Gas (contract s)).
Proof.
  induction n as [|n IH]; intros s Hs HG Hn.
  { pose proof (fo_gas _ Hs). unfold is_u64 in *. lia. }
  cbn [loop]. apply wp_bind. eapply wp_mono; [by apply iteration_ok|]. cbn beta.
  intros [|r e info] s' Hstep; cbn in Hstep; [|by apply wp_ret]. destruct Hstep as [Hs' Hlt].
  eapply wp_mono; [apply IH; [done|lia|lia]|]. cbn beta. lia.
Qed.
End Calls.

(** Fuel above the gas is enough, for the loop and for every nested call. *)
Lemma Run_ok n : runner_ok (Z.min (Z.of_nat n - 1) (2 ^ 64)) (Run env table n).
Proof.
  induction n as [|n IH]; intros c input ro Hc Hl; [lia|]. cbn [Run]. unfold runWith.
  eapply total_bind; [apply total_modify|intros _ _].
  eapply total_bind; [apply total_gets|intros ir _]. cbv zeta.
  eapply (total_bind _ _ (fun _ => True)).
  { destruct (ro && negb ir); [apply total_modify|by apply total_ret]. }
  intros _ _. eapply total_bind; [apply total_modify|intros _ _].
  eapply (total_bind _ _ (fun out => 0 <= Gas out.2 <= Gas c)).
  - destruct (len (Code c) =? 0); [apply total_ret; cbn; lia|]. intros m.
    assert (HB : Z.min (Z.of_nat n - 1) (2 ^ 64) <= 2 ^ 64) by lia.
    pose proof (loop_ok _ _ HB (evmCalls_ok env _ HB _ IH) n
      (mkSt 0 m (mkScope NewMemory newstack (set_Input input c)))) as Hloop.
    unfold wp, runFrame in *. destruct (loop _ _ _ _ _) as [[[[r e] info] s]| |]; cbn [rbind]; [|done|].
    all: apply Hloop; cbn; [|lia|lia]; split; [exact Hl|exact NewMemory_priced|split; cbn; lia].
  - intros out Ho. eapply (total_bind _ _ (fun _ => True)).
    { destruct (ro && negb ir); [apply total_modify|by apply total_ret]. }
    intros _ _. eapply total_bind; [apply total_modify|intros _ _]. by apply total_ret.
Qed.
End Termination.

(** * Claims *)
Section Claims.
Context {L : Libs} {RP : AspectReports} {US : uint256.Spec} {MS : math.Spec} {PS : params.Spec} {RS : runtime.Spec}.
Context {CS : StateDB.CodeSpec} {AS : aspect.GasSpec}.
Variable env : Env.
Hypothesis eip150 : params.IsEIP150 (chainRules env) = true.
Variables (eips : list Z) (table : JumpTable) (active : list Z).
Hypothesis interpreter : NewEVMInterpreter (chainRules env) eips = Ret (table, active).

Let Htable := NewEVMInterpreter_gas _ _ _ _ interpreter.
Lemma table_mono : table_all op_mono table.
Proof. exact (NewEVMInterpreter_closed _ _ _ _ _ op_mono_closed interpreter). Qed.

(** The calls of a machine with more than enough fuel. *)
Lemma enough_calls B fuel :
  0 <= B <= 2 ^ 64 -> calls_ok B (evmCalls env (Run env table (Nat.max fuel (Z.to_nat (B + 1))))).
Proof.
  intros HB. apply evmCalls_ok; [lia|]. intros c i ro Hc Hl.
  apply (Run_ok env eip150 table Htable); [lia|done].
Qed.

(** C7: the interpreter terminates, because every operation costs gas. From
    EIP-150 on, with any fork and any extra EIPs, a run of a contract with
    [Gas c] gas returns (or panics) within [Gas c + 2] units of fuel, calls of
    any depth included; more fuel gives the same outcome, so the fuel of the
    model is not observable. The aspects are assumed to return no more gas than
    they got. *)
Theorem run_terminates c input ro m fuel :
  is_u64 (Gas c) -> len (Code c) < 2 ^ 63 -> Gas c + 2 <= Z.of_nat fuel ->
  Run env table fuel c input ro m <> OutOfFuel /\
  forall fuel', (fuel <= fuel')%nat ->
    Run env table fuel' c input ro m = Run env table fuel c input ro m.
Proof.
  intros Hg Hl Hf. unfold is_u64 in Hg.
  assert (Hrun : Run env table fuel c input ro m <> OutOfFuel).
  { intros E. pose proof (Run_ok env eip150 table Htable fuel c input ro ltac:(lia) Hl m) as H.
    unfold wp in H. by rewrite E in H. }
  split; [done|]. intros fuel' Hle.
  by destruct (Run_le env table table_mono _ _ Hle c input ro m) as [E| ->].
Qed.

(** C8: gas is never created, from EIP-150 on. Whatever a run does, calls,
    refunds of unspent gas, stipends and join points included, with any fork and
    any extra EIPs, the contract ends with at most the gas it started with; no
    64-bit subtraction or addition wraps around. The aspects are assumed to
    return no more gas than they got. *)
Theorem gas_never_increases c input ro m fuel r err c' m' :
  is_u64 (Gas c) -> len (Code c) < 2 ^ 63 ->
  Run env table fuel c input ro m = Ret (r, err, c', m') -> 0 <= Gas c' <= Gas c.
Proof.
  intros Hg Hl E. unfold is_u64 in Hg. set (fuel' := Nat.max fuel (Z.to_nat (Gas c + 2))).
  pose proof (Run_ok env eip150 table Htable fuel' c input ro ltac:(lia) Hl m) as H.
  destruct (Run_le env table table_mono fuel fuel' ltac:(lia) c input ro m) as [E'|E'];
    [congruence|]. unfold wp in H. by rewrite <- E', E in H.
Qed.

Lemma step_frame_ok fuel s s' :
  frame_ok s -> frame_step env table (evmCalls env (Run env table fuel)) s s' ->
  frame_ok s' /\ Gas (contract s') < Gas (contract s).
Proof.
  intros Hs H. pose proof (fo_gas _ Hs) as Hg. unfold is_u64 in Hg.
  pose proof (enough_calls (Gas (contract s)) fuel ltac:(lia)) as Hc.
  pose proof (iteration_ok env eip150 table Htable (Gas (contract s)) _
    ltac:(lia) Hc s Hs (Z.le_refl _)) as Hi.
  assert (Hle : (fuel <= Nat.max fuel (Z.to_nat (Gas (contract s) + 1)))%nat) by lia.
  destruct (iteration_le env table table_mono _ _ (evmCalls_le env _ _ (Run_le env table
    table_mono _ _ Hle)) s) as [E'|E']; [unfold frame_step in H; congruence|].
  unfold wp in Hi. by rewrite <- E', H in Hi.
Qed.

(** C10: every step of a frame that goes on costs gas, from EIP-150 on: a frame
    whose memory is paid for stays so, and its gas strictly decreases, even
    across a call whose unused gas comes back. The aspects are assumed to return
    no more gas than they got. *)
Theorem every_step_costs_gas fuel s s' :
  frame_ok s -> frame_step env table (evmCalls env (Run env table fuel)) s s' ->
  frame_ok s' /\ Gas (contract s') < Gas (contract s).
Proof. apply step_frame_ok. Qed.

(** C11: memory is paid for in every frame a run reaches, from EIP-150 on: it is
    a whole number of words below 2^32, and [lastGasCost] is the quadratic price
    of its size, so the next expansion is charged exactly the difference. The
    aspects are assumed to return no more gas than they got. *)
Theorem memory_always_paid fuel c input m s :
  is_u64 (Gas c) -> len (Code c) < 2 ^ 63 ->
  rtc (frame_step env table (evmCalls env (Run env table fuel)))
      (mkSt 0 m (mkScope NewMemory newstack (set_Input input c))) s ->
  mem_priced (memory s).
Proof.
  intros Hg Hl Hr. apply fo_memory.
  assert (H0 : frame_ok (mkSt 0 m (mkScope NewMemory newstack (set_Input input c))))
    by (split; [exact Hl|exact NewMemory_priced|exact Hg]).
  revert H0. induction Hr as [|s1 s2 s3 H1 _ IH]; [done|].
  intros H0. apply IH. by eapply step_frame_ok.
Qed.

(** C9: from EIP-150 on, the six call operations terminate and return at most
    the gas they were given, whether they succeed, fail, revert or are refused.
    The aspects are assumed to return no more gas than they got. *)
Theorem calls_return_no_more_gas fuel B :
  0 <= B <= 2 ^ 64 -> B < Z.of_nat fuel -> calls_ok B (evmCalls env (Run env table fuel)).
Proof.
  intros HB Hf. replace fuel with (Nat.max fuel (Z.to_nat (B + 1))) by lia. by apply enough_calls.
Qed.
End Claims.

(** * Witnesses *)
From S2P Require Import Instances.

(** The five steps of adding 2 and 3 and storing the sum, then the return. *)
Definition addContract : Contract := sampleContract addCode 99.
Lemma addContract_gas : is_u64 (Gas addContract).
Proof. by vm_compute. Qed.
Lemma addContract_fit : len (Code addContract) < 2 ^ 63.
Proof. by vm_compute. Qed.

Lemma run_terminates_witness :
  Run sampleEnv sampleTable 101 addContract [] false (machineWith []) <> OutOfFuel.
Proof.
  refine (proj1 (run_terminates sampleEnv eq_refl [] sampleTable [] sampleTable_ok
    addContract [] false (machineWith []) 101 addContract_gas addContract_fit _)).
  by vm_compute.
Defined.

Definition addOutcome : (bytes * option Err * Contract) * Machine :=
  outcome (Run sampleEnv sampleTable 101 addContract [] false (machineWith []))
    ([], None, addContract) (machineWith []).
Lemma gas_never_increases_witness :
  addOutcome.1.1 = (to_be 32 5, None) /\ 0 <= Gas addOutcome.1.2 <= 99.
Proof.
  split; [by vm_compute|].
  refine (gas_never_increases sampleEnv eq_refl [] sampleTable [] sampleTable_ok
    addContract [] false (machineWith []) 101 addOutcome.1.1.1 addOutcome.1.1.2 addOutcome.1.2
    addOutcome.2 addContract_gas addContract_fit _).
  unfold addOutcome.
  assert (H : is_ok (Run sampleEnv sampleTable 101 addContract [] false (machineWith [])) = true)
    by (vm_compute; reflexivity).
  by destruct (Run sampleEnv sampleTable 101 addContract [] false (machineWith []))
    as [[[[? ?] ?] ?]| |].
Defined.

Lemma firstFrame_ok : frame_ok firstFrame.
Proof. split; [by vm_compute|exact NewMemory_priced|by vm_compute]. Qed.
Lemma firstFrame_step :
  frame_step sampleEnv sampleTable (evmCalls sampleEnv (Run sampleEnv sampleTable 0))
    firstFrame secondFrame.
Proof.
  unfold frame_step, secondFrame.
  assert (H : match iteration sampleEnv sampleTable
                (evmCalls sampleEnv (Run sampleEnv sampleTable 0)) firstFrame with
              | Ret (Next, _) => true | _ => false end = true) by (vm_compute; reflexivity).
  destruct (iteration _ _ _ _) as [[[|] s]| |]; [reflexivity|discriminate H..].
Qed.
Lemma every_step_costs_gas_witness : Gas (contract secondFrame) < Gas (contract firstFrame).
Proof.
  exact (proj2 (every_step_costs_gas sampleEnv eq_refl [] sampleTable [] sampleTable_ok 0
    firstFrame secondFrame firstFrame_ok firstFrame_step)).
Defined.
Lemma memory_always_paid_witness : mem_priced (memory secondFrame).
Proof.
  refine (memory_always_paid sampleEnv eq_refl [] sampleTable [] sampleTable_ok 0
    (sampleContract addCode 99) [] (machineWith addCode) secondFrame addContract_gas
    addContract_fit _). apply rtc_once. exact firstFrame_step.
Defined.
Lemma calls_return_no_more_gas_witness :
  calls_ok 99 (evmCalls sampleEnv (Run sampleEnv sampleTable 100)).
Proof.
  refine (calls_return_no_more_gas sampleEnv eq_refl [] sampleTable [] sampleTable_ok 100 99 _ _);
    lia.
Defined.

(** * Why the theorems start at EIP-150

    Before EIP-150 a CALL forwards whatever gas it asks for, and the gas
    function of EIP-2929 adds the cost of the cold account to that without a
    check. On Frontier with EIP-2929, asking for 2^64 - 2000 gas wraps the price
    around: a run with 3000 gas ends without an error and with more gas than it
    got. *)
Definition frontier2929 : JumpTable :=
  match NewEVMInterpreter frontierRules [2929] with Ret (t, _) => t | _ => [] end.
Definition greedyCall : bytes :=
  [PUSH1; 0; PUSH1; 0; PUSH1; 0; PUSH1; 0; PUSH1; 0; PUSH2; 16; 0; PUSH8]
  ++ to_be 8 (2 ^ 64 - 2000) ++ [CALL].
(** [alice], a cold account, has code that spends a little. *)
Definition coldMachine : Machine :=
  CloseAspectCall (NewEVM (StateDB.SetCode alice [PUSH1; 0; PUSH1; 0; SSTORE] (dbWith [])) ∅).

Example gas_wraps_before_eip150 :
  match Run frontierEnv frontier2929 30 (sampleContract greedyCall 3000) [] false
          coldMachine with
  | Ret (_, err, c', _) => (err, 3000 <? Gas c')
  | _ => (Some ErrOutOfGas, false)
  end = (None, true).
Proof. vm_compute. reflexivity. Qed.
