(* ===== verification/Brackets.v ===== *)
(** Well-bracketed event sequences: what the logger of a run is told, as a
    property of lists of events. A call is reported by an opening and a closing
    event around the events of its code. *)
From S2P Require Import Prelude Opcodes Errors Externals Stack Memory Analysis Contract Tracer.
From S2P Require Import Machine.

Section Brackets.
Context {L : Libs} {RP : AspectReports}.

(** The laws of the libraries under which the operands of a step are in range. *)
Definition documented : Prop := runtime.Spec /\ uint256.Spec /\ math.Spec.

(** The operands of a LOG opcode that passed the checks of the interpreter: they
    are on the stack, and the region they name was paid for. *)
Record log_ready (op : OpCode) (scope : ScopeContext) : Prop := {
  lr_memory : mem_wf (scMemory scope);
  lr_stack : op - LOG0 + 2 <= slen (scStack scope);
  lr_region : forall off size, Back (scStack scope) 0 = Ret off ->
    Back (scStack scope) 1 = Ret size ->
    uint256.toZ size = 0 \/ uint256.toZ off + uint256.toZ size <= 0x1FFFFFFFE0;
}.
(** What a reported step guarantees. *)
Definition step_ok (op : OpCode) (scope : ScopeContext) (err : option Err) : Prop :=
  documented -> err = None -> LOG0 <= op <= LOG4 -> log_ready op scope.

(** Steps, faults, finished sub-calls and finished runs of aspects, in any number
    and nesting. [Q] is what is known of the runs of aspects: their execution
    context and what happens inside them. *)
Inductive balanced (Q : aspect.Message -> list Event -> Prop) : list Event -> Prop :=
  | bal_nil : balanced Q []
  | bal_state pc op gas cost scope rData depth err es :
      step_ok op scope err -> balanced Q es ->
      balanced Q (CaptureState pc op gas cost scope rData depth err :: es)
  | bal_fault pc op gas cost scope depth err es :
      balanced Q es -> balanced Q (CaptureFault pc op gas cost scope depth err :: es)
  | bal_call typ from to input gas value body output gasUsed err es :
      balanced Q body -> balanced Q es ->
      balanced Q (CaptureEnter typ from to input gas value ::
                  body ++ CaptureExit output gasUsed err :: es)
  | bal_aspect jp from to aspectId input gas value execCtx body result es :
      Q execCtx body -> balanced Q body -> balanced Q es ->
      balanced Q (CaptureAspectEnter jp from to aspectId input gas value execCtx ::
                  body ++ CaptureAspectExit jp result :: es).

Lemma balanced_app Q es es' : balanced Q es -> balanced Q es' -> balanced Q (es ++ es').
Proof.
  intros H H'. induction H; cbn; [done|by constructor..| |];
    rewrite <- app_assoc; cbn; by constructor.
Qed.

(** [m'] reports the events [es] on top of those [m] had reported. *)
Definition reports (m : Machine) (es : list Event) (m' : Machine) : Prop :=
  events m' = events m ++ es.

Lemma reports_nil m m' : events m' = events m -> reports m [] m'.
Proof. unfold reports. by rewrite app_nil_r. Qed.
Lemma reports_app m1 es m2 es' m3 :
  reports m1 es m2 -> reports m2 es' m3 -> reports m1 (es ++ es') m3.
Proof. unfold reports. intros H1 H2. by rewrite H2, H1, app_assoc. Qed.

Lemma reports_emit env e m : hasTracer env = true -> reports m [e] (emit env e m).
Proof. unfold reports, emit. by intros ->. Qed.
Lemma silent_emit env e m : hasTracer env = false -> emit env e m = m.
Proof. unfold emit. by intros ->. Qed.

(** The aspects tell the logger of their runs, of which [Q] holds, and of the
    calls they make, each with its end. *)
Record aspects_report (Q : aspect.Message -> list Event -> Prop) : Prop := {
  ar_pre : forall ci c d, balanced Q (PreReports ci c d);
  ar_post : forall ci r e c d, balanced Q (PostReports ci r e c d);
}.
(** What that matters for [m]: without join points no aspect runs. *)
Definition hooks_report (Q : aspect.Message -> list Event -> Prop) (m : Machine) : Prop :=
  IsExecuteJP m = true -> aspects_report Q.

(** [m'] is [m] after the events of steps, finished sub-calls and runs of
    aspects, as well reported as the aspects report. *)
Definition traced (m m' : Machine) : Prop :=
  IsExecuteJP m' = IsExecuteJP m /\
  forall Q, hooks_report Q m -> exists es, reports m es m' /\ balanced Q es.

#[global] Instance traced_preorder : PreOrder traced.
Proof.
  split.
  - intros m. split; [done|]. intros Q _. exists []. split; [by apply reports_nil|constructor].
  - intros m1 m2 m3 [J1 H1] [J2 H2]. split; [congruence|]. intros Q HA.
    destruct (H1 Q HA) as (es & R1 & B1). destruct (H2 Q) as (es' & R2 & B2).
    { unfold hooks_report in *. by rewrite J1. }
    exists (es ++ es'). split; [by eapply reports_app|by apply balanced_app].
Qed.

Lemma traced_same m m' :
  events m' = events m -> IsExecuteJP m' = IsExecuteJP m -> traced m m'.
Proof.
  intros H J. split; [done|]. intros Q _. exists []. split; [by apply reports_nil|constructor].
Qed.

Lemma emit_jp env e m : IsExecuteJP (emit env e m) = IsExecuteJP m.
Proof. unfold emit. by destruct (hasTracer env). Qed.

(** A single step or fault. *)
Lemma traced_emit env e m : (forall Q, balanced Q [e]) -> traced m (emit env e m).
Proof.
  intros He. destruct (hasTracer env) eqn:Et; [|by rewrite silent_emit].
  split; [apply emit_jp|]. intros Q _. exists [e]. split; [by apply reports_emit|done].
Qed.

(** What a join point reports. *)
Lemma traced_reports env es m :
  (forall Q, aspects_report Q -> balanced Q es) -> IsExecuteJP m = true ->
  traced m (emitAll env es m).
Proof.
  intros He Hj. unfold emitAll. destruct (hasTracer env); [|reflexivity].
  split; [done|]. intros Q HA. exists es. split; [done|]. by apply He, HA.
Qed.

(** ** Calls *)

(** The events around a call at depth [d]: the call of a transaction is a start
    and an end, a call inside it an enter and an exit. *)
Definition opening (d : Z) (typ : OpCode) (from to : Address) (create : bool) (input : bytes)
    (gas value : Z) : Event :=
  if d =? 0 then CaptureStart from to create input gas value
  else CaptureEnter typ from to input gas (Some value).
Definition closing (d : Z) (out : bytes) (gasUsed : Z) (err : option Err) : Event :=
  if d =? 0 then CaptureEnd out gasUsed err else CaptureExit out gasUsed err.

(** [m'] is [m] after a call reported by [o] and [c]. *)
Definition bracketed (Q : aspect.Message -> list Event -> Prop) (o c : Event) (m m' : Machine)
    : Prop := exists body, reports m (o :: body ++ [c]) m' /\ balanced Q body.

Lemma bracketed_emit Q env o c m m1 :
  hasTracer env = true -> hooks_report Q m -> traced (emit env o m) m1 ->
  bracketed Q o c m (emit env c m1).
Proof.
  intros Ht HA [_ T]. destruct (T Q) as (body & Hb & B).
  { unfold hooks_report in *. by rewrite emit_jp. }
  exists body. split; [|done].
  apply (reports_app m [o] (emit env o m)); [by apply reports_emit|].
  eapply reports_app; [exact Hb|by apply reports_emit].
Qed.

(** An enter, what happens inside, and an exit. *)
Lemma traced_call env typ from to input gas value output gasUsed err m m1 :
  traced (emit env (CaptureEnter typ from to input gas value) m) m1 ->
  traced m (emit env (CaptureExit output gasUsed err) m1).
Proof.
  intros H. destruct (hasTracer env) eqn:Et; [|by rewrite silent_emit in H |- * by done].
  split; [rewrite emit_jp; destruct H as [-> _]; apply emit_jp|]. intros Q HA.
  destruct (bracketed_emit Q env _ (CaptureExit output gasUsed err) m m1 Et HA H) as (body & R & B).
  eexists. split; [exact R|]. by repeat constructor.
Qed.
End Brackets.
