(* ===== verification/Frame.v ===== *)
(** What a call leaves behind: the frame condition of every opcode, of the
    interpreter and of the call operations.

    [frame m m'] holds between the machine before and after any call: depth,
    read-only flag and join-point switch are restored, the call tree is
    extended by finished calls only, snapshots taken before are still live,
    and if the machine was read-only no account changed. Inside a transaction
    the logger is told of steps and finished sub-calls only. The memory of a
    call frame keeps its capacity in order, which the reported steps rely on. *)
From S2P Require Import Prelude Opcodes Errors Externals Stack Memory Analysis Contract Tracer.
From S2P Require Import Machine Gas Instructions JumpTable Precompiles Evm Logic Tables Brackets.

Section Relation.
Context {L : Libs} {RP : AspectReports} {MD : StateDB.Model}.

(** The part of the frame that holds at every point of a call, also between
    its opening and its closing event. *)
Record core (m m' : Machine) : Prop := {
  fr_depth : depth m' = depth m;
  fr_readOnly : readOnly m' = readOnly m;
  fr_jp : IsExecuteJP m' = IsExecuteJP m;
  fr_abort : abort m = true -> abort m' = true;
  fr_tree : tree_ext (callTree (tracer m)) (callTree (tracer m'));
  fr_saved : forall i v, StateDB.saved (db m) i = Some v -> StateDB.saved (db m') i = Some v;
  fr_static : readOnly m = true -> IsExecuteJP m = false -> StateDB.same_accounts (db m) (db m');
}.

Record frame (m m' : Machine) : Prop := {
  fr_core :> core m m';
  fr_events : 0 < depth m -> traced m m';
}.
(** A frame in which the logger hears nothing. *)
Record silent (m m' : Machine) : Prop := {
  si_core :> core m m';
  si_events : events m' = events m;
}.

Lemma silent_frame m m' : silent m m' -> frame m m'.
Proof. intros [Hc He]. split; [done|]. intros _. by apply traced_same, Hc. Qed.

#[global] Instance same_accounts_preorder : PreOrder (StateDB.same_accounts).
Proof.
  split.
  - intros d. by constructor.
  - intros d1 d2 d3 [] []. constructor; intros; etrans; eauto.
Qed.

#[global] Instance core_preorder : PreOrder core.
Proof.
  split.
  - intros m. by constructor; try reflexivity.
  - intros m1 m2 m3 [] []. constructor; try congruence; eauto.
    + by etrans.
    + intros Hro Hjp. transitivity (db m2); [by eauto|]. apply fr_static1; congruence.
Qed.
#[global] Instance frame_preorder : PreOrder frame.
Proof.
  split.
  - intros m. split; [reflexivity|]. intros _. reflexivity.
  - intros m1 m2 m3 [C1 E1] [C2 E2]. split; [by etrans|]. intros Hd.
    transitivity m2; [by apply E1|]. apply E2. by rewrite (fr_depth _ _ C1).
Qed.
#[global] Instance silent_preorder : PreOrder silent.
Proof.
  split; [intros m; by split|]. intros m1 m2 m3 [] []. split; [by etrans|congruence].
Qed.

(** The frame condition of computations on the machine and on a call frame,
    started in a machine whose read-only flag is [b]. *)
Definition ro_is (b : bool) (m : Machine) : Prop := readOnly m = b.
Definition presM (b : bool) {A} (m : ST Machine A) : Prop := pres (ro_is b) frame m.
Definition mem_ready (s : St) : Prop := documented -> mem_wf (memory s).
Definition ready (b : bool) (s : St) : Prop := ro_is b (mach s) /\ mem_ready s.
Definition frameS (s s' : St) : Prop :=
  frame (mach s) (mach s') /\ (mem_ready s -> mem_ready s').
Definition presS (b : bool) {A} (m : ST St A) : Prop := pres (ready b) frameS m.

#[global] Instance frameS_preorder : PreOrder frameS.
Proof.
  split; [intros s; by split|]. intros s1 s2 s3 [? ?] [? ?]. split; [by etrans|auto].
Qed.

Lemma ro_closed b m m' : ro_is b m -> frame m m' -> ro_is b m'.
Proof. unfold ro_is. intros <- H. apply H. Qed.

Lemma presM_bind b {A B} (m : ST Machine A) (k : A -> ST Machine B) :
  presM b m -> (forall a, presM b (k a)) -> presM b (bind m k).
Proof. apply pres_bind; [apply _|apply ro_closed]. Qed.
Lemma ready_closed b s s' : ready b s -> frameS s s' -> ready b s'.
Proof. intros [Hr Hm] [Hf Hk]. split; [by eapply ro_closed|auto]. Qed.
Lemma presS_bind b {A B} (m : ST St A) (k : A -> ST St B) :
  presS b m -> (forall a, presS b (k a)) -> presS b (bind m k).
Proof. apply pres_bind; [apply _|apply ready_closed]. Qed.

Lemma presM_ret b {A} (a : A) : presM b (ret a).
Proof. apply pres_ret, _. Qed.
Lemma presM_gets b {A} (f : Machine -> A) : presM b (gets f).
Proof. apply pres_gets, _. Qed.
Lemma presM_liftR b {A} (r : res A) : presM b (liftR r).
Proof. apply pres_liftR, _. Qed.
Lemma presM_modify b (f : Machine -> Machine) :
  (forall m, ro_is b m -> frame m (f m)) -> presM b (modify f).
Proof. apply pres_modify. Qed.

Lemma presS_ret b {A} (a : A) : presS b (ret a).
Proof. apply pres_ret, _. Qed.
Lemma presS_gets b {A} (f : St -> A) : presS b (gets f).
Proof. apply pres_gets, _. Qed.
Lemma presS_liftR b {A} (r : res A) : presS b (liftR r).
Proof. apply pres_liftR, _. Qed.
Lemma presS_modify b (f : St -> St) :
  (forall s, ro_is b (mach s) -> frame (mach s) (mach (f s))) ->
  (forall s, memory (f s) = memory s) -> presS b (modify f).
Proof.
  intros H Hm. apply pres_modify. intros s [Hr _]. split; [by apply H|].
  unfold mem_ready. by rewrite Hm.
Qed.
Lemma presS_local b {T A} (get : St -> T) put (m : ST T A) :
  (forall s t, mach (put t s) = mach s) -> (forall s t, memory (put t s) = memory s) ->
  presS b (zoom get put m).
Proof.
  intros Hput Hm. apply pres_zoom. intros s t. split; [by rewrite Hput|].
  unfold mem_ready. by rewrite Hm.
Qed.
Lemma presS_onMachine b {A} (m : ST Machine A) : presM b m -> presS b (onMachine m).
Proof.
  intros Hm s a s' [Hs _] H. unfold onMachine in H. inv_run. split; [by eapply Hm|done].
Qed.

(** Reading the flag tells the branch the code takes. *)
Lemma presS_readOnly b {A} (k : bool -> ST St A) :
  presS b (k b) -> presS b (bind (gets (fun s => readOnly (mach s))) k).
Proof.
  intros Hk s a s' Hs H. apply bind_Ret in H as (x & s1 & Hx & H). injection Hx as <- <-.
  rewrite (proj1 Hs) in H. by eapply Hk.
Qed.
Lemma presS_writeProtected b (k : ST St (bytes * option Err)) :
  (b = false -> presS false k) -> presS b (writeProtected k).
Proof.
  intros Hk. apply presS_readOnly. destruct b; [apply presS_ret|by apply Hk].
Qed.

(** A change to the machine outside the fields the frame talks about. *)
Lemma silent_intro m m' :
  depth m' = depth m -> readOnly m' = readOnly m -> IsExecuteJP m' = IsExecuteJP m ->
  abort m' = abort m -> events m' = events m -> callTree (tracer m') = callTree (tracer m) ->
  db m' = db m -> silent m m'.
Proof.
  intros H1 H2 H3 H4 H5 H6 H7. split; [|done].
  constructor; rewrite ?H4, ?H6, ?H7; done || reflexivity.
Qed.
Lemma frame_intro m m' :
  depth m' = depth m -> readOnly m' = readOnly m -> IsExecuteJP m' = IsExecuteJP m ->
  abort m' = abort m -> events m' = events m -> callTree (tracer m') = callTree (tracer m) ->
  db m' = db m -> frame m m'.
Proof. intros. by apply silent_frame, silent_intro. Qed.

Lemma silent_db m d :
  (forall i v, StateDB.saved (db m) i = Some v -> StateDB.saved d i = Some v) ->
  (readOnly m = true -> IsExecuteJP m = false -> StateDB.same_accounts (db m) d) ->
  silent m (set_db d m).
Proof. intros H1 H2. split; [|done]. by constructor; cbn; try reflexivity. Qed.

Lemma core_emit env e m : core m (emit env e m).
Proof. unfold emit. destruct (hasTracer env); [|reflexivity]. by constructor; cbn. Qed.

(** A step or a fault keeps the frame, and so does a sub-call as a whole. *)
Lemma frame_emit env e m : (forall Q, balanced Q [e]) -> frame m (emit env e m).
Proof. intros He. split; [apply core_emit|]. intros _. by apply traced_emit. Qed.

Lemma presS_update b f :
  StateDB.keeps_saved f -> (b = true -> forall d, StateDB.same_accounts d (f d)) ->
  presS b (update f).
Proof.
  intros Hf Hs. apply presS_modify; [|done]. intros s Hro. cbn. apply silent_frame, silent_db.
  - intros i v. by rewrite Hf.
  - intros E _. apply Hs. unfold ro_is in Hro. congruence.
Qed.

(** SELFDESTRUCT reports a call that is over at once. *)
Lemma presS_emitCall b env typ from to input gas value output gasUsed err {A} (k : ST St A) :
  presS b k ->
  presS b (onMachine (modify (emit env (CaptureEnter typ from to input gas value))) ;;;
           onMachine (modify (emit env (CaptureExit output gasUsed err))) ;;; k).
Proof.
  intros Hk s a s' [Hs Hm] H. apply bind_Ret in H as (? & s1 & [= _ <-] & H).
  apply bind_Ret in H as (? & s2 & [= _ <-] & H).
  set (m1 := emit _ (CaptureExit _ _ _) _) in H.
  assert (Hf : frame (mach s) m1).
  { split; [by etrans; [apply core_emit|apply core_emit]|]. intros _. by eapply traced_call. }
  apply Hk in H as [Hf2 Hk2]; [|split; [by apply (ro_closed b (mach s))|exact Hm]].
  split; [by transitivity m1|exact Hk2].
Qed.

Lemma presM_loadAbort b : presM b (fun m => Ret (loadAbort m)).
Proof.
  intros m a m' _ H. injection H as H. unfold loadAbort in H.
  destruct (abort m) eqn:Ea; [|destruct (cancelAt m) as [[|n]|]]; simplify_eq;
    try reflexivity; apply silent_frame; (split; [|done]);
    constructor; cbn; try done; try reflexivity; congruence.
Qed.

Lemma presS_validJumpdest b pos : presS b (validJumpdest_ pos).
Proof.
  intros s a s' _ H. unfold validJumpdest_ in H. inv_run. split; [by apply frame_intro|done].
Qed.

(** The tracer's journal does not touch the call tree. *)
Lemma presM_journal b (f : Tracer -> res (option Err * Tracer)) :
  (forall t e t', f t = Ret (e, t') -> callTree t' = callTree t) ->
  presM b (zoom tracer set_tracer f).
Proof.
  intros Hf m a m' _ H. inv_run. apply frame_intro; try done. by eapply Hf.
Qed.
End Relation.

(** * Automation *)
Create HintDb frame.
Create HintDb statedb.

Section Primitives.
Context {L : Libs} {RP : AspectReports} {MD : StateDB.Model}.

Lemma presS_pop b : presS b pop_.
Proof. by apply presS_local. Qed.
Lemma presS_peek b : presS b peek_.
Proof. apply presS_bind; intros; [apply presS_gets|apply presS_liftR]. Qed.
Lemma presS_poke b x : presS b (poke_ x).
Proof. by apply presS_local. Qed.
Lemma presS_push b x : presS b (push_ x).
Proof. apply presS_modify; [intros; by apply frame_intro|done]. Qed.
Lemma presS_back b n : presS b (back_ n).
Proof. apply presS_bind; intros; [apply presS_gets|apply presS_liftR]. Qed.
Lemma presS_second b : presS b second_.
Proof. apply presS_bind; intros; [apply presS_gets|apply presS_liftR]. Qed.
Lemma presS_onMemory b f :
  (forall m m', f m = Ret m' -> documented -> mem_wf m -> mem_wf m') -> presS b (onMemory f).
Proof.
  intros Hf s a s' _ H. unfold onMemory in H. inv_run. split; [done|].
  intros Hm Hd. by eapply Hf; [|done|apply Hm].
Qed.
Lemma presS_sameSize b f :
  (forall m m', f m = Ret m' -> same_size m m') -> presS b (onMemory f).
Proof. intros Hf. apply presS_onMemory. intros m m' H _. by apply same_size_wf, Hf. Qed.
Lemma presS_Set b off size v : presS b (onMemory (fun m => Set_ m off size v)).
Proof. apply presS_sameSize. intros m m'. apply Set_same_size. Qed.
Lemma presS_Set32 b off v : presS b (onMemory (fun m => Set32 m off v)).
Proof. apply presS_sameSize. intros m m'. apply Set32_same_size. Qed.
Lemma presS_store8 b off v :
  presS b (onMemory (fun m => let? s := index_set (store m) off v in Ret (with_store s m))).
Proof. apply presS_sameSize. intros m m'. apply store8_same_size. Qed.
Lemma presS_Copy b dst src n : presS b (onMemory (fun m => Copy m dst src n)).
Proof. apply presS_sameSize. intros m m'. apply Copy_same_size. Qed.
Lemma presS_readMemory b {A} (f : Memory -> res A) : presS b (readMemory f).
Proof. apply presS_bind; intros; [apply presS_gets|apply presS_liftR]. Qed.
Lemma presS_useGas b g : presS b (useGas_ g).
Proof. by apply presS_local. Qed.
Lemma presS_addGas b g : presS b (addGas_ g).
Proof. apply presS_modify; [intros; by apply frame_intro|done]. Qed.
Lemma memoryGasCost_same_size m n : same_size m (memoryGasCost m n).2.
Proof.
  unfold memoryGasCost. cbv zeta. destruct (n =? 0); [done|]. destruct (_ <? n); [done|].
  by destruct (_ <? _).
Qed.
Lemma presS_memGas b n : presS b (memGas n).
Proof.
  intros s a s' _ H. unfold memGas in H. inv_run. split; [done|]. intros Hm Hd.
  pose proof (memoryGasCost_same_size (memory s) n) as Hs. cbn.
  match goal with E : memoryGasCost _ _ = _ |- _ => rewrite E in Hs end.
  by apply (same_size_wf _ _ Hs), Hm.
Qed.
Lemma presS_query b {A} (f : StateDB.DB -> A) : presS b (query f).
Proof. apply presS_gets. Qed.
Lemma presS_address b : presS b address_.
Proof. apply presS_gets. Qed.
Lemma presS_selfRef b : presS b selfRef_.
Proof. apply presS_gets. Qed.
Lemma presS_setReturnData b d : presS b (setReturnData d).
Proof. apply presS_modify; [intros; by apply frame_intro|done]. Qed.
Lemma presS_setCallGasTemp b g : presS b (setCallGasTemp g).
Proof. apply presS_modify; [intros; by apply frame_intro|done]. Qed.
Lemma presS_keccak b d : presS b (keccak_ d).
Proof.
  apply presS_bind; intros; [|apply presS_gets].
  apply presS_modify; [intros; by apply frame_intro|done].
Qed.
Lemma presS_fromBig b x : presS b (fromBig_ x).
Proof. destruct x; [apply presS_ret|apply presS_liftR]. Qed.
Lemma presS_set_pc b p : presS b (modify (set_pc p)).
Proof. apply presS_modify; [intros; by apply frame_intro|done]. Qed.
Lemma presS_aborted b : presS b aborted_.
Proof. apply presS_onMachine, presM_loadAbort. Qed.
Lemma presS_dup b n :
  presS b (zoom stack set_stack (fun st => let? st' := dup st n in Ret (tt, st'))).
Proof. by apply presS_local. Qed.
Lemma presS_swap b n :
  presS b (zoom stack set_stack (fun st => let? st' := swap st n in Ret (tt, st'))).
Proof. by apply presS_local. Qed.
Lemma presS_gas_try b m k : presS b m -> (forall g, presS b (k g)) -> presS b (gas_try m k).
Proof.
  intros Hm Hk. apply presS_bind; [done|]. intros [g [e|]]; [apply presS_ret|apply Hk].
Qed.
Lemma presS_gas_ovf b r k : (forall g, presS b (k g)) -> presS b (gas_ovf r k).
Proof. intros Hk. unfold gas_ovf. destruct r as [v []]; [apply presS_ret|apply Hk]. Qed.
Lemma presS_saveStateChange b a sl off tid v : presS b (saveStateChange_ a sl off tid v).
Proof.
  apply presS_bind; intros; [|apply presS_ret]. apply presS_onMachine, presM_journal.
  intros t e t' H. unfold SaveStateChange in H. inv_run. done.
Qed.
Lemma presS_saveStateKey b a p sl off tid ptid idx :
  presS b (saveStateKey_ a p sl off tid ptid idx).
Proof.
  apply presS_bind; intros; [|apply presS_ret]. apply presS_onMachine, presM_journal.
  intros t e t' H. unfold SaveStateKey in H. inv_run. done.
Qed.
End Primitives.

#[export] Hint Resolve presS_pop presS_peek presS_poke presS_push presS_back presS_second
  presS_Set presS_Set32 presS_store8 presS_Copy presS_readMemory presS_useGas presS_addGas presS_memGas presS_query
  presS_address presS_selfRef presS_setReturnData presS_setCallGasTemp presS_keccak
  presS_fromBig presS_set_pc presS_aborted presS_dup presS_swap presS_saveStateChange
  presS_saveStateKey presS_validJumpdest presS_ret presS_gets presS_liftR
  presM_ret presM_gets presM_liftR : frame.
#[export] Hint Resolve StateDB.CreateAccount_saved StateDB.SubBalance_saved
  StateDB.AddBalance_saved StateDB.SetNonce_saved StateDB.SetCode_saved StateDB.AddRefund_saved
  StateDB.SubRefund_saved StateDB.SetState_saved StateDB.SetTransientState_saved
  StateDB.Suicide_saved StateDB.AddAddressToAccessList_saved StateDB.AddSlotToAccessList_saved
  StateDB.AddLog_saved StateDB.AddPreimage_saved StateDB.AddRefund_accounts
  StateDB.SubRefund_accounts StateDB.AddAddressToAccessList_accounts
  StateDB.AddSlotToAccessList_accounts StateDB.AddPreimage_accounts : statedb.

(** One step of the frame proof of an opcode: take the outermost construct apart. *)
Ltac frame_step :=
  match goal with
  | |- presS _ (writeProtected _) => apply presS_writeProtected; intros ->
  | |- presS _ (bind (gets (fun s => readOnly (mach s))) _) => apply presS_readOnly
  | |- presS _ (onMachine (modify (emit _ _)) ;;; _) => apply presS_emitCall
  | |- presS _ (bind _ _) => apply presS_bind; [|intros ?]
  | |- presS _ (gas_try _ _) => apply presS_gas_try; [|intros ?]
  | |- presS _ (gas_ovf _ _) => apply presS_gas_ovf; intros ?
  | |- presS _ (update _) =>
      apply presS_update; [by eauto with statedb|by intros; eauto with statedb]
  | |- presS _ (if ?c then _ else _) => destruct c eqn:?
  | |- presS _ (match ?x with _ => _ end) => destruct x eqn:?
  | |- presS _ _ => solve [eauto with frame]
  | |- presS _ (onMachine _) => apply presS_onMachine
  | |- presM _ _ => solve [eauto with frame]
  end.
Ltac solve_frame := repeat (frame_step; cbv beta zeta).

(** * The opcodes *)
Section Opcodes.
Context {L : Libs} {RP : AspectReports} {MD : StateDB.Model} {SD : StateDB.Spec}.

(** What the interpreter needs of the call operations. *)
Record calls_frame (evm : EVMCalls) : Prop := {
  cf_Call : forall b r a i g v, (b = true -> v = 0) -> presM b (do_Call evm r a i g v);
  cf_CallCode : forall b r a i g v, presM b (do_CallCode evm r a i g v);
  cf_DelegateCall : forall b r a i g, presM b (do_DelegateCall evm r a i g);
  cf_StaticCall : forall b r a i g, presM b (do_StaticCall evm r a i g);
  cf_Create : forall r i g v, presM false (do_Create evm r i g v);
  cf_Create2 : forall r i g v s, presM false (do_Create2 evm r i g v s);
}.

(** The frame condition of an operation: of its execution and its gas function. *)
Definition op_frame (_ : nat) (o : operation) : Prop :=
  (forall env evm b, calls_frame evm -> presS b (execute o env evm)) /\
  (forall g env n b, dynamicGas o = Some g -> presS b (g env n)).

Definition gas_frame (g : gasFunc) : Prop := forall env n b, presS b (g env n).

Lemma memoryCopierGas_frame p : gas_frame (memoryCopierGas p).
Proof. intros env n b. unfold memoryCopierGas. solve_frame. Qed.
Lemma makeGasLog_frame n : gas_frame (makeGasLog n).
Proof. intros env k b. unfold makeGasLog. solve_frame. Qed.
Lemma makeGasJournal_frame n : gas_frame (makeGasJournal n).
Proof. intros env k b. apply presS_ret. Qed.
Lemma gasKeccak256_frame : gas_frame gasKeccak256.
Proof. intros env n b. unfold gasKeccak256. solve_frame. Qed.
Lemma pureMemoryGascost_frame : gas_frame pureMemoryGascost.
Proof. intros env n b. apply presS_memGas. Qed.
Lemma gasCreate2_frame : gas_frame gasCreate2.
Proof. intros env n b. unfold gasCreate2. solve_frame. Qed.
Lemma gasCreateEip3860_frame : gas_frame gasCreateEip3860.
Proof. intros env n b. unfold gasCreateEip3860. solve_frame. Qed.
Lemma gasCreate2Eip3860_frame : gas_frame gasCreate2Eip3860.
Proof. intros env n b. unfold gasCreate2Eip3860. solve_frame. Qed.
Lemma gasExpFrontier_frame : gas_frame gasExpFrontier.
Proof. intros env n b. unfold gasExpFrontier. solve_frame. Qed.
Lemma gasExpEIP158_frame : gas_frame gasExpEIP158.
Proof. intros env n b. unfold gasExpEIP158. solve_frame. Qed.
Lemma setCallGas_frame env g b : presS b (setCallGas env g).
Proof. unfold setCallGas. solve_frame. Qed.
#[local] Hint Resolve setCallGas_frame : frame.
Lemma gasCall_frame : gas_frame gasCall.
Proof. intros env n b. unfold gasCall. solve_frame. Qed.
Lemma gasCallCode_frame : gas_frame gasCallCode.
Proof. intros env n b. unfold gasCallCode. solve_frame. Qed.
Lemma gasDelegateCall_frame : gas_frame gasDelegateCall.
Proof. intros env n b. unfold gasDelegateCall. solve_frame. Qed.
Lemma gasStaticCall_frame : gas_frame gasStaticCall.
Proof. intros env n b. unfold gasStaticCall. solve_frame. Qed.
Lemma gasSelfdestruct_frame : gas_frame gasSelfdestruct.
Proof. intros env n b. unfold gasSelfdestruct. solve_frame. Qed.
Lemma gasSStore_frame : gas_frame gasSStore.
Proof. intros env n b. unfold gasSStore. solve_frame. Qed.
Lemma gasSStoreEIP2200_frame : gas_frame gasSStoreEIP2200.
Proof. intros env n b. unfold gasSStoreEIP2200. solve_frame. Qed.
Lemma makeGasSStoreFunc_frame r : gas_frame (makeGasSStoreFunc r).
Proof. intros env n b. unfold makeGasSStoreFunc. solve_frame. Qed.
Lemma gasSLoadEIP2929_frame : gas_frame gasSLoadEIP2929.
Proof. intros env n b. unfold gasSLoadEIP2929. solve_frame. Qed.
Lemma gasExtCodeCopyEIP2929_frame : gas_frame gasExtCodeCopyEIP2929.
Proof.
  intros env n b. unfold gasExtCodeCopyEIP2929. pose proof (memoryCopierGas_frame 3) as H.
  apply presS_gas_try; [apply H|intros; solve_frame].
Qed.
Lemma gasEip2929AccountCheck_frame : gas_frame gasEip2929AccountCheck.
Proof. intros env n b. unfold gasEip2929AccountCheck. solve_frame. Qed.
Lemma makeCallVariant_frame g : gas_frame g -> gas_frame (makeCallVariantGasCallEIP2929 g).
Proof.
  intros Hg env n b. unfold makeCallVariantGasCallEIP2929.
  repeat first [apply Hg|frame_step; cbv beta zeta].
Qed.
Lemma makeSelfdestructGasFn_frame r : gas_frame (makeSelfdestructGasFn r).
Proof. intros env n b. unfold makeSelfdestructGasFn. solve_frame. Qed.
End Opcodes.

#[export] Hint Resolve memoryCopierGas_frame makeGasLog_frame makeGasJournal_frame
  gasKeccak256_frame pureMemoryGascost_frame gasCreate2_frame gasCreateEip3860_frame
  gasCreate2Eip3860_frame gasExpFrontier_frame gasExpEIP158_frame gasCall_frame
  gasCallCode_frame gasDelegateCall_frame gasStaticCall_frame gasSelfdestruct_frame
  gasSStore_frame gasSStoreEIP2200_frame makeGasSStoreFunc_frame gasSLoadEIP2929_frame
  gasExtCodeCopyEIP2929_frame gasEip2929AccountCheck_frame makeCallVariant_frame
  makeSelfdestructGasFn_frame : frame.

Ltac head_of t := match t with ?f _ => head_of f | _ => t end.
(** Unfold an opcode and prove its frame condition. *)
Ltac op_frame_step H :=
  first
    [ frame_step
    | match goal with
      | |- presM _ (do_Call _ _ _ _ _ _) => apply (cf_Call _ H)
      | |- presM _ (do_CallCode _ _ _ _ _ _) => apply (cf_CallCode _ H)
      | |- presM _ (do_DelegateCall _ _ _ _ _) => apply (cf_DelegateCall _ H)
      | |- presM _ (do_StaticCall _ _ _ _ _) => apply (cf_StaticCall _ H)
      | |- presM _ (do_Create _ _ _ _ _) => apply (cf_Create _ H)
      | |- presM _ (do_Create2 _ _ _ _ _ _) => apply (cf_Create2 _ H)
      | |- presS _ (withMemData _ _) => unfold withMemData
      end ].
Ltac solve_op_frame :=
  idtac; match goal with
  | |- op_frame _ _ =>
      let H := fresh "Hevm" in
      split;
      [ intros ? ? ? H; cbn [execute];
        match goal with |- presS _ ?t => let h := head_of t in unfold h end; cbv beta zeta;
        repeat (op_frame_step H; cbv beta zeta); eauto with frame
      | intros ? ? ? ?; cbn [dynamicGas]; intros [= <-]; match goal with |- presS ?b (?g ?e ?n) =>
          cut (gas_frame g); [let Hg := fresh in intros Hg; apply Hg|by eauto with frame] end ]
  end.

Section CallHelpers.
Context {L : Libs} {RP : AspectReports} {MD : StateDB.Model} {SD : StateDB.Spec}.

Lemma bigVal_static b v : b && negb (uint256.IsZero v) = false -> b = true -> bigVal v = 0.
Proof. intros H ->. cbn in H. unfold bigVal. by rewrite H. Qed.

Lemma presS_popTopics b n : presS b (popTopics n).
Proof. induction n; cbn; solve_frame. Qed.

Lemma presS_finishCall b o n out : presS b (finishCall o n out).
Proof. unfold finishCall. solve_frame. Qed.
End CallHelpers.
#[export] Hint Resolve presS_popTopics presS_finishCall bigVal_static : frame.

(** * The instruction sets *)
Section Sets.
Context {L : Libs} {RP : AspectReports} {MD : StateDB.Model} {SD : StateDB.Spec}.

Lemma frontierArithmetic_frame : Forall (fun e => op_frame (Z.to_nat e.1) e.2) frontierArithmetic.
Proof. unfold frontierArithmetic. each_entry solve_op_frame. Qed.
Lemma frontierComparison_frame : Forall (fun e => op_frame (Z.to_nat e.1) e.2) frontierComparison.
Proof. unfold frontierComparison. each_entry solve_op_frame. Qed.
Lemma frontierEnvironment_frame : Forall (fun e => op_frame (Z.to_nat e.1) e.2) frontierEnvironment.
Proof. unfold frontierEnvironment. each_entry solve_op_frame. Qed.
Lemma frontierBlock_frame : Forall (fun e => op_frame (Z.to_nat e.1) e.2) frontierBlock.
Proof. unfold frontierBlock. each_entry solve_op_frame. Qed.
Lemma frontierMemory_frame : Forall (fun e => op_frame (Z.to_nat e.1) e.2) frontierMemory.
Proof. unfold frontierMemory. each_entry solve_op_frame. Qed.
Lemma frontierPush_frame : Forall (fun e => op_frame (Z.to_nat e.1) e.2) frontierPush.
Proof. unfold frontierPush. each_entry solve_op_frame. Qed.
Lemma frontierPush2_frame : Forall (fun e => op_frame (Z.to_nat e.1) e.2) frontierPush2.
Proof. unfold frontierPush2. each_entry solve_op_frame. Qed.
Lemma frontierDup_frame : Forall (fun e => op_frame (Z.to_nat e.1) e.2) frontierDup.
Proof. unfold frontierDup. each_entry solve_op_frame. Qed.
Lemma frontierSwap_frame : Forall (fun e => op_frame (Z.to_nat e.1) e.2) frontierSwap.
Proof. unfold frontierSwap. each_entry solve_op_frame. Qed.
Lemma frontierLog_frame : Forall (fun e => op_frame (Z.to_nat e.1) e.2) frontierLog.
Proof. unfold frontierLog. each_entry solve_op_frame. Qed.
Lemma frontierJournal_frame : Forall (fun e => op_frame (Z.to_nat e.1) e.2) frontierJournal.
Proof. unfold frontierJournal. each_entry solve_op_frame. Qed.
Lemma frontierSystem_frame : Forall (fun e => op_frame (Z.to_nat e.1) e.2) frontierSystem.
Proof. unfold frontierSystem. each_entry solve_op_frame. Qed.

Lemma op_frame_constantGas i g o : op_frame i o -> op_frame i (set_constantGas g o).
Proof. done. Qed.
Lemma op_frame_dynamicGas i g o : gas_frame g -> op_frame i o -> op_frame i (set_dynamicGas g o).
Proof.
  intros Hg [H1 _]. split; [exact H1|]. intros g' env n b [= <-]. apply Hg.
Qed.
Lemma undefinedOp_frame i : op_frame i undefinedOp.
Proof. unfold undefinedOp. solve_op_frame. Qed.


(** The frame condition of every interpreter's table. *)
Lemma op_frame_closed : closed op_frame.
Proof.
  split.
  - apply undefinedOp_frame.
  - unfold frontierEntries. rewrite !Forall_app.
    eauto 20 using frontierArithmetic_frame, frontierComparison_frame, frontierEnvironment_frame,
      frontierBlock_frame, frontierMemory_frame, frontierPush_frame, frontierPush2_frame,
      frontierDup_frame, frontierSwap_frame, frontierLog_frame, frontierJournal_frame,
      frontierSystem_frame.
  - unfold forkEntries. each_entry solve_op_frame.
  - unfold constantChanges. each_entry (intros; by apply op_frame_constantGas).
  - unfold dynamicChanges. each_entry (intros; apply op_frame_dynamicGas; eauto with frame).
  - unfold bothChanges. cbv zeta.
    each_entry (intros; apply op_frame_dynamicGas; [eauto with frame|by apply op_frame_constantGas]).
Qed.
Lemma NewEVMInterpreter_frame rules eips jt active :
  NewEVMInterpreter rules eips = Ret (jt, active) -> table_all op_frame jt.
Proof. apply NewEVMInterpreter_closed, op_frame_closed. Qed.
End Sets.
