(* ===== verification/CallFrame.v ===== *)
(** The frame condition of the interpreter loop and of the call operations, and
    what follows from it: failed calls leave the state as it was, static calls
    change no account, every call restores the depth and the call tree, and
    the logger is told of every call by a pair of matching events. *)
From S2P Require Import Prelude Opcodes Errors Externals Stack Memory Analysis Contract Tracer.
From S2P Require Import Machine Gas Instructions JumpTable Precompiles Evm Core Logic Complete Brackets Frame.

(** * The interpreter *)
Section Interpreter.
Context {L : Libs} {RP : AspectReports} {MD : StateDB.Model} {SD : StateDB.Spec}.
Variable env : Env.

(** Only the LOG opcodes promise something of the step they report. *)
Lemma captureState_frame info s a s' :
  step_ok (si_op info) (scope s) None -> captureState env info s = Ret (a, s') -> frameS s s'.
Proof.
  intros Hs [= _ <-]. split; [|done]. apply frame_emit. intros Q. apply bal_state; [exact Hs|constructor].
Qed.
Lemma presS_captureState b info : ~ is_LOG (si_op info) -> presS b (captureState env info).
Proof.
  intros Hn s a s' _ H. eapply captureState_frame; [|exact H]. by intros _ _ ?.
Qed.

Lemma presS_requestedMemory b o : presS b (requestedMemory o).
Proof. unfold requestedMemory. solve_frame. Qed.

Lemma presS_executeOp b evm i o info :
  op_frame i o -> calls_frame evm -> presS b (executeOp env evm o info).
Proof.
  intros [Ho _] Hevm. unfold executeOp. apply presS_bind; [by apply Ho|].
  intros [r [e|]]; [apply presS_ret|]. apply presS_bind; intros; [|apply presS_ret].
  apply presS_modify; [intros; by apply frame_intro|done].
Qed.

Lemma presS_resize b n :
  presS b (if 0 <? n then onMemory (fun m => Resize m n) else ret tt).
Proof.
  destruct (0 <? n); [|apply presS_ret]. apply presS_onMemory.
  intros m m' H [Hr _]. by eapply Resize_wf_any.
Qed.

(** ** The LOG opcodes *)

(** The size they ask for is that of the region on the stack, in words. *)
Lemma requestedMemory_log n o s sz s' :
  log_operation n o -> requestedMemory o s = Ret (Some sz, s') ->
  s' = s /\ forall off size, Back (stack s) 0 = Ret off -> Back (stack s) 1 = Ret size ->
    exists k, calcMemSize64 off size = (k, false) /\ math.SafeMul (toWordSize k) 32 = (sz, false).
Proof.
  intros Ho H. unfold requestedMemory in H. rewrite (lo_memorySize _ _ Ho) in H.
  apply bind_Ret in H as (st & ? & [= <- <-] & H).
  apply bind_Ret in H as ([k ovf] & s1 & H1 & H). apply liftR_Ret in H1 as (p & H1 & E).
  injection E as <- ->. destruct ovf; [done|]. destruct (math.SafeMul (toWordSize k) 32) as [z []] eqn:Em; [done|].
  injection H as <- <-. split; [done|]. intros off size E0 E1. unfold memoryLog in H1.
  rewrite E0, E1 in H1. cbn [rbind] in H1. injection H1 as H1. by exists k.
Qed.
Lemma makeGasLog_paid n sz s g s' :
  makeGasLog n env sz s = Ret (g, None, s') ->
  stack s' = stack s /\ sz <= 0x1FFFFFFFE0.
Proof.
  unfold makeGasLog. intros H. apply bind_Ret in H as (x & s1 & H1 & H).
  assert (s1 = s) as -> by (unfold back_ in H1; by inv_run). clear H1.
  unfold gas_ovf in H. destruct (uint256.Uint64WithOverflow x) as [v []]; [by inv_run|].
  apply bind_Ret in H as ([fee e] & s1 & H1 & H). unfold memGas in H1.
  apply zoom_Ret in H1 as (p & m' & H1 & E). injection E as <- ->.
  destruct e; [by inv_run|].
  assert (Hs : s' = set_memory m' s).
  { repeat match type of H with context [let '(_, _) := ?r in _] => destruct r as [? []] end;
      by inv_run. }
  subst s'. split; [done|]. injection H1 as H1. unfold memoryGasCost in H1.
  destruct (sz =? 0) eqn:E0; [lia|]. destruct (_ <? sz) eqn:E1; [done|]. lia.
Qed.
(** A region whose size in words was paid for is small. *)
Lemma region_paid off size k sz :
  documented -> calcMemSize64 off size = (k, false) ->
  math.SafeMul (toWordSize k) 32 = (sz, false) -> sz <= 0x1FFFFFFFE0 ->
  uint256.toZ size = 0 \/ uint256.toZ off + uint256.toZ size <= 0x1FFFFFFFE0.
Proof.
  intros (HR & HU & HM) Hk Hz Hb. apply calcMemSize64_region in Hk as [Hu [H0|Hk]]; [by left|].
  right. rewrite Hk. rewrite toWordSize_ceil in Hz by done. unfold is_u64 in Hu.
  assert (k + 31 < 32 * ((k + 31) / 32) + 32).
  { pose proof (Z.mod_pos_bound (k + 31) 32 ltac:(lia)). pose proof (Z.div_mod (k + 31) 32). lia. }
  assert (0 <= (k + 31) / 32 < 2 ^ 64).
  { split; [apply Z.div_pos; lia|apply Z.div_lt_upper_bound; lia]. }
  rewrite math.SafeMul_spec in Hz by (unfold is_u64; lia). injection Hz as Hz Hov.
  apply Z.leb_gt in Hov. rewrite Z.mod_small in Hz by lia. lia.
Qed.

Lemma useGas_stack g s ok s' : useGas_ g s = Ret (ok, s') -> stack s' = stack s.
Proof. unfold useGas_. intros (? & ? & _ & [= -> ->])%zoom_Ret. done. Qed.

(** The iteration of a LOG opcode: the step it reports is ready. *)
Lemma presS_logIteration b evm op o pcCopy gasCopy :
  is_LOG op -> op_frame (Z.to_nat op) o -> log_operation (op - LOG0) o -> calls_frame evm ->
  presS b
    (let cost := constantGas o in
     let info := mkInfo op cost pcCopy gasCopy false in
     let* st := gets stack in
     let sLen := slen st in
     if sLen <? op_minStack o then
       ret (Halted [] (ErrStackUnderflow sLen (op_minStack o)) info)
     else if op_maxStack o <? sLen then
       ret (Halted [] (ErrStackOverflow sLen (op_maxStack o)) info)
     else
       let* ok := useGas_ cost in
       if negb ok then ret (Halted [] ErrOutOfGas info)
       else
         let* sz := requestedMemory o in
         match sz with
         | None => ret (Halted [] ErrGasUintOverflow info)
         | Some memorySize =>
             let* (dynamicCost, err) := makeGasLog (op - LOG0) env memorySize in
             let cost := u64 (cost + dynamicCost) in
             let info := mkInfo op cost pcCopy gasCopy false in
             let* ok := (if is_nil err then useGas_ dynamicCost else ret false) in
             if negb ok then ret (Halted [] ErrOutOfGas info)
             else
               captureState env info ;;;
               (if 0 <? memorySize then onMemory (fun m => Resize m memorySize)
                else ret tt) ;;;
               executeOp env evm o (mkInfo op cost pcCopy gasCopy true)
         end).
Proof.
  intros Hop Ho Hlog Hevm s a s' Hs H. cbv zeta in H.
  apply bind_Ret in H as (st & ? & [= <- <-] & H).
  destruct (_ <? op_minStack o) eqn:Emin; [by injection H as _ <-|].
  destruct (op_maxStack o <? _); [by injection H as _ <-|].
  apply bind_Ret in H as (ok & s1 & H1 & H). pose proof (presS_useGas b _ _ _ _ Hs H1) as F1.
  pose proof (ready_closed _ _ _ Hs F1) as R1. pose proof (useGas_stack _ _ _ _ H1) as St1.
  destruct ok; cbn [negb] in H; [|by injection H as _ <-].
  apply bind_Ret in H as (sz & s2 & H2 & H). destruct sz as [sz|].
  2: { injection H as _ <-. etrans; [exact F1|]. by eapply presS_requestedMemory. }
  apply (requestedMemory_log (op - LOG0)) in H2 as [-> Hreg]; [|done].
  apply bind_Ret in H as ([dyn err] & s3 & H3 & H).
  pose proof (makeGasLog_frame (op - LOG0) env sz b _ _ _ R1 H3) as F3.
  pose proof (ready_closed _ _ _ R1 F3) as R3.
  apply bind_Ret in H as (ok & s4 & H4 & H). destruct err as [e|]; cbn [is_nil] in H4.
  { injection H4 as <- <-. injection H as _ <-. by etrans. }
  apply makeGasLog_paid in H3 as [St3 Hpaid].
  pose proof (presS_useGas b _ _ _ _ R3 H4) as F4. pose proof (useGas_stack _ _ _ _ H4) as St4.
  pose proof (ready_closed _ _ _ R3 F4) as R4.
  destruct ok; cbn [negb] in H; [|injection H as _ <-; by do 2 (etrans; [eassumption|])].
  apply bind_Ret in H as (? & s5 & H5 & H).
  assert (F5 : frameS s4 s5).
  { eapply captureState_frame; [|exact H5]. cbn [si_op]. intros Hdoc _ _.
    change (scStack (scope s4)) with (stack s4). constructor.
    - by apply R4.
    - change (scStack (scope s4)) with (stack s4). rewrite St4, St3, St1.
      rewrite (lo_minStack _ _ Hlog) in Emin. apply Z.ltb_ge in Emin. lia.
    - change (scStack (scope s4)) with (stack s4). rewrite St4, St3. intros off size E0 E1.
      destruct (Hreg off size E0 E1) as (k & Hk & Hz). by eapply region_paid. }
  pose proof (ready_closed _ _ _ R4 F5) as R5.
  transitivity s4; [by transitivity s1; [|transitivity s3]|]. transitivity s5; [done|].
  revert H. eapply (presS_bind b); [apply presS_resize| |exact R5].
  intros _. by eapply presS_executeOp.
Qed.

Lemma presS_iteration b table evm :
  table_all op_frame table -> complete table -> calls_frame evm ->
  presS b (iteration env table evm).
Proof.
  intros Ht Hc Hevm. unfold iteration. do 2 (frame_step; [solve [eauto with frame]|]).
  apply presS_bind; [apply presS_liftR|]. intros op.
  destruct (table !! _) as [[o|]|] eqn:Eo; [|apply presS_liftR..].
  pose proof (Ht _ _ Eo) as Ho. pose proof Ho as [_ Hg].
  destruct (decide (is_LOG op)) as [Hop|Hop].
  - pose proof (cp_logs _ Hc _ _ Hop Eo) as Hlog. rewrite (lo_dynamicGas _ _ Hlog).
    by apply presS_logIteration.
  - repeat first [ by apply presS_captureState | by apply presS_requestedMemory
                 | by apply presS_resize | by eapply presS_executeOp | by eapply Hg | frame_step ].
Qed.

Lemma presS_loop b table evm n :
  table_all op_frame table -> complete table -> calls_frame evm -> presS b (loop env table evm n).
Proof.
  intros Ht Hc Hevm. induction n as [|n IH]; cbn; [by intros ? ? ? _|].
  apply presS_bind; [by apply presS_iteration|]. intros []; [done|apply presS_ret].
Qed.

(** What the call operations need of [Run]: the frame condition, that a
    read-only run changes no account, and that the logger hears of steps and
    finished sub-calls, also when the run is the outermost one. *)
Record run_frame (run : Runner) : Prop := {
  rf_frame : forall b c i ro, presM b (run c i ro);
  rf_static : forall c i m out m', run c i true m = Ret (out, m') -> IsExecuteJP m = false ->
    StateDB.same_accounts (db m) (db m');
  rf_traced : forall c i ro m out m', run c i ro m = Ret (out, m') -> 0 <= depth m -> traced m m';
}.

Lemma frame_captureFailure info err s : frame (mach s) (captureFailure env info err s).
Proof.
  unfold captureFailure. destruct err; [apply frame_emit; intros Q|reflexivity].
  destruct (negb _); [apply bal_state; [by intros _|constructor]|apply bal_fault; constructor].
Qed.

Lemma presM_runFrame b mainLoop c i : presS b mainLoop -> presM b (runFrame env mainLoop c i).
Proof.
  intros Hl m a m' Hm H. unfold runFrame in H. cbv zeta in H.
  apply rbind_Ret in H as ([[[r e] info] s] & H1 & [= _ <-]).
  apply Hl in H1 as [Hf _]; [|split; [exact Hm|by intros _]].
  etrans; [exact Hf|apply frame_captureFailure].
Qed.

(** The machine inside a run: one level deeper, read-only if asked for, with
    the return data cleared. *)
Definition entered (ro : bool) (m : Machine) : Machine :=
  set_returnData [] (set_readOnly (readOnly m || ro) (set_depth (depth m + 1) m)).

Lemma set_readOnly_same m b : readOnly m = b -> set_readOnly b m = m.
Proof. intros <-. by destruct m. Qed.

Lemma runWith_inv mainLoop c i ro m out m' :
  (forall b, presS b mainLoop) -> runWith env mainLoop c i ro m = Ret (out, m') ->
  exists m2, frame (entered ro m) m2 /\
    m' = set_depth (depth m) (set_readOnly (readOnly m) m2).
Proof.
  intros Hl H. unfold runWith in H.
  apply bind_Ret in H as (? & m1 & H1 & H). injection H1 as _ <-.
  apply bind_Ret in H as (r0 & ? & H1 & H). injection H1 as <- <-. cbn [readOnly set_depth] in H.
  apply bind_Ret in H as (? & m1 & H1 & H). apply bind_Ret in H as (? & m1' & H2 & H).
  injection H2 as _ <-. apply bind_Ret in H as (out' & m2 & H3 & H).
  apply bind_Ret in H as (? & m3 & H4 & H). apply bind_Ret in H as (? & m4 & H5 & H).
  injection H5 as _ <-. injection H as <- <-.
  assert (Hent : set_returnData [] m1 = entered ro m).
  { destruct (ro && negb (readOnly m)) eqn:E; injection H1 as _ <-;
      unfold entered, set_returnData, set_readOnly, set_depth; cbn; f_equal;
      destruct ro, (readOnly m); done. }
  rewrite Hent in H3.
  assert (Hfr : frame (entered ro m) m2).
  { destruct (len (Code c) =? 0); [injection H3 as _ <-; reflexivity|].
    by eapply (presM_runFrame (readOnly (entered ro m))). }
  exists m2. split; [done|]. pose proof (fr_depth _ _ Hfr) as Hd.
  pose proof (fr_readOnly _ _ Hfr) as Hr. cbn in Hd, Hr.
  assert (E3 : m3 = set_readOnly (readOnly m) m2).
  { destruct (ro && negb (readOnly m)) eqn:E; injection H4 as _ <-.
    - by destruct ro, (readOnly m).
    - rewrite set_readOnly_same; [done|]. rewrite Hr. by destruct ro, (readOnly m). }
  subst m3. unfold set_depth, set_readOnly; cbn. f_equal. lia.
Qed.

Lemma runWith_frame mainLoop : (forall b, presS b mainLoop) -> run_frame (runWith env mainLoop).
Proof.
  intros Hl. constructor.
  - intros b c i ro m out m' Hm H. apply runWith_inv in H as (m2 & [[] He] & ->); [|done].
    split; [|intros Hd; apply He; cbn; lia].
    constructor; cbn in *; try done. intros Hro. rewrite Hro in *. auto.
  - intros c i m out m' H Hjp. apply runWith_inv in H as (m2 & Hf & ->); [|done].
    apply (fr_static _ _ Hf); cbn; [by destruct (readOnly m)|done].
  - intros c i ro m out m' H Hd. apply runWith_inv in H as (m2 & [_ He] & ->); [|done].
    apply He. cbn. lia.
Qed.
End Interpreter.

(** * The call operations *)
Section Calls.
Context {L : Libs} {RP : AspectReports} {MD : StateDB.Model} {SD : StateDB.Spec} {SA : aspect.Spec}.
Variable env : Env.
Variable run : Runner.

(** [Context.Transfer] works inside the journal, and moving nothing changes
    nothing. *)
Record transfer_ok : Prop := {
  tr_saved : forall f t v, StateDB.keeps_saved (fun d => Transfer env d f t v);
  tr_zero : forall f t d, StateDB.same_accounts d (Transfer env d f t 0);
}.
Hypothesis Htr : transfer_ok.
Hypothesis Hrun : run_frame run.

(** A computation the logger hears nothing of. *)
Definition presQ (b : bool) {A} (m : ST Machine A) : Prop := pres (ro_is b) silent m.

Lemma ro_core b m m' : ro_is b m -> core m m' -> ro_is b m'.
Proof. unfold ro_is. intros <- H. apply H. Qed.

Lemma presQ_dbUpdate b f :
  StateDB.keeps_saved f -> (b = true -> forall d, StateDB.same_accounts d (f d)) ->
  presQ b (dbUpdate f).
Proof.
  intros Hf Hs. apply pres_modify. intros m Hm. apply silent_db.
  - intros i v. by rewrite Hf.
  - intros E _. apply Hs. unfold ro_is in Hm. congruence.
Qed.

Lemma silent_tracer m t d :
  callTree t = callTree (tracer m) -> silent m (set_db d m) ->
  silent m (set_db d (set_tracer t m)).
Proof. intros Ht [[] ?]. split; [|done]. constructor; cbn in *; try done. by rewrite Ht. Qed.

Lemma recordBalance_tree t d a i t' :
  recordBalance t d a i = Ret t' -> callTree t' = callTree t.
Proof. unfold recordBalance. intros H. inv_run. done. Qed.

Lemma TransferWithRecord_inv t d from to v t' d' :
  TransferWithRecord t d from to v (Transfer env) = Ret (t', d') ->
  callTree t' = callTree t /\ d' = Transfer env d from to v.
Proof.
  unfold TransferWithRecord. intros H.
  repeat (apply rbind_Ret in H as (? & ?%recordBalance_tree & H)). injection H as <- <-.
  split; [congruence|done].
Qed.

Lemma presQ_transfer b from to v :
  (b = true -> v = 0) -> presQ b (transferWithRecord_ env from to v).
Proof.
  intros Hv m a m' Hm H. unfold transferWithRecord_ in H.
  apply rbind_Ret in H as ([t d] & (Ht & ->)%TransferWithRecord_inv & [= _ <-]).
  apply silent_tracer; [done|]. apply silent_db.
  - intros i w. by rewrite (tr_saved Htr).
  - intros E _. rewrite Hv; [apply (tr_zero Htr)|]. unfold ro_is in Hm. congruence.
Qed.

Lemma newContract_silent c o v g m a m' : newContract_ c o v g m = Ret (a, m') -> silent m m'.
Proof.
  unfold newContract_. destruct (NewContract _ _ _ _ _). intros [= _ <-].
  by apply silent_intro.
Qed.

Lemma precompiled_silent p i g m a m' : runPrecompiled_ p i g m = Ret (a, m') -> silent m m'.
Proof.
  unfold runPrecompiled_. intros (? & ? & _ & [= _ ->])%zoom_Ret. by apply silent_intro.
Qed.

(** ** Snapshots *)

(** [m] is inside the snapshot [id] that was taken at [m0]. *)
Record within (m0 : Machine) (id : Z) (m : Machine) : Prop := {
  wi_core : core m0 m;
  wi_saved : StateDB.saved (db m) id = Some (StateDB.view (db m0));
  wi_older : forall i v, StateDB.saved (db m0) i = Some v -> i < id;
}.

Lemma snapshot_within m id m1 :
  snapshot_ m = Ret (id, m1) -> within m id m1 /\ events m1 = events m.
Proof.
  unfold snapshot_. pose proof (StateDB.Snapshot_view (db m)) as Hv.
  pose proof (StateDB.Snapshot_saved (db m)) as Hs.
  pose proof (StateDB.Snapshot_fresh (db m)) as Hf.
  pose proof (StateDB.Snapshot_keeps (db m)) as Hk.
  destruct (StateDB.Snapshot (db m)) as [i d]. intros [= <- <-]. cbn in *.
  split; [|done]. constructor; [|done|done]. apply silent_db; [done|].
  intros _ _. by apply StateDB.view_accounts.
Qed.

Lemma within_step m0 id m m' : within m0 id m -> core m m' -> within m0 id m'.
Proof.
  intros [Hf Hs Ho] Hm. constructor; [by etrans| |done]. by apply (fr_saved _ _ Hm).
Qed.

Lemma within_revert m0 id m :
  within m0 id m -> core m0 (set_db (StateDB.RevertToSnapshot id (db m)) m) /\
  StateDB.view (StateDB.RevertToSnapshot id (db m)) = StateDB.view (db m0).
Proof.
  intros [Hf Hs Ho]. pose proof (StateDB.Revert_view _ _ _ Hs) as Hv. split; [|done].
  destruct Hf. constructor; cbn; try done.
  - intros i v Hi. eapply StateDB.Revert_keeps; eauto.
  - intros _ _. by apply StateDB.view_accounts.
Qed.

(** The end of a call: on an error the content is that of the snapshot. *)
Lemma settle_within m0 id m out out' m' :
  within m0 id m -> settle id out m = Ret (out', m') ->
  core m0 m' /\ events m' = events m /\ out'.2 = out.2 /\ out'.1.1 = out.1.1 /\
  out'.1.2 = (if is_nil out.2 || err_is out.2 ErrExecutionReverted then out.1.2 else 0) /\
  (out.2 <> None -> StateDB.view (db m') = StateDB.view (db m0)) /\
  (out.2 = None -> m' = m).
Proof.
  intros W. destruct out as [[r g] err]. unfold settle. destruct (is_nil err) eqn:En.
  - intros [= <- <-]. cbn. destruct err; [done|]. split; [apply W|done].
  - intros H. apply bind_Ret in H as (? & m1 & H1 & H). injection H1 as _ <-.
    injection H as <- <-. destruct (within_revert _ _ _ W) as [Hf Hv]. cbn [fst snd].
    rewrite En. split_and!; try done. by destruct err.
Qed.

(** ** Inside a call *)

(** Between the opening and the closing event of a call the logger hears of
    steps and finished sub-calls, whatever the depth of the call. *)
Record inner (m m' : Machine) : Prop := {
  in_core :> core m m';
  in_traced : 0 <= depth m -> traced m m';
}.

#[local] Instance inner_preorder : PreOrder inner.
Proof.
  split.
  - intros m. split; [reflexivity|]. intros _. reflexivity.
  - intros m1 m2 m3 [C1 E1] [C2 E2]. split; [by etrans|]. intros Hd.
    transitivity m2; [by apply E1|]. apply E2. by rewrite (fr_depth _ _ C1).
Qed.

Lemma silent_inner m m' : silent m m' -> inner m m'.
Proof. intros [Hc He]. split; [done|]. intros _. by apply traced_same, Hc. Qed.

Lemma run_inner c i ro m out m' : run c i ro m = Ret (out, m') -> inner m m'.
Proof.
  intros H. split; [|by eapply (rf_traced _ Hrun)].
  by eapply fr_core, (rf_frame _ Hrun (readOnly m)).
Qed.

(** ** Call *)

(** A join point runs only when join points are on, and the logger hears what its
    aspects report. *)
Lemma hook_inner m d c es :
  IsExecuteJP m = true -> (forall i, StateDB.saved d i = StateDB.saved (db m) i) ->
  (forall Q, aspects_report Q -> balanced Q es) -> inner m (emitAll env es (set_db d (set_actx c m))).
Proof.
  intros Hjp Hs He. transitivity (set_db d (set_actx c m)).
  - apply silent_inner. split; [|done]. constructor; cbn; try done; try reflexivity.
    + intros i v. by rewrite Hs.
    + congruence.
  - split; [|intros _; by apply traced_reports]. unfold emitAll.
    destruct (hasTracer env); [|reflexivity]. by constructor; cbn.
Qed.

Lemma preContractCall_inner ci m r m' :
  IsExecuteJP m = true -> preContractCall_ env ci m = Ret (r, m') -> inner m m'.
Proof.
  unfold preContractCall_. intros Hjp.
  pose proof (aspect.PreContractCall_saved ci (actx m) (db m)) as Hs. cbn in Hs.
  destruct (aspect.PreContractCall _ _ _) as [[? ?] ?]. intros [= _ <-].
  apply hook_inner; [done..|]. intros Q HA. apply HA.
Qed.

Lemma postContractCall_inner ci rd e m r m' :
  IsExecuteJP m = true -> postContractCall_ env ci rd e m = Ret (r, m') -> inner m m'.
Proof.
  unfold postContractCall_. intros Hjp.
  pose proof (aspect.PostContractCall_saved ci rd e (actx m) (db m)) as Hs. cbn in Hs.
  destruct (aspect.PostContractCall _ _ _ _ _) as [[? ?] ?]. intros [= _ <-].
  apply hook_inner; [done..|]. intros Q HA. apply HA.
Qed.

Lemma runContract_inner caller addr code input gas value index m x m' :
  runContract env run caller addr code input gas value index m = Ret (x, m') ->
  inner m m' /\ exists r g e, x = FallThrough r g e.
Proof.
  unfold runContract. intros H.
  apply bind_Ret in H as (c & m1 & F1%newContract_silent%silent_inner & H).
  apply bind_Ret in H as (h & ? & H2 & H). injection H2 as _ <-.
  apply bind_Ret in H as ([[r err] c'] & m2 & F2%run_inner & H).
  apply bind_Ret in H as (jp & ? & H4 & H). injection H4 as <- <-.
  destruct (IsExecuteJP m2) eqn:Ejp.
  - apply bind_Ret in H as (post & m3 & H5%postContractCall_inner & H); [|done].
    destruct (match aspect.JPErr post with None => _ | Some _ => _ end) as [r' err'].
    injection H as <- <-. split; [|by eexists _, _, _]. by do 2 (etrans; [done|]).
  - injection H as <- <-. split; [by etrans|by eexists _, _, _].
Qed.

(** [callContract] returns early only when the pre-call join point fails. *)
Lemma callContract_inner caller addr input gas value index m x m' :
  callContract env run caller addr input gas value index m = Ret (x, m') ->
  inner m m' /\ (IsExecuteJP m = false -> exists r g e, x = FallThrough r g e).
Proof.
  unfold callContract. intros H. apply bind_Ret in H as (code & ? & H1 & H).
  injection H1 as <- <-. destruct (len _ =? 0).
  { injection H as <- <-. split; [reflexivity|]. by eexists _, _, _. }
  apply bind_Ret in H as (jp & ? & H1 & H). injection H1 as <- <-.
  destruct (IsExecuteJP m) eqn:Ejp.
  - apply bind_Ret in H as (pre & m1 & H1%preContractCall_inner & H); [|done].
    destruct (aspect.JPErr pre).
    + injection H as _ <-. by split.
    + apply runContract_inner in H as [F _]. split; [by etrans|done].
  - apply runContract_inner in H as [F Hx]. done.
Qed.

(** A call that failed leaves the content of the state as it was. *)
Definition reverted (m m' : Machine) (err : option Err) : Prop :=
  err <> None -> StateDB.view (db m') = StateDB.view (db m).

Lemma emit_db e m : db (emit env e m) = db m.
Proof. unfold emit. by destruct (hasTracer env). Qed.

Lemma emit_inv e m x m' :
  emit_ env e m = Ret (x, m') -> m' = emit env e m /\ core m m' /\ db m' = db m.
Proof. intros [= _ <-]. split; [done|]. split; [apply core_emit|apply emit_db]. Qed.

Lemma enterEvent_inv d typ from to create input gas value m x m' :
  enterEvent env d typ from to create input gas value m = Ret (x, m') ->
  m' = emit env (opening d typ from to create input gas value) m /\ core m m' /\ db m' = db m.
Proof. apply emit_inv. Qed.
Lemma exitEvent_inv d out gasUsed err m x m' :
  exitEvent env d out gasUsed err m = Ret (x, m') ->
  m' = emit env (closing d out gasUsed err) m /\ core m m' /\ db m' = db m.
Proof. apply emit_inv. Qed.

(** What the logger is told of a call: nothing if it failed before it began,
    otherwise an opening and a closing event around what the call did, the
    latter with the result and the error the caller gets. *)
Definition told (typ : OpCode) (from to : Address) (create : bool) (input : bytes)
    (gas value : Z) (r : bytes) (err : option Err) (m m' : Machine) : Prop :=
  (events m' = events m /\ err <> None) \/
  exists gasUsed, (0 < depth m -> traced m m') /\
    (forall Q, hasTracer env = true -> hooks_report Q m ->
     bracketed Q (opening (depth m) typ from to create input gas value)
       (closing (depth m) r gasUsed err) m m').

Lemma told_intro typ from to create input gas value r err gasUsed m m1 m2 :
  events m1 = events m -> IsExecuteJP m1 = IsExecuteJP m ->
  traced (emit env (opening (depth m) typ from to create input gas value) m1) m2 ->
  told typ from to create input gas value r err m
    (emit env (closing (depth m) r gasUsed err) m2).
Proof.
  intros E1 J1 T. right. exists gasUsed. split.
  - intros Hd. transitivity m1; [by apply traced_same|]. revert T. unfold opening, closing.
    zbool. apply traced_call.
  - intros Q Ht HA. destruct (bracketed_emit Q env (opening (depth m) typ from to create input gas value)
      (closing (depth m) r gasUsed err) m1 m2 Ht)
      as (body & Hb & B); [unfold hooks_report in *; by rewrite J1|exact T|].
    exists body. split; [|done]. unfold reports in *. by rewrite <- E1.
Qed.

Lemma told_frame typ from to create input gas value r err m m' :
  core m m' -> (0 <= depth m -> told typ from to create input gas value r err m m') -> frame m m'.
Proof.
  intros Hc Ht. split; [done|]. intros Hd. destruct Ht as [[E _]|(? & T & _)]; [lia| |by apply T].
  by apply traced_same, Hc.
Qed.

(** The middle of [Call]: a precompile, or the code of the address. *)
Lemma callCode_inner p caller addr input gas value index m ex m' :
  match p with
  | Some p => let* (r, gas, err) := runPrecompiled_ p input gas in ret (FallThrough r gas err)
  | None => callContract env run caller addr input gas value index
  end m = Ret (ex, m') ->
  inner m m' /\ (IsExecuteJP m = false -> exists r g e, ex = FallThrough r g e).
Proof.
  destruct p as [p|]; [|apply callContract_inner]. intros H.
  apply bind_Ret in H as ([[r' g'] e'] & m1 & H1%precompiled_silent & H). injection H as <- <-.
  split; [by apply silent_inner|by eexists _, _, _].
Qed.

(** The start of [Call] after its snapshot: the account and the transfer. *)
Lemma callTransfer_silent from addr value m x m1 y m' :
  (readOnly m = true -> value = 0) ->
  (if negb (StateDB.Exist (db m) addr) then dbUpdate (StateDB.CreateAccount addr) else ret tt) m
    = Ret (x, m1) ->
  transferWithRecord_ env from addr value m1 = Ret (y, m') -> silent m m'.
Proof.
  intros Hv H1 H.
  assert (S1 : silent m m1).
  { destruct (StateDB.Exist (db m) addr) eqn:Ex; injection H1 as _ <-; [reflexivity|].
    apply silent_db.
    - intros i v. by rewrite StateDB.CreateAccount_saved.
    - intros _ _. by apply StateDB.CreateAccount_new. }
  etrans; [done|]. eapply (presQ_transfer (readOnly m1)); [|done|done].
  intros E. apply Hv. by rewrite <- (fr_readOnly _ _ S1).
Qed.

Lemma callBody_spec caller addr input gas value m r g err m' :
  (readOnly m = true -> value = 0) ->
  callBody env run caller addr input gas value m = Ret (r, g, err, m') ->
  core m m' /\ (IsExecuteJP m = false -> reverted m m' err) /\
  (0 <= depth m -> told CALL (RefAddress caller) addr false input gas value r err m m').
Proof.
  intros Hv H. unfold callBody in H.
  do 3 (apply bind_Ret in H as (? & ? & H1 & H); injection H1 as <- <-).
  destruct (params.CallCreateDepth <? depth m);
    [injection H as <- <- <- <-; split_and!; [done..|by left]|].
  destruct (negb _ && negb _); [injection H as <- <- <- <-; split_and!; [done..|by left]|].
  apply bind_Ret in H as (id & m1 & [W E1]%snapshot_within & H).
  apply bind_Ret in H as (x0 & ? & H2 & H). injection H2 as <- <-.
  destruct (negb _ && (negb _ && _ && _)).
  { apply bind_Ret in H as (? & m2 & (-> & C2 & _)%enterEvent_inv & H).
    apply bind_Ret in H as (? & m3 & (-> & C3 & _)%exitEvent_inv & H). injection H as <- <- <- <-.
    split_and!; [etrans; [apply W|by etrans]|by intros _ []|]. intros _. eapply told_intro; [done|apply W|reflexivity]. }
  apply bind_Ret in H as (? & m2 & H2 & H). apply bind_Ret in H as (? & m3 & H3 & H).
  assert (S3 : silent m1 m3).
  { eapply callTransfer_silent; [|done..]. intros E. apply Hv.
    by rewrite <- (fr_readOnly _ _ (wi_core _ _ _ W)). }
  pose proof (within_step _ _ _ _ W S3) as W3. assert (E3 := si_events _ _ S3).
  apply bind_Ret in H as (? & m4 & (Em4 & C4 & _)%enterEvent_inv & H).
  apply bind_Ret in H as (ex & m5 & [I5 Hx]%callCode_inner & H).
  pose proof (within_step _ _ _ _ (within_step _ _ _ _ W3 C4) I5) as W5.
  assert (Hd4 : depth m4 = depth m).
  { rewrite (fr_depth _ _ C4). apply W3. }
  destruct ex as [r' g' e'|r' g' e'].
  - apply bind_Ret in H as (? & m6 & (-> & C6 & _)%exitEvent_inv & H). injection H as <- <- <- <-.
    split_and!; [etrans; [apply W5|done]| |].
    + intros Hjp. exfalso. destruct Hx as (? & ? & ? & ?); [|done].
      rewrite <- Hjp, (fr_jp _ _ C4). apply (fr_jp _ _ (wi_core _ _ _ W3)).
    + intros Hd. eapply (told_intro _ _ _ _ _ _ _ _ _ _ _ m3); [congruence|apply W3|]. subst m4.
      apply (in_traced _ _ I5). lia.
  - apply bind_Ret in H as ([[r1 g1] e1] & m6 & H6 & H).
    apply (settle_within m id m5) in H6 as (C6 & Es6 & E6 & _ & _ & Hrev & _); [|done].
    apply bind_Ret in H as (? & m7 & (-> & C7 & Ed7)%exitEvent_inv & H). injection H as <- <- <- <-.
    split_and!; [by etrans| |].
    + intros _ Herr. rewrite Ed7. apply Hrev. cbn in E6. by rewrite <- E6.
    + intros Hd. eapply (told_intro _ _ _ _ _ _ _ _ _ _ _ m3); [congruence|apply W3|]. subst m4.
      transitivity m5; [apply (in_traced _ _ I5); lia|]. apply traced_same; [done|].
      by rewrite (fr_jp _ _ C6), (fr_jp _ _ (wi_core _ _ _ W5)).
Qed.

(** [SaveCall], a computation that keeps the frame, [ExitCall]. *)
Lemma core_bracket m from to data v g m2 leftover r err :
  core (set_tracer (SaveCall (tracer m) from to data v g) m) m2 ->
  core m (set_tracer (ExitCall (tracer m2) leftover r err) m2).
Proof.
  intros []. constructor; cbn in *; try done. by eapply tree_bracket.
Qed.

Lemma saveCall_inv from to data value gas m x m1 :
  saveCall_ from to data value gas m = Ret (x, m1) ->
  exists v, m1 = set_tracer (SaveCall (tracer m) from to data v (uint256.NewInt gas)) m.
Proof. unfold saveCall_. intros H. apply rbind_Ret in H as (v & _ & [= _ <-]). by exists v. Qed.

Lemma Call_spec caller addr input gas value m r g err m' :
  (readOnly m = true -> value = 0) ->
  Call env run caller addr input gas value m = Ret (r, g, err, m') ->
  core m m' /\ (IsExecuteJP m = false -> reverted m m' err) /\
  (0 <= depth m -> told CALL (RefAddress caller) addr false input gas value r err m m').
Proof.
  intros Hv H. unfold Call in H. apply bind_Ret in H as (? & m1 & [v ->]%saveCall_inv & H).
  apply bind_Ret in H as ([[r1 g1] e1] & m2 & (F & Hrev & Ht)%callBody_spec & H); [|done].
  apply bind_Ret in H as (? & m3 & [= _ <-] & H). injection H as <- <- <- <-.
  split; [by eapply core_bracket|]. split; [exact Hrev|exact Ht].
Qed.

(** ** CallCode, DelegateCall, StaticCall *)

Lemma runCode_inner c addr input ro m x m' :
  runCode run c addr input ro m = Ret (x, m') -> inner m m'.
Proof.
  unfold runCode. intros H.
  do 2 (apply bind_Ret in H as (? & ? & H1 & H); injection H1 as <- <-).
  apply bind_Ret in H as ([[r err] c'] & m1 & H1%run_inner & H). by injection H as _ <-.
Qed.

(** The common end of the three: settle, then report to the logger what was
    opened at [m1]. *)
Lemma settle_exit m0 id typ from to input gas0 value m1 m out gas r g err m' :
  within m0 id m1 -> events m1 = events m0 ->
  inner (emit env (CaptureEnter typ from to input gas0 value) m1) m ->
  (let* (r, gas', err) := settle id out in
   emit_ env (CaptureExit r (u64 (gas - gas')) err) ;;; ret (r, gas', err)) m
  = Ret (r, g, err, m') ->
  frame m0 m' /\ reverted m0 m' err /\ (err = None -> db m' = db m).
Proof.
  intros W E1 I H. set (me := emit env _ m1) in I.
  assert (Ce : core m1 me) by apply core_emit.
  pose proof (within_step _ _ _ _ (within_step _ _ _ _ W Ce) I) as Wm.
  apply bind_Ret in H as ([[r1 g1] e1] & m6 & H6 & H).
  apply (settle_within m0 id m) in H6 as (C6 & Es6 & E6 & _ & _ & Hrev & Hok); [|done].
  apply bind_Ret in H as (? & m7 & (-> & C7 & Ed7)%emit_inv & H). injection H as <- <- <- <-.
  cbn in E6. rewrite <- E6 in Hrev, Hok. split_and!.
  - split; [by etrans|]. intros Hd. transitivity m1; [by apply traced_same, W|].
    eapply traced_call. transitivity m; [apply I|apply traced_same; [done|]].
    2:{ by rewrite (fr_jp _ _ C6), (fr_jp _ _ (wi_core _ _ _ Wm)). }
    rewrite (fr_depth _ _ Ce), (fr_depth _ _ (wi_core _ _ _ W)). lia.
  - intros Herr. rewrite Ed7. by apply Hrev.
  - intros Herr. rewrite Ed7. by rewrite Hok.
Qed.

Lemma CallCode_spec caller addr input gas value m r g err m' :
  CallCode env run caller addr input gas value m = Ret (r, g, err, m') ->
  frame m m' /\ reverted m m' err.
Proof.
  intros H. unfold CallCode in H.
  do 2 (apply bind_Ret in H as (? & ? & H1 & H); injection H1 as <- <-).
  destruct (params.CallCreateDepth <? depth m); [injection H as <- <- <- <-; by split|].
  destruct (negb _); [injection H as <- <- <- <-; by split|].
  apply bind_Ret in H as (id & m1 & [W E1]%snapshot_within & H).
  apply bind_Ret in H as (? & m2 & (-> & _)%emit_inv & H).
  apply bind_Ret in H as (out & m3 & H3 & H).
  eapply settle_exit in H as (? & ? & _); [done..|].
  destruct (precompile _ _).
  - by eapply silent_inner, precompiled_silent.
  - apply bind_Ret in H3 as (c & m4 & H4%newContract_silent%silent_inner & H3).
    etrans; [done|by eapply runCode_inner].
Qed.

Lemma DelegateCall_spec caller addr input gas m r g err m' :
  DelegateCall env run caller addr input gas m = Ret (r, g, err, m') ->
  frame m m' /\ reverted m m' err.
Proof.
  intros H. unfold DelegateCall in H.
  apply bind_Ret in H as (? & ? & H1 & H); injection H1 as <- <-.
  destruct (params.CallCreateDepth <? depth m); [injection H as <- <- <- <-; by split|].
  apply bind_Ret in H as (id & m1 & [W E1]%snapshot_within & H).
  apply bind_Ret in H as (? & m2 & H2 & H).
  assert (Hm2 : exists value,
    m2 = emit env (CaptureEnter DELEGATECALL (RefAddress caller) addr input gas value) m1).
  { destruct (hasTracer env) eqn:Et; [destruct caller as [|parent]|].
    - by apply liftR_Ret in H2 as (? & ? & _).
    - exists (base_value parent). by apply emit_inv in H2 as [-> _].
    - exists None. injection H2 as _ <-. by rewrite silent_emit. }
  destruct Hm2 as [value ->]. apply bind_Ret in H as (out & m3 & H3 & H).
  eapply settle_exit in H as (? & ? & _); [done..|].
  destruct (precompile _ _).
  - by eapply silent_inner, precompiled_silent.
  - apply bind_Ret in H3 as (c & m4 & H4%newContract_silent%silent_inner & H3).
    apply bind_Ret in H3 as (c' & ? & H5 & H3). apply liftR_Ret in H5 as (? & _ & [= -> ->]).
    etrans; [done|by eapply runCode_inner].
Qed.

Lemma runCode_static c addr input m x m' :
  runCode run c addr input true m = Ret (x, m') -> IsExecuteJP m = false ->
  StateDB.same_accounts (db m) (db m').
Proof.
  unfold runCode. intros H.
  do 2 (apply bind_Ret in H as (? & ? & H1 & H); injection H1 as <- <-).
  apply bind_Ret in H as ([[r err] c'] & m1 & H1 & H). injection H as _ <-.
  by eapply (rf_static _ Hrun).
Qed.

Lemma snapshot_accounts m id m1 :
  snapshot_ m = Ret (id, m1) -> StateDB.same_accounts (db m) (db m1).
Proof.
  unfold snapshot_. pose proof (StateDB.Snapshot_view (db m)) as Hv.
  destruct (StateDB.Snapshot (db m)). intros [= _ <-]. by apply StateDB.view_accounts.
Qed.

(** What a static call runs changes no account. *)
Lemma staticCode_inner caller addr input gas m out m' :
  match precompile (chainRules env) addr with
  | Some p => runPrecompiled_ p input gas
  | None =>
      let* c := newContract_ caller addr (Some 0) gas in
      runCode run c addr input true
  end m = Ret (out, m') ->
  inner m m' /\ (IsExecuteJP m = false -> StateDB.same_accounts (db m) (db m')).
Proof.
  destruct (precompile _ _); intros H.
  - split; [by eapply silent_inner, precompiled_silent|]. intros _.
    apply zoom_Ret in H as (? & ? & _ & [= _ ->]). reflexivity.
  - apply bind_Ret in H as (c & m4 & H4 & H). pose proof (newContract_silent _ _ _ _ _ _ _ H4) as S4.
    split; [etrans; [by apply silent_inner|by eapply runCode_inner]|]. intros Hjp.
    assert (E4 : db m4 = db m).
    { unfold newContract_ in H4. destruct (NewContract _ _ _ _ _). by injection H4 as _ <-. }
    rewrite <- E4. eapply runCode_static; [done|]. by rewrite (fr_jp _ _ S4).
Qed.

Lemma StaticCall_spec caller addr input gas m r g err m' :
  StaticCall env run caller addr input gas m = Ret (r, g, err, m') ->
  frame m m' /\ reverted m m' err /\
  (IsExecuteJP m = false -> StateDB.same_accounts (db m) (db m')).
Proof.
  intros H. unfold StaticCall in H.
  apply bind_Ret in H as (? & ? & H1 & H); injection H1 as <- <-.
  destruct (params.CallCreateDepth <? depth m);
    [injection H as <- <- <- <-; split_and!; reflexivity || done|].
  apply bind_Ret in H as (id & m1 & Hsn & H). pose proof (snapshot_within _ _ _ Hsn) as [W E1].
  apply bind_Ret in H as (? & m1' & [= _ <-] & H).
  set (m1' := set_db _ m1) in H.
  assert (S1 : silent m1 m1').
  { apply silent_db; [|intros _ _; apply StateDB.AddBalance_touch].
    intros i v. by rewrite StateDB.AddBalance_saved. }
  pose proof (within_step _ _ _ _ W S1) as W1.
  apply bind_Ret in H as (? & m2 & (Em2 & C2 & Ed2)%emit_inv & H).
  apply bind_Ret in H as (out & m3 & [I3 St3]%staticCode_inner & H).
  eapply (settle_exit m id STATICCALL (RefAddress caller) addr input gas None m1') in H
    as (F & R & Eok); [|done..|by rewrite <- Em2].
  split_and!; [done..|]. intros Hjp. destruct err as [e|].
  { apply StateDB.view_accounts, R. done. }
  rewrite Eok by done. transitivity (db m1); [by eapply snapshot_accounts|].
  transitivity (db m2); [rewrite Ed2; apply StateDB.AddBalance_touch|]. apply St3.
  rewrite (fr_jp _ _ C2). by rewrite (fr_jp _ _ (wi_core _ _ _ W1)).
Qed.

(** ** Contract creation *)

Lemma presQ_write f : StateDB.keeps_saved f -> presQ false (dbUpdate f).
Proof. intros Hf. by apply presQ_dbUpdate. Qed.

Lemma presQ_storeCode address r err c : presQ false (storeCode env address r err c).
Proof.
  intros m a m' Hm. unfold storeCode. destruct (is_nil _); [|by intros [= _ <-]].
  destruct (UseGas c _) as [[] c']; [|by intros [= _ <-]]. intros H.
  apply bind_Ret in H as (? & m1 & H1 & H). injection H as _ <-.
  by eapply (presQ_write _ (StateDB.SetCode_saved _ _)).
Qed.

(** The account of a new contract: created, with a nonce, and paid. *)
Lemma createAccount_silent from address value m x m1 y m2 z m' :
  readOnly m = false -> dbUpdate (StateDB.CreateAccount address) m = Ret (x, m1) ->
  (if params.IsEIP158 (chainRules env) then dbUpdate (StateDB.SetNonce address 1) else ret tt) m1
    = Ret (y, m2) ->
  transferWithRecord_ env from address value m2 = Ret (z, m') -> silent m m'.
Proof.
  intros Hro H1 H2 H3.
  assert (S1 : silent m m1) by (by eapply (presQ_write _ (StateDB.CreateAccount_saved _))).
  assert (R1 : ro_is false m1) by (by eapply ro_core; [|apply S1]).
  assert (S2 : silent m1 m2).
  { destruct (params.IsEIP158 _); [|by injection H2 as _ <-].
    by eapply (presQ_write _ (StateDB.SetNonce_saved _ _)). }
  assert (R2 : ro_is false m2) by (by eapply ro_core; [|apply S2]).
  transitivity m1; [done|]. transitivity m2; [done|]. by eapply (presQ_transfer false from address value).
Qed.

(** The errors on which [create] undoes everything: from Homestead on all of them,
    before it all but the one of code too expensive to store. *)
Definition undoes (err : option Err) : Prop :=
  params.IsHomestead (chainRules env) = true \/ err <> Some ErrCodeStoreOutOfGas.

(** The end of [create]. *)
Lemma createRevert_within m0 id m (err : option Err) (c c' : Contract) m' :
  within m0 id m ->
  (if negb (is_nil err) && (params.IsHomestead (chainRules env)
                            || negb (err_is err ErrCodeStoreOutOfGas)) then
     dbUpdate (StateDB.RevertToSnapshot id) ;;;
     ret (if negb (err_is err ErrExecutionReverted) then (UseGas c (Gas c)).2 else c)
   else ret c) m = Ret (c', m') ->
  core m0 m' /\ events m' = events m /\ (undoes err -> reverted m0 m' err).
Proof.
  intros W. destruct (negb (is_nil err) && _) eqn:Erev; intros H.
  - apply bind_Ret in H as (? & m1 & [= _ <-] & H). injection H as _ <-.
    destruct (within_revert _ _ _ W) as [F V]. split_and!; [done|done|]. by intros _ _.
  - injection H as _ <-. split_and!; [apply W|done|]. intros Hh Herr.
    destruct err as [e|]; [|done]. cbn [is_nil negb andb] in Erev.
    apply orb_false_iff in Erev as [E1 E2%negb_false_iff]. destruct Hh as [Hh|Hh]; [congruence|].
    unfold err_is in E2. by apply bool_decide_eq_true in E2.
Qed.

Lemma createContract_spec caller ch gas value address typ m r a g err m' :
  readOnly m = false ->
  createContract env run caller ch gas value address typ m = Ret (r, a, g, err, m') ->
  core m m' /\ (undoes err -> reverted m m' err) /\
  (0 <= depth m ->
   told typ (RefAddress caller) address true (ch_code ch) gas value r err m m').
Proof.
  intros Hro H. unfold createContract in H.
  apply bind_Ret in H as (id & m1 & [W1 E1]%snapshot_within & H).
  apply bind_Ret in H as (? & m2 & H2 & H). apply bind_Ret in H as (? & m3 & H3 & H).
  apply bind_Ret in H as (? & m4 & H4 & H).
  assert (S4 : silent m1 m4).
  { eapply createAccount_silent; [|done..]. by rewrite (fr_readOnly _ _ (wi_core _ _ _ W1)). }
  apply bind_Ret in H as (c & m5 & S5%newContract_silent & H).
  assert (S15 : silent m1 m5) by (by etrans). pose proof (within_step _ _ _ _ W1 S15) as W5.
  assert (D5 : depth m5 = depth m) by apply W5.
  apply bind_Ret in H as (d & ? & H6 & H). injection H6 as <- <-. rewrite D5 in H.
  apply bind_Ret in H as (? & m6 & (Em6 & C6 & _)%enterEvent_inv & H).
  pose proof (within_step _ _ _ _ W5 C6) as W6.
  apply bind_Ret in H as ([[r7 err7] c7] & m7 & I7%run_inner & H).
  pose proof (within_step _ _ _ _ W6 I7) as W7.
  apply bind_Ret in H as ([err8 c8] & m8 & S8%presQ_storeCode & H);
    [|by eapply ro_core; [|apply W7]].
  pose proof (within_step _ _ _ _ W7 S8) as W8.
  apply bind_Ret in H as (c9 & m9 & (C9 & E9 & R9)%(createRevert_within m) & H); [|done].
  apply bind_Ret in H as (d & ? & H10 & H). injection H10 as <- <-.
  apply bind_Ret in H as (? & m10 & (-> & C10 & E10)%exitEvent_inv & H). injection H as <- <- <- <- <-.
  split_and!; [by etrans|intros Hh Herr; rewrite E10; by apply R9|].
  intros Hd. rewrite (fr_depth _ _ C9).
  eapply (told_intro _ _ _ _ _ _ _ _ _ _ _ m5); [by rewrite (si_events _ _ S15)|apply W5|].
  subst m6. transitivity m7; [|apply traced_same; [rewrite E9; apply S8|]].
  2:{ by rewrite (fr_jp _ _ C9), (fr_jp _ _ (wi_core _ _ _ W7)). }
  apply I7. rewrite (fr_depth _ _ (wi_core _ _ _ W6)). done.
Qed.

(** The state a creation starts from: the nonce of the creator is used up and
    the address is warm. *)
Definition reserved (from address : Address) (d : StateDB.DB) : StateDB.DB :=
  let d := StateDB.SetNonce from (u64 (StateDB.GetNonce d from + 1)) d in
  if params.IsBerlin (chainRules env) then StateDB.AddAddressToAccessList address d else d.

(** A creation that returns an error leaves the state as it was, or with what
    it had reserved. *)
Definition create_reverted (from address : Address) (m m' : Machine) (err : option Err) : Prop :=
  undoes err -> err <> None ->
  StateDB.view (db m') = StateDB.view (db m) \/
  StateDB.view (db m') = StateDB.view (reserved from address (db m)).

Lemma reserved_silent from address m :
  readOnly m = false -> silent m (set_db (reserved from address (db m)) m).
Proof.
  intros Hro. apply silent_db; [|congruence]. intros i v. unfold reserved.
  destruct (params.IsBerlin _); by rewrite ?StateDB.AddAddressToAccessList_saved,
    StateDB.SetNonce_saved.
Qed.

Lemma createBody_spec caller ch gas value address typ m r a g err m' :
  readOnly m = false ->
  createBody env run caller ch gas value address typ m = Ret (r, a, g, err, m') ->
  core m m' /\ create_reverted (RefAddress caller) address m m' err /\
  (0 <= depth m ->
   told typ (RefAddress caller) address true (ch_code ch) gas value r err m m').
Proof.
  intros Hro H. unfold createBody in H.
  do 2 (apply bind_Ret in H as (? & ? & H1 & H); injection H1 as <- <-).
  destruct (params.CallCreateDepth <? depth m);
    [injection H as <- <- <- <- <-; split; [done|]; split; by left|].
  destruct (negb _); [injection H as <- <- <- <- <-; split; [done|]; split; by left|].
  apply bind_Ret in H as (? & ? & H1 & H); injection H1 as <- <-.
  destruct (_ <? _); [injection H as <- <- <- <- <-; split; [done|]; split; by left|].
  apply bind_Ret in H as (? & m1 & [= _ <-] & H).
  apply bind_Ret in H as (? & m2 & H2 & H).
  assert (E2 : m2 = set_db (reserved (RefAddress caller) address (db m)) m).
  { unfold reserved. destruct (params.IsBerlin _); by injection H2 as _ <-. }
  pose proof (reserved_silent (RefAddress caller) address m Hro) as S2. rewrite <- E2 in S2.
  do 2 (apply bind_Ret in H as (? & ? & H1 & H); injection H1 as <- <-).
  destruct (negb _ || _).
  { injection H as <- <- <- <- <-. subst m2. split_and!; [apply S2|by right|].
    intros _. left. split; [apply S2|done]. }
  apply createContract_spec in H as (F & Hrev & Ht); [|by subst m2].
  split_and!; [by etrans; [apply S2|]| |subst m2; exact Ht].
  intros Hh Herr. right. rewrite (Hrev Hh Herr). by subst m2.
Qed.

Lemma create_spec caller ch gas value address typ m r a g err m' :
  readOnly m = false ->
  create env run caller ch gas value address typ m = Ret (r, a, g, err, m') ->
  core m m' /\ create_reverted (RefAddress caller) address m m' err /\
  (0 <= depth m ->
   told typ (RefAddress caller) address true (ch_code ch) gas value r err m m').
Proof.
  intros Hro H. unfold create in H. apply bind_Ret in H as (? & m1 & [v ->]%saveCall_inv & H).
  apply bind_Ret in H as ([[[r1 a1] g1] e1] & m2 & (F & Hrev & Ht)%createBody_spec & H); [|done].
  apply bind_Ret in H as (? & m3 & [= _ <-] & H). injection H as <- <- <- <- <-.
  split; [by eapply core_bracket|]. split; [exact Hrev|exact Ht].
Qed.

(** The call operations satisfy the interface the opcodes rely on. *)
Lemma evmCalls_frame : calls_frame (evmCalls env run).
Proof.
  constructor; cbn.
  - intros b r a i g v Hv m [[? ?] ?] m' Hm H. apply Call_spec in H as (F & _ & Ht).
    + by eapply told_frame.
    + unfold ro_is in Hm. by rewrite Hm.
  - intros b r a i g v m [[? ?] ?] m' Hm H. by apply CallCode_spec in H as [F _].
  - intros b r a i g m [[? ?] ?] m' Hm H. by apply DelegateCall_spec in H as [F _].
  - intros b r a i g m [[? ?] ?] m' Hm H. by apply StaticCall_spec in H as [F _].
  - intros r i g v m [[[? ?] ?] ?] m' Hm H. unfold Create in H.
    apply bind_Ret in H as (? & ? & H1 & H); injection H1 as <- <-.
    apply create_spec in H as (F & _ & Ht); [by eapply told_frame|done].
  - intros r i g v s m [[[? ?] ?] ?] m' Hm H.
    apply create_spec in H as (F & _ & Ht); [by eapply told_frame|done].
Qed.
End Calls.

(** * The closed interpreter *)
Section Machine.
Context {L : Libs} {RP : AspectReports} {MD : StateDB.Model} {SD : StateDB.Spec} {SA : aspect.Spec}.

Lemma Run_frame env table n :
  transfer_ok env -> table_all op_frame table -> complete table -> run_frame (Run env table n).
Proof.
  intros Htr Ht Hc. induction n as [|n IH]; cbn.
  - constructor; [by intros ? ? ? ? ? ? ? _|done..].
  - apply runWith_frame. intros b. apply presS_loop; [done|done|]. by apply evmCalls_frame.
Qed.

(** Every interpreter runs inside the frame. *)
Lemma interpreter_frame env rules eips table active fuel :
  transfer_ok env -> NewEVMInterpreter rules eips = Ret (table, active) ->
  run_frame (Run env table fuel).
Proof.
  intros Htr H. apply Run_frame; [done| |].
  - by eapply NewEVMInterpreter_frame.
  - by eapply NewEVMInterpreter_complete.
Qed.
End Machine.

(** The balance transfer of core/evm.go satisfies what the calls rely on. *)
Lemma core_transfer_ok {L : Libs} {MD : StateDB.Model} {SD : StateDB.Spec} env :
  Transfer env = core_Transfer -> transfer_ok env.
Proof.
  intros E. constructor; rewrite E; unfold core_Transfer.
  - intros f t v d i. by rewrite StateDB.AddBalance_saved, StateDB.SubBalance_saved.
  - intros f t d. etrans; [apply StateDB.SubBalance_touch|apply StateDB.AddBalance_touch].
Qed.

(** * The guarantees of the call operations

    Throughout, the [Transfer] function of the block context and the aspects work
    inside the journal of the state database, as [core_Transfer] does. *)
Section Guarantees.
Context {L : Libs} {RP : AspectReports} {MD : StateDB.Model} {SD : StateDB.Spec} {SA : aspect.Spec}.

(** C1: a failed call has no effect on the state. For every fork and every set
    of extra EIPs, if [CallCode], [DelegateCall] or [StaticCall] returns an
    error, the content of the state database is what it was before. *)
Theorem failed_call_reverts env rules eips table active fuel caller addr input gas value
    m r g err m' :
  transfer_ok env -> NewEVMInterpreter rules eips = Ret (table, active) ->
  CallCode env (Run env table fuel) caller addr input gas value m = Ret (r, g, Some err, m') \/
  DelegateCall env (Run env table fuel) caller addr input gas m = Ret (r, g, Some err, m') \/
  StaticCall env (Run env table fuel) caller addr input gas m = Ret (r, g, Some err, m') ->
  StateDB.view (db m') = StateDB.view (db m).
Proof.
  intros Htr Ht. pose proof (interpreter_frame env rules eips table active fuel Htr Ht) as Hr.
  intros [H|[H|H]].
  - apply CallCode_spec in H as [_ R]; [by apply R|done].
  - apply DelegateCall_spec in H as [_ R]; [by apply R|done].
  - apply StaticCall_spec in H as (_ & R & _); [by apply R|done].
Qed.

(** C2: the same for [Call] while join points are off: an error means that the
    value transfer, the account creation and everything the callee did are
    undone. If the machine is in read-only mode the call moves no value, which
    the opcodes see to. *)
Theorem failed_Call_reverts env rules eips table active fuel caller addr input gas value
    m r g err m' :
  transfer_ok env -> NewEVMInterpreter rules eips = Ret (table, active) ->
  (readOnly m = true -> value = 0) -> IsExecuteJP m = false ->
  Call env (Run env table fuel) caller addr input gas value m = Ret (r, g, Some err, m') ->
  StateDB.view (db m') = StateDB.view (db m).
Proof.
  intros Htr Ht Hro Hjp H.
  pose proof (interpreter_frame env rules eips table active fuel Htr Ht) as Hr.
  apply Call_spec in H as (_ & R & _); [by apply R|done..].
Qed.

(** C3: a failed contract creation leaves at most the creator's nonce and the
    access-list entry of the new address behind. Before Homestead this does not
    hold of the error [ErrCodeStoreOutOfGas], on which [create] keeps the new
    account. A creation does not run in read-only mode, which the opcodes see
    to. *)
Theorem failed_Create_reverts env rules eips table active fuel caller ch gas value address typ
    m r a g err m' :
  transfer_ok env -> NewEVMInterpreter rules eips = Ret (table, active) ->
  params.IsHomestead (chainRules env) = true \/ err <> ErrCodeStoreOutOfGas ->
  readOnly m = false ->
  create env (Run env table fuel) caller ch gas value address typ m
    = Ret (r, a, g, Some err, m') ->
  StateDB.view (db m') = StateDB.view (db m) \/
  StateDB.view (db m') = StateDB.view (reserved env (RefAddress caller) address (db m)).
Proof.
  intros Htr Ht Hh Hro H.
  pose proof (interpreter_frame env rules eips table active fuel Htr Ht) as Hr.
  apply create_spec in H as (_ & R & _); [|done..]. apply R; [|done].
  destruct Hh as [Hh|Hh]; [by left|right; congruence].
Qed.

(** C4: [StaticCall] changes no account while join points are off: balances,
    nonces, code, storage, transient storage and self-destruct flags are the
    same afterwards, whatever code ran, at every fork. (With join points on, a
    CALL inside runs aspects, and what they do to the state is theirs.) *)
Theorem static_call_changes_no_account env rules eips table active fuel caller addr input gas
    m out m' :
  transfer_ok env -> NewEVMInterpreter rules eips = Ret (table, active) ->
  IsExecuteJP m = false ->
  StaticCall env (Run env table fuel) caller addr input gas m = Ret (out, m') ->
  StateDB.same_accounts (db m) (db m').
Proof.
  intros Htr Ht Hjp H.
  pose proof (interpreter_frame env rules eips table active fuel Htr Ht) as Hr. destruct out as [[r g] err].
  apply StaticCall_spec in H as (_ & _ & Hs); [by apply Hs|done].
Qed.

(** C5: runs and calls are balanced. After a run of a contract and after each call
    operation, in a static context or not, the call depth, the read-only flag
    and the current call of the tracer are what they were, the calls recorded
    before keep their numbers and parents, and the call tree is still well
    formed. (In read-only mode the opcodes make no call with value and no
    creation.) *)
Theorem calls_are_balanced env rules eips table active fuel caller addr input gas value
    ch address typ c ro m m' :
  transfer_ok env -> NewEVMInterpreter rules eips = Ret (table, active) ->
  (exists out, Run env table fuel c input ro m = Ret (out, m')) \/
  (readOnly m = true -> value = 0) /\
  (exists out, Call env (Run env table fuel) caller addr input gas value m = Ret (out, m')) \/
  (exists out, CallCode env (Run env table fuel) caller addr input gas value m = Ret (out, m')) \/
  (exists out, DelegateCall env (Run env table fuel) caller addr input gas m = Ret (out, m')) \/
  (exists out, StaticCall env (Run env table fuel) caller addr input gas m = Ret (out, m')) \/
  readOnly m = false /\
  (exists out, create env (Run env table fuel) caller ch gas value address typ m
                 = Ret (out, m')) ->
  depth m' = depth m /\ readOnly m' = readOnly m /\
  tree_ext (callTree (tracer m)) (callTree (tracer m')).
Proof.
  intros Htr Ht H.
  pose proof (interpreter_frame env rules eips table active fuel Htr Ht) as Hr.
  assert (F : core m m').
  { destruct H as [[out H]|[[Hv [[[r g] err] H]]|[[[[r g] err] H]|[[[[r g] err] H]|[[[[r g] err] H]
      |[Hro [[[[r a] g] err] H]]]]]]].
    - by eapply fr_core, (rf_frame _ Hr (readOnly m)).
    - by apply Call_spec in H as [F _].
    - apply CallCode_spec in H as [F _]; [apply F|done].
    - apply DelegateCall_spec in H as [F _]; [apply F|done].
    - apply StaticCall_spec in H as [F _]; [apply F|done].
    - by apply create_spec in H as [F _]. }
  split_and!; apply F.
Qed.
End Guarantees.

(** * Witnesses *)
From S2P Require Import Instances Sample.

Definition staticRevert : (bytes * Z * option Err) * Machine :=
  outcome (StaticCall sampleEnv (Run sampleEnv sampleTable 100) (AccountRef alice) bob [] 50000
             (machineWith revertCode)) ([], 0, None) (machineWith []).

Lemma failed_call_reverts_witness :
  staticRevert.1.2 = Some ErrExecutionReverted /\
  StateDB.view (db staticRevert.2) = StateDB.view (db (machineWith revertCode)).
Proof.
  split; [vm_compute; reflexivity|].
  apply (failed_call_reverts sampleEnv cancunRules [] sampleTable [] 100 (AccountRef alice) bob []
           50000 0 (machineWith revertCode) staticRevert.1.1.1 staticRevert.1.1.2
           ErrExecutionReverted staticRevert.2).
  - by apply core_transfer_ok.
  - exact sampleTable_ok.
  - right; right. apply outcome_call; vm_compute; reflexivity.
Defined.

Definition callRevert : (bytes * Z * option Err) * Machine :=
  outcome (Call sampleEnv (Run sampleEnv sampleTable 100) (AccountRef alice) bob [] 50000 10
             (machineWith revertCode)) ([], 0, None) (machineWith []).

Lemma failed_Call_reverts_witness :
  callRevert.1.2 = Some ErrExecutionReverted /\
  StateDB.view (db callRevert.2) = StateDB.view (db (machineWith revertCode)).
Proof.
  split; [vm_compute; reflexivity|].
  apply (failed_Call_reverts sampleEnv cancunRules [] sampleTable [] 100 (AccountRef alice) bob []
           50000 10 (machineWith revertCode) callRevert.1.1.1 callRevert.1.1.2
           ErrExecutionReverted callRevert.2).
  - by apply core_transfer_ok.
  - exact sampleTable_ok.
  - discriminate.
  - reflexivity.
  - apply outcome_call; vm_compute; reflexivity.
Defined.

Definition createRevert : (bytes * Address * Z * option Err) * Machine :=
  outcome (create sampleEnv (Run sampleEnv sampleTable 100) (AccountRef alice)
             {| ch_code := revertCode; ch_hash := zeroHash |} 50000 10 (to_be 20 555) CREATE
             (machineWith [])) ([], [], 0, None) (machineWith []).

Lemma failed_Create_reverts_witness :
  createRevert.1.2 = Some ErrExecutionReverted /\
  (StateDB.view (db createRevert.2) = StateDB.view (db (machineWith [])) \/
   StateDB.view (db createRevert.2)
     = StateDB.view (reserved sampleEnv alice (to_be 20 555) (db (machineWith [])))).
Proof.
  split; [vm_compute; reflexivity|].
  apply (failed_Create_reverts sampleEnv cancunRules [] sampleTable [] 100 (AccountRef alice)
           {| ch_code := revertCode; ch_hash := zeroHash |} 50000 10 (to_be 20 555) CREATE
           (machineWith []) createRevert.1.1.1.1 createRevert.1.1.1.2 createRevert.1.1.2
           ErrExecutionReverted createRevert.2).
  - by apply core_transfer_ok.
  - exact sampleTable_ok.
  - right. discriminate.
  - reflexivity.
  - apply outcome_create; vm_compute; reflexivity.
Defined.

Definition staticAdd : (bytes * Z * option Err) * Machine :=
  outcome (StaticCall sampleEnv (Run sampleEnv sampleTable 100) (AccountRef alice) bob [] 50000
             (machineWith addCode)) ([], 0, None) (machineWith []).

Lemma static_call_changes_no_account_witness :
  staticAdd.1.1.1 = to_be 32 5 /\
  StateDB.same_accounts (db (machineWith addCode)) (db staticAdd.2).
Proof.
  split; [vm_compute; reflexivity|].
  apply (static_call_changes_no_account sampleEnv cancunRules [] sampleTable [] 100
           (AccountRef alice) bob [] 50000 (machineWith addCode) staticAdd.1 staticAdd.2).
  - by apply core_transfer_ok.
  - exact sampleTable_ok.
  - reflexivity.
  - unfold staticAdd. apply outcome_ok. vm_compute. reflexivity.
Defined.

Definition callStore : (bytes * Z * option Err) * Machine :=
  outcome (Call sampleEnv (Run sampleEnv sampleTable 100) (AccountRef alice) bob [] 50000 10
             (machineWith storeCode5)) ([], 0, None) (machineWith []).

(** A run of [storeCode5] in a static context: the flag stays set. *)
Definition staticMachine : Machine := set_readOnly true (machineWith storeCode5).
Definition staticStore : (bytes * option Err * Contract) * Machine :=
  match Run sampleEnv sampleTable 100 (sampleContract storeCode5 50000) [] true staticMachine with
  | Ret r => r
  | _ => (([], None, sampleContract [] 0), staticMachine)
  end.
Lemma staticStore_ok :
  Run sampleEnv sampleTable 100 (sampleContract storeCode5 50000) [] true staticMachine
  = Ret staticStore.
Proof.
  assert (H : match Run sampleEnv sampleTable 100 (sampleContract storeCode5 50000) [] true
                staticMachine with Ret _ => true | _ => false end = true) by (vm_compute; reflexivity).
  unfold staticStore. by destruct (Run _ _ _ _ _ _ _).
Qed.
Lemma calls_are_balanced_witness :
  staticStore.1.1.2 = Some ErrWriteProtection /\ readOnly staticStore.2 = true /\
  callStore.1.2 = None /\ depth callStore.2 = 0 /\
  tree_ext (callTree (tracer (machineWith storeCode5))) (callTree (tracer callStore.2)).
Proof.
  split; [vm_compute; reflexivity|]. split.
  { destruct (calls_are_balanced sampleEnv cancunRules [] sampleTable [] 100 (AccountRef alice) bob
      [] 50000 10 {| ch_code := []; ch_hash := zeroHash |} bob CREATE
      (sampleContract storeCode5 50000) true staticMachine staticStore.2) as (_ & Hro & _).
    - by apply core_transfer_ok.
    - exact sampleTable_ok.
    - left. exists staticStore.1. rewrite staticStore_ok. by destruct staticStore.
    - exact Hro. }
  split; [vm_compute; reflexivity|].
  destruct (calls_are_balanced sampleEnv cancunRules [] sampleTable [] 100 (AccountRef alice) bob
              [] 50000 10 {| ch_code := []; ch_hash := zeroHash |} bob CREATE
              (sampleContract [] 0) false (machineWith storeCode5) callStore.2) as (Hd & _ & Ht).
  - by apply core_transfer_ok.
  - exact sampleTable_ok.
  - right; left. split; [discriminate|]. exists callStore.1. unfold callStore. apply outcome_ok.
    vm_compute. reflexivity.
  - split; [rewrite Hd; reflexivity|exact Ht].
Defined.
