(* ===== verification/Json.v ===== *)
(** What the generated marshalling code uses of encoding/json and
    common/hexutil: JSON values, how a struct is written and read field by
    field, and the codecs of the leaf types.

    The text of a JSON document is not modelled: a document is its tree of
    values, and an integer literal is its value. Strings are byte strings (Go
    replaces invalid UTF-8), member names are matched up to the case of ASCII
    letters, and of repeated members the last one counts. *)
From Stdlib Require Import Ascii.
From S2P Require Import Prelude Errors Externals EvmLogger.

Local Set Warnings "-register-all".

(** * Values *)
Inductive json :=
  | JNull
  | JBool (b : bool)
  | JInt (z : Z)
  | JReal (literal : string)
  | JStr (s : string)
  | JArr (l : list json)
  | JObj (members : list (string * json)).

(** A type with its own [MarshalJSON]/[MarshalText] and [UnmarshalJSON]. *)
Record jsonCodec (A : Type) := mkCodec { toJSON : A -> json; ofJSON : json -> option A }.
Arguments mkCodec {A}. Arguments toJSON {A}. Arguments ofJSON {A}.

(** The values of [P] survive a codec and are not written as null. *)
Definition lossless {A} (c : jsonCodec A) (P : A -> Prop) : Prop :=
  forall x, P x -> ofJSON c (toJSON c x) = Some x /\ toJSON c x <> JNull.

(** The types of the standard library. *)
Definition stringJSON : jsonCodec string :=
  mkCodec JStr (fun j => match j with JStr s => Some s | _ => None end).
Definition intJSON (lo hi : Z) : jsonCodec Z :=
  mkCodec JInt (fun j => match j with
                         | JInt z => if (lo <=? z) && (z <=? hi) then Some z else None
                         | _ => None
                         end).
Definition uint64JSON : jsonCodec Z := intJSON 0 MaxUint64.
Definition int64JSON : jsonCodec Z := intJSON (- 2 ^ 63) (2 ^ 63 - 1).
Definition byteJSON : jsonCodec Z := intJSON 0 255.

Definition is_uint256 (z : Z) : Prop := 0 <= z < 2 ^ 256.
Definition is_bytes (b : bytes) : Prop := Forall is_byte b.
Definition is_address (a : Address) : Prop := length a = 20%nat /\ is_bytes a.
Definition is_hash (h : Hash) : Prop := length h = 32%nat /\ is_bytes h.

(** The types of common, common/hexutil, common/math and uint256, the text of
    a hash used as a member name, and raw messages: [rawTree] reads the text of
    a message, [rawText] is the compact text of a value. *)
Module hexutil.
Class Lib `{L : Libs, T : trace.Lib} := {
  Uint64 : jsonCodec Z;
  Big : jsonCodec Z;
  Bytes : jsonCodec bytes;
  AddressJSON : jsonCodec Address;
  HashJSON : jsonCodec Hash;
  HexOrDecimal64 : jsonCodec Z;
  IntJSON : jsonCodec uint256.Int;
  HashText : Hash -> string;
  HashOfText : string -> option Hash;
  rawTree : trace.RawMessage -> option json;
  rawText : json -> trace.RawMessage;
}.
Class Spec `{Lib} : Prop := {
  Uint64_lossless : lossless Uint64 is_u64;
  Big_lossless : lossless Big is_uint256;
  Bytes_lossless : lossless Bytes is_bytes;
  Address_lossless : lossless AddressJSON is_address;
  Hash_lossless : lossless HashJSON is_hash;
  HexOrDecimal64_lossless : lossless HexOrDecimal64 is_u64;
  Int_lossless : lossless IntJSON (fun _ => True);
  HashText_inv : forall h, is_hash h -> HashOfText (HashText h) = Some h;
}.
(** A raw message that is the compact text of a value other than null. *)
Definition compact `{Lib} (r : trace.RawMessage) : Prop :=
  exists j, rawTree r = Some j /\ rawText j = r /\ j <> JNull.
End hexutil.

Lemma stringJSON_lossless : lossless stringJSON (fun _ => True).
Proof. by intros s _. Qed.
Lemma intJSON_lossless lo hi : lossless (intJSON lo hi) (fun z => lo <= z <= hi).
Proof. intros z Hz. cbn. zbool. done. Qed.
Lemma uint64JSON_lossless : lossless uint64JSON is_u64.
Proof. intros z Hz. apply intJSON_lossless. unfold is_u64, MaxUint64 in *. lia. Qed.

(** * Writing a struct *)

(** What becomes of a field: left out, written, or an error of [json.Marshal]. *)
Inductive field := Omit | Val (j : json) | Bad.

Definition fields (l : list (string * field)) : list (string * json) :=
  omap (fun f => match f.2 with Val j => Some (f.1, j) | _ => None end) l.
Definition is_bad (f : string * field) : bool := match f.2 with Bad => true | _ => false end.
Definition object (l : list (string * field)) : option json :=
  if existsb is_bad l then None else Some (JObj (fields l)).

(** A plain field, and the [omitempty] fields: pointers, strings, byte strings,
    numbers and slices. *)
Definition plain {A} (c : jsonCodec A) (x : A) : field := Val (toJSON c x).
Definition omitnil {A} (c : jsonCodec A) (x : option A) : field :=
  match x with Some x => Val (toJSON c x) | None => Omit end.
Definition omitstring (s : string) : field :=
  match s with EmptyString => Omit | _ => Val (JStr s) end.
Definition omitbytes (c : jsonCodec bytes) (b : bytes) : field :=
  match b with [] => Omit | _ => Val (toJSON c b) end.
Definition omitzero (c : jsonCodec Z) (z : Z) : field := if z =? 0 then Omit else Val (toJSON c z).

(** None of these fails. *)
Lemma plain_ok {A} (c : jsonCodec A) x : plain c x <> Bad.
Proof. done. Qed.
Lemma omitnil_ok {A} (c : jsonCodec A) x : omitnil c x <> Bad.
Proof. by destruct x. Qed.
Lemma omitstring_ok s : omitstring s <> Bad.
Proof. by destruct s. Qed.
Lemma omitbytes_ok c b : omitbytes c b <> Bad.
Proof. by destruct b. Qed.
Lemma omitzero_ok c z : omitzero c z <> Bad.
Proof. unfold omitzero. by destruct (z =? 0). Qed.

Lemma object_ok l : Forall (fun f => f.2 <> Bad) l -> object l = Some (JObj (fields l)).
Proof.
  intros H. unfold object. enough (existsb is_bad l = false) as -> by done.
  induction H as [|[k x] l Hx _ IH]; [done|]. cbn. rewrite IH. by destruct x.
Qed.

(** [f] on all elements of a list, unless it fails on one. *)
Definition traverse {A B} (f : A -> option B) : list A -> option (list B) :=
  fix go l := match l with
              | [] => Some []
              | x :: l => match f x, go l with Some y, Some ys => Some (y :: ys) | _, _ => None end
              end.
Definition array {A} (f : A -> option json) (l : list A) : field :=
  match traverse f l with Some js => Val (JArr js) | None => Bad end.
Definition omitslice {A} (f : A -> option json) (l : list A) : field :=
  match l with [] => Omit | _ => array f l end.

(** * Reading a struct *)

Definition lower (c : Ascii.ascii) : Ascii.ascii :=
  let n := Ascii.nat_of_ascii c in
  if (65 <=? n)%nat && (n <=? 90)%nat then Ascii.ascii_of_nat (n + 32) else c.
Fixpoint lowercase (s : string) : string :=
  match s with EmptyString => EmptyString | String c s => String (lower c) (lowercase s) end.
Definition sameName (a b : string) : bool := String.eqb (lowercase a) (lowercase b).

(** The member of an object with a name, read by [f]. *)
Definition member {A} (f : json -> A) (name : string) : list (string * json) -> option A :=
  fix go ms :=
    match ms with
    | [] => None
    | (k, j) :: ms =>
        match go ms with
        | Some x => Some x
        | None => if sameName k name then Some (f j) else None
        end
    end.
(** A pointer or slice field of the struct to read into: nil if the member is
    missing or null; the outer [None] is a decoding error. *)
Definition ptr {A} (f : json -> option A) (name : string) (ms : list (string * json))
    : option (option A) :=
  match member (fun j => match j with
                         | JNull => Some None
                         | _ => match f j with Some x => Some (Some x) | None => None end
                         end) name ms with
  | Some r => r
  | None => Some None
  end.
(** A field that is not a pointer keeps its zero value if the member is missing. *)
Definition value {A} (c : jsonCodec A) (zero : A) (name : string) (ms : list (string * json))
    : option A :=
  match member (ofJSON c) name ms with Some r => r | None => Some zero end.
Definition readArray {A} (f : json -> option A) (j : json) : option (list A) :=
  match j with JArr l => traverse f l | _ => None end.

(** [if dec.X != nil { c.X = *dec.X }] *)
Definition keep {A} (old : A) (new : option A) : A := default old new.
Definition keepnil {A} (old : option A) (new : option A) : option A :=
  match new with Some x => Some x | None => old end.

(** ** Reading what was written *)

(** The fields with a name. *)
Definition named (name : string) (l : list (string * field)) : list (string * field) :=
  List.filter (fun f => sameName f.1 name) l.

Lemma member_cons {A} (f : json -> A) name k x l :
  member f name (fields ((k, x) :: l))
  = match member f name (fields l), x with
    | Some y, _ => Some y
    | None, Val j => if sameName k name then Some (f j) else None
    | None, _ => None
    end.
Proof.
  destruct x as [|j|]; [|done|];
    (transitivity (member f name (fields l)); [done|by destruct (member f name (fields l))]).
Qed.
Lemma member_named {A} (f : json -> A) name l :
  member f name (fields l) = member f name (fields (named name l)).
Proof.
  induction l as [|[k x] l IH]; [done|]. unfold named. cbn [List.filter fst].
  change (List.filter _ l) with (named name l).
  destruct (sameName k name) eqn:E; rewrite !member_cons, IH, ?E; [done|].
  destruct (member f name (fields (named name l))); [done|]. by destruct x.
Qed.
Lemma named_name name l k x : named name l = [(k, x)] -> sameName k name = true.
Proof.
  intros E. assert (H : In (k, x) (named name l)) by (rewrite E; by left).
  unfold named in H. by apply filter_In in H as [_ H].
Qed.

(** Reading back a pointer field. *)
Definition readPtr {A} (f : json -> option A) (x : field) : option (option A) :=
  match x with
  | Val JNull => Some None
  | Val j => match f j with Some x => Some (Some x) | None => None end
  | _ => Some None
  end.
Lemma ptr_only {A} (f : json -> option A) name l k x :
  named name l = [(k, x)] -> ptr f name (fields l) = readPtr f x.
Proof.
  intros E. pose proof (named_name _ _ _ _ E) as Hk.
  unfold ptr. rewrite member_named, E, member_cons, Hk.
  destruct x as [|j|]; [done| |done]. by destruct j.
Qed.
Lemma value_only {A} (c : jsonCodec A) zero name l k j :
  named name l = [(k, Val j)] -> value c zero name (fields l) = ofJSON c j.
Proof.
  intros E. pose proof (named_name _ _ _ _ E) as Hk.
  unfold value. by rewrite member_named, E, member_cons, Hk.
Qed.

Section Read.
Context {A : Type} (c : jsonCodec A) (P : A -> Prop).
Hypothesis c_lossless : lossless c P.

Lemma read_plain x : P x -> readPtr (ofJSON c) (plain c x) = Some (Some x).
Proof.
  intros [H1 H2]%c_lossless. unfold readPtr, plain.
  by destruct (toJSON c x); rewrite ?H1.
Qed.
Lemma read_omitnil x :
  (forall y, x = Some y -> P y) -> readPtr (ofJSON c) (omitnil c x) = Some x.
Proof. destruct x as [x|]; [|done]. intros H. by apply read_plain, H. Qed.
End Read.

Lemma read_omitstring s :
  readPtr (ofJSON stringJSON) (omitstring s)
  = Some (match s with EmptyString => None | _ => Some s end).
Proof. by destruct s. Qed.
Lemma read_omitbytes c b :
  lossless c is_bytes -> is_bytes b ->
  readPtr (ofJSON c) (omitbytes c b) = Some (match b with [] => None | _ => Some b end).
Proof. intros Hc Hb. destruct b; [done|]. by apply (read_plain c is_bytes). Qed.
Lemma read_omitzero c z :
  lossless c is_u64 -> is_u64 z ->
  readPtr (ofJSON c) (omitzero c z) = Some (if z =? 0 then None else Some z).
Proof.
  intros Hc Hz. unfold omitzero. destruct (z =? 0); [done|]. by apply (read_plain c is_u64).
Qed.

(** Slices whose elements can be written, and read back as [g] of them. *)
Lemma traverse_written {A B} (enc : A -> option json) (dec : json -> option B) (g : A -> B) l :
  Forall (fun x => exists j, enc x = Some j /\ dec j = Some (g x)) l ->
  exists js, traverse enc l = Some js /\ traverse dec js = Some (map g l).
Proof.
  induction 1 as [|x l (j & E & D) _ (js & Es & Ds)]; [by exists []|].
  exists (j :: js). cbn. by rewrite E, D, Es, Ds.
Qed.
Lemma read_omitslice {A B} (enc : A -> option json) (dec : json -> option B) (g : A -> B) l :
  Forall (fun x => exists j, enc x = Some j /\ dec j = Some (g x)) l ->
  omitslice enc l <> Bad /\
  readPtr (readArray dec) (omitslice enc l)
  = Some (match l with [] => None | _ => Some (map g l) end).
Proof.
  intros H. destruct l as [|x l]; [done|]. cbn [omitslice].
  destruct (traverse_written enc dec g _ H) as (js & E & D). unfold array. rewrite E.
  split; [done|]. cbn [readPtr readArray]. by rewrite D.
Qed.

Create HintDb fields.
#[export] Hint Resolve plain_ok omitnil_ok omitstring_ok omitbytes_ok omitzero_ok : fields.
(** Write a struct none of whose fields fails. *)
Ltac write_struct :=
  rewrite object_ok;
  [|repeat (apply Forall_cons_2; [cbn [snd]; solve [eauto with fields | done]|]);
    apply Forall_nil_2].
(** Read back the fields of a struct that was just written. *)
Ltac read_fields := repeat erewrite ptr_only by reflexivity.

(** * Hexadecimal text

    The text of numbers, byte strings, addresses and hashes, as
    common/hexutil writes it: a concrete implementation of the codecs. *)
Definition hexChar (d : Z) : Ascii.ascii :=
  Ascii.ascii_of_nat (Z.to_nat (if d <? 10 then 48 + d else 87 + d)).
Definition hexVal (c : Ascii.ascii) : option Z :=
  let n := Z.of_nat (Ascii.nat_of_ascii c) in
  if (48 <=? n) && (n <=? 57) then Some (n - 48)
  else if (97 <=? n) && (n <=? 102) then Some (n - 87)
  else if (65 <=? n) && (n <=? 70) then Some (n - 55) else None.
Definition is_nibble (d : Z) : Prop := 0 <= d < 16.

Fixpoint hexText (l : list Z) : string :=
  match l with [] => EmptyString | d :: l => String (hexChar d) (hexText l) end.
Fixpoint textHex (s : string) : option (list Z) :=
  match s with
  | EmptyString => Some []
  | String c s => match hexVal c, textHex s with Some d, Some l => Some (d :: l) | _, _ => None end
  end.
Lemma hexVal_hexChar d : is_nibble d -> hexVal (hexChar d) = Some d.
Proof.
  intros H. unfold is_nibble in H.
  assert (Forall (fun d => hexVal (hexChar d) = Some d) (map Z.of_nat (seq 0 16))) as Hall
    by (by repeat constructor).
  rewrite Forall_forall in Hall. apply Hall, list_elem_of_fmap. exists (Z.to_nat d).
  split; [lia|]. apply elem_of_seq. lia.
Qed.
Lemma textHex_hexText l : Forall is_nibble l -> textHex (hexText l) = Some l.
Proof.
  induction 1 as [|d l Hd _ IH]; [done|]. cbn [hexText textHex]. by rewrite hexVal_hexChar, IH.
Qed.

(** Byte strings: two digits per byte. *)
Fixpoint nibbles (b : bytes) : list Z :=
  match b with [] => [] | x :: b => x / 16 :: x mod 16 :: nibbles b end.
Fixpoint unnibble (l : list Z) : option bytes :=
  match l with
  | [] => Some []
  | x :: y :: l => match unnibble l with Some b => Some (x * 16 + y :: b) | None => None end
  | _ => None
  end.
Lemma nibbles_ok b : is_bytes b -> Forall is_nibble (nibbles b) /\ unnibble (nibbles b) = Some b.
Proof.
  induction 1 as [|x b Hx _ [IH1 IH2]]; [done|]. unfold is_byte, is_nibble in *.
  split.
  - repeat constructor; try apply Z.div_pos; try apply Z.div_lt_upper_bound;
      try apply Z.mod_pos_bound; lia || done.
  - cbn. rewrite IH2. do 2 f_equal. pose proof (Z.div_mod x 16). lia.
Qed.

(** Numbers: no leading zeros; [fuel] bounds the number of digits. *)
Fixpoint digits (fuel : nat) (z : Z) (acc : list Z) : list Z :=
  match fuel with
  | O => acc
  | S n => if z <? 16 then z :: acc else digits n (z / 16) (z mod 16 :: acc)
  end.
Definition number (l : list Z) : Z := foldl (fun a d => a * 16 + d) 0 l.
Lemma digits_ok fuel : forall z acc, 0 <= z < 16 ^ Z.of_nat fuel -> Forall is_nibble acc ->
  Forall is_nibble (digits fuel z acc) /\
  number (digits fuel z acc) = foldl (fun a d => a * 16 + d) z acc.
Proof.
  induction fuel as [|n IH]; intros z acc Hz Ha.
  - cbn in *. split; [done|]. by replace z with 0 by lia.
  - cbn [digits]. destruct (z <? 16) eqn:E.
    + split; [|done]. constructor; [unfold is_nibble; lia|done].
    + pose proof (Z.mod_pos_bound z 16). pose proof (Z.div_mod z 16).
      destruct (IH (z / 16) (z mod 16 :: acc)) as [I1 I2].
      * rewrite Nat2Z.inj_succ, Z.pow_succ_r in Hz by lia.
        split; [apply Z.div_pos; lia|apply Z.div_lt_upper_bound; lia].
      * constructor; [unfold is_nibble; lia|done].
      * split; [done|]. rewrite I2. cbn [foldl]. f_equal. lia.
Qed.

(** A codec from a codec of digit strings, behind the prefix 0x. *)
Definition hexCodec {A} (enc : A -> list Z) (dec : list Z -> option A) : jsonCodec A :=
  mkCodec (fun x => JStr (String "0"%char (String "x"%char (hexText (enc x)))))
          (fun j => match j with
                    | JStr (String "0"%char (String "x"%char s)) =>
                        match textHex s with Some l => dec l | None => None end
                    | _ => None
                    end).
Lemma hexCodec_lossless {A} (enc : A -> list Z) dec (P : A -> Prop) :
  (forall x, P x -> Forall is_nibble (enc x) /\ dec (enc x) = Some x) -> lossless (hexCodec enc dec) P.
Proof.
  intros H x Hx. destruct (H x Hx) as [H1 H2]. split; [|done].
  cbn. by rewrite textHex_hexText.
Qed.
Definition bytesCodec (accept : bytes -> bool) : jsonCodec bytes :=
  hexCodec nibbles (fun l => match unnibble l with
                             | Some b => if accept b then Some b else None
                             | None => None
                             end).
Definition numberCodec (limit : Z) : jsonCodec Z :=
  hexCodec (fun z => digits 64 z [])
    (fun l => if number l <? limit then Some (number l) else None).
Lemma bytesCodec_lossless accept :
  lossless (bytesCodec accept) (fun b => is_bytes b /\ accept b = true).
Proof.
  apply hexCodec_lossless. intros b [Hb Ha]. destruct (nibbles_ok b Hb) as [H1 H2].
  by rewrite H2, Ha.
Qed.
Lemma numberCodec_lossless limit :
  limit <= 2 ^ 256 -> lossless (numberCodec limit) (fun z => 0 <= z < limit).
Proof.
  intros Hl. apply hexCodec_lossless. intros z Hz.
  destruct (digits_ok 64 z []) as [H1 H2]; [change (16 ^ Z.of_nat 64) with (2 ^ 256); lia|done|].
  rewrite H2. split; [done|]. cbn [foldl]. by zbool.
Qed.
