(* ===== verification/Marshalling.v ===== *)
(** The generated marshalling code (tracers/native/gen_*_json.go and
    tracers/logger/gen_structlog.go): [MarshalJSON] and [UnmarshalJSON] of the
    tracers' results. [None] is an error; [UnmarshalJSON] then leaves its
    receiver as it was. A null leaves it as it was too. *)
From stdpp Require Import sorting.
From S2P Require Import Prelude Opcodes Errors Externals Stack Memory Analysis Contract Tracer.
From S2P Require Import Machine EvmLogger CallTracer FlatTracer Prestate StructLogger Json.

Section Marshalling.
Context {L : Libs} {T : trace.Lib} {X : hexutil.Lib}.

(** [json.RawMessage] with omitempty *)
Definition omitraw (r : option trace.RawMessage) : field :=
  match r with
  | None => Omit
  | Some r => match hexutil.rawTree r with Some j => Val j | None => Bad end
  end.

(** * callFrame *)




(** * flatCallAction and flatCallResult *)

(** [func (f flatCallAction) MarshalJSON() ([]byte, error)] *)
Definition fa_MarshalJSON (f : flatCallAction) : option json := object [
  ("author", omitnil hexutil.AddressJSON (fa_Author f));
  ("rewardType", omitstring (fa_RewardType f));
  ("address", omitnil hexutil.AddressJSON (fa_SelfDestructed f));
  ("balance", omitnil hexutil.Big (fa_Balance f));
  ("callType", omitstring (fa_CallType f));
  ("creationMethod", omitstring (fa_CreationMethod f));
  ("from", omitnil hexutil.AddressJSON (fa_From f));
  ("aspect", omitnil hexutil.AddressJSON (fa_Aspect f));
  ("gas", omitnil hexutil.Uint64 (fa_Gas f));
  ("init", omitnil hexutil.Bytes (fa_Init f));
  ("input", omitnil hexutil.Bytes (fa_Input f));
  ("refundAddress", omitnil hexutil.AddressJSON (fa_RefundAddress f));
  ("to", omitnil hexutil.AddressJSON (fa_To f));
  ("value", omitnil hexutil.Big (fa_Value f));
  ("execContext", omitraw (fa_ExecContext f))].
(** [func (f *flatCallAction) UnmarshalJSON(input []byte) error]; the raw message
    is not a pointer, and reads a null as a message. *)
Definition fa_UnmarshalJSON (j : json) (f : flatCallAction) : option flatCallAction :=
  match j with
  | JNull => Some f
  | JObj ms =>
      author ← ptr (ofJSON hexutil.AddressJSON) "author" ms;
      rewardType ← ptr (ofJSON stringJSON) "rewardType" ms;
      selfDestructed ← ptr (ofJSON hexutil.AddressJSON) "address" ms;
      balance ← ptr (ofJSON hexutil.Big) "balance" ms;
      callType ← ptr (ofJSON stringJSON) "callType" ms;
      creationMethod ← ptr (ofJSON stringJSON) "creationMethod" ms;
      from ← ptr (ofJSON hexutil.AddressJSON) "from" ms;
      aspect ← ptr (ofJSON hexutil.AddressJSON) "aspect" ms;
      gas ← ptr (ofJSON hexutil.Uint64) "gas" ms;
      init ← ptr (ofJSON hexutil.Bytes) "init" ms;
      input ← ptr (ofJSON hexutil.Bytes) "input" ms;
      refundAddress ← ptr (ofJSON hexutil.AddressJSON) "refundAddress" ms;
      to ← ptr (ofJSON hexutil.AddressJSON) "to" ms;
      value ← ptr (ofJSON hexutil.Big) "value" ms;
      let execContext := member hexutil.rawText "execContext" ms in
      Some (mkAction (keepnil (fa_Author f) author) (keep (fa_RewardType f) rewardType)
        (keepnil (fa_SelfDestructed f) selfDestructed) (keepnil (fa_Balance f) balance)
        (keep (fa_CallType f) callType) (keep (fa_CreationMethod f) creationMethod)
        (keepnil (fa_From f) from) (keepnil (fa_Aspect f) aspect) (keepnil (fa_Gas f) gas)
        (keepnil (fa_Init f) init) (keepnil (fa_Input f) input)
        (keepnil (fa_RefundAddress f) refundAddress) (keepnil (fa_To f) to)
        (keepnil (fa_Value f) value) (keepnil (fa_ExecContext f) execContext))
  | _ => None
  end.

(** [func (f flatCallResult) MarshalJSON() ([]byte, error)] *)
Definition fr_MarshalJSON (f : flatCallResult) : option json := object [
  ("address", omitnil hexutil.AddressJSON (fr_Address f));
  ("code", omitnil hexutil.Bytes (fr_Code f));
  ("gasUsed", omitnil hexutil.Uint64 (fr_GasUsed f));
  ("output", omitnil hexutil.Bytes (fr_Output f))].
(** [func (f *flatCallResult) UnmarshalJSON(input []byte) error] *)
Definition fr_UnmarshalJSON (j : json) (f : flatCallResult) : option flatCallResult :=
  match j with
  | JNull => Some f
  | JObj ms =>
      address ← ptr (ofJSON hexutil.AddressJSON) "address" ms;
      code ← ptr (ofJSON hexutil.Bytes) "code" ms;
      gasUsed ← ptr (ofJSON hexutil.Uint64) "gasUsed" ms;
      output ← ptr (ofJSON hexutil.Bytes) "output" ms;
      Some (mkResult (keepnil (fr_Address f) address) (keepnil (fr_Code f) code)
        (keepnil (fr_GasUsed f) gasUsed) (keepnil (fr_Output f) output))
  | _ => None
  end.

(** * account *)

(** A [map[common.Hash]common.Hash]: encoding/json sorts the member names, and
    reads the members in order. *)
Definition byName (a b : string * json) : Prop := String.leb a.1 b.1 = true.
#[local] Instance byName_dec : RelDecision byName.
Proof. intros a b. unfold byName. apply _. Defined.
Definition storageMembers (m : gmap Hash Hash) : list (string * json) :=
  merge_sort byName (map (fun e => (hexutil.HashText e.1, toJSON hexutil.HashJSON e.2))
                         (map_to_list m)).
Definition omitstorage (m : gmap Hash Hash) : field :=
  if (size m =? 0)%nat then Omit else Val (JObj (storageMembers m)).
Definition storageEntry (e : string * json) : option (Hash * Hash) :=
  k ← hexutil.HashOfText e.1; v ← ofJSON hexutil.HashJSON e.2; Some (k, v).
Definition readStorage (j : json) : option (gmap Hash Hash) :=
  match j with
  | JObj ms => l ← traverse storageEntry ms; Some (list_to_map (reverse l))
  | _ => None
  end.

(** [func (a account) MarshalJSON() ([]byte, error)] *)
Definition acc_MarshalJSON (a : account) : option json := object [
  ("balance", omitnil hexutil.Big (acc_Balance a));
  ("code", omitbytes hexutil.Bytes (acc_Code a));
  ("nonce", omitzero uint64JSON (acc_Nonce a));
  ("storage", omitstorage (acc_Storage a))].
(** [func (a *account) UnmarshalJSON(input []byte) error] *)
Definition acc_UnmarshalJSON (j : json) (a : account) : option account :=
  match j with
  | JNull => Some a
  | JObj ms =>
      balance ← ptr (ofJSON hexutil.Big) "balance" ms;
      code ← ptr (ofJSON hexutil.Bytes) "code" ms;
      nonce ← ptr (ofJSON uint64JSON) "nonce" ms;
      storage ← ptr readStorage "storage" ms;
      Some (mkAccount (keepnil (acc_Balance a) balance) (keep (acc_Code a) code)
        (keep (acc_Nonce a) nonce) (keep (acc_Storage a) storage))
  | _ => None
  end.

(** * StructLog *)

(** A byte slice that may be nil, with omitempty; a slice without. *)
Definition omitbuffer (c : jsonCodec bytes) (b : option bytes) : field :=
  omitbytes c (default [] b).
Definition nilslice {A} (c : jsonCodec A) (l : option (list A)) : field :=
  match l with
  | None => Val JNull
  | Some l => array (fun x => Some (toJSON c x)) l
  end.

(** [func (s StructLog) MarshalJSON() ([]byte, error)] *)
Definition sl_MarshalJSON (s : StructLog) : option json := object [
  ("pc", plain uint64JSON (sl_Pc s));
  ("op", plain byteJSON (sl_Op s));
  ("gas", plain hexutil.HexOrDecimal64 (sl_Gas s));
  ("gasCost", plain hexutil.HexOrDecimal64 (sl_GasCost s));
  ("memory", omitbuffer hexutil.Bytes (sl_Memory s));
  ("memSize", plain int64JSON (sl_MemorySize s));
  ("stack", nilslice hexutil.IntJSON (sl_Stack s));
  ("returnData", omitbuffer hexutil.Bytes (sl_ReturnData s));
  ("depth", plain int64JSON (sl_Depth s));
  ("refund", plain uint64JSON (sl_RefundCounter s));
  ("opName", plain stringJSON (OpName s));
  ("error", omitstring (ErrorString s))].
(** [func (s *StructLog) UnmarshalJSON(input []byte) error]; the storage and the
    error are not read. *)
Definition sl_UnmarshalJSON (j : json) (s : StructLog) : option StructLog :=
  match j with
  | JNull => Some s
  | JObj ms =>
      pc ← ptr (ofJSON uint64JSON) "pc" ms;
      op ← ptr (ofJSON byteJSON) "op" ms;
      gas ← ptr (ofJSON hexutil.HexOrDecimal64) "gas" ms;
      gasCost ← ptr (ofJSON hexutil.HexOrDecimal64) "gasCost" ms;
      memory ← ptr (ofJSON hexutil.Bytes) "memory" ms;
      memSize ← ptr (ofJSON int64JSON) "memSize" ms;
      stack ← ptr (readArray (ofJSON hexutil.IntJSON)) "stack" ms;
      returnData ← ptr (ofJSON hexutil.Bytes) "returnData" ms;
      depth ← ptr (ofJSON int64JSON) "depth" ms;
      refund ← ptr (ofJSON uint64JSON) "refund" ms;
      Some (mkStructLog (keep (sl_Pc s) pc) (keep (sl_Op s) op) (keep (sl_Gas s) gas)
        (keep (sl_GasCost s) gasCost) (keepnil (sl_Memory s) memory)
        (keep (sl_MemorySize s) memSize) (keepnil (sl_Stack s) stack)
        (keepnil (sl_ReturnData s) returnData) (sl_Storage s) (keep (sl_Depth s) depth)
        (keep (sl_RefundCounter s) refund) (sl_Err s))
  | _ => None
  end.
End Marshalling.

(** * Round trips *)

Section RoundTrips.
Context {L : Libs} {T : trace.Lib} {X : hexutil.Lib} {XS : hexutil.Spec}.

Lemma keep_string s : keep EmptyString (match s with EmptyString => None | _ => Some s end) = s.
Proof. by destruct s. Qed.
Lemma keep_list {A} (l : list A) : keep [] (match l with [] => None | _ => Some l end) = l.
Proof. by destruct l. Qed.
Lemma keep_zero z : keep 0 (if z =? 0 then None else Some z) = z.
Proof. destruct (z =? 0) eqn:E; [|done]. cbn. lia. Qed.
Lemma keepnil_none {A} (x : option A) : keepnil None x = x.
Proof. by destruct x. Qed.

(** A raw message that is compact survives. *)
Lemma read_omitraw r :
  (forall x, r = Some x -> hexutil.compact x) ->
  omitraw r <> Bad /\ readPtr (fun j => Some (hexutil.rawText j)) (omitraw r) = Some r.
Proof.
  destruct r as [r|]; [|done]. intros H. destruct (H r eq_refl) as (j & E1 & E2 & Hj).
  cbn [omitraw]. rewrite E1. split; [done|]. by destruct j; cbn; rewrite ?E2.
Qed.
Lemma member_omitraw r name l k :
  (forall x, r = Some x -> hexutil.compact x) -> named name l = [(k, omitraw r)] ->
  member hexutil.rawText name (fields l) = r.
Proof.
  intros H E. rewrite member_named, E, member_cons, (named_name _ _ _ _ E).
  destruct r as [r|]; [|done]. destruct (H r eq_refl) as (j & E1 & E2 & Hj).
  cbn [omitraw]. by rewrite E1, <- E2.
Qed.

(** ** Call results and actions *)
Definition optional {A} (P : A -> Prop) (x : option A) : Prop := forall y, x = Some y -> P y.
Record result_ok (f : flatCallResult) : Prop := {
  ro_address : optional is_address (fr_Address f);
  ro_code : optional is_bytes (fr_Code f);
  ro_gasUsed : optional is_u64 (fr_GasUsed f);
  ro_output : optional is_bytes (fr_Output f);
}.
Lemma result_roundtrip f :
  result_ok f -> exists j, fr_MarshalJSON f = Some j /\
    fr_UnmarshalJSON j (mkResult None None None None) = Some f.
Proof.
  intros []. unfold fr_MarshalJSON. write_struct. eexists. split; [done|].
  cbn [fr_UnmarshalJSON]. read_fields.
  rewrite !(read_omitnil _ _ hexutil.Address_lossless), !(read_omitnil _ _ hexutil.Bytes_lossless),
    !(read_omitnil _ _ hexutil.Uint64_lossless) by done.
  cbn. rewrite !keepnil_none. by destruct f.
Qed.

Record action_ok (f : flatCallAction) : Prop := {
  ao_addresses : Forall (optional is_address)
    [fa_Author f; fa_SelfDestructed f; fa_From f; fa_Aspect f; fa_RefundAddress f; fa_To f];
  ao_balance : optional is_uint256 (fa_Balance f);
  ao_gas : optional is_u64 (fa_Gas f);
  ao_init : optional is_bytes (fa_Init f);
  ao_input : optional is_bytes (fa_Input f);
  ao_value : optional is_uint256 (fa_Value f);
  ao_execContext : optional hexutil.compact (fa_ExecContext f);
}.
Definition zeroAction : flatCallAction :=
  mkAction None EmptyString None None EmptyString EmptyString None None None None None None None
    None None.
Lemma action_roundtrip f :
  action_ok f -> exists j, fa_MarshalJSON f = Some j /\ fa_UnmarshalJSON j zeroAction = Some f.
Proof.
  intros [Ha]. repeat (apply Forall_cons in Ha as [? Ha]).
  destruct (read_omitraw (fa_ExecContext f)) as [Hr _]; [done|].
  unfold fa_MarshalJSON. write_struct. eexists. split; [done|].
  cbn [fa_UnmarshalJSON]. erewrite member_omitraw by done. read_fields.
  rewrite !(read_omitnil _ _ hexutil.Address_lossless), !(read_omitnil _ _ hexutil.Bytes_lossless),
    !(read_omitnil _ _ hexutil.Uint64_lossless), !(read_omitnil _ _ hexutil.Big_lossless),
    !read_omitstring by done.
  cbn. rewrite !keepnil_none, !keep_string. by destruct f.
Qed.

(** ** Accounts *)
Record account_ok (a : account) : Prop := {
  ac_balance : optional is_uint256 (acc_Balance a);
  ac_code : is_bytes (acc_Code a);
  ac_nonce : is_u64 (acc_Nonce a);
  ac_storage : map_Forall (fun k v => is_hash k /\ is_hash v) (acc_Storage a);
}.
Lemma traverse_storage l :
  Forall (fun e => is_hash e.1 /\ is_hash e.2) l ->
  forall ms, ms ≡ₚ map (fun e => (hexutil.HashText e.1, toJSON hexutil.HashJSON e.2)) l ->
  exists l', traverse storageEntry ms = Some l' /\ l' ≡ₚ l.
Proof.
  intros Hl ms Hp. apply Permutation_map_inv in Hp as (l' & -> & Hp).
  exists l'. split; [|by symmetry]. rewrite Hp in Hl. clear Hp l.
  induction Hl as [|[k v] l' [Hk Hv] _ IH]; [done|]. cbn [map traverse fst snd].
  unfold storageEntry at 1. cbn [fst snd]. rewrite hexutil.HashText_inv by done. cbn.
  destruct (hexutil.Hash_lossless v Hv) as [-> _]. cbn. by rewrite IH.
Qed.
Lemma read_storage m :
  map_Forall (fun k v => is_hash k /\ is_hash v) m ->
  omitstorage m <> Bad /\
  readPtr readStorage (omitstorage m) = Some (if (size m =? 0)%nat then None else Some m).
Proof.
  intros H. unfold omitstorage. destruct (size m =? 0)%nat; [done|]. split; [done|].
  destruct (traverse_storage (map_to_list m)) with (ms := storageMembers m) as (l & E & Hl).
  - apply Forall_forall. intros [k v] Hkv%elem_of_map_to_list. by apply (H k v).
  - unfold storageMembers. apply merge_sort_Permutation.
  - cbn [readPtr readStorage]. rewrite E. cbn. do 2 f_equal.
    rewrite <- (list_to_map_to_list m). apply list_to_map_proper.
    + rewrite reverse_Permutation, Hl. apply NoDup_fst_map_to_list.
    + by rewrite reverse_Permutation.
Qed.
Lemma account_roundtrip a :
  account_ok a -> exists j, acc_MarshalJSON a = Some j /\
    acc_UnmarshalJSON j (mkAccount None [] 0 ∅) = Some a.
Proof.
  intros []. destruct (read_storage (acc_Storage a)) as [Hs Hr]; [done|].
  unfold acc_MarshalJSON. write_struct. eexists. split; [done|].
  cbn [acc_UnmarshalJSON]. read_fields.
  rewrite Hr, (read_omitnil _ _ hexutil.Big_lossless), (read_omitbytes _ _ hexutil.Bytes_lossless),
    (read_omitzero _ _ uint64JSON_lossless) by done.
  cbn. rewrite keepnil_none, keep_list, keep_zero. destruct a as [b c n s]. cbn. do 2 f_equal.
  destruct (size s =? 0)%nat eqn:E; [|done]. apply Nat.eqb_eq, map_size_empty_iff in E. by subst.
Qed.

(** ** Slices of plain values *)
Lemma array_written {A} (c : jsonCodec A) (P : A -> Prop) l :
  lossless c P -> Forall P l ->
  exists js, array (fun x => Some (toJSON c x)) l = Val (JArr js) /\
    traverse (ofJSON c) js = Some l.
Proof.
  intros Hc Hl. unfold array.
  destruct (traverse_written (fun x => Some (toJSON c x)) (ofJSON c) id l) as (js & E & D).
  - eapply Forall_impl; [exact Hl|]. intros x Hx. eexists. split; [done|]. by apply Hc.
  - exists js. rewrite E. by rewrite D, map_id.
Qed.

(** ** Log entries *)
Record log_ok (s : StructLog) : Prop := {
  lo_pc : is_u64 (sl_Pc s);
  lo_op : is_byte (sl_Op s);
  lo_gas : is_u64 (sl_Gas s);
  lo_gasCost : is_u64 (sl_GasCost s);
  lo_memory : optional is_bytes (sl_Memory s);
  lo_memSize : - 2 ^ 63 <= sl_MemorySize s <= 2 ^ 63 - 1;
  lo_returnData : optional is_bytes (sl_ReturnData s);
  lo_depth : - 2 ^ 63 <= sl_Depth s <= 2 ^ 63 - 1;
  lo_refund : is_u64 (sl_RefundCounter s);
}.
Definition zeroLog : StructLog :=
  mkStructLog 0 STOP 0 0 None 0 None None None 0 0 None.
(** What is left of a log entry: empty buffers are nil, and the storage and the
    error are gone. *)
Definition nonempty (b : option bytes) : option bytes :=
  match b with Some [] => None | _ => b end.
Definition withoutState (s : StructLog) : StructLog :=
  mkStructLog (sl_Pc s) (sl_Op s) (sl_Gas s) (sl_GasCost s) (nonempty (sl_Memory s))
    (sl_MemorySize s) (sl_Stack s) (nonempty (sl_ReturnData s)) None (sl_Depth s)
    (sl_RefundCounter s) None.

Lemma read_buffer c b :
  lossless c is_bytes -> optional is_bytes b ->
  readPtr (ofJSON c) (omitbuffer c b) = Some (nonempty b).
Proof.
  intros Hc Hb. unfold omitbuffer. rewrite read_omitbytes; [by destruct b as [[]|]|done|].
  destruct b as [b|]; [by apply Hb|constructor].
Qed.
Lemma read_nilslice {A} (c : jsonCodec A) l :
  lossless c (fun _ => True) ->
  nilslice c l <> Bad /\ readPtr (readArray (ofJSON c)) (nilslice c l) = Some l.
Proof.
  intros Hc. destruct l as [l|]; [|done].
  destruct (array_written c _ l Hc) as (js & E & D); [by apply Forall_true|].
  cbn [nilslice]. rewrite E. split; [done|]. cbn [readPtr readArray]. by rewrite D.
Qed.
Lemma log_roundtrip s :
  log_ok s -> exists j, sl_MarshalJSON s = Some j /\
    sl_UnmarshalJSON j zeroLog = Some (withoutState s).
Proof.
  intros []. destruct (read_nilslice hexutil.IntJSON (sl_Stack s)) as [Hs Hr];
    [apply hexutil.Int_lossless|].
  unfold sl_MarshalJSON, omitbuffer. write_struct. eexists. split; [done|].
  cbn [sl_UnmarshalJSON]. read_fields. fold (omitbuffer hexutil.Bytes (sl_Memory s)).
  fold (omitbuffer hexutil.Bytes (sl_ReturnData s)).
  rewrite Hr, !(read_plain _ _ uint64JSON_lossless), !(read_plain _ _ hexutil.HexOrDecimal64_lossless),
    !(read_plain int64JSON _ (intJSON_lossless _ _)), !(read_buffer _ _ hexutil.Bytes_lossless) by done.
  rewrite (read_plain byteJSON _ (intJSON_lossless _ _)) by (unfold is_byte in *; lia).
  cbn. by rewrite !keepnil_none.
Qed.






End RoundTrips.

(** * Claims *)
Section Claims.
Context {L : Libs} {T : trace.Lib} {X : hexutil.Lib} {XS : hexutil.Spec}.


(** C37: values that fit their Go types survive JSON. Accounts of the pre-state
    tracer and actions and results of the flat tracer come back unchanged; a log
    entry of the structured logger loses its storage and its error, and its
    empty buffers come back as nil. *)
Theorem results_json_roundtrip :
  (forall a, account_ok a -> exists j, acc_MarshalJSON a = Some j /\
     acc_UnmarshalJSON j (mkAccount None [] 0 ∅) = Some a) /\
  (forall f, action_ok f -> exists j, fa_MarshalJSON f = Some j /\
     fa_UnmarshalJSON j zeroAction = Some f) /\
  (forall f, result_ok f -> exists j, fr_MarshalJSON f = Some j /\
     fr_UnmarshalJSON j (mkResult None None None None) = Some f) /\
  (forall s, log_ok s -> exists j, sl_MarshalJSON s = Some j /\
     sl_UnmarshalJSON j zeroLog = Some (withoutState s)).
Proof.
  split_and!;
    [apply account_roundtrip|apply action_roundtrip|apply result_roundtrip|apply log_roundtrip].
Qed.
End Claims.

(** * Witnesses *)
From S2P Require Import Instances Sample.

(** The hexadecimal codecs; every raw message is the empty object. *)
Definition intCodec : jsonCodec w256 :=
  hexCodec (fun x => digits 64 (wv x) []) (fun l => Some (mkW (number l))).
Definition sized (n : nat) (b : bytes) : bool := (length b =? n)%nat.
#[export] Instance hexutil_lib : hexutil.Lib := {|
  hexutil.Uint64 := numberCodec (2 ^ 64);
  hexutil.Big := numberCodec (2 ^ 256);
  hexutil.Bytes := bytesCodec (fun _ => true);
  hexutil.AddressJSON := bytesCodec (sized 20);
  hexutil.HashJSON := bytesCodec (sized 32);
  hexutil.HexOrDecimal64 := numberCodec (2 ^ 64);
  hexutil.IntJSON := intCodec;
  hexutil.HashText := fun h => hexText (nibbles h);
  hexutil.HashOfText := fun s => match textHex s with Some l => unnibble l | None => None end;
  hexutil.rawTree := fun _ => Some (JObj []);
  hexutil.rawText := fun _ => tt;
|}.
Lemma sized_lossless n : lossless (bytesCodec (sized n)) (fun b => length b = n /\ is_bytes b).
Proof. intros b [<- Hb]. apply bytesCodec_lossless. split; [done|]. apply Nat.eqb_refl. Qed.
#[export] Instance hexutil_spec : hexutil.Spec.
Proof.
  constructor.
  - by apply numberCodec_lossless.
  - by apply numberCodec_lossless.
  - intros b Hb. by apply bytesCodec_lossless.
  - apply sized_lossless.
  - apply sized_lossless.
  - by apply numberCodec_lossless.
  - apply hexCodec_lossless. intros x _.
    destruct (digits_ok 64 (wv x) []) as [H1 H2];
      [change (16 ^ Z.of_nat 64) with (2 ^ 256); apply wv_range|done|].
    rewrite H2. split; [done|]. by rewrite <- (mkW_wv x) at 2.
  - intros h [_ Hh]. destruct (nibbles_ok h Hh) as [H1 H2]. cbn. by rewrite textHex_hexText, H2.
Qed.

Lemma is_address_dec (a : Address) :
  bool_decide (length a = 20%nat) && forallb (fun x => (0 <=? x) && (x <? 256)) a = true ->
  is_address a.
Proof.
  intros [H1%bool_decide_eq_true H2]%andb_true_iff. split; [done|].
  apply Forall_forall. intros x Hx. rewrite forallb_forall in H2.
  apply list_elem_of_In in Hx. specialize (H2 x Hx). unfold is_byte. zprop. lia.
Qed.

Ltac plain_values :=
  lazymatch goal with
  | |- is_address _ => apply is_address_dec; vm_compute; reflexivity
  | |- is_u64 _ => split; vm_compute; congruence
  | |- is_uint256 _ => split; vm_compute; congruence
  | |- is_bytes _ => repeat constructor; vm_compute; congruence
  | |- optional _ _ => intros y [= <-]; plain_values
  | |- _ = _ => reflexivity
  | |- _ => idtac
  end.


(** An account with a balance, code and one slot. *)
Definition slotHash : Hash := to_be 32 7.
Definition writtenAccount : account := mkAccount (Some 5) [96; 0] 3 {[slotHash := slotHash]}.
Lemma slotHash_ok : is_hash slotHash.
Proof. split; [reflexivity|]. by repeat constructor. Qed.
Lemma writtenAccount_ok : account_ok writtenAccount.
Proof.
  constructor; plain_values. apply map_Forall_singleton. split; apply slotHash_ok.
Qed.
Lemma results_json_roundtrip_witness :
  exists j, acc_MarshalJSON writtenAccount = Some j /\
    acc_UnmarshalJSON j (mkAccount None [] 0 ∅) = Some writtenAccount.
Proof. exact (proj1 results_json_roundtrip writtenAccount writtenAccount_ok). Defined.
