(* ===== verification/TextLogger.v ===== *)
(** The loggers that write text (tracers/logger/logger.go): [WriteTrace] and
    [WriteLogs], the debug output of the structured logger and the markdown
    logger. A writer is the text written to it. *)
From S2P Require Import Prelude Opcodes Errors Externals Stack Memory Analysis Contract Tracer.
From S2P Require Import Machine EvmLogger FourByte StructLogger Json.

(** * What the loggers use of fmt and encoding/hex *)
Module fmt.

Definition newline : string := String (Ascii.ascii_of_nat 10) EmptyString.
Definition repeat (n : Z) (c : string) : string :=
  foldr String.append EmptyString (replicate (Z.to_nat n) c).
Definition width (s : string) : Z := Z.of_nat (String.length s).
(** [%10v], [%-16s] and [%08d]: a value in a field of at least [w] characters. *)
Definition right (w : Z) (s : string) : string := repeat (w - width s) " " +:+ s.
Definition left (w : Z) (s : string) : string := s +:+ repeat (w - width s) " ".
Definition zeros (w : Z) (s : string) : string := repeat (w - width s) "0" +:+ s.
(** [%#x] of a byte slice: an empty slice has no prefix. *)
Definition hashHex (b : bytes) : string :=
  match b with [] => EmptyString | _ => bytesToHex b end.
(** [%x] of an unsigned number *)
Definition hexUint (z : Z) : string := hexText (digits 64 z []).
(** [%v] of an error *)
Definition error (e : option Err) : string :=
  match e with Some e => Error e | None => "<nil>" end.
Definition lines (l : list string) : string := foldr String.append EmptyString l.

(** [hex.Dump]: lines of up to sixteen bytes with their offset and their
    printable characters. *)
Definition toChar (b : Z) : string :=
  if (b <? 32) || (126 <? b) then "." else String (Ascii.ascii_of_nat (Z.to_nat b)) EmptyString.
(** What follows the byte in column [i]. *)
Definition gap (i : nat) : string :=
  if (i =? 7)%nat then "  " else if (i =? 15)%nat then "  |" else " ".
Fixpoint dumpCells (i n : nat) (b : bytes) : string :=
  match n with
  | O => EmptyString
  | S n => match b with
           | x :: b => hex_digit (x / 16) +:+ hex_digit (x mod 16) +:+ gap i +:+ dumpCells (S i) n b
           | [] => "  " +:+ gap i +:+ dumpCells (S i) n []
           end
  end.
Definition dumpLine (offset : Z) (b : bytes) : string :=
  zeros 8 (hexUint (offset mod 2 ^ 32)) +:+ "  " +:+ dumpCells 0 16 b +:+ lines (map toChar b) +:+ "|"
  +:+ newline.
(** [n] bounds the number of lines. *)
Fixpoint dumpFrom (n : nat) (offset : Z) (b : bytes) : string :=
  match n, b with
  | S n, _ :: _ => dumpLine offset (take 16 b) +:+ dumpFrom n (offset + 16) (drop 16 b)
  | _, _ => EmptyString
  end.
Definition Dump (b : bytes) : string := dumpFrom (length b) 0 b.
End fmt.
Import fmt.

(** [func (a Address) String() string] of the common package: the checksummed
    hex form *)
Class AddressText `{Libs} := { Address_String : Address -> string }.

(** What is known of the hex forms: they are hex digits behind a prefix, so no
    character of a table's frame. *)
Definition bar : Ascii.ascii := Ascii.ascii_of_nat 124.
Fixpoint bars (s : string) : nat :=
  match s with
  | EmptyString => O
  | String c s => (if Ascii.eqb c bar then 1 else 0) + bars s
  end.
Class HexText `{IntHex} : Prop := { Int_Hex_plain : forall x, bars (Int_Hex x) = O }.

Section Text.
Context {L : Libs} {T : trace.Lib} {X : IntHex} {A : AddressText}.

(** * WriteTrace and WriteLogs *)

(** [for i := len(log.Stack) - 1; i >= 0; i--], on the stack from its top *)
Fixpoint stackLines (i : Z) (top : list uint256.Int) : string :=
  match top with
  | [] => EmptyString
  | x :: rest => zeros 8 (pretty i) +:+ "  " +:+ Int_Hex x +:+ newline +:+ stackLines (i + 1) rest
  end.
Definition dumpSection (title : string) (b : option bytes) : string :=
  match b with
  | Some ((_ :: _) as b) => title +:+ newline +:+ Dump b
  | _ => EmptyString
  end.
(** One turn of the loop of [WriteTrace]; the storage is written in the order
    the map range yields. *)
Definition traceEntry (log : StructLog) : string :=
  left 16 (OpCode_String (sl_Op log)) +:+ "pc=" +:+ zeros 8 (pretty (sl_Pc log))
  +:+ " gas=" +:+ pretty (sl_Gas log) +:+ " cost=" +:+ pretty (sl_GasCost log)
  +:+ match sl_Err log with Some e => " ERROR: " +:+ Error e | None => EmptyString end
  +:+ newline
  +:+ match sl_Stack log with
      | Some ((_ :: _) as st) => "Stack:" +:+ newline +:+ stackLines 0 (rev st)
      | _ => EmptyString
      end
  +:+ dumpSection "Memory:" (sl_Memory log)
  +:+ match map_to_list <$> sl_Storage log with
      | Some ((_ :: _) as items) =>
          "Storage:" +:+ newline
          +:+ lines (map (fun p => Bytes2Hex p.1 +:+ ": " +:+ Bytes2Hex p.2 +:+ newline) items)
      | _ => EmptyString
      end
  +:+ dumpSection "ReturnData:" (sl_ReturnData log)
  +:+ newline.
Definition WriteTrace (logs : list StructLog) (writer : string) : string :=
  writer +:+ lines (map traceEntry logs).

(** The fields of go-ethereum's [types.Log] that are written. *)
Record WrittenLog := mkWrittenLog {
  wl_Address : Address; wl_Topics : list Hash; wl_Data : bytes; wl_BlockNumber : Z; wl_TxIndex : Z;
}.
Fixpoint topicLines (i : Z) (topics : list Hash) : string :=
  match topics with
  | [] => EmptyString
  | t :: rest => zeros 8 (pretty i) +:+ "  " +:+ Bytes2Hex t +:+ newline +:+ topicLines (i + 1) rest
  end.
Definition logEntry (log : WrittenLog) : string :=
  "LOG" +:+ pretty (len (wl_Topics log)) +:+ ": " +:+ Bytes2Hex (wl_Address log)
  +:+ " bn=" +:+ pretty (wl_BlockNumber log) +:+ " txi=" +:+ hexUint (wl_TxIndex log) +:+ newline
  +:+ topicLines 0 (wl_Topics log) +:+ Dump (wl_Data log) +:+ newline.
Definition WriteLogs (logs : list WrittenLog) (writer : string) : string :=
  writer +:+ lines (map logEntry logs).

(** What [StructLogger.CaptureEnd] prints when debugging is on. *)
Definition slg_debug (output : bytes) (err : option Err) (l : StructLogger) : string :=
  if Debug (slg_cfg l) then
    hashHex output +:+ newline
    +:+ match err with Some e => " error: " +:+ Error e +:+ newline | None => EmptyString end
  else EmptyString.

(** * The markdown logger *)

(** [type mdLogger struct]; [md_env] says whether [CaptureStart] has set the
    EVM. *)
Record mdLogger := mkMdLogger { md_out : string; md_cfg : LogConfig; md_env : bool }.
Definition NewMarkdownLogger (cfg : option LogConfig) (writer : string) : mdLogger :=
  mkMdLogger writer (default zeroLogConfig cfg) false.
Definition md_print (s : string) (t : mdLogger) : mdLogger :=
  mkMdLogger (md_out t +:+ s) (md_cfg t) (md_env t).

Definition mdTitles : string :=
  "|  Pc   |      Op     | Cost |   Stack   |   RStack  |  Refund |".
Definition mdRule : string := "|-------|-------------|------|-----------|-----------|---------|".
(** The call, and the head of the table. *)
Definition mdHeading (from to : Address) (create : bool) (input : bytes) (gas value : Z) : string :=
  "From: `" +:+ Address_String from +:+ "`" +:+ newline
  +:+ (if negb create then "To: `" else "Create at: `") +:+ Address_String to +:+ "`" +:+ newline
  +:+ "Data: `" +:+ hashHex input +:+ "`" +:+ newline
  +:+ "Gas: `" +:+ pretty gas +:+ "`" +:+ newline
  +:+ "Value `" +:+ pretty value +:+ "` wei" +:+ newline
  +:+ newline +:+ mdTitles +:+ newline +:+ mdRule +:+ newline.
Definition md_CaptureStart (env : Env) (d : StateDB.DB) (from to : Address) (create : bool)
    (input : bytes) (gas value : Z) (t : mdLogger) : res mdLogger :=
  let t := mkMdLogger (md_out t) (md_cfg t) true in
  Ret (md_print (mdHeading from to create input gas value) t).

(** The stack, from the bottom: [strings.Join(a, ",")] in brackets *)
Definition mdStack (st : Stack) : string :=
  "[" +:+ String.concat "," (map Int_Hex (rev (data st))) +:+ "]".
(** The table row of a step. *)
Definition mdRow (cfg : LogConfig) (pc : Z) (op : OpCode) (cost : Z) (st : Stack) (refund : Z)
    : string :=
  "| " +:+ right 4 (pretty pc) +:+ "  | " +:+ right 10 (OpCode_String op) +:+ "  |  "
  +:+ right 3 (pretty cost) +:+ " |"
  +:+ (if DisableStack cfg then EmptyString else right 10 (mdStack st) +:+ " |")
  +:+ right 10 (pretty refund) +:+ " |" +:+ newline.
Definition mdError (err : option Err) : string :=
  match err with Some e => "Error: " +:+ Error e +:+ newline | None => EmptyString end.
Definition mdFault (pc : Z) (op : OpCode) (err : option Err) : string :=
  newline +:+ "Error: at pc=" +:+ pretty pc +:+ ", op=" +:+ OpCode_String op +:+ ": "
  +:+ error err +:+ newline.
Definition mdEnd (output : bytes) (gasUsed : Z) (err : option Err) : string :=
  newline +:+ "Output: `" +:+ hashHex output +:+ "`" +:+ newline
  +:+ "Consumed gas: `" +:+ pretty gasUsed +:+ "`" +:+ newline
  +:+ "Error: `" +:+ error err +:+ "`" +:+ newline.
Definition md_CaptureState (d : StateDB.DB) (pc : Z) (op : OpCode) (gas cost : Z)
    (scope : ScopeContext) (rData : bytes) (depth : Z) (err : option Err) (t : mdLogger)
    : res mdLogger :=
  if md_env t then
    let t := md_print (mdRow (md_cfg t) pc op cost (scStack scope) (StateDB.GetRefund d)) t in
    Ret (md_print (mdError err) t)
  else Panicked NilDeref.
Definition md_CaptureFault (d : StateDB.DB) (pc : Z) (op : OpCode) (gas cost : Z)
    (scope : ScopeContext) (depth : Z) (err : option Err) (t : mdLogger) : res mdLogger :=
  Ret (md_print (mdFault pc op err) t).
Definition md_CaptureEnd (output : bytes) (gasUsed : Z) (err : option Err) (t : mdLogger)
    : res mdLogger :=
  Ret (md_print (mdEnd output gasUsed err) t).

#[global] Instance md_logger : EVMLogger mdLogger := {|
  onTxStart := fun _ t => Ret t;
  onTxEnd := fun _ _ t => Ret t;
  onStart := md_CaptureStart;
  onEnd := md_CaptureEnd;
  onEnter := fun _ _ _ _ _ _ t => Ret t;
  onExit := fun _ _ _ t => Ret t;
  onState := md_CaptureState;
  onFault := md_CaptureFault;
  asAspectLogger := None;
|}.
End Text.

(** * Facts *)
Section Facts.
Context {L : Libs} {T : trace.Lib} {X : IntHex} {A : AddressText}.

Lemma bars_app s s' : bars (s +:+ s') = (bars s + bars s')%nat.
Proof. induction s as [|c s IH]; [done|]. change (String c s +:+ s') with (String c (s +:+ s')). cbn [bars]. rewrite IH. lia. Qed.
Lemma bars_repeat n c : bars c = O -> bars (repeat n c) = O.
Proof.
  intros Hc. unfold repeat. induction (Z.to_nat n) as [|k IH]; [done|].
  cbn [replicate foldr]. by rewrite bars_app, Hc, IH.
Qed.
Lemma bars_right w s : bars (right w s) = bars s.
Proof. unfold right. by rewrite bars_app, bars_repeat. Qed.

(** The digits of a number. *)
Lemma bars_digit n : bars (String (pretty_N_char n) EmptyString) = O.
Proof. unfold pretty_N_char. by repeat case_match. Qed.
Lemma bars_pretty_N_go n : forall s, bars s = O -> bars (pretty_N_go n s) = O.
Proof.
  induction n as [n IH] using (well_founded_induction N.lt_wf_0). intros s Hs.
  destruct (decide (0 < n)%N) as [H|H].
  - rewrite pretty_N_go_step by done. apply IH; [by apply N.div_lt|].
    pose proof (bars_digit (n `mod` 10)) as Hd. cbn [bars] in *. lia.
  - by replace n with 0%N by lia.
Qed.
Lemma bars_pretty (z : Z) : bars (pretty z) = O.
Proof.
  assert (HN : forall n : N, bars (pretty n) = O).
  { intros n. unfold pretty, pretty_N. case_decide; [done|]. by apply bars_pretty_N_go. }
  destruct z as [|p|p]; [done|apply (HN (Npos p))|].
  change (pretty (Zneg p)) with ("-" +:+ pretty (Npos p)). by rewrite bars_app, (HN (Npos p)).
Qed.
Lemma bars_OpCode op : is_byte op -> bars (OpCode_String op) = O.
Proof.
  intros H. assert (E : forallb (fun n => bars (OpCode_String (Z.of_nat n)) =? 0)%nat (seq 0 256) = true)
    by (vm_compute; reflexivity).
  rewrite forallb_forall in E. unfold is_byte in H.
  specialize (E (Z.to_nat op)). rewrite Z2Nat.id in E by lia. apply Nat.eqb_eq, E, in_seq. lia.
Qed.
Lemma bars_concat l : Forall (fun s => bars s = O) l -> bars (String.concat "," l) = O.
Proof.
  induction 1 as [|s l Hs Hl IH]; [done|]. destruct l as [|s' l]; [done|].
  change (String.concat "," (s :: s' :: l)) with (s +:+ "," +:+ String.concat "," (s' :: l)).
  by rewrite !bars_app, Hs, IH.
Qed.
Lemma bars_mdStack {HT : HexText} st : bars (mdStack st) = O.
Proof.
  unfold mdStack. rewrite !bars_app, bars_concat; [done|].
  apply Forall_map, Forall_forall. intros x _. apply Int_Hex_plain.
Qed.

(** The cells of a table line. *)
Definition cells (line : string) : nat := bars line - 1.

(** The markdown table is not regular. Its title line and rule have six cells,
    the row of a step only five: there is no cell for the column RStack, so the
    refund stands under that title (and the row has four cells, with the refund
    under the title Stack, when the stack is disabled). *)
Theorem markdown_row_short {HT : HexText} cfg pc op cost st refund :
  is_byte op ->
  cells mdTitles = 6%nat /\ cells mdRule = 6%nat /\
  cells (mdRow cfg pc op cost st refund) = if DisableStack cfg then 4%nat else 5%nat.
Proof.
  intros Hop. split_and!; [done|done|]. unfold cells, mdRow.
  destruct (DisableStack cfg);
    rewrite !bars_app, ?bars_right, ?bars_mdStack, !bars_pretty, bars_OpCode by done; reflexivity.
Qed.

(** What the markdown logger writes for an event. *)
Definition mdText (cfg : LogConfig) (e : StateDB.DB * Event) : string :=
  match e.2 with
  | CaptureStart from to create input gas value => mdHeading from to create input gas value
  | CaptureState pc op gas cost scope rData depth err =>
      mdRow cfg pc op cost (scStack scope) (StateDB.GetRefund e.1) +:+ mdError err
  | CaptureFault pc op gas cost scope depth err => mdFault pc op err
  | CaptureEnd output gasUsed err => mdEnd output gasUsed err
  | _ => EmptyString
  end.

Lemma append_nil_r (s : string) : s +:+ EmptyString = s.
Proof. induction s as [|c s IH]; [done|]. exact (f_equal (String c) IH). Qed.
Lemma md_dispatch env d e out cfg :
  dispatch env d e (mkMdLogger out cfg true)
  = Ret (mkMdLogger (out +:+ mdText cfg (d, e)) cfg true).
Proof.
  destruct e; try reflexivity;
    cbn [dispatch onState onEnter onExit md_logger mdText snd fst];
    unfold md_CaptureState, md_print; cbn [md_env md_out md_cfg];
    rewrite ?append_nil_r, ?string_app_assoc; reflexivity.
Qed.
Lemma md_feed env cfg es : forall out,
  feed env es (mkMdLogger out cfg true)
  = Ret (mkMdLogger (out +:+ lines (map (mdText cfg) es)) cfg true).
Proof.
  induction es as [|[d e] es IH]; intros out;
    [cbn [feed map lines foldr]; by rewrite append_nil_r|].
  cbn [feed]. rewrite md_dispatch. cbn [rbind]. rewrite IH.
  cbn [map lines foldr]. by rewrite string_app_assoc.
Qed.

(** Once it knows the EVM the markdown logger does not panic: it writes the
    call and the table head, then a row for each step in order with its error
    below it, the faults, and the outcome at the end; sub-calls leave no mark. *)
Theorem markdown_log env cfg writer d from to create input gas value es :
  feed env ((d, CaptureStart from to create input gas value) :: es)
    (NewMarkdownLogger (Some cfg) writer)
  = Ret (mkMdLogger (writer +:+ mdHeading from to create input gas value
                     +:+ lines (map (mdText cfg) es)) cfg true).
Proof.
  cbn [feed dispatch onStart md_logger]. unfold md_CaptureStart. cbn [rbind].
  unfold md_print. cbn [md_out md_cfg md_env NewMarkdownLogger default from_option id].
  by rewrite md_feed, string_app_assoc.
Qed.
End Facts.

(** * Examples *)
From S2P Require Import Instances.

#[local] Instance sampleHex : IntHex := {| Int_Hex := fun x => "0x" +:+ hexUint (uint256.toZ x) |}.
Lemma bars_hexText l : Forall is_nibble l -> bars (hexText l) = O.
Proof.
  induction 1 as [|d l Hd _ IH]; [done|]. unfold is_nibble in Hd.
  change (hexText (d :: l)) with (String (hexChar d) (hexText l)). cbn [bars]. rewrite IH.
  assert (E : forallb (fun n => negb (Ascii.eqb (hexChar (Z.of_nat n)) bar)) (seq 0 16) = true)
    by (vm_compute; reflexivity).
  rewrite forallb_forall in E. specialize (E (Z.to_nat d)). rewrite Z2Nat.id in E by lia.
  destruct (Ascii.eqb _ _); [|done]. discriminate E. apply in_seq. lia.
Qed.
#[local] Instance sampleHexText : HexText.
Proof.
  constructor. intros x. cbn [Int_Hex sampleHex]. rewrite bars_app. unfold hexUint.
  rewrite bars_hexText; [done|]. apply digits_ok; [|constructor].
  change (16 ^ Z.of_nat 64) with (2 ^ 256). apply uint256.toZ_range.
Qed.

Example dump_two_lines :
  Dump (map Z.of_nat (seq 64 18)) =
  "00000000  40 41 42 43 44 45 46 47  48 49 4a 4b 4c 4d 4e 4f  |@ABCDEFGHIJKLMNO|" +:+ newline
  +:+ "00000010  50 51                                             |PQ|" +:+ newline.
Proof. vm_compute. reflexivity. Qed.
Example sample_row :
  mdRow zeroLogConfig 4 SLOAD 2100 (mkStack [uint256.NewInt 10; uint256.NewInt 3]) 0 =
  "|    4  |      SLOAD  |  2100 | [0x3,0xa] |         0 |" +:+ newline.
Proof. vm_compute. reflexivity. Qed.
Lemma markdown_row_short_witness :
  cells (mdRow zeroLogConfig 4 SLOAD 2100 (mkStack [uint256.NewInt 10]) 0) = 5%nat.
Proof. apply (markdown_row_short zeroLogConfig). by vm_compute. Defined.
