(* ===== verification/Traced.v ===== *)
(** The machine and its loggers together: what the EVM tells a logger of a
    call is a well-bracketed sequence of events, so the tracers that rebuild a
    call tree from such sequences work on every execution. *)
From S2P Require Import Prelude Opcodes Errors Externals Stack Memory Analysis Contract Tracer.
From S2P Require Import Machine Gas Instructions JumpTable Precompiles Evm Core Logic Brackets Frame.
From S2P Require Import EvmLogger CallTracer FlatTracer CallFrame.

(** * From events to the tree of an execution *)
Section Items.
Context {L : Libs} {RP : AspectReports} {T : trace.Lib}.

Lemma told_cons (told : list (StateDB.DB * Event)) e es :
  told.*2 = e :: es -> exists d t, told = (d, e) :: t /\ t.*2 = es.
Proof. destruct told as [|[d x] t]; [done|]. intros [= -> <-]. by exists d, t. Qed.
Lemma told_app (told : list (StateDB.DB * Event)) es es' :
  told.*2 = es ++ es' -> exists t t', told = t ++ t' /\ t.*2 = es /\ t'.*2 = es'.
Proof. intros (t & t' & -> & -> & ->)%fmap_app_inv. by exists t, t'. Qed.

(** What is assumed of a run of an aspect: its execution context can be encoded
    as JSON, and it makes no calls, which would crash the call tracer
    ([aspect_subcall_panics]). *)
Definition isEnter (e : Event) : bool :=
  match e with CaptureEnter _ _ _ _ _ _ => true | _ => false end.
Definition plainRun (execCtx : aspect.Message) (body : list Event) : Prop :=
  (exists raw, trace.Marshal execCtx = inl raw) /\ Forall (fun e => isEnter e = false) body.

(** What an execution then guarantees of the items it reports. *)
Definition okay (i : item) : Prop :=
  match i with
  | Step _ _ op _ _ scope _ _ err => step_ok op scope err
  | _ => True
  end.
Definition good (i : item) : Prop := okay i /\ traceable i.
Lemma everywhere_impl (P P' : item -> Prop) i :
  (forall i, P i -> P' i) -> everywhere P i -> everywhere P' i.
Proof.
  intros H. induction i as [| |? ? ? ? ? ? ? body ? ? ? ? IH|? ? ? ? ? ? ? ? ? body ? ? IH]
    using item_ind'; intros He; constructor; try (by apply H, everywhere_here); try constructor;
    apply everywhere_below in He; cbn [body_of] in *; rewrite Forall_forall in IH, He |- *; eauto.
Qed.

Lemma no_calls (l : list item) :
  Forall (fun e => isEnter e = false) (concat (map flatten l)).*2 ->
  Forall (fun i => isSub i = false) l.
Proof.
  induction l as [|i l IH]; intros H; [constructor|]. cbn [map concat] in H.
  rewrite fmap_app in H. apply Forall_app in H as [Hi Hl]. constructor; [|by apply IH].
  destruct i; try done. by inversion Hi.
Qed.

(** A balanced sequence, each event with the state database of its moment, is
    the sequence of the items of an execution. *)
Lemma balanced_items es :
  balanced plainRun es -> forall told : list (StateDB.DB * Event), told.*2 = es ->
  exists items, told = concat (map flatten items) /\ Forall (everywhere good) items.
Proof.
  intros B. induction B as [|pc op gas cost scope rData depth err es Hs B IH
    |pc op gas cost scope depth err es B IH
    |typ from to input gas value body output gasUsed err es B1 IH1 B2 IH2
    |jp from to aspectId input gas value execCtx body result es [HQ HC] B1 IH1 B2 IH2]; intros told E.
  - apply fmap_nil_inv in E as ->. by exists [].
  - apply told_cons in E as (d & t & -> & E). apply IH in E as (items & -> & Hi).
    exists (Step d pc op gas cost scope rData depth err :: items). split; [done|].
    constructor; [|done]. constructor; [by split|constructor].
  - apply told_cons in E as (d & t & -> & E). apply IH in E as (items & -> & Hi).
    exists (Fault d pc op gas cost scope depth err :: items). split; [done|].
    constructor; [|done]. constructor; [by split|constructor].
  - apply told_cons in E as (d & t & -> & E). apply told_app in E as (t1 & t2 & -> & E1 & E2).
    apply IH1 in E1 as (inside & -> & Hin). apply told_cons in E2 as (d' & t & -> & E2).
    apply IH2 in E2 as (items & -> & Hi).
    exists (Sub d typ from to input gas value inside d' output gasUsed err :: items). split.
    + cbn [map concat flatten]. by rewrite <- app_comm_cons, <- app_assoc.
    + constructor; [|done]. constructor; [by split|done].
  - apply told_cons in E as (d & t & -> & E). apply told_app in E as (t1 & t2 & -> & E1 & E2).
    pose proof E1 as Eb. apply IH1 in E1 as (inside & -> & Hin).
    apply told_cons in E2 as (d' & t & -> & E2). apply IH2 in E2 as (items & -> & Hi).
    exists (Point d jp from to aspectId input gas value execCtx inside d' result :: items). split.
    + cbn [map concat flatten]. by rewrite <- app_comm_cons, <- app_assoc.
    + constructor; [|done]. constructor; [|done]. split; [done|]. split; [done|].
      apply no_calls. by rewrite Eb.
Qed.

(** A reported call of a transaction. *)
Lemma bracketed_items from to create input gas value output gasUsed err m m' told :
  bracketed plainRun (CaptureStart from to create input gas value) (CaptureEnd output gasUsed err) m m' ->
  events m' = events m ++ told.*2 ->
  exists d items d', Forall (everywhere good) items /\
    told = (d, CaptureStart from to create input gas value) ::
      concat (map flatten items) ++ [(d', CaptureEnd output gasUsed err)].
Proof.
  intros (body & R & B) E. unfold reports in R. rewrite R in E. apply app_inv_head in E.
  symmetry in E. apply told_cons in E as (d & t & -> & E).
  apply told_app in E as (t1 & t2 & -> & E1 & E2).
  destruct (balanced_items _ B _ E1) as (items & -> & Hi). apply told_cons in E2 as (d' & t & -> & E2).
  apply fmap_nil_inv in E2 as ->. by exists d, items, d'.
Qed.
End Items.

(** * Nothing the call tracer does on an execution can fail *)
Section Total.
Context {L : Libs} {RP : AspectReports} {T : trace.Lib} {SR : runtime.Spec} {SU : uint256.Spec} {SM : math.Spec}.

Lemma logTopics_returns st i n :
  0 <= i -> i + Z.of_nat n + 2 <= slen st -> exists topics, logTopics st i n = Ret topics.
Proof.
  revert i. induction n as [|n IH]; intros i Hi Hn; [by eexists|]. cbn [logTopics].
  destruct (at_index_ok st (slen st - 2 - (i + 1))) as (x & ->); [lia|]. cbn [rbind].
  destruct (IH (i + 1)) as (l & ->); [lia..|]. by eexists.
Qed.

Lemma isLog_range op : isLog op = true -> LOG0 <= op <= LOG4.
Proof. unfold isLog, LOG0, LOG1, LOG2, LOG3, LOG4. lia. Qed.

(** The operands of a reported LOG are there to be copied. *)
Lemma capturedLog_returns op scope :
  isLog op = true -> log_ready op scope -> exists log, capturedLog op scope = Ret log.
Proof.
  intros Hop%isLog_range [Hm Hst Hr]. unfold capturedLog. set (st := scStack scope) in *.
  unfold LOG0, LOG4 in *.
  destruct (at_index_ok st (slen st - 1)) as (off & Hoff); [lia|].
  destruct (at_index_ok st (slen st - 2)) as (size & Hsize); [lia|].
  rewrite Hoff, Hsize. cbn [rbind]. unfold Back in Hr.
  specialize (Hr off size). rewrite Z.sub_0_r, <- Z.sub_add_distr in Hr. specialize (Hr Hoff Hsize).
  rewrite u8_small by lia.
  destruct (logTopics_returns st 0 (Z.to_nat (op - 0xA0))) as (topics & ->); [lia..|].
  cbn [rbind]. rewrite !uint256.Uint64_spec.
  pose proof (uint256.toZ_range off). pose proof (uint256.toZ_range size).
  pose proof (i64_range (uint256.toZ off mod 2 ^ 64)).
  destruct (GetMemoryCopyPadded_returns (scMemory scope) (i64 (uint256.toZ off mod 2 ^ 64))
    (i64 (uint256.toZ size mod 2 ^ 64))) as ([data err] & ->); [done..| |].
  - destruct Hr as [->|Hr]; [by left|right].
    rewrite !Z.mod_small by lia. rewrite !i64_small by lia. lia.
  - cbn [rbind]. destruct err; by eexists.
Qed.

Lemma stepFrame_total config op scope depth err f :
  step_ok op scope err ->
  exists f', stepFrame config op scope depth err f = Ret f' /\ cf_joinPoint f' = cf_joinPoint f.
Proof.
  intros Hok. unfold stepFrame. destruct err; cbn [is_nil andb]; [by exists f|].
  destruct (WithLog config && _); cbn [andb]; [|by exists f].
  destruct (isLog op) eqn:Hop; [|by exists f].
  destruct (capturedLog_returns op scope Hop) as (log & ->);
    [by apply Hok; [|..|apply isLog_range]|].
  cbn [rbind]. eexists. split; [done|]. by destruct log, f.
Qed.

(** No aspect runs in the frame. *)
Abbreviation idle f := (cf_joinPoint f = trace.JoinPointRunType_Unknown).
Definition total (config : callTracerConfig) (i : item) : Prop :=
  everywhere good i -> forall f, (isSub i = true -> idle f) ->
  exists f', itemFrame config i f = Ret f' /\ (idle f -> idle f').
Lemma total_items config l : Forall (total config) l -> Forall (everywhere good) l -> forall f,
  idle f \/ Forall (fun i => isSub i = false) l ->
  exists f', itemsFrame config l f = Ret f' /\ (idle f -> idle f').
Proof.
  intros Hl. induction Hl as [|i l Hi _ IH]; intros Hg f Hf; [by exists f|].
  apply Forall_cons in Hg as [Hg Hgs]. destruct (Hi Hg f) as (f1 & E1 & J1).
  { intros Hs. destruct Hf as [Hf|Hf]; [done|]. apply Forall_cons in Hf as [Hf _]. congruence. }
  destruct (IH Hgs f1) as (f2 & E2 & J2).
  { destruct Hf as [Hf|Hf]; [left; auto|right]. by apply Forall_cons in Hf as [_ Hf]. }
  exists f2. unfold itemsFrame in *. cbn [each_item]. rewrite E1. cbn [rbind]. auto.
Qed.
Lemma itemFrame_total config i : total config i.
Proof.
  induction i as [| |d typ from to input gas value body d' output gasUsed err IH
    |d jp from to aspectId input gas value execCtx body d' result IH] using item_ind';
    intros Hg f Hf.
  - apply everywhere_here in Hg as [Hg _].
    destruct (stepFrame_total config op scope depth err f Hg) as (f' & E & J). exists f'.
    split; [exact E|congruence].
  - by exists f.
  - apply everywhere_below in Hg. cbn [body_of] in Hg. rewrite itemFrame_sub.
    specialize (Hf eq_refl). destruct (OnlyTopCall config).
    + apply total_items; auto.
    + destruct (total_items config body IH Hg (enterFrame typ from to input gas value))
        as (g & -> & _); [by left|]. cbn [rbind]. rewrite appendCall_plain by done.
      eexists. split; [done|]. by destruct f.
  - pose proof (everywhere_below _ _ Hg) as Hb. apply everywhere_here in Hg as [_ [_ Hc]].
    cbn [body_of callFree] in *. rewrite itemFrame_point.
    destruct (total_items config body IH Hb
      (pointFrame jp from to aspectId input gas value execCtx f)) as (g & -> & _); [by right|].
    cbn [rbind]. by eexists.
Qed.
Lemma itemsFrame_total config items f :
  Forall (everywhere good) items -> idle f -> exists f', itemsFrame config items f = Ret f'.
Proof.
  intros Hg Hf. destruct (total_items config items (Forall_true _ _ (itemFrame_total config)) Hg f)
    as (f' & E & _); [by left|]. by exists f'.
Qed.
End Total.

(** * Every transaction has a tree *)
Section Transactions.
Context {L : Libs} {RP : AspectReports} {T : trace.Lib} {MD : StateDB.Model} {SD : StateDB.Spec} {SA : aspect.Spec}
  {SR : runtime.Spec} {SU : uint256.Spec} {SM : math.Spec}.

(** The call of a transaction: [Call], or [create] with the init code [input]. *)
Definition transaction (env : Env) (run : Runner) (create_ : bool) (caller : ContractRef)
    (to : Address) (input : bytes) (gas value : Z) (m : Machine) (r : bytes) (err : option Err)
    (m' : Machine) : Prop :=
  if create_ then
    exists hash typ addr left,
      create env run caller {| ch_code := input; ch_hash := hash |} gas value to typ m
      = Ret (r, addr, left, err, m')
  else exists left, Call env run caller to input gas value m = Ret (r, left, err, m').

(** It is reported by a start and an end event around what it did. *)
Lemma transaction_told env run create_ caller to input gas value m r err m' :
  transfer_ok env -> run_frame run -> readOnly m = false -> depth m = 0 ->
  transaction env run create_ caller to input gas value m r err m' ->
  exists typ, told env typ (RefAddress caller) to create_ input gas value r err m m'.
Proof.
  intros Htr Hr Hro Hd H. destruct create_.
  - destruct H as (hash & typ & addr & left & H). apply create_spec in H as (_ & _ & Ht); [|done..].
    exists typ. apply Ht. lia.
  - destruct H as (left & H). apply Call_spec in H as (_ & _ & Ht); [|done..|congruence].
    exists CALL. apply Ht. lia.
Qed.

(** C6: every transaction has a call tree. When a logger is configured, a
    transaction's [Call] or [create] either fails before it begins and reports
    nothing, or it reports a start event, the steps, faults, properly nested
    sub-calls and runs of aspects of the execution, and an end event with the
    result and error it returns. So the call tracer, with any configuration, and
    the flat tracer, given those events, never panic and end with the tree of
    the execution; when the call tracer collects logs, the operands of every LOG
    it is told of are on the stack and name memory that was paid for. Unless
    join points are off, the aspects are assumed to report each of their runs
    with its end, with an execution context that can be encoded, and to make no
    calls of their own: a call made by an aspect crashes the call tracer. *)
Theorem transaction_has_tree env rules eips table active fuel create_ caller to input gas value
    m r err m' :
  transfer_ok env -> NewEVMInterpreter rules eips = Ret (table, active) ->
  hasTracer env = true -> readOnly m = false -> depth m = 0 -> hooks_report plainRun m ->
  transaction env (Run env table fuel) create_ caller to input gas value m r err m' ->
  (events m' = events m /\ err <> None) \/
  exists gasUsed, forall told, events m' = events m ++ told.*2 ->
    exists d items d',
      told = (d, CaptureStart (RefAddress caller) to create_ input gas value) ::
             concat (map flatten items) ++ [(d', CaptureEnd r gasUsed err)] /\
      (forall config limit reason,
       exists f, itemsFrame config items (startFrame limit (RefAddress caller) to create_ input value)
                 = Ret f /\
         feed env told (open config limit reason [zeroFrame])
         = Ret (open config limit reason [cf_processOutput r err f])) /\
      (forall include limit reason convert ctx pcs,
         feed env told (flatOpen include limit reason convert ctx pcs [zeroFrame])
         = Ret (flatOpen include limit reason convert ctx (ActivePrecompiles (chainRules env))
             [cf_processOutput r err
                (tracedFrames env include items
                   (startFrame limit (RefAddress caller) to create_ input value))])).
Proof.
  intros Htr Ht Hlog Hro Hd Hhook H.
  pose proof (interpreter_frame env rules eips table active fuel Htr Ht) as Hr.
  apply transaction_told in H as (typ & [H|(gasUsed & _ & H)]); [by left| |done..].
  right. exists gasUsed. intros told E. specialize (H plainRun Hlog Hhook). unfold opening, closing in H.
  rewrite Hd in H. cbn [Z.eqb] in H.
  destruct (bracketed_items _ _ _ _ _ _ _ _ _ _ _ _ H E) as (d & items & d' & Hi & ->).
  exists d, items, d'. split_and!; [done| |].
  - intros config limit reason. rewrite feed_transaction.
    2:{ eapply Forall_impl; [exact Hi|]. intros i. apply everywhere_impl. by intros ? [_ []]. }
    destruct (itemsFrame_total config items
      (startFrame limit (RefAddress caller) to create_ input value) Hi eq_refl) as (f & Hf).
    exists f. by rewrite Hf.
  - intros. apply flat_feed_transaction. eapply Forall_impl; [exact Hi|]. intros i.
    apply everywhere_impl. by intros ? [_ ?].
Qed.
End Transactions.

(** * Witness *)
From S2P Require Import Instances Sample.

(** Code that logs a word, calls the identity contract and stops. *)
Definition callCode4 : bytes :=
  [PUSH1; 7; PUSH1; 32; PUSH1; 0; LOG1;
   PUSH1; 0; PUSH1; 0; PUSH1; 0; PUSH1; 0; PUSH1; 0; PUSH1; 4; GAS; CALL; STOP].
(** Join points are on: the aspect of Sample.v runs before and after the call. *)
Definition aspectMachine (code : bytes) : Machine := set_IsExecuteJP true (machineWith code).
Lemma sample_reports m : hooks_report plainRun m.
Proof.
  intros _. constructor; intros; cbn; apply (bal_aspect _ _ _ _ _ _ _ _ _ []);
    try constructor; try constructor; by eexists.
Qed.
Definition tracedRun : (bytes * Z * option Err) * Machine :=
  outcome (Call sampleEnv (Run sampleEnv sampleTable 100) (AccountRef alice) bob [] 50000 10
             (aspectMachine callCode4)) ([], 0, None) (machineWith []).
Definition tracedEvents : list (StateDB.DB * Event) :=
  map (fun e => (dbWith [], e)) (events tracedRun.2).

Definition loggedConfig : callTracerConfig := mkCallConfig false true.

Lemma labelled_events (d : StateDB.DB) (es : list Event) : es = (map (fun e => (d, e)) es).*2.
Proof. induction es as [|e es IH]; [done|]. cbn. by f_equal. Qed.

Lemma transaction_has_tree_witness :
  length tracedEvents = 21%nat /\
  exists f, feed sampleEnv tracedEvents (open loggedConfig 50000 None [zeroFrame])
    = Ret (open loggedConfig 50000 None [cf_processOutput tracedRun.1.1.1 None f]).
Proof.
  split; [vm_compute; reflexivity|].
  destruct (transaction_has_tree sampleEnv cancunRules [] sampleTable [] 100 false
    (AccountRef alice) bob [] 50000 10 (aspectMachine callCode4) tracedRun.1.1.1 None tracedRun.2)
    as [[_ H]|(gasUsed & H)].
  - by apply core_transfer_ok.
  - exact sampleTable_ok.
  - reflexivity.
  - reflexivity.
  - reflexivity.
  - apply sample_reports.
  - exists tracedRun.1.1.2. apply outcome_call; vm_compute; reflexivity.
  - destruct (H eq_refl).
  - destruct (H tracedEvents (labelled_events (dbWith []) (events tracedRun.2))) as (d & items & d' & _ & Hc & _).
    destruct (Hc loggedConfig 50000 None) as (f & _ & Hf). by exists f.
Defined.
