(* ===== verification/Runtime.v ===== *)
(** The basic execution environment (vm/runtime/env.go and runtime.go): it fills
    in a configuration, prepares a state and runs code, a creation or a call. *)
From S2P Require Import Prelude Opcodes Errors Externals Stack Memory Analysis Contract Tracer.
From S2P Require Import Machine Gas Instructions JumpTable Precompiles Evm Core CallGas Termination.

(** What the package uses of params and core/state beyond the EVM itself. *)
Module chain.
(** The fields of [params.ChainConfig] the package sets. *)
Record Fields := {
  ChainID : Z;
  HomesteadBlock : Z;
  DAOForkBlock : Z;
  DAOForkSupport : bool;
  EIP150Block : Z;
  EIP155Block : Z;
  EIP158Block : Z;
  ByzantiumBlock : Z;
  ConstantinopleBlock : Z;
  PetersburgBlock : Z;
  IstanbulBlock : Z;
  MuirGlacierBlock : Z;
  BerlinBlock : Z;
  LondonBlock : Z;
}.
Class Lib `{StateDB.Lib} := {
  ChainConfig : Type;
  ConfigOf : Fields -> ChainConfig;      (* the other fields are zero *)
  ChainID_ : ChainConfig -> Z;
  ConfigRules : ChainConfig -> Z -> bool -> Z -> params.Rules;
  InitialBaseFee : Z;
  NewState : StateDB.DB;           (* state.New of the empty root in memory *)
  Prepare : params.Rules -> Address -> Address -> option Address -> list Address ->
            StateDB.DB -> StateDB.DB;
  GetOrNewStateObject : Address -> StateDB.DB -> StateDB.DB;
}.
End chain.

Section Runtime.
Context {L : Libs} {RP : AspectReports} {K : chain.Lib}.

(** [type Config struct] of vm/interpreter.go; the tracer is present or nil. *)
Record vmConfig := mkVmConfig {
  vc_Tracer : bool;
  vc_NoBaseFee : bool;
  vc_EnablePreimageRecording : bool;
  vc_ExtraEips : list Z;
}.
(** [type Config struct] of the runtime; pointers are options. *)
Record Config := mkConfig {
  cfg_ChainConfig : option chain.ChainConfig;
  cfg_Difficulty : option Z;
  cfg_Origin : Address;
  cfg_Coinbase : Address;
  cfg_BlockNumber : option Z;
  cfg_Time : Z;
  cfg_GasLimit : Z;
  cfg_GasPrice : option Z;
  cfg_Value : option Z;
  cfg_Debug : bool;
  cfg_EVMConfig : vmConfig;
  cfg_BaseFee : option Z;
  cfg_State : option StateDB.DB;
  cfg_GetHashFn : option (Z -> Hash);
}.
Definition zeroConfig : Config :=
  mkConfig None None zeroAddress zeroAddress None 0 0 None None false
    (mkVmConfig false false false []) None None None.
Definition cfg_set_State (d : StateDB.DB) (c : Config) : Config :=
  mkConfig (cfg_ChainConfig c) (cfg_Difficulty c) (cfg_Origin c) (cfg_Coinbase c)
    (cfg_BlockNumber c) (cfg_Time c) (cfg_GasLimit c) (cfg_GasPrice c) (cfg_Value c) (cfg_Debug c)
    (cfg_EVMConfig c) (cfg_BaseFee c) (Some d) (cfg_GetHashFn c).

(** [[]byte(s)] *)
Fixpoint stringBytes (s : string) : bytes :=
  match s with
  | EmptyString => []
  | String c s => Z.of_nat (Ascii.nat_of_ascii c) :: stringBytes s
  end.
(** The default [GetHashFn]: the hash of the decimal block number. *)
Definition defaultHash (n : Z) : Hash := crypto.Keccak256 (stringBytes (pretty n)).

(** The default chain: all forks up to London at block 0. *)
Definition defaultChain : chain.Fields :=
  {| chain.ChainID := 1; chain.HomesteadBlock := 0; chain.DAOForkBlock := 0;
     chain.DAOForkSupport := false; chain.EIP150Block := 0; chain.EIP155Block := 0;
     chain.EIP158Block := 0; chain.ByzantiumBlock := 0; chain.ConstantinopleBlock := 0;
     chain.PetersburgBlock := 0; chain.IstanbulBlock := 0; chain.MuirGlacierBlock := 0;
     chain.BerlinBlock := 0; chain.LondonBlock := 0 |}.

(** [if p == nil { p = x }] *)
Definition orElse {A} (o : option A) (x : A) : option A := Some (default x o).
Definition setDefaults (c : Config) : Config :=
  mkConfig (orElse (cfg_ChainConfig c) (chain.ConfigOf defaultChain)) (orElse (cfg_Difficulty c) 0)
    (cfg_Origin c) (cfg_Coinbase c) (orElse (cfg_BlockNumber c) 0) (cfg_Time c)
    (if cfg_GasLimit c =? 0 then MaxUint64 else cfg_GasLimit c)
    (orElse (cfg_GasPrice c) 0) (orElse (cfg_Value c) 0) (cfg_Debug c) (cfg_EVMConfig c)
    (orElse (cfg_BaseFee c) chain.InitialBaseFee) (cfg_State c)
    (orElse (cfg_GetHashFn c) defaultHash).

(** [func NewEnv(cfg *Config) *vm.EVM]: the environment of the EVM it makes,
    whose block context has no [Random], and its interpreter's jump table. *)
Definition newEnvironment (c : Config) (chainConfig : chain.ChainConfig) : Env :=
  {| CanTransfer := core_CanTransfer;
     Transfer := core_Transfer;
     GetHash := default defaultHash (cfg_GetHashFn c);
     Coinbase := cfg_Coinbase c;
     BlockNumber := default 0 (cfg_BlockNumber c);
     Time := cfg_Time c;
     Difficulty := default 0 (cfg_Difficulty c);
     GasLimit := cfg_GasLimit c;
     BaseFee := cfg_BaseFee c;
     Random := None;
     Origin := cfg_Origin c;
     GasPrice := default 0 (cfg_GasPrice c);
     ChainID := chain.ChainID_ chainConfig;
     chainRules := chain.ConfigRules chainConfig (default 0 (cfg_BlockNumber c)) false (cfg_Time c);
     hasTracer := vc_Tracer (cfg_EVMConfig c);
     EnablePreimageRecording := vc_EnablePreimageRecording (cfg_EVMConfig c) |}.
Definition NewEnv (c : Config) : res (Env * JumpTable) :=
  match cfg_ChainConfig c with
  | None => Panicked NilDeref
  | Some chainConfig =>
      let env := newEnvironment c chainConfig in
      let? (table, _) := NewEVMInterpreter (chainRules env) (vc_ExtraEips (cfg_EVMConfig c)) in
      Ret (env, table)
  end.

(** [type BlockContext struct] and [func (evm *EVM) SetBlockContext(blockCtx)]:
    the block fields of the environment and the rules change, the interpreter
    keeps its jump table. *)
Record BlockContext := {
  bc_CanTransfer : StateDB.DB -> Address -> Z -> bool;
  bc_Transfer : StateDB.DB -> Address -> Address -> Z -> StateDB.DB;
  bc_GetHash : Z -> Hash;
  bc_Coinbase : Address;
  bc_GasLimit : Z;
  bc_BlockNumber : Z;
  bc_Time : Z;
  bc_Difficulty : Z;
  bc_BaseFee : option Z;
  bc_Random : option Hash;
}.
Definition SetBlockContext (chainConfig : chain.ChainConfig) (blockCtx : BlockContext) (env : Env)
    : Env :=
  {| CanTransfer := bc_CanTransfer blockCtx;
     Transfer := bc_Transfer blockCtx;
     GetHash := bc_GetHash blockCtx;
     Coinbase := bc_Coinbase blockCtx;
     GasLimit := bc_GasLimit blockCtx;
     BlockNumber := bc_BlockNumber blockCtx;
     Time := bc_Time blockCtx;
     Difficulty := bc_Difficulty blockCtx;
     BaseFee := bc_BaseFee blockCtx;
     Random := bc_Random blockCtx;
     Origin := Origin env;
     GasPrice := GasPrice env;
     ChainID := ChainID env;
     chainRules := chain.ConfigRules chainConfig (bc_BlockNumber blockCtx)
       (negb (bool_decide (bc_Random blockCtx = None))) (bc_Time blockCtx);
     hasTracer := hasTracer env;
     EnablePreimageRecording := EnablePreimageRecording env |}.

(** [common.BytesToAddress([]byte("contract"))] *)
Definition contractAddress : Address := zeros 12 ++ stringBytes "contract".

(** [statedb.Prepare(rules, cfg.Origin, cfg.Coinbase, dest, vm.ActivePrecompiles(rules), nil)] *)
Definition prepared (env : Env) (dest : option Address) (d : StateDB.DB) : StateDB.DB :=
  chain.Prepare (chainRules env) (Origin env) (Coinbase env) dest
    (ActivePrecompiles (chainRules env)) d.
(** The configuration [Execute] and [Create] work with: a nil one is a new one,
    and a state that is nil is a new one. *)
Definition completed (cfg : option Config) : Config :=
  let c := setDefaults (default zeroConfig cfg) in
  cfg_set_State (default chain.NewState (cfg_State c)) c.

(** The entry points; [fuel] bounds the interpreter's loop and its calls. *)
Definition rt_Execute (fuel : nat) (ctx : aspect.Ctx) (code input : bytes) (cfg : option Config)
    : res (bytes * StateDB.DB * option Err) :=
  let c := completed cfg in
  let? (env, table) := NewEnv c in
  let d := prepared env (Some contractAddress) (default chain.NewState (cfg_State c)) in
  let d := StateDB.CreateAccount contractAddress d in
  let d := StateDB.SetCode contractAddress code d in
  let? (out, m) := do_Call (evmCalls env (Run env table fuel)) (AccountRef (cfg_Origin c))
                     contractAddress input (cfg_GasLimit c) (default 0 (cfg_Value c))
                     (NewEVM d ctx) in
  Ret (out.1.1, db m, out.2).

Definition rt_Create (fuel : nat) (ctx : aspect.Ctx) (input : bytes) (cfg : option Config)
    : res (bytes * Address * Z * option Err) :=
  let c := completed cfg in
  let? (env, table) := NewEnv c in
  let d := prepared env None (default chain.NewState (cfg_State c)) in
  let? (out, m) := do_Create (evmCalls env (Run env table fuel)) (AccountRef (cfg_Origin c)) input
                     (cfg_GasLimit c) (default 0 (cfg_Value c)) (NewEVM d ctx) in
  Ret out.

(** [Call] needs a configuration with a state; the sender is the origin's state
    object, which is not a contract. *)
Definition rt_Call (fuel : nat) (ctx : aspect.Ctx) (address : Address) (input : bytes)
    (cfg : option Config) : res (bytes * Z * option Err) :=
  match cfg with
  | None => Panicked NilDeref
  | Some c =>
      let c := setDefaults c in
      let? (env, table) := NewEnv c in
      match cfg_State c with
      | None => Panicked NilDeref
      | Some d =>
          let d := chain.GetOrNewStateObject (cfg_Origin c) d in
          let d := prepared env (Some address) d in
          let? (out, m) := do_Call (evmCalls env (Run env table fuel)) (AccountRef (cfg_Origin c))
                             address input (cfg_GasLimit c) (default 0 (cfg_Value c))
                             (NewEVM d ctx) in
          Ret out
      end
  end.
End Runtime.

(** * Claims *)
Section Claims.
Context {L : Libs} {RP : AspectReports} {K : chain.Lib}.
Context {US : uint256.Spec} {MS : math.Spec} {PS : params.Spec} {RS : runtime.Spec}.
Context {CS : StateDB.CodeSpec} {AS : aspect.GasSpec}.
Variables (c : Config) (env : Env) (table : JumpTable).
Hypothesis environment : NewEnv (setDefaults c) = Ret (env, table).
Hypothesis eip150 : params.IsEIP150 (chainRules env) = true.
Hypothesis gas_u64 : is_u64 (cfg_GasLimit c).

Lemma gas_limit_range : 0 <= cfg_GasLimit (setDefaults c) < 2 ^ 64.
Proof.
  cbn. unfold is_u64, MaxUint64 in *. destruct (cfg_GasLimit c =? 0); lia.
Qed.
Lemma environment_calls fuel B :
  0 <= B <= 2 ^ 64 -> B < Z.of_nat fuel -> calls_ok B (evmCalls env (Run env table fuel)).
Proof.
  intros HB Hf. pose proof environment as H. unfold NewEnv in H.
  destruct (cfg_ChainConfig (setDefaults c)) as [chainConfig|]; [|done].
  destruct (NewEVMInterpreter _ _) as [[t active]| |] eqn:E; [|done..].
  injection H as <- <-. replace fuel with (Nat.max fuel (Z.to_nat (B + 1))) by lia.
  exact (enough_calls _ eip150 _ _ _ E B fuel HB).
Qed.

(** C27: the runtime's entry points terminate and never return gas they were not
    given. On a chain with EIP-150, with any configuration whose defaults give
    the gas limit [g], [Call], [Create] and [Execute] return or panic within
    [g + 2] units of fuel, and the gas [Call] and [Create] report as left over
    is at most [g]. The aspects are assumed to return no more gas than they
    got. *)
Theorem runtime_terminates fuel ctx :
  cfg_GasLimit (setDefaults c) + 1 < Z.of_nat fuel ->
  (forall address input,
     rt_Call fuel ctx address input (Some c) <> OutOfFuel /\
     forall ret left err, rt_Call fuel ctx address input (Some c) = Ret (ret, left, err) ->
       0 <= left <= cfg_GasLimit (setDefaults c)) /\
  (forall input, len input < 2 ^ 63 ->
     rt_Create fuel ctx input (Some c) <> OutOfFuel /\
     forall code address left err, rt_Create fuel ctx input (Some c) = Ret (code, address, left, err) ->
       0 <= left <= cfg_GasLimit (setDefaults c)) /\
  (forall code input, rt_Execute fuel ctx code input (Some c) <> OutOfFuel).
Proof.
  intros Hf. pose proof gas_limit_range as Hg.
  pose proof (environment_calls fuel (cfg_GasLimit (setDefaults c) + 1) ltac:(lia) ltac:(lia)) as Hc.
  assert (Hrange : 0 <= cfg_GasLimit (setDefaults c) < cfg_GasLimit (setDefaults c) + 1) by lia.
  split_and!.
  - intros address input. unfold rt_Call. rewrite environment. cbn [rbind].
    destruct (cfg_State (setDefaults c)) as [d|]; [|done].
    match goal with |- context [do_Call _ ?r ?a ?i ?g ?v ?m] =>
      pose proof (co_Call _ _ Hc r a i g v Hrange m) as H end.
    unfold wp in H. destruct (do_Call _ _ _ _ _ _ _) as [[out m]| |]; cbn [rbind]; [|done..].
    split; [done|]. by intros ret left err [= ->].
  - intros input Hi. unfold rt_Create. change (NewEnv (completed (Some c))) with (NewEnv (setDefaults c)).
    rewrite environment. cbn [rbind].
    match goal with |- context [do_Create _ ?r ?i ?g ?v ?m] =>
      pose proof (co_Create _ _ Hc r i g v Hrange Hi m) as H end.
    unfold wp in H. destruct (do_Create _ _ _ _ _ _) as [[out m]| |]; cbn [rbind]; [|done..].
    split; [done|]. by intros code address left err [= ->].
  - intros code input. unfold rt_Execute.
    change (NewEnv (completed (Some c))) with (NewEnv (setDefaults c)).
    rewrite environment. cbn [rbind].
    match goal with |- context [do_Call _ ?r ?a ?i ?g ?v ?m] =>
      pose proof (co_Call _ _ Hc r a i g v Hrange m) as H end.
    unfold wp in H. by destruct (do_Call _ _ _ _ _ _ _) as [[out m]| |].
Qed.
End Claims.

(** * Witness *)
From S2P Require Import Instances Sample.

#[export] Instance chain_lib : chain.Lib := {|
  chain.ChainConfig := chain.Fields;
  chain.ConfigOf := fun f => f;
  chain.ChainID_ := chain.ChainID;
  chain.ConfigRules := fun f n merge _ =>
    {| params.IsHomestead := chain.HomesteadBlock f <=? n; params.IsEIP150 := chain.EIP150Block f <=? n;
       params.IsEIP158 := chain.EIP158Block f <=? n; params.IsByzantium := chain.ByzantiumBlock f <=? n;
       params.IsConstantinople := chain.ConstantinopleBlock f <=? n;
       params.IsPetersburg := chain.PetersburgBlock f <=? n;
       params.IsIstanbul := chain.IstanbulBlock f <=? n; params.IsBerlin := chain.BerlinBlock f <=? n;
       params.IsLondon := chain.LondonBlock f <=? n; params.IsMerge := merge;
       params.IsShanghai := false; params.IsCancun := false; params.IsPrague := false |};
  chain.InitialBaseFee := 1000000000;
  chain.NewState := MemDB.empty;
  chain.Prepare := fun _ sender coinbase dst pcs d =>
    foldr StateDB.AddAddressToAccessList d (sender :: coinbase :: option_list dst ++ pcs);
  chain.GetOrNewStateObject := fun _ d => d;
|}.

(** A call of [bob], which adds 2 and 3, with 100 gas. *)
Definition sampleConfig : Config :=
  mkConfig None None alice zeroAddress None 0 100 None None false (mkVmConfig false false false [])
    None (Some (dbWith addCode)) None.
Definition sampleNewEnv : Env * JumpTable :=
  match NewEnv (setDefaults sampleConfig) with Ret p => p | _ => (sampleEnv, []) end.
Lemma sampleNewEnv_ok : NewEnv (setDefaults sampleConfig) = Ret sampleNewEnv.
Proof. reflexivity. Qed.

Lemma runtime_terminates_witness :
  rt_Call 103 ∅ bob [] (Some sampleConfig) <> OutOfFuel.
Proof.
  refine (proj1 (proj1 (runtime_terminates sampleConfig sampleNewEnv.1 sampleNewEnv.2 _ _ _ 103 ∅ _)
    bob [])).
  - exact sampleNewEnv_ok.
  - reflexivity.
  - by vm_compute.
  - by vm_compute.
Defined.
